(* ===== verification/_CoqProject ===== *)
-Q . S2P
Prelude.v
Util.v
Uthash.v
Action.v
Instruction.v
FlowKey.v
Flow.v
FlowTable.v
Ownership.v
FlowMatch.v
Netflow.v
Packet.v
Node.v
Inet.v
DpActions.v
OfMsg.v
OfUnpack.v
OfPack.v
Datapath.v
DpControl.v
Scheduler.v
RoutingMsg.v
Heap.v
Patricia.v
RouteTable.v
LegacyNode.v
Host.v
Router.v
Topology.v
JsonTopology.v
EventHandler.v
Server.v
ConnManager.v
Process.v
HorseDaemon.v
Capture.v
Daemons.v
Timer.v
Sim.v
Setup.v
Teardown.v
Lifecycle.v
Main.v
