(* ===== verification/Prelude.v ===== *)
(** * Horse: a verification library for the hybrid network simulator

    Horse ([src/src]) simulates networks of OpenFlow switches, IP routers and hosts
    at the level of flows.  Traffic is a [struct netflow]: a match key with packet
    and byte counts.  Events move netflows from node to node; a real OpenFlow
    controller and real routing daemons may be attached, and while they are active
    the simulator advances its clock with real time instead of jumping from event
    to event.  This library models that program and proves its properties.  It is
    a shallow embedding: a C function is a Rocq function on the state it reads and
    writes, and every definition can be evaluated.

    ** Conventions

    - A C integer is a [Z] kept in its width: [u8], [u16], [u32], [u64] (and the
      signed [i32]) are written where the code wraps; [in_width w x] is
      the range of a [w]-bit value.  Bytes are [Z]s, buffers are lists of them, and
      host order is little-endian ([le_bytes], [le_val]; [be_bytes] for the wire).
    - A function that can go wrong returns an [outcome]: [Ok], or [Fault] with the
      reason ([NullDeref], [OutOfBounds], [Indeterminate] for the use of an
      uninitialised value, [DivByZero], [SignedOverflow], [Aborted] for a failed assertion or
      [exit], [Dangling] for the use of freed memory, [OutOfFuel]).  Theorems about results say that there is no fault.
    - A struct is a record; [r <| f := v |>] is the update of a field.  Objects that
      are shared by pointer live in a store and are passed as addresses: flows in a
      flow table, netflows in the event handler, nodes in the topology.
    - A [uthash] table is [uthash A]; [ht_elems] lists its elements in insertion
      order and [ht_wf] is its invariant.

    ** Files, and what they model under [src/src]

    - [Prelude] (this file): record update, the [outcome] monad, integers, bytes and
      byte accesses, generic lemmas on lists, the tactics and hint databases.
    - [Util], [Inet]: [lib/util.c], [lib/util.h]; [Inet] has addresses as text.
    - [Uthash]: the macros of [vendor/uthash/uthash.h] that the program uses, with
      buckets, hash values and bucket expansion.
    - [Action], [Instruction]: [lib/action*.c], [lib/instruction*.c].
    - [FlowKey], [Flow]: [lib/ofl.h], [lib/flow.c], match keys, masks and rules.
    - [FlowTable], [FlowMatch]: [net/flow_table.c]; [FlowMatch] relates its
      selection tests to sets of packets.
    - [Ownership]: the memory of the actions of rules, which [lib/flow.c] shares by pointer:
      the blocks that flows point to, under the operations of [FlowTable].
    - [Netflow], [Packet]: [lib/netflow.c], the netflow in memory and its
      conversion to and from packet bytes.
    - [Node]: [net/node.c], [net/port.c], [net/buffer_state.c], [net/live_flow.c].
    - [DpActions], [Datapath]: [net/dp_actions.c], [net/datapath.c], the switch.
    - [OfMsg], [OfUnpack], [OfPack], [DpControl]: the OpenFlow objects, their
      translation ([lib/of_unpack.c], [lib/of_pack.c]), and [net/dp_control.c].
    - [Scheduler], [Heap]: [sim/scheduler.c] with [lib/sim_event.c]; [lib/heap.c].
    - [RoutingMsg]: [routing_msg/routing_msg.c].
    - [Patricia], [RouteTable]: [vendor/patricia/patricia.c], [net/route_table.c].
    - [LegacyNode], [Host], [Router]: [net/arp_table.c] and [net/legacy_node.c],
      [net/host.c] with [net/app/*.c], [net/router.c].
    - [Topology]: [net/topology.c].
    - [JsonTopology]: [lib/json_topology.c].
    - [EventHandler]: [sim/event_handler.c].
    - [Server], [ConnManager]: [sim/server.c], [sim/conn_manager.c].
    - [Process]: programs that fork, run with all their processes: what the helper needs
      of the system calls on processes, files and descriptors.
    - [HorseDaemon], [Capture]: [horse_daemon.c], the helper process of an emulated
      router; [Capture] has its second thread, the packet capture.
    - [Daemons]: [net/routing/*.c], [lib/net_utils.c] and the functions of
      [net/router.c] that start and stop a router.
    - [Timer]: [lib/timer.c].
    - [Sim]: [sim/sim.c], [sim/sim_config.c], [setup_app_events] of [sim/setup.c].
    - [Setup]: the rest of [sim/setup.c].
    - [Teardown]: the functions that release trees, tables, nodes and the topology,
      [sim_close] and [wait_all_switches_connect] of [sim/sim.c].
    - [Lifecycle]: set-up, daemons and teardown together.
    - [Main]: [main.c], [lib/signal_handler.c], [file_to_string] and the allocation
      wrappers of [lib/util.c], [from_json] of [net/topology.c].

    ** How the parts interact

    [Sim] takes the earliest event of the [Scheduler] and hands it to
    [EventHandler], which finds the node in the [Topology] and calls the receive or
    send function of its kind ([Datapath], [Router], [Host]); the result is new
    events.  A switch looks a netflow up in its [FlowTable]s, executes
    [Instruction]s and [Action]s through [DpActions], and exchanges messages with
    the controller through [DpControl].  Routers and hosts forward by the
    [RouteTable] and resolve addresses in [LegacyNode].

    With an emulated control plane, [Setup] starts a name space, interfaces and
    [Daemons] for every router, each with a [HorseDaemon].  That process watches the
    kernel's routing table and the routing traffic and writes messages to the
    [Server]; [ConnManager] cuts them into events, and [EventHandler] gives them
    to the [Router].  [Teardown] undoes all of this.

    The interfaces are type classes.  [LookupSpec] ([Datapath]) is what the
    pipeline needs of a flow table - the best live rule or nothing, nothing else
    changed; [FlowTable]'s lemmas discharge it.  [Loci] ([DpControl]) is the
    generated library that turns bytes into OpenFlow objects and back: it is a
    parameter of everything that handles controller messages, and its instances in
    the witnesses are concrete decoders.  [BufferEvent] ([ConnManager]) is the input
    buffer of libevent with its laws, [Os] ([Daemons]) is what the operating system
    answers, and the JSON parser is an argument of [JsonTopology]; [malloc], [fopen] and
    the streams are arguments of [Main].  [Keyed] ([Uthash]) gives the key bytes of an
    element.

    ** What the theorems show

    - The switch.  Lookup returns the live matching rule of highest priority;
      installing, modifying and deleting change the list of rules as specified;
      non-strict selection is inclusion of match sets; the pipeline terminates, has
      no fault on a well-formed switch and refines an abstract OpenFlow
      pipeline; every operation keeps the switch well formed.  Every rule owns its list of
      actions, nothing is used after it was freed, and destroying a table frees each list once, as
      long as no non-strict modification gives one list to several rules; such a
      modification leaves rules with dangling pointers.
    - The controller.  A flow-mod message installs the rule it describes; decoding
      actions does not depend on uninitialised memory; reported actions execute as
      the installed ones; packet-in followed by packet-out returns the packet; the
      requests that abort the process.
    - Packets.  Parsing stays in its buffer exactly when the tags fit the tag stack;
      IPv4 and ARP headers round trip.
    - IP.  The prefix tree and the route table implement longest-prefix match with
      equal-cost choice; a FIB message installs its routes; address resolution
      between two nodes delivers the parked netflow; a host answers a ping and
      starts its applications.
    - The network.  Links are symmetric; adding one connects its ends and nothing
      else; a transmission, counted on its port, arrives at the other end after the latency, or is dropped on
      an overloaded port; the loop over
      the output ports ends, with one event per expanded port; no event changes the
      identity of the network or loses another event.
    - The outside.  [horse -t file] starts a simulation of the network that the parser finds in the file,
      and the file is read whole or not at all; the
      callback for routing daemons cuts its input into messages if the allocator gives more
      than it is asked for, and writes past the end of a block otherwise.  The monitor of a
      router announces exactly the routes of well-formed kernel notifications, ends on
      every input, and handling the message for a kernel route installs this route in the
      simulated table; the capture reports routing traffic and nothing else, or reads behind
      a BGP segment that is shorter than a header; the
      server delivers what is sent on each open connection.
    - Set-up and teardown.  A link is set up unless an earlier one ends at its port, so that
      every connection is set up once; the daemons of a router are started for it and all
      but isisd are stopped again; destroying the
      topology releases every node and route once and leaves nothing in its tables, or
      dereferences a null pointer if a router has no daemon;
      setting up, starting and destroying a network in sequence deletes every name space that was
      asked for.  A helper that turns into a daemon leaves one process, with its number in
      the file that the stop command reads.
    - The simulator.  The queue is a priority queue; whatever the interleaving of the
      two threads and the outside messages, it is never empty and the clock does not
      pass the configured end; once the end is due the simulation stops; the timer
      calls its handler once for every signal, until it is shut down.  Two hosts are run through a whole ping ([two_hosts_ping]).
    - Containers and utilities.  The uthash contract, the heap, the CRC, byte order.

    ** Fuel

    Loops over lists are structural.  The others take fuel that is proved
    sufficient: the pipeline 129 rounds (the code follows a goto-table only to a
    table of greater number, and there are 128), the VLAN parser 10 rounds (the tag
    stack stops it), [flood_fuel] one round per expanded output port, the heap loops
    the size of the heap, the stacks of the prefix tree 129 entries
    ([PATRICIA_MAXBITS + 1], the size of the C arrays), emptying it its number of nodes,
    the loops over netlink messages and attributes the size of the buffer (each step
    consumes at least four bytes), the wait for the switches eleven looks, the router callback one round
    per byte of its input.  [cont_loop] of [Sim] has a
    fuel argument because handlers may schedule events that are due at once; the
    reachability theorems hold for every fuel, and [simulation_ends] uses the one
    round it needs.

    ** Not modelled

    Allocation always succeeds (except in [Main], where a failure aborts the process) and
    frees are modelled where a freed object is used again, in [Ownership] and in [Teardown].  Payload
    bytes are part of a netflow, so the sharing of payloads between copies is not visible.  Threads interleave at the granularity of one
    iteration, which the mode variable and its condition variable enforce.  What is
    done to the operating system is the list of commands and messages it is given, with
    their text; that a command has its effect is not modelled.  The answers of
    system calls (forks, sockets, files, the capture library) are arguments.  Not modelled
    at all: setting the interval timer, registering the signal handler, printing and
    logging except the statistics lines, the vendored JSON parser and
    the generated loci library, the Python bindings.  An accessor of loci that is
    applied to an object of another class aborts, as in the library the repository
    ships. *)

From Stdlib Require Import ZArith Lia.
From stdpp Require Import prelude.

(** ** Scopes, hint databases, global options *)

Declare Scope horse_scope.
Delimit Scope horse_scope with horse.
#[global] Open Scope horse_scope.
#[global] Open Scope Z_scope.

(** [horse] holds the resolution lemmas of the development (ranges,
    well-formedness), [horse_rw] its terminating rewrite rules. *)
Create HintDb horse.
Create HintDb horse_rw.

(** ** Record update

    C code updates structs in place; [r <| f := v |>] is the struct [r] with
    field [f] replaced.  A record type declares its eta expansion once as an
    [Eta] instance, and the setter of a projection is derived from it. *)

Class Eta (R : Type) := eta_of : R → R.

Class Setter {R E : Type} (proj : R → E) := setf : (E → E) → R → R.

Ltac head_of t :=
  lazymatch t with ?g _ => head_of g | _ => t end.

Ltac derive_setter R proj :=
  lazymatch constr:(@eta_of R ltac:(typeclasses eauto)) with
  | @eta_of _ ?i =>
      let h := head_of i in
      let e := eval cbv beta delta [h] in i in
      let e' := eval pattern proj in e in
      lazymatch e' with
      | ?F proj =>
          let t := eval cbv beta in (fun u r => F (fun r' => u (proj r')) r) in
          let _ := constr:(eq_refl : (fun u r => proj (t u r)) = (fun u r => u (proj r))) in
          exact t
      end
  end.

#[export] Hint Extern 1 (@Setter ?R ?E ?proj) => derive_setter R proj
  : typeclass_instances.

Arguments setf {R E} proj {_} / _ _.

Notation "r <| f := v |>" := (setf f (fun _ => v) r)
  (at level 1, f at next level, left associativity,
   format "r  <| f  :=  v |>") : horse_scope.
Notation "r <| f ::= g |>" := (setf f g r)
  (at level 1, f at next level, left associativity,
   format "r  <| f  ::=  g |>") : horse_scope.
Notation "r <| f ; g := v |>" := (setf f (setf g (fun _ => v)) r)
  (at level 1, f at next level, g at next level, left associativity,
   format "r  <| f ;  g  :=  v |>") : horse_scope.
Notation "r <| f ; g ::= h |>" := (setf f (setf g h) r)
  (at level 1, f at next level, g at next level, left associativity,
   format "r  <| f ;  g  ::=  h |>") : horse_scope.

(** ** Machine integers

    Unsigned C integers of width [w] are [Z] values in [0, 2^w); assignments
    and arithmetic that C performs modulo [2^w] are wrapped explicitly. *)

Definition wrap (w z : Z) : Z := z mod 2 ^ w.
Abbreviation u8 := (wrap 8).
Abbreviation u16 := (wrap 16).
Abbreviation u32 := (wrap 32).
Abbreviation u64 := (wrap 64).

(** Two's complement reading of a [w]-bit pattern, for [int] and casts to it. *)
Definition swrap (w z : Z) : Z :=
  let m := wrap w z in if decide (m < 2 ^ (w - 1)) then m else m - 2 ^ w.
Abbreviation i32 := (swrap 32).

Definition in_width (w z : Z) : Prop := 0 ≤ z < 2 ^ w.
#[export] Instance in_width_dec w z : Decision (in_width w z).
Proof. unfold in_width. apply _. Defined.

(** Bitwise complement at width [w] ([~x] on an unsigned type). *)
Definition bnot (w x : Z) : Z := Z.lxor x (Z.ones w).

Lemma wrap_in_width w z : 0 ≤ w → in_width w (wrap w z).
Proof. intros. apply Z.mod_pos_bound. apply Z.pow_pos_nonneg; lia. Qed.

Lemma wrap_small w z : in_width w z → wrap w z = z.
Proof. intros. by apply Z.mod_small. Qed.

Lemma wrap_land_ones w z : 0 ≤ w → wrap w z = Z.land z (Z.ones w).
Proof. intros. by rewrite Z.land_ones. Qed.

Lemma wrap_wrap w z : 0 ≤ w → wrap w (wrap w z) = wrap w z.
Proof. intros. by apply wrap_small, wrap_in_width. Qed.

Lemma wrap_bits w z i : 0 ≤ w → 0 ≤ i →
  Z.testbit (wrap w z) i = bool_decide (i < w) && Z.testbit z i.
Proof.
  intros. unfold wrap. destruct (bool_decide_reflect (i < w)).
  - by rewrite Z.mod_pow2_bits_low.
  - rewrite Z.mod_pow2_bits_high by lia. done.
Qed.

(** A number fits in [w] bits exactly when all its higher bits are zero. *)
Lemma in_width_bits w z : 0 ≤ w →
  in_width w z ↔ 0 ≤ z ∧ ∀ i, w ≤ i → Z.testbit z i = false.
Proof.
  intros Hw. split.
  - intros Hz. split; [apply Hz|]. intros i Hi.
    rewrite <- (wrap_small w z Hz), wrap_bits by lia.
    by rewrite bool_decide_false by lia.
  - intros [Hz Hb]. assert (wrap w z = z) as <-.
    { apply Z.bits_inj'. intros i Hi. rewrite wrap_bits by lia.
      destruct (bool_decide_reflect (i < w)); [done|].
      by rewrite Hb by lia. }
    by apply wrap_in_width.
Qed.

Lemma land_in_width w x y : 0 ≤ w → in_width w x → in_width w (Z.land x y).
Proof.
  intros Hw [Hx Hb]%in_width_bits; [|done].
  apply in_width_bits; [done|]. split; [apply Z.land_nonneg; by left|].
  intros i Hi. by rewrite Z.land_spec, Hb.
Qed.

Lemma lor_in_width w x y : 0 ≤ w →
  in_width w x → in_width w y → in_width w (Z.lor x y).
Proof.
  intros Hw [Hx Hbx]%in_width_bits [Hy Hby]%in_width_bits; [|done..].
  apply in_width_bits; [done|]. split; [by apply Z.lor_nonneg|].
  intros i Hi. by rewrite Z.lor_spec, Hbx, Hby.
Qed.

Lemma land_ones_in_width w x : 0 ≤ w → in_width w x → Z.land x (Z.ones w) = x.
Proof. intros. by rewrite <- wrap_land_ones, wrap_small. Qed.

#[export] Hint Resolve wrap_in_width land_in_width lor_in_width : horse.
#[export] Hint Extern 1 (in_width _ _) => (unfold in_width; lia) : horse.
#[export] Hint Extern 1 (0 ≤ _) => lia : horse.

(** [x land m] is the part of [x] selected by [m]; masking twice with [m]
    and then with a submask is masking with the submask. *)
Definition submask (m m' : Z) : Prop := Z.land m m' = m.

Lemma land_submask x m m' : submask m m' → Z.land (Z.land x m') m = Z.land x m.
Proof.
  unfold submask. intros <-. rewrite <- Z.land_assoc. f_equal.
  by rewrite (Z.land_comm m m'), Z.land_assoc, Z.land_diag.
Qed.

(** ** Faults

    What the C program may do instead of returning: read or write outside an
    object, use memory that was freed, dereference a null pointer, divide by zero, overflow a signed
    integer, read an indeterminate value, call [abort].  Fallible definitions return an [outcome]. *)

Inductive fault :=
| OutOfBounds
| NullDeref
| DivByZero
| Indeterminate
| SignedOverflow
| Aborted
| Dangling
| OutOfFuel.

#[export] Instance fault_eq_dec : EqDecision fault.
Proof. solve_decision. Defined.

Inductive outcome (A : Type) :=
| Ok (a : A)
| Fault (e : fault).
Arguments Ok {A} a.
Arguments Fault {A} e.

#[export] Instance outcome_ret : MRet outcome := @Ok.
#[export] Instance outcome_bind : MBind outcome := λ A B k m,
  match m with Ok a => k a | Fault e => Fault e end.
#[export] Instance outcome_fmap : FMap outcome := λ A B g m,
  match m with Ok a => Ok (g a) | Fault e => Fault e end.

Lemma outcome_bind_Ok {A B} (m : outcome A) (k : A → outcome B) b :
  (m ≫= k) = Ok b ↔ ∃ a, m = Ok a ∧ k a = Ok b.
Proof. destruct m; naive_solver. Qed.

(** [for] over a list with a body that may fail. *)
Fixpoint for_each {A S} (body : S → A → outcome S) (s : S) (l : list A) : outcome S :=
  match l with
  | [] => Ok s
  | x :: l => s ← body s x; for_each body s l
  end.

Lemma Ok_inj {A} (a b : A) : Ok a = Ok b → a = b.
Proof. congruence. Qed.

(** The value behind a pointer: [None] is [NULL]. *)
Definition deref {A} (p : option A) : outcome A :=
  match p with Some a => Ok a | None => Fault NullDeref end.

(** Array read: out of range is undefined behaviour. *)
Definition array_get {A} (l : list A) (i : Z) : outcome A :=
  if decide (0 ≤ i) then
    match l !! Z.to_nat i with Some a => Ok a | None => Fault OutOfBounds end
  else Fault OutOfBounds.

Definition array_set {A} (l : list A) (i : Z) (a : A) : outcome (list A) :=
  if decide (0 ≤ i < Z.of_nat (length l)) then Ok (<[Z.to_nat i := a]> l)
  else Fault OutOfBounds.

Lemma array_get_Ok {A} (l : list A) i a :
  array_get l i = Ok a ↔ 0 ≤ i ∧ l !! Z.to_nat i = Some a.
Proof.
  unfold array_get. case_decide; [destruct (l !! _)|]; naive_solver.
Qed.

Lemma array_get_in_range {A} (l : list A) i :
  0 ≤ i < Z.of_nat (length l) → ∃ a, array_get l i = Ok a.
Proof.
  intros Hi. destruct (lookup_lt_is_Some_2 l (Z.to_nat i)) as [a Ha]; [lia|].
  exists a. apply array_get_Ok. split; [lia|done].
Qed.

Lemma array_set_in_range {A} (l : list A) i a :
  0 ≤ i < Z.of_nat (length l) → array_set l i a = Ok (<[Z.to_nat i := a]> l).
Proof. intros. unfold array_set. by rewrite decide_True. Qed.

Lemma array_set_Ok {A} (l l' : list A) i a :
  array_set l i a = Ok l' →
  0 ≤ i < Z.of_nat (length l) ∧ l' = <[Z.to_nat i := a]> l.
Proof. unfold array_set. case_decide; naive_solver. Qed.

Lemma array_set_length {A} (l l' : list A) i a :
  array_set l i a = Ok l' → length l' = length l.
Proof. intros [_ ->]%array_set_Ok. by rewrite length_insert. Qed.

(** ** Byte arrays and integers in memory *)

Definition byte_wf (b : Z) : Prop := in_width 8 b.
Definition bytes_wf (n : nat) (l : list Z) : Prop :=
  length l = n ∧ Forall byte_wf l.
#[export] Instance bytes_wf_dec n l : Decision (bytes_wf n l).
Proof. unfold bytes_wf, byte_wf. apply _. Defined.

Lemma bytes_wf_length n l : bytes_wf n l → length l = n.
Proof. by intros [? _]. Qed.

Lemma bytes_wf_length2 n l l' : bytes_wf n l → bytes_wf n l' → length l = length l'.
Proof. by intros [-> _] [-> _]. Qed.

Lemma bytes_wf_replicate n b : in_width 8 b → bytes_wf n (replicate n b).
Proof.
  intros Hb. split; [apply length_replicate|]. by apply Forall_replicate.
Qed.

Fixpoint le_bytes (n : nat) (z : Z) : list Z :=
  match n with
  | O => []
  | S n => z mod 256 :: le_bytes n (z / 256)
  end.

Fixpoint le_val (l : list Z) : Z :=
  match l with
  | [] => 0
  | b :: l => b + 256 * le_val l
  end.

Lemma length_le_bytes n z : length (le_bytes n z) = n.
Proof. revert z; induction n; intros; simpl; auto. Qed.

Lemma le_bytes_wf n z : bytes_wf n (le_bytes n z).
Proof.
  split; [apply length_le_bytes|]. revert z.
  induction n; intros z; simpl; constructor; [|done].
  unfold byte_wf, in_width. change (2 ^ 8) with 256.
  apply Z.mod_pos_bound; lia.
Qed.

Lemma pow_256_succ n : 2 ^ (8 * Z.of_nat (S n)) = 256 * 2 ^ (8 * Z.of_nat n).
Proof.
  replace (8 * Z.of_nat (S n)) with (8 + 8 * Z.of_nat n) by lia.
  rewrite Z.pow_add_r by lia. done.
Qed.

Lemma le_val_bytes n z : le_val (le_bytes n z) = wrap (8 * Z.of_nat n) z.
Proof.
  unfold wrap. revert z; induction n as [|n IH]; intros z.
  - simpl. by rewrite Z.mod_1_r.
  - rewrite pow_256_succ. simpl. rewrite IH.
    rewrite Z.rem_mul_r by lia. lia.
Qed.

Lemma le_bytes_val l : Forall byte_wf l → le_bytes (length l) (le_val l) = l.
Proof.
  induction 1 as [|b l Hb _ IH]; [done|]. simpl.
  unfold byte_wf, in_width in Hb. change (2 ^ 8) with 256 in Hb.
  f_equal.
  - rewrite (Z.mul_comm 256), Z.mod_add by lia. by apply Z.mod_small.
  - rewrite (Z.mul_comm 256), Z.div_add by lia.
    by rewrite Z.div_small, Z.add_0_l.
Qed.

Lemma le_val_in_width l : Forall byte_wf l →
  in_width (8 * Z.of_nat (length l)) (le_val l).
Proof.
  intros Hl. pose proof (le_val_bytes (length l) (le_val l)) as H.
  rewrite le_bytes_val in H by done. rewrite H. apply wrap_in_width. lia.
Qed.

(** Big-endian ("network order") variants. *)
Definition be_bytes (n : nat) (z : Z) : list Z := reverse (le_bytes n z).
Definition be_val (l : list Z) : Z := le_val (reverse l).

Lemma be_bytes_wf n z : bytes_wf n (be_bytes n z).
Proof.
  destruct (le_bytes_wf n z) as [Hl Hf]. unfold be_bytes. split.
  - by rewrite length_reverse.
  - by apply Forall_reverse.
Qed.

Lemma be_val_bytes n z : be_val (be_bytes n z) = wrap (8 * Z.of_nat n) z.
Proof. unfold be_val, be_bytes. by rewrite reverse_involutive, le_val_bytes. Qed.

Lemma be_bytes_val l : Forall byte_wf l → be_bytes (length l) (be_val l) = l.
Proof.
  intros Hl. unfold be_bytes, be_val. rewrite <- (length_reverse l).
  rewrite le_bytes_val by by apply Forall_reverse. apply reverse_involutive.
Qed.

(** [htons], [htonl] and their inverses on a little-endian host: the value
    whose memory image is the big-endian image of the argument. *)
Definition bswap (n : nat) (z : Z) : Z := le_val (be_bytes n z).
Abbreviation htons := (bswap 2).
Abbreviation htonl := (bswap 4).
Abbreviation ntohs := (bswap 2).
Abbreviation ntohl := (bswap 4).

Lemma bswap_in_width n z : in_width (8 * Z.of_nat n) (bswap n z).
Proof.
  destruct (be_bytes_wf n z) as [Hl Hf]. unfold bswap.
  rewrite <- Hl at 1. by apply le_val_in_width.
Qed.

Lemma bswap_involutive n z :
  in_width (8 * Z.of_nat n) z → bswap n (bswap n z) = z.
Proof.
  intros Hz. unfold bswap, be_bytes.
  pose proof (be_bytes_wf n z) as [Hl Hf]. unfold be_bytes in Hl, Hf.
  rewrite <- Hl at 1. rewrite le_bytes_val by done.
  rewrite reverse_involutive, le_val_bytes. by apply wrap_small.
Qed.

(** Reading and writing a run of bytes of a buffer. *)
Definition mem_read (buf : list Z) (off n : nat) : outcome (list Z) :=
  if decide (off + n ≤ length buf)%nat then Ok (take n (drop off buf))
  else Fault OutOfBounds.

Definition mem_write (buf : list Z) (off : nat) (bs : list Z)
  : outcome (list Z) :=
  if decide (off + length bs ≤ length buf)%nat
  then Ok (take off buf ++ bs ++ drop (off + length bs) buf)
  else Fault OutOfBounds.

Lemma mem_write_length buf off bs buf' :
  mem_write buf off bs = Ok buf' → length buf' = length buf.
Proof.
  unfold mem_write. case_decide; intros; simplify_eq.
  rewrite !length_app, length_take, length_drop. lia.
Qed.

Lemma mem_read_write buf off bs buf' :
  mem_write buf off bs = Ok buf' → mem_read buf' off (length bs) = Ok bs.
Proof.
  intros H. pose proof (mem_write_length _ _ _ _ H) as Hlen.
  unfold mem_write in H. case_decide; simplify_eq.
  unfold mem_read. rewrite decide_True by lia. f_equal.
  rewrite drop_app_length' by (rewrite length_take; lia).
  by rewrite take_app_length.
Qed.

(** Fieldwise mask of byte arrays: [addr[i] &= mask[i]]. *)
Definition mask_bytes (addr mask : list Z) : list Z := zip_with Z.land addr mask.

Lemma mask_bytes_wf n a m :
  bytes_wf n a → length m = n → bytes_wf n (mask_bytes a m).
Proof.
  intros [Hl Hf] Hm. split.
  - unfold mask_bytes. rewrite length_zip_with. lia.
  - clear Hl Hm. revert m; induction Hf as [|x l Hx Hf IH]; intros m;
      destruct m; constructor; [|apply IH].
    unfold byte_wf in *. eauto with horse.
Qed.

Lemma mask_bytes_idemp a m : mask_bytes (mask_bytes a m) m = mask_bytes a m.
Proof.
  revert m; induction a as [|x a IH]; intros [|y m]; simpl; try done.
  unfold mask_bytes in *; simpl. by rewrite <- Z.land_assoc, Z.land_diag, IH.
Qed.

Lemma mask_bytes_comm a m m' :
  mask_bytes (mask_bytes a m) m' = mask_bytes (mask_bytes a m') m.
Proof.
  unfold mask_bytes.
  revert m m'; induction a as [|x a IH]; intros [|y m] [|y' m']; simpl; try done.
  rewrite <- !Z.land_assoc, (Z.land_comm y y'), IH. done.
Qed.

Lemma mask_bytes_sym a b : mask_bytes a b = mask_bytes b a.
Proof.
  unfold mask_bytes. revert b. induction a as [|x a IH]; intros [|y b]; simpl; try done.
  by rewrite Z.land_comm, IH.
Qed.

Lemma mask_bytes_submask a m m' :
  mask_bytes m m' = m →
  mask_bytes (mask_bytes a m') m = mask_bytes a m.
Proof.
  unfold mask_bytes.
  revert a m'; induction m as [|y m IH]; intros [|x a] [|y' m'];
    simpl; intros; try done; simplify_eq.
  f_equal; [|by apply IH].
  rewrite <- Z.land_assoc, (Z.land_comm y'). congruence.
Qed.

Lemma mask_bytes_all_ones n a :
  bytes_wf n a → mask_bytes a (replicate n 255) = a.
Proof.
  intros [<- Hf]. unfold mask_bytes. induction Hf as [|x l Hx _ IH]; [done|].
  simpl. rewrite IH. f_equal. by apply (land_ones_in_width 8).
Qed.

Lemma mask_bytes_zeros n a :
  length a = n → mask_bytes a (replicate n 0) = replicate n 0.
Proof.
  intros <-. unfold mask_bytes. induction a; simpl; [done|].
  by rewrite Z.land_0_r, IHa.
Qed.

(** ** Shared lemmas on lists *)

(** First element of a list satisfying a decidable predicate. *)
Fixpoint first {A} (P : A → bool) (l : list A) : option A :=
  match l with
  | [] => None
  | x :: l => if P x then Some x else first P l
  end.

Lemma first_Some {A} (P : A → bool) l x :
  first P l = Some x → x ∈ l ∧ P x = true.
Proof.
  induction l as [|y l IH]; simpl; [done|].
  destruct (P y) eqn:E; intros; simplify_eq.
  - split; [left|done].
  - destruct IH; [done|]. split; [by right|done].
Qed.

Lemma first_None {A} (P : A → bool) l :
  first P l = None ↔ ∀ x, x ∈ l → P x = false.
Proof.
  induction l as [|y l IH]; simpl.
  - split; [|done]. intros _ x Hx. by apply not_elem_of_nil in Hx.
  - destruct (P y) eqn:E.
    + split; [done|]. intros H. specialize (H y ltac:(left)). congruence.
    + rewrite IH. setoid_rewrite elem_of_cons. naive_solver.
Qed.

Lemma first_unique {A} (P : A → bool) l x :
  x ∈ l → P x = true → (∀ y, y ∈ l → P y = true → y = x) → first P l = Some x.
Proof.
  intros Hin HP Hu. destruct (first P l) as [y|] eqn:E.
  - apply first_Some in E as [Hy HPy]. f_equal. by apply Hu.
  - rewrite first_None in E. specialize (E x Hin). congruence.
Qed.

Lemma first_ext {A} (P Q : A → bool) l :
  (∀ x, x ∈ l → P x = Q x) → first P l = first Q l.
Proof.
  induction l as [|x l IH]; simpl; intros H; [done|].
  rewrite H by left. destruct (Q x); [done|]. apply IH. intros. apply H. by right.
Qed.

Lemma elem_of_concat {A} (ls : list (list A)) x :
  x ∈ concat ls ↔ ∃ l, x ∈ l ∧ l ∈ ls.
Proof.
  induction ls as [|l ls IH]; simpl.
  - split; [intros Hx; by apply not_elem_of_nil in Hx|].
    intros (l & _ & Hl). by apply not_elem_of_nil in Hl.
  - rewrite elem_of_app, IH. setoid_rewrite elem_of_cons. naive_solver.
Qed.

(** Keeping everything is the identity. *)
Lemma filter_all {A} (P : A → Prop) `{∀ x, Decision (P x)} (l : list A) :
  Forall P l → filter P l = l.
Proof.
  induction 1; [done|]. rewrite filter_cons_True by done. by f_equal.
Qed.

Lemma filter_fmap {A B} (g : A → B) (P : B → Prop) `{∀ x, Decision (P x)}
    (l : list A) :
  filter P (g <$> l) = g <$> filter (λ x, P (g x)) l.
Proof.
  induction l as [|x l IH]; [done|].
  rewrite fmap_cons, !filter_cons. case_decide; simpl; by rewrite IH.
Qed.

Lemma filter_ext_in {A} (P Q : A → Prop) `{∀ x, Decision (P x), ∀ x, Decision (Q x)}
    (l : list A) :
  (∀ x, x ∈ l → P x ↔ Q x) → filter P l = filter Q l.
Proof.
  induction l as [|x l IH]; intros HPQ; [done|]. rewrite !filter_cons.
  rewrite IH by (intros; apply HPQ; by right).
  destruct (HPQ x ltac:(left)). repeat case_decide; naive_solver.
Qed.

(** In a list of pairs with distinct first components, the first component
    determines the second. *)
Lemma NoDup_fst_inj {A B} (l : list (A * B)) x y y' :
  NoDup l.*1 → (x, y) ∈ l → (x, y') ∈ l → y = y'.
Proof.
  induction l as [|[a b] l IH]; simpl; [intros _ Hx; by apply not_elem_of_nil in Hx|].
  intros [Hn Hnd]%NoDup_cons.
  rewrite !elem_of_cons. intros [?|H1] [?|H2]; simplify_eq; auto.
  - destruct Hn. apply list_elem_of_fmap. by exists (a, y').
  - destruct Hn. apply list_elem_of_fmap. by exists (a, y).
Qed.

(** ** Termination *)

(** The computation ends: with a result or with a fault of the program, not
    because a bound on its rounds was too small. *)
Definition ends {A} (m : outcome A) : Prop := m ≠ Fault OutOfFuel.

Lemma ends_Ok {A} (a : A) : ends (Ok a).
Proof. discriminate. Qed.
Lemma ends_bind {A B} (m : outcome A) (k : A → outcome B) :
  ends m → (∀ a, m = Ok a → ends (k a)) → ends (m ≫= k).
Proof. destruct m as [a|e]; intros Hm Hk; [by apply Hk|]. intros [= ->]. by apply Hm. Qed.
Lemma ends_deref {A} (p : option A) : ends (deref p).
Proof. by destruct p. Qed.
Lemma ends_array_get {A} (l : list A) i : ends (array_get l i).
Proof. unfold array_get. case_decide; [|done]. by destruct (l !! _). Qed.
Lemma ends_array_set {A} (l : list A) i a : ends (array_set l i a).
Proof. unfold array_set. by case_decide. Qed.
Lemma ends_mem_read buf off n : ends (mem_read buf off n).
Proof. unfold mem_read. by case_decide. Qed.
Lemma ends_mem_write buf off bs : ends (mem_write buf off bs).
Proof. unfold mem_write. by case_decide. Qed.
#[export] Hint Resolve ends_Ok ends_deref ends_array_get ends_array_set ends_mem_read
  ends_mem_write : horse.

(** Follow the binds and the branches down to the primitives. *)
Ltac ends_auto :=
  repeat first
    [ progress auto with horse
    | apply ends_bind; [|intros ? _]
    | progress cbv beta
    | match goal with
      | |- ends (let '(_, _) := ?x in _) => destruct x
      | |- ends (match ?x with _ => _ end) => destruct x
      | |- ends (Fault _) => discriminate
      end ].

(** ** Tactics *)

(** Decompose a successful run of an [outcome] computation. *)
Ltac inv_ok :=
  repeat match goal with
  | H : (_ ≫= _) = Ok _ |- _ =>
      let a := fresh "a" in let Ha := fresh "Ha" in
      apply outcome_bind_Ok in H as (a & Ha & H)
  | H : Ok _ = Ok _ |- _ => injection H as H; try subst
  | H : Fault _ = Ok _ |- _ => discriminate H
  | H : Ok _ = Fault _ |- _ => discriminate H
  | H : mret _ = Ok _ |- _ => unfold mret, outcome_ret in H
  end.

(** Case analysis on the conditions of a definition. *)
Ltac cases :=
  repeat (case_match || case_decide || case_bool_decide); simplify_eq/=.
