(* ===== verification/Util.v ===== *)
(** * Util: bit tricks, byte order, checksums and bounded random numbers

    Models the pure functions of [lib/util.c] and [lib/util.h].  Each is
    proved equal to its specification: [count_set_bits] to the number of set
    bits, [hton64] to byte reversal, the table-driven [crc32] to the bit-serial
    CRC-32, [random_at_most] to a uniform choice, and [ntz] on the masks the
    route table passes to it. *)

From stdpp Require Import prelude.
From S2P Require Import Prelude.

(** ** Population count ([pop], [nlz], [ntz]) *)

Definition pop (x : Z) : Z :=
  let x := u32 (x - Z.land (Z.shiftr x 1) 0x55555555) in
  let x := u32 (Z.land x 0x33333333 + Z.land (Z.shiftr x 2) 0x33333333) in
  let x := Z.land (u32 (x + Z.shiftr x 4)) 0x0F0F0F0F in
  let x := u32 (x + u32 (Z.shiftl x 8)) in
  let x := u32 (x + u32 (Z.shiftl x 16)) in
  Z.shiftr x 24.

Definition nlz (x : Z) : Z :=
  let x := Z.lor x (Z.shiftr x 1) in
  let x := Z.lor x (Z.shiftr x 2) in
  let x := Z.lor x (Z.shiftr x 4) in
  let x := Z.lor x (Z.shiftr x 8) in
  let x := Z.lor x (Z.shiftr x 16) in
  pop (bnot 32 x).

Definition ntz (x : Z) : Z := pop (Z.land (bnot 32 x) (u32 (x - 1))).

(** ** [count_set_bits] *)

(** The loop clears the lowest set bit until nothing is left; 32 rounds are
    enough for a 32-bit argument. *)
Fixpoint count_loop (fuel : nat) (n c : Z) : outcome Z :=
  if 0 <? n then
    match fuel with
    | O => Fault OutOfFuel
    | S fuel => count_loop fuel (Z.land n (n - 1)) (u32 (c + 1))
    end
  else Ok (u8 c).

Definition count_set_bits (n : Z) : outcome Z := count_loop 32 n 0.

(** ** Byte order of 64-bit words *)

Definition hton64 (n : Z) : Z :=
  u64 (u64 (Z.shiftl (htonl (u32 n)) 32) + htonl (u32 (Z.shiftr n 32))).

(** ** CRC-32 *)

Definition CRC_POLY : Z := 0xEDB88320.

Definition crc_byte_step (r : Z) : Z :=
  Z.lxor (if Z.odd r then 0 else CRC_POLY) (Z.shiftr r 1).
Definition crc32_for_byte (r : Z) : Z :=
  Z.lxor (Nat.iter 8 crc_byte_step r) 0xFF000000.

(** The static table, filled on the first call. *)
Definition crc_table : list Z :=
  Eval vm_compute in (crc32_for_byte ∘ Z.of_nat) <$> seq 0 256.

Definition crc32_update (crc byte : Z) : Z :=
  Z.lxor (default 0 (crc_table !! Z.to_nat (Z.lxor (u8 crc) byte))) (Z.shiftr crc 8).

Definition crc32 (data : list Z) (crc : Z) : Z := foldl crc32_update crc data.

(** ** Random numbers *)

Definition RAND_MAX : Z := 2147483647.

(** [rand] is a parameter: the values it returns, in order.  [None] when the
    supply is exhausted before an acceptable one. *)
Fixpoint random_loop (limit bin_size : Z) (rands : list Z) : option Z :=
  match rands with
  | [] => None
  | x :: rest =>
      if limit <=? x then random_loop limit bin_size rest else Some (x / bin_size)
  end.

Definition random_at_most (max : Z) (rands : list Z) : outcome (option Z) :=
  let num_bins := u32 (max + 1) in
  let num_rand := u32 (RAND_MAX + 1) in
  if num_bins =? 0 then Fault DivByZero
  else
    let bin_size := num_rand / num_bins in
    let defect := num_rand mod num_bins in
    Ok (random_loop (u32 (num_rand - defect)) bin_size rands).

(** ** Counting bits *)

(** Number of set bits, the specification. *)
Fixpoint popcount_pos (p : positive) : Z :=
  match p with
  | xH => 1
  | xO p => popcount_pos p
  | xI p => 1 + popcount_pos p
  end.
Definition popcount (z : Z) : Z :=
  match z with Zpos p => popcount_pos p | _ => 0 end.

Lemma popcount_double z : 0 ≤ z → popcount (2 * z) = popcount z.
Proof. by destruct z. Qed.
Lemma popcount_succ_double z : 0 ≤ z → popcount (2 * z + 1) = 1 + popcount z.
Proof. destruct z; [done|done|lia]. Qed.

(** Clearing the lowest set bit. *)
Lemma land_pred_even z : Z.land (2 * z) (2 * z - 1) = 2 * Z.land z (z - 1).
Proof.
  replace (2 * z - 1) with (2 * (z - 1) + 1) by lia.
  apply Z.bits_inj'. intros i Hi. rewrite Z.land_spec.
  destruct (Z.eq_dec i 0) as [->|Hne].
  - by rewrite !Z.testbit_even_0.
  - replace i with (Z.succ (i - 1)) by lia.
    rewrite !Z.testbit_even_succ, Z.testbit_odd_succ, Z.land_spec by lia. done.
Qed.

Lemma land_pred_odd z : Z.land (2 * z + 1) (2 * z + 1 - 1) = 2 * z.
Proof.
  replace (2 * z + 1 - 1) with (2 * z) by lia.
  apply Z.bits_inj'. intros i Hi. rewrite Z.land_spec.
  destruct (Z.eq_dec i 0) as [->|Hne].
  - rewrite Z.testbit_even_0. apply andb_false_r.
  - replace i with (Z.succ (i - 1)) by lia.
    rewrite Z.testbit_even_succ, Z.testbit_odd_succ by lia. apply andb_diag.
Qed.

Lemma clear_lowest z : 0 < z →
  0 ≤ Z.land z (z - 1) ∧ popcount (Z.land z (z - 1)) = popcount z - 1.
Proof.
  intros Hz. destruct z as [|p|]; [lia| |lia]. clear Hz.
  assert (0 ≤ Z.land (Zpos p) (Zpos p - 1)) as H0 by (apply Z.land_nonneg; lia).
  split; [done|]. clear H0. induction p as [p IH|p IH|].
  - rewrite Pos2Z.inj_xI, land_pred_odd, popcount_double, popcount_succ_double; lia.
  - rewrite Pos2Z.inj_xO, land_pred_even, !popcount_double; [done|lia|].
    apply Z.land_nonneg. lia.
  - done.
Qed.

Lemma popcount_nonneg z : 0 ≤ popcount z.
Proof. destruct z as [|p|]; simpl; [lia| |lia]. induction p; simpl; lia. Qed.

Lemma popcount_pos_0 z : 0 < z → 0 < popcount z.
Proof.
  intros Hz. destruct z as [|p|]; [lia| |lia]. simpl. clear Hz.
  induction p; simpl; lia.
Qed.

Lemma popcount_le w z : in_width (Z.of_nat w) z → popcount z ≤ Z.of_nat w.
Proof.
  revert z. induction w as [|w IH]; intros z [H0 H1].
  - simpl in H1. assert (z = 0) as -> by lia. done.
  - rewrite Nat2Z.inj_succ, Z.pow_succ_r in H1 by lia.
    destruct (Z.Even_or_Odd z) as [[y ->]|[y ->]].
    + rewrite popcount_double by lia. specialize (IH y). unfold in_width in IH. lia.
    + rewrite popcount_succ_double by lia. specialize (IH y). unfold in_width in IH. lia.
Qed.

Lemma count_loop_spec fuel n c :
  0 ≤ n → popcount n ≤ Z.of_nat fuel → 0 ≤ c → c + popcount n < 256 →
  count_loop fuel n c = Ok (c + popcount n).
Proof.
  revert n c. induction fuel as [|fuel IH]; intros n c Hn Hp Hc Hb; cbn [count_loop].
  - destruct (Z.ltb_spec 0 n) as [Hlt|Hge].
    + apply popcount_pos_0 in Hlt. lia.
    + assert (n = 0) as -> by lia. simpl. rewrite wrap_small; [f_equal; lia|].
      simpl in Hb. unfold in_width. lia.
  - destruct (Z.ltb_spec 0 n) as [Hlt|Hge].
    + destruct (clear_lowest n Hlt) as [H0 Hcl].
      pose proof (popcount_nonneg (Z.land n (n - 1))).
      rewrite (wrap_small 32) by (unfold in_width; lia).
      rewrite IH by lia. f_equal. lia.
    + assert (n = 0) as -> by lia. simpl. rewrite wrap_small; [f_equal; lia|].
      simpl in Hb. unfold in_width. lia.
Qed.

(** [count_set_bits] terminates and returns the number of set bits of its
    32-bit argument (the prefix length of a netmask). *)
Theorem count_set_bits_popcount n :
  in_width 32 n → count_set_bits n = Ok (popcount n).
Proof.
  intros Hn. pose proof (popcount_le 32 n Hn). pose proof (popcount_nonneg n).
  destruct Hn as [Hn _]. unfold count_set_bits. rewrite count_loop_spec by lia. done.
Qed.

Lemma count_set_bits_popcount_witness :
  in_width 32 0xffffff00 ∧ count_set_bits 0xffffff00 = Ok (popcount 0xffffff00) ∧
  popcount 0xffffff00 = 24.
Proof.
  split; [by apply (bool_decide_unpack _); vm_compute|].
  split; [apply count_set_bits_popcount; by apply (bool_decide_unpack _); vm_compute|done].
Defined.

(** ** Byte order *)

Lemma le_bytes_app n m z :
  le_bytes (n + m) z = le_bytes n z ++ le_bytes m (z / 2 ^ (8 * Z.of_nat n)).
Proof.
  revert z. induction n as [|n IH]; intros z.
  - cbn. by rewrite Z.div_1_r.
  - cbn [Nat.add le_bytes app]. rewrite IH, pow_256_succ, Zdiv.Zdiv_Zdiv by lia. done.
Qed.

Lemma le_val_app l l' :
  le_val (l ++ l') = le_val l + 2 ^ (8 * Z.of_nat (length l)) * le_val l'.
Proof.
  induction l as [|b l IH]; cbn [app le_val length].
  - change (2 ^ (8 * Z.of_nat 0)) with 1. lia.
  - rewrite IH, pow_256_succ. lia.
Qed.

Lemma le_bytes_wrap n z : le_bytes n (wrap (8 * Z.of_nat n) z) = le_bytes n z.
Proof.
  rewrite <- le_val_bytes. rewrite <- (length_le_bytes n z) at 1.
  apply le_bytes_val, le_bytes_wf.
Qed.

Lemma bswap_wrap n z : bswap n (wrap (8 * Z.of_nat n) z) = bswap n z.
Proof. unfold bswap, be_bytes. by rewrite le_bytes_wrap. Qed.

(** [hton64] (and [ntoh64], which has the same body) reverses the eight
    bytes of its argument on a little-endian host, so it is its own inverse:
    the simulator's 64-bit timestamps survive the trip over the socket. *)
Theorem hton64_reverses n :
  in_width 64 n → hton64 n = bswap 8 n ∧ hton64 (hton64 n) = n.
Proof.
  assert (∀ n, hton64 n = bswap 8 n) as Heq.
  { intros x. unfold hton64.
    rewrite (bswap_wrap 4 x : bswap 4 (u32 x) = _).
    rewrite (bswap_wrap 4 (Z.shiftr x 32) : bswap 4 (u32 (Z.shiftr x 32)) = _).
    pose proof (bswap_in_width 4 x) as H1.
    pose proof (bswap_in_width 4 (Z.shiftr x 32)) as H2.
    unfold in_width in *. change (8 * Z.of_nat 4) with 32 in *.
    rewrite Z.shiftl_mul_pow2 by lia. change (2 ^ 32) with 4294967296 in *.
    rewrite (wrap_small 64 (_ * _)) by (unfold in_width; lia).
    rewrite wrap_small by (unfold in_width; lia).
    unfold bswap at 3. unfold be_bytes. rewrite (le_bytes_app 4 4), reverse_app, le_val_app.
    rewrite length_reverse, length_le_bytes. rewrite Z.shiftr_div_pow2 by lia.
    unfold bswap, be_bytes. change (2 ^ (8 * Z.of_nat 4)) with 4294967296.
    change (2 ^ 32) with 4294967296. lia. }
  intros Hn. split; [done|]. rewrite !Heq. by apply (bswap_involutive 8).
Qed.

Lemma hton64_reverses_witness :
  hton64 0x0102030405060708 = 0x0807060504030201 ∧
  hton64 (hton64 0x0102030405060708) = 0x0102030405060708.
Proof.
  destruct (hton64_reverses 0x0102030405060708) as [H1 H2];
    [by apply (bool_decide_unpack _); vm_compute|].
  split; [by rewrite H1|exact H2].
Defined.

(** ** The CRC *)

(** Bit-serial CRC-32 (reflected, polynomial [CRC_POLY]): one bit, one byte, a
    message with the conventional initial value and final inversion. *)
Definition crc_bit (c : Z) : Z :=
  Z.lxor (if Z.odd c then CRC_POLY else 0) (Z.shiftr c 1).
Definition crc_serial (c byte : Z) : Z := Nat.iter 8 crc_bit (Z.lxor c byte).
Definition crc_spec (data : list Z) : Z :=
  bnot 32 (foldl crc_serial 0xFFFFFFFF data).

Lemma crc_bit_lxor x y : crc_bit (Z.lxor x y) = Z.lxor (crc_bit x) (crc_bit y).
Proof.
  unfold crc_bit. rewrite Z.shiftr_lxor, <- !Z.bit0_odd, Z.lxor_spec.
  apply Z.bits_inj'. intros i Hi. rewrite !Z.lxor_spec.
  destruct (Z.testbit x 0), (Z.testbit y 0); cbn [xorb]; rewrite ?Z.bits_0;
    by destruct (Z.testbit CRC_POLY i), (Z.testbit (Z.shiftr x 1) i),
      (Z.testbit (Z.shiftr y 1) i).
Qed.

Lemma crc_iter_lxor n x y :
  Nat.iter n crc_bit (Z.lxor x y) = Z.lxor (Nat.iter n crc_bit x) (Nat.iter n crc_bit y).
Proof. induction n as [|n IH]; [done|]. by rewrite !Nat.iter_succ, IH, crc_bit_lxor. Qed.

(** Zero low bits are only shifted out. *)
Lemma crc_iter_shift n x :
  Nat.iter n crc_bit (Z.shiftl x (Z.of_nat n)) = x.
Proof.
  revert x. induction n as [|n IH]; intros x; [apply Z.shiftl_0_r|].
  rewrite Nat.iter_succ_r. rewrite <- (IH x) at 2. f_equal. unfold crc_bit.
  rewrite <- Z.bit0_odd, Z.shiftl_spec_low by lia. rewrite Z.lxor_0_l.
  rewrite Z.shiftr_shiftl_l by lia. f_equal. lia.
Qed.

(** A byte step looks at the low byte and shifts the rest. *)
Lemma crc_iter_split c :
  0 ≤ c → Nat.iter 8 crc_bit c = Z.lxor (Nat.iter 8 crc_bit (u8 c)) (Z.shiftr c 8).
Proof.
  intros Hc. rewrite <- (crc_iter_shift 8 (Z.shiftr c 8)).
  rewrite <- crc_iter_lxor. f_equal. apply Z.bits_inj'. intros i Hi.
  rewrite Z.lxor_spec, wrap_bits by lia. change (Z.of_nat 8) with 8.
  destruct (bool_decide_reflect (i < 8)).
  - rewrite Z.shiftl_spec_low by lia. cbn. by rewrite xorb_false_r.
  - rewrite Z.shiftl_spec, Z.shiftr_spec by lia. rewrite andb_false_l, xorb_false_l.
    f_equal. lia.
Qed.

(** The table holds the inverted form of the byte step (256 cases). *)
Lemma crc_table_entry i :
  (i < 256)%nat →
  crc_table !! i = Some (Z.lxor (Nat.iter 8 crc_bit (Z.lxor (Z.of_nat i) 0xFF)) 0xFF000000).
Proof.
  intros Hi.
  assert (forallb (λ j, bool_decide (crc_table !! j =
    Some (Z.lxor (Nat.iter 8 crc_bit (Z.lxor (Z.of_nat j) 0xFF)) 0xFF000000)))
    (seq 0 256) = true) as Hall by (vm_compute; reflexivity).
  rewrite forallb_forall in Hall. eapply bool_decide_eq_true_1, Hall.
  apply in_seq. lia.
Qed.

Lemma bnot_low c : u8 (bnot 32 c) = Z.lxor (u8 c) 0xFF.
Proof.
  apply Z.bits_inj'. intros i Hi. change 0xFF with (Z.ones 8).
  rewrite wrap_bits, Z.lxor_spec, wrap_bits by lia. unfold bnot. rewrite Z.lxor_spec.
  destruct (bool_decide_reflect (i < 8)); cbn.
  - by rewrite !Z.ones_spec_low by lia.
  - by rewrite Z.ones_spec_high by lia.
Qed.

Lemma bnot_high c : Z.shiftr (bnot 32 c) 8 = Z.lxor (Z.shiftr c 8) 0xFFFFFF.
Proof.
  apply Z.bits_inj'. intros i Hi. change 0xFFFFFF with (Z.ones 24). unfold bnot.
  rewrite Z.lxor_spec, !Z.shiftr_spec, Z.lxor_spec by lia. f_equal.
  rewrite !Z.testbit_ones_nonneg by lia.
  destruct (Z.ltb_spec (i + 8) 32), (Z.ltb_spec i 24); lia || done.
Qed.

Lemma bnot_lxor c b : bnot 32 (Z.lxor c b) = Z.lxor (bnot 32 c) b.
Proof.
  unfold bnot. rewrite !Z.lxor_assoc. f_equal. apply Z.lxor_comm.
Qed.

Lemma bnot_in_width w c : 0 ≤ w → in_width w c → in_width w (bnot w c).
Proof.
  intros Hw [Hc Hb]%in_width_bits; [|done]. apply in_width_bits; [done|]. split.
  - apply Z.lxor_nonneg. rewrite Z.ones_equiv. pose proof (Z.pow_pos_nonneg 2 w). lia.
  - intros i Hi. unfold bnot. by rewrite Z.lxor_spec, Hb, Z.ones_spec_high by lia.
Qed.

Lemma bnot_involutive w c : bnot w (bnot w c) = c.
Proof. unfold bnot. by rewrite Z.lxor_assoc, Z.lxor_nilpotent, Z.lxor_0_r. Qed.

Lemma u8_lxor x y : u8 (Z.lxor x y) = Z.lxor (u8 x) (u8 y).
Proof.
  apply Z.bits_inj'. intros i Hi. rewrite Z.lxor_spec, !wrap_bits, Z.lxor_spec by lia.
  by destruct (bool_decide (i < 8)).
Qed.

Lemma lxor_in_width w x y : 0 ≤ w → in_width w x → in_width w y → in_width w (Z.lxor x y).
Proof.
  intros Hw [Hx Hbx]%in_width_bits [Hy Hby]%in_width_bits; [|done..].
  apply in_width_bits; [done|]. split; [apply Z.lxor_nonneg; lia|].
  intros i Hi. by rewrite Z.lxor_spec, Hbx, Hby.
Qed.

Lemma crc_bit_in_width c : in_width 32 c → in_width 32 (crc_bit c).
Proof.
  intros Hc. unfold crc_bit. apply lxor_in_width; [done| |].
  - destruct (Z.odd c); unfold in_width, CRC_POLY; lia.
  - unfold in_width in *. rewrite Z.shiftr_div_pow2 by lia. change (2 ^ 1) with 2.
    split; [apply Z.div_pos; lia|]. apply Z.div_lt_upper_bound; lia.
Qed.

Lemma crc_serial_in_width c b : in_width 32 c → byte_wf b → in_width 32 (crc_serial c b).
Proof.
  intros Hc Hb. unfold crc_serial.
  assert (in_width 32 (Z.lxor c b)) as H0.
  { apply lxor_in_width; [done|done|]. unfold byte_wf, in_width in *. lia. }
  revert H0. generalize (Z.lxor c b). intros z Hz.
  generalize 8%nat. induction n as [|n IH]; [done|]. rewrite Nat.iter_succ. by apply crc_bit_in_width.
Qed.

(** One table step on the inverted register is one byte of the serial CRC. *)
Lemma crc32_update_serial c b :
  in_width 32 c → byte_wf b →
  crc32_update (bnot 32 c) b = bnot 32 (crc_serial c b).
Proof.
  intros Hc Hb. unfold crc32_update, crc_serial. rewrite bnot_low.
  assert (u8 b = b) as Hub by by apply wrap_small.
  assert (Z.lxor (Z.lxor (u8 c) 255) b = Z.lxor (u8 (Z.lxor c b)) 255) as ->.
  { rewrite u8_lxor, Hub, !Z.lxor_assoc. f_equal. apply Z.lxor_comm. }
  set (y := u8 (Z.lxor c b)). assert (in_width 8 y) as Hy by by apply wrap_in_width.
  assert (in_width 8 (Z.lxor y 255)) as Hy' by (by apply lxor_in_width).
  rewrite crc_table_entry by (unfold in_width in Hy'; lia). cbn [from_option id]. unfold id.
  rewrite Z2Nat.id by (unfold in_width in Hy'; lia).
  rewrite (Z.lxor_assoc y), Z.lxor_nilpotent, Z.lxor_0_r.
  rewrite (crc_iter_split (Z.lxor c b)).
  2: { apply Z.lxor_nonneg. unfold byte_wf, in_width in *. lia. }
  fold y. rewrite bnot_high. unfold bnot. rewrite Z.shiftr_lxor.
  assert (Z.shiftr b 8 = 0) as ->.
  { rewrite Z.shiftr_div_pow2 by lia. apply Z.div_small. exact Hb. }
  rewrite Z.lxor_0_r. change (Z.ones 32) with (Z.lxor 0xFF000000 0xFFFFFF).
  rewrite !Z.lxor_assoc. f_equal. rewrite (Z.lxor_comm 0xFF000000), !Z.lxor_assoc.
  f_equal.
Qed.

Lemma crc32_fold data c :
  in_width 32 c → Forall byte_wf data →
  foldl crc32_update (bnot 32 c) data = bnot 32 (foldl crc_serial c data).
Proof.
  intros Hc Hd. revert c Hc. induction Hd as [|b data Hb _ IH]; intros c Hc; [done|].
  cbn [foldl]. rewrite crc32_update_serial by done.
  apply IH. by apply crc_serial_in_width.
Qed.

(** The table-driven [crc32], started at 0 as [netflow_calculate_hash] does,
    computes the standard CRC-32 of the data (bit-serial definition with initial
    value and final inversion). *)
Theorem crc32_is_standard data :
  Forall byte_wf data → crc32 data 0 = crc_spec data.
Proof.
  intros Hd. unfold crc32, crc_spec.
  rewrite <- (crc32_fold data 0xFFFFFFFF) by (done || (unfold in_width; lia)). done.
Qed.

(** "123456789" has the well-known check value 0xCBF43926. *)
Lemma crc32_is_standard_witness :
  crc32 [49; 50; 51; 52; 53; 54; 55; 56; 57] 0 = 0xCBF43926.
Proof.
  rewrite (crc32_is_standard [49; 50; 51; 52; 53; 54; 55; 56; 57]).
  - vm_compute. reflexivity.
  - apply (bool_decide_unpack _). by vm_compute.
Defined.

(** ** Uniform choice *)

(** For [max <= RAND_MAX], [random_at_most] returns a value in [0, max], and
    every value of that range is the image of the same number of accepted
    [rand] results ([bin_size] of them), so a uniform [rand] gives a uniform
    choice. *)
Theorem random_at_most_uniform max :
  0 ≤ max ≤ RAND_MAX →
  ∃ limit bin_size, 0 < bin_size ∧ limit = bin_size * (max + 1) ∧ limit ≤ RAND_MAX + 1 ∧
    (∀ rands, random_at_most max rands = Ok (random_loop limit bin_size rands)) ∧
    (∀ rands v, Forall (λ x, 0 ≤ x) rands →
       random_loop limit bin_size rands = Some v → 0 ≤ v ≤ max) ∧
    (∀ v x, 0 ≤ v ≤ max → 0 ≤ x →
       (x < limit ∧ x / bin_size = v ↔ bin_size * v ≤ x < bin_size * (v + 1))).
Proof.
  unfold RAND_MAX. intros Hmax.
  set (num := 2147483648). set (bins := max + 1).
  assert (0 < bins ≤ num) as Hb by (unfold bins, num; lia).
  pose proof (Z.div_mod num bins ltac:(lia)) as Hdm.
  pose proof (Z.mod_pos_bound num bins ltac:(lia)) as Hmod.
  assert (0 < num / bins) as Hbin by (apply Z.div_str_pos; lia).
  exists (num - num mod bins), (num / bins).
  split; [done|]. split; [unfold bins in *; lia|]. split; [unfold num in *; lia|].
  assert (∀ x, 0 ≤ x < num - num mod bins → 0 ≤ x / (num / bins) ≤ max) as Hrange.
  { intros x Hx. split; [apply Z.div_pos; lia|].
    assert (x / (num / bins) < bins); [|unfold bins in *; lia].
    apply Z.div_lt_upper_bound; lia. }
  split; [|split].
  - intros rands. unfold random_at_most, RAND_MAX.
    rewrite (wrap_small 32 (max + 1)) by (unfold in_width; lia).
    change (u32 (2147483647 + 1)) with num. fold bins.
    destruct (Z.eqb_spec bins 0) as [H0|_]; [lia|].
    rewrite wrap_small; [done|]. unfold in_width, num in *. lia.
  - intros rands v. induction 1 as [|x rands Hx _ IH]; cbn [random_loop]; [done|].
    destruct (Z.leb_spec (num - num mod bins) x); [done|].
    intros [= <-]. apply Hrange. lia.
  - intros v x Hv Hx. split.
    + intros [Hlt <-]. pose proof (Z.div_mod x (num / bins) ltac:(lia)).
      pose proof (Z.mod_pos_bound x (num / bins) ltac:(lia)). lia.
    + intros [H1 H2]. split; [unfold bins in *; nia|].
      symmetry. apply (Z.div_unique_pos x (num / bins) v (x - num / bins * v)); lia.
Qed.

Lemma random_at_most_uniform_witness :
  ∃ limit bin_size, limit = bin_size * 10 ∧
    random_at_most 9 [2147483647; 5] = Ok (random_loop limit bin_size [2147483647; 5]).
Proof.
  destruct (random_at_most_uniform 9) as (l & b & _ & Hl & _ & H & _); [unfold RAND_MAX; lia|].
  exists l, b. split; [exact Hl|apply H].
Defined.

(** ** Prefix lengths *)

(** The netmask of a prefix length. *)
Definition prefix_mask (p : nat) : Z := Z.land (Z.shiftl (Z.ones 32) (32 - Z.of_nat p)) (Z.ones 32).

(** On the masks a route can have, [32 - ntz(mask)] is the prefix length
    (the computation [route_table.c] makes), including /0 and /32. *)
Theorem ntz_prefix_length p : (p ≤ 32)%nat → 32 - ntz (prefix_mask p) = Z.of_nat p.
Proof.
  intros Hp.
  assert (forallb (λ q, 32 - ntz (prefix_mask q) =? Z.of_nat q) (seq 0 33) = true) as Hall
    by (vm_compute; reflexivity).
  rewrite forallb_forall in Hall. apply Z.eqb_eq, Hall, in_seq. lia.
Qed.

Lemma ntz_prefix_length_witness :
  prefix_mask 24 = 0xffffff00 ∧ 32 - ntz (prefix_mask 24) = Z.of_nat 24.
Proof. split; [reflexivity|apply ntz_prefix_length; lia]. Defined.
