(* ===== verification/Uthash.v ===== *)
(** * Uthash: the hash table every keyed container of Horse is built on

    [vendor/uthash/uthash.h] is a macro library: an element of a C struct with
    a [UT_hash_handle hh] member becomes a node of a table.  The model keeps
    what the macros keep: the application-order list of elements ([items]),
    the array of buckets with their chains of element addresses, the element's
    hash value frozen at insertion, and the expansion bookkeeping.  A table is
    created by the first insertion and freed with the last deletion, so the
    head pointer is an [option] ([None] is [NULL]).

    The client-visible contract is the class-independent group of lemmas at the
    end: [HASH_FIND] is sound and complete for the elements of the table, and
    insertion, deletion and in-place update act on [ht_elems] as on a list. *)

From stdpp Require Import prelude.
From S2P Require Import Prelude.

(** Addresses of heap objects. *)
Abbreviation addr := nat.

(** The byte image of an element's key field (what [HASH_FCN] and [memcmp]
    read).  The key's length is the length of its image. *)
Class Keyed (V : Type) := key_image : V → list Z.

(** ** Jenkins' hash ([HASH_JEN], the default [HASH_FCN]) *)

Definition jen_state : Type := Z * Z * Z.

Definition jen_mix (s : jen_state) : jen_state :=
  let '(a, b, c) := s in
  let a := Z.lxor (u32 (a - b - c)) (Z.shiftr c 13) in
  let b := Z.lxor (u32 (b - c - a)) (u32 (Z.shiftl a 8)) in
  let c := Z.lxor (u32 (c - a - b)) (Z.shiftr b 13) in
  let a := Z.lxor (u32 (a - b - c)) (Z.shiftr c 12) in
  let b := Z.lxor (u32 (b - c - a)) (u32 (Z.shiftl a 16)) in
  let c := Z.lxor (u32 (c - a - b)) (Z.shiftr b 5) in
  let a := Z.lxor (u32 (a - b - c)) (Z.shiftr c 3) in
  let b := Z.lxor (u32 (b - c - a)) (u32 (Z.shiftl a 10)) in
  let c := Z.lxor (u32 (c - a - b)) (Z.shiftr b 15) in
  (a, b, c).

(** The final [switch] falls through from the number of bytes left to 1; a
    byte that is not there contributes nothing, hence the default 0. *)
Definition jen_tail (keylen : Z) (s : jen_state) (k : list Z) : jen_state :=
  let '(i, j, h) := s in
  let byte n := default 0 (k !! n) in
  let h := u32 (h + keylen) in
  let h := u32 (h + Z.shiftl (byte 10%nat) 24 + Z.shiftl (byte 9%nat) 16
                  + Z.shiftl (byte 8%nat) 8) in
  let j := u32 (j + le_val [byte 4%nat; byte 5%nat; byte 6%nat; byte 7%nat]) in
  let i := u32 (i + le_val [byte 0%nat; byte 1%nat; byte 2%nat; byte 3%nat]) in
  jen_mix (i, j, h).

Fixpoint jen_blocks (keylen : Z) (s : jen_state) (k : list Z) : jen_state :=
  match k with
  | k0 :: k1 :: k2 :: k3 :: k4 :: k5 :: k6 :: k7 :: k8 :: k9 :: k10 :: k11 :: k' =>
      let '(i, j, h) := s in
      jen_blocks keylen
        (jen_mix (u32 (i + le_val [k0; k1; k2; k3]),
                  u32 (j + le_val [k4; k5; k6; k7]),
                  u32 (h + le_val [k8; k9; k10; k11]))) k'
  | _ => jen_tail keylen s k
  end.

Definition HASH_JEN (key : list Z) : Z :=
  let '(_, _, hashv) :=
    jen_blocks (u32 (Z.of_nat (length key)))
      (0x9e3779b9, 0x9e3779b9, 0xfeedbeef) key in
  hashv.

(** ** The table *)

Record item (V : Type) := Item { it_addr : addr; it_hashv : Z; it_val : V }.
Arguments Item {V}.
Arguments it_addr {V}.
Arguments it_hashv {V}.
Arguments it_val {V}.

(** [UT_hash_bucket]; its [count] is the length of the chain. *)
Record bucket := Bucket { chain : list addr; expand_mult : Z }.
#[export] Instance eta_bucket : Eta bucket :=
  λ b, Bucket (chain b) (expand_mult b).

(** [UT_hash_table]; [num_items] and [num_buckets] are the lengths of [items]
    and [buckets]. *)
Record hash_table (V : Type) := HashTable {
  items : list (item V);
  buckets : list bucket;
  log2_num_buckets : nat;
  ineff_expands : Z;
  noexpand : bool
}.
Arguments HashTable {V}.
Arguments items {V}.
Arguments buckets {V}.
Arguments log2_num_buckets {V}.
Arguments ineff_expands {V}.
Arguments noexpand {V}.

#[export] Instance eta_hash_table V : Eta (hash_table V) := λ t,
  HashTable (items t) (buckets t) (log2_num_buckets t) (ineff_expands t)
    (noexpand t).

Definition uthash (V : Type) : Type := option (hash_table V).

Definition HASH_INITIAL_NUM_BUCKETS : nat := 32.
Definition HASH_INITIAL_NUM_BUCKETS_LOG2 : nat := 5.
Definition HASH_BKT_CAPACITY_THRESH : Z := 10.

Section table.
Context {V : Type} `{Keyed V}.
Implicit Types (t : hash_table V) (h : uthash V) (v : V) (a : addr).

Definition HASH_MAKE_TABLE (it : item V) : hash_table V :=
  HashTable [it]
    (replicate HASH_INITIAL_NUM_BUCKETS (Bucket [] 0))
    HASH_INITIAL_NUM_BUCKETS_LOG2 0 false.

Definition HASH_TO_BKT (hashv : Z) (num_bkts : nat) : nat :=
  Z.to_nat (Z.land hashv (Z.of_nat num_bkts - 1)).

(** The element an address points to. *)
Definition item_at (l : list (item V)) a : option (item V) :=
  first (λ it, bool_decide (it_addr it = a)) l.

Definition hashv_at (l : list (item V)) a : Z :=
  match item_at l a with Some it => it_hashv it | None => 0 end.

(** One step of the redistribution loop: push the handle on its new chain. *)
Definition expand_place (l : list (item V)) (nbkts : nat) (ideal : Z)
    (st : list bucket * Z) a : list bucket * Z :=
  let '(bs, nonideal) := st in
  let i := HASH_TO_BKT (hashv_at l a) nbkts in
  match bs !! i with
  | None => st
  | Some b =>
      let count := Z.of_nat (length (chain b)) + 1 in
      let '(mult, nonideal') :=
        if decide (ideal < count) then (count / ideal, nonideal + 1)
        else (expand_mult b, nonideal) in
      (<[i := Bucket (a :: chain b) mult]> bs, nonideal')
  end.

Definition HASH_EXPAND_BUCKETS t : hash_table V :=
  let n := Z.of_nat (length (items t)) in
  let nb := (2 * length (buckets t))%nat in
  let ideal :=
    Z.shiftr n (Z.of_nat (log2_num_buckets t) + 1)
    + (if decide (Z.land n (Z.of_nat nb - 1) = 0) then 0 else 1) in
  let '(bs, nonideal) :=
    foldl (expand_place (items t) nb ideal)
      (replicate nb (Bucket [] 0), 0) (concat (chain <$> buckets t)) in
  let ineff :=
    if decide (Z.shiftr n 1 < nonideal) then ineff_expands t + 1 else 0 in
  HashTable (items t) bs (S (log2_num_buckets t)) ineff
    (noexpand t || bool_decide (1 < ineff)).

Definition HASH_ADD_TO_BKT t (i : nat) a : hash_table V :=
  match buckets t !! i with
  | None => t
  | Some b =>
      let b' := Bucket (a :: chain b) (expand_mult b) in
      let t' := t <| buckets := <[i := b']> (buckets t) |> in
      if bool_decide ((expand_mult b + 1) * HASH_BKT_CAPACITY_THRESH
                      ≤ Z.of_nat (length (chain b')))
         && negb (noexpand t)
      then HASH_EXPAND_BUCKETS t' else t'
  end.

(** [HASH_ADD]: no check that the key is new; the element goes to the end of
    the application order and to the head of its bucket's chain. *)
Definition HASH_ADD a v h : uthash V :=
  let hashv := HASH_JEN (key_image v) in
  let it := Item a hashv v in
  let t :=
    match h with
    | None => HASH_MAKE_TABLE it
    | Some t => t <| items := items t ++ [it] |>
    end in
  Some (HASH_ADD_TO_BKT t (HASH_TO_BKT hashv (length (buckets t))) a).

Definition key_matches (l : list (item V)) (hashv : Z) (key : list Z) a : bool :=
  match item_at l a with
  | Some it => bool_decide (it_hashv it = hashv ∧ key_image (it_val it) = key)
  | None => false
  end.

Definition HASH_FIND_IN_BKT t (b : bucket) (key : list Z) (hashv : Z)
  : option addr :=
  first (key_matches (items t) hashv key) (chain b).

Definition HASH_FIND (key : list Z) h : option (addr * V) :=
  t ← h;
  let hashv := HASH_JEN key in
  b ← buckets t !! HASH_TO_BKT hashv (length (buckets t));
  a ← HASH_FIND_IN_BKT t b key hashv;
  it ← item_at (items t) a;
  Some (a, it_val it).

Definition unlink a (b : bucket) : bucket :=
  Bucket (filter (λ a', a' ≠ a) (chain b)) (expand_mult b).

Definition HASH_DEL_IN_BKT t (i : nat) a : hash_table V :=
  t <| buckets ::= alter (unlink a) i |>.

(** [HASH_DELETE] of an element of the table: the last one frees the table. *)
Definition HASH_DELETE a h : uthash V :=
  match h with
  | None => None
  | Some t =>
      match filter (λ it, it_addr it ≠ a) (items t) with
      | [] => None
      | rest =>
          let i := HASH_TO_BKT (hashv_at (items t) a) (length (buckets t)) in
          Some ((HASH_DEL_IN_BKT t i a) <| items := rest |>)
      end
  end.

(** Store through the element pointer [a]; the handle is not touched. *)
Definition ht_update a (g : V → V) h : uthash V :=
  t ← h;
  Some (t <| items ::= fmap (λ it,
    if decide (it_addr it = a) then Item a (it_hashv it) (g (it_val it))
    else it) |>).

(** [HASH_ITER] / [HASH_COUNT]: the elements in application order. *)
Definition ht_elems h : list (addr * V) :=
  match h with
  | None => []
  | Some t => (λ it, (it_addr it, it_val it)) <$> items t
  end.

Definition HASH_COUNT h : Z :=
  match h with None => 0 | Some t => Z.of_nat (length (items t)) end.

(** [HASH_REPLACE]: returns the element it unlinked. *)
Definition HASH_REPLACE a v h : uthash V * option (addr * V) :=
  let old := HASH_FIND (key_image v) h in
  let h' := match old with Some (a', _) => HASH_DELETE a' h | None => h end in
  (HASH_ADD a v h', old).
End table.

(** ** Invariant *)

Section wf.
Context {V : Type} `{Keyed V}.
Implicit Types (t : hash_table V) (h : uthash V) (v : V) (a : addr).
Implicit Types (it : item V) (l : list (item V)) (bs : list bucket).

(** Chains hold exactly the elements' addresses, each in the bucket its hash
    value selects, and hash values are those of the current keys. *)
Record table_wf t : Prop := {
  wf_addrs : NoDup (it_addr <$> items t);
  wf_nonempty : items t ≠ [];
  wf_buckets : length (buckets t) = (2 ^ log2_num_buckets t)%nat;
  wf_chains : concat (chain <$> buckets t) ≡ₚ it_addr <$> items t;
  wf_placed : ∀ i b a, buckets t !! i = Some b → a ∈ chain b →
    HASH_TO_BKT (hashv_at (items t) a) (length (buckets t)) = i;
  wf_hashv : ∀ it, it ∈ items t →
    it_hashv it = HASH_JEN (key_image (it_val it))
}.

Definition ht_wf h : Prop :=
  match h with None => True | Some t => table_wf t end.

Lemma to_bkt_lt z k : (HASH_TO_BKT z (2 ^ k) < 2 ^ k)%nat.
Proof.
  unfold HASH_TO_BKT.
  replace (Z.of_nat (2 ^ k) - 1) with (Z.ones (Z.of_nat k)).
  2: { rewrite Z.ones_equiv, Nat2Z.inj_pow. simpl. lia. }
  rewrite Z.land_ones by lia.
  pose proof (Z.mod_pos_bound z (2 ^ Z.of_nat k)) as Hb.
  specialize (Hb ltac:(apply Z.pow_pos_nonneg; lia)).
  apply Nat2Z.inj_lt. rewrite Z2Nat.id, Nat2Z.inj_pow by lia. simpl. lia.
Qed.

Lemma item_at_Some l a it :
  item_at l a = Some it → it ∈ l ∧ it_addr it = a.
Proof.
  intros [Hin Hb]%first_Some. by apply bool_decide_eq_true in Hb.
Qed.

Lemma item_at_elem l it :
  NoDup (it_addr <$> l) → it ∈ l → item_at l (it_addr it) = Some it.
Proof.
  intros Hnd Hin. apply first_unique; [done|by apply bool_decide_eq_true|].
  intros it' Hin' Ha%bool_decide_eq_true.
  apply list_elem_of_lookup in Hin as [i Hi].
  apply list_elem_of_lookup in Hin' as [j Hj].
  assert (i = j) as ->; [|congruence].
  eapply NoDup_lookup; [exact Hnd|..]; rewrite list_lookup_fmap.
  - by rewrite Hi.
  - rewrite Hj. simpl. congruence.
Qed.

Lemma item_at_None l a : item_at l a = None ↔ a ∉ it_addr <$> l.
Proof.
  unfold item_at. rewrite first_None, list_elem_of_fmap. split.
  - intros Hf (it & -> & Hin). specialize (Hf it Hin).
    by rewrite bool_decide_eq_false in Hf.
  - intros Hn it Hin. apply bool_decide_eq_false. intros <-. naive_solver.
Qed.

Lemma item_at_app l l' a :
  item_at (l ++ l') a =
  match item_at l a with Some it => Some it | None => item_at l' a end.
Proof.
  unfold item_at. induction l; simpl; [done|]. by case_bool_decide.
Qed.

Lemma item_at_filter l a a' :
  a' ≠ a → item_at (filter (λ it, it_addr it ≠ a) l) a' = item_at l a'.
Proof.
  intros Hne. induction l as [|it l IH]; [done|].
  rewrite filter_cons. unfold item_at in *.
  destruct (decide (it_addr it ≠ a)); simpl; case_bool_decide; subst; auto.
  naive_solver.
Qed.

(** Pushing an address on one chain. *)
Lemma chains_push bs i b m a :
  bs !! i = Some b →
  concat (chain <$> <[i := Bucket (a :: chain b) m]> bs)
    ≡ₚ a :: concat (chain <$> bs).
Proof.
  intros Hi. rewrite <- (take_drop_middle _ _ _ Hi) at 2.
  rewrite insert_take_drop by by eapply lookup_lt_Some.
  rewrite !fmap_app, !fmap_cons, !concat_app; simpl.
  symmetry. apply Permutation_middle.
Qed.

Definition placed (l : list (item V)) bs : Prop := ∀ i b a,
  bs !! i = Some b → a ∈ chain b → HASH_TO_BKT (hashv_at l a) (length bs) = i.

Lemma placed_push l bs i b m a :
  placed l bs → bs !! i = Some b →
  HASH_TO_BKT (hashv_at l a) (length bs) = i →
  placed l (<[i := Bucket (a :: chain b) m]> bs).
Proof.
  intros Hp Hi Hb j b' a'. rewrite length_insert.
  rewrite list_lookup_insert_Some. intros [(<- & <- & _)|[? Hj]].
  - simpl. intros [->|?]%elem_of_cons; [done|]. by eapply Hp.
  - by apply Hp.
Qed.

(** The redistribution loop moves every handle to its new bucket. *)
Lemma expand_place_loop l k ideal handles bs n :
  length bs = (2 ^ k)%nat → placed l bs →
  ∃ bs' n',
    foldl (expand_place l (2 ^ k) ideal) (bs, n) handles = (bs', n') ∧
    length bs' = (2 ^ k)%nat ∧ placed l bs' ∧
    concat (chain <$> bs') ≡ₚ handles ++ concat (chain <$> bs).
Proof.
  revert bs n. induction handles as [|a hs IH]; intros bs n Hl Hp.
  { by exists bs, n. }
  cbn [foldl]. set (i := HASH_TO_BKT (hashv_at l a) (2 ^ k)).
  destruct (lookup_lt_is_Some_2 bs i) as [b Hb].
  { rewrite Hl. apply to_bkt_lt. }
  assert (∃ m n', expand_place l (2 ^ k) ideal (bs, n) a
                  = (<[i := Bucket (a :: chain b) m]> bs, n')) as (m & n' & ->).
  { unfold expand_place. fold i. rewrite Hb.
    destruct (decide (ideal < _)); eauto. }
  destruct (IH (<[i := Bucket (a :: chain b) m]> bs) n')
    as (bs' & n'' & Hf & Hl' & Hp' & Hc).
  - by rewrite length_insert.
  - apply placed_push; auto. by rewrite Hl.
  - exists bs', n''. repeat split; auto.
    rewrite Hc, (chains_push bs i b m a) by done.
    symmetry. apply Permutation_middle.
Qed.

Lemma chains_replicate n : concat (chain <$> replicate n (Bucket [] 0)) = [].
Proof. induction n; simpl; auto. Qed.

Lemma placed_replicate l n : placed l (replicate n (Bucket [] 0)).
Proof.
  intros i b a [-> _]%lookup_replicate Hin. by apply not_elem_of_nil in Hin.
Qed.

Lemma expand_items t : items (HASH_EXPAND_BUCKETS t) = items t.
Proof. unfold HASH_EXPAND_BUCKETS. by destruct (foldl _ _ _). Qed.

Lemma expand_wf t : table_wf t → table_wf (HASH_EXPAND_BUCKETS t).
Proof.
  intros [Ha Hn Hb Hc Hp Hh]. unfold HASH_EXPAND_BUCKETS. rewrite Hb.
  replace (2 * 2 ^ log2_num_buckets t)%nat
    with (2 ^ S (log2_num_buckets t))%nat by (simpl; lia).
  edestruct (expand_place_loop (items t) (S (log2_num_buckets t)))
    as (bs' & n' & -> & Hl' & Hp' & Hc').
  { by rewrite length_replicate. }
  { apply placed_replicate. }
  constructor; simpl; try done.
  rewrite Hc', chains_replicate, app_nil_r. done.
Qed.

(** Inserting the handle of the newest element. *)
Lemma add_to_bkt_wf t a :
  NoDup (it_addr <$> items t) → items t ≠ [] →
  length (buckets t) = (2 ^ log2_num_buckets t)%nat →
  placed (items t) (buckets t) →
  a :: concat (chain <$> buckets t) ≡ₚ it_addr <$> items t →
  (∀ it, it ∈ items t → it_hashv it = HASH_JEN (key_image (it_val it))) →
  let i := HASH_TO_BKT (hashv_at (items t) a) (length (buckets t)) in
  table_wf (HASH_ADD_TO_BKT t i a) ∧
  items (HASH_ADD_TO_BKT t i a) = items t.
Proof.
  intros Ha Hn Hb Hp Hc Hh i. unfold HASH_ADD_TO_BKT.
  destruct (lookup_lt_is_Some_2 (buckets t) i) as [b Hi].
  { unfold i. rewrite Hb. apply to_bkt_lt. }
  rewrite Hi.
  assert (table_wf (t <| buckets :=
    <[i := Bucket (a :: chain b) (expand_mult b)]> (buckets t) |>)) as Hwf.
  { constructor; simpl; rewrite ?length_insert; try done.
    - by rewrite chains_push.
    - pose proof (placed_push (items t) (buckets t) i b (expand_mult b) a
                    Hp Hi eq_refl) as Hp'.
      unfold placed in Hp'. by rewrite length_insert in Hp'. }
  case_match; [|done].
  split; [by apply expand_wf|]. by rewrite expand_items.
Qed.
End wf.

(** ** What a client may rely on *)

Section client.
Context {V : Type} `{Keyed V}.
Implicit Types (t : hash_table V) (h : uthash V) (v : V) (a : addr).

Definition ht_addrs h : list addr := (ht_elems h).*1.

Lemma ht_addrs_items t : ht_addrs (Some t) = it_addr <$> items t.
Proof.
  unfold ht_addrs; simpl. rewrite <- list_fmap_compose. by apply list_fmap_ext.
Qed.

Lemma ht_addrs_NoDup h : ht_wf h → NoDup (ht_addrs h).
Proof.
  destruct h as [t|]; [|constructor]. intros [? _ _ _ _ _].
  by rewrite ht_addrs_items.
Qed.

Lemma elem_of_ht_elems t a v :
  (a, v) ∈ ht_elems (Some t) ↔
  ∃ it, it ∈ items t ∧ it_addr it = a ∧ it_val it = v.
Proof.
  simpl. rewrite list_elem_of_fmap. split.
  - intros (it & ? & ?). simplify_eq. eauto.
  - intros (it & ? & <- & <-). eauto.
Qed.

Lemma HASH_ADD_spec a v h :
  ht_wf h → a ∉ ht_addrs h →
  ht_wf (HASH_ADD a v h) ∧ ht_elems (HASH_ADD a v h) = ht_elems h ++ [(a, v)].
Proof.
  intros Hwf Hfr. unfold HASH_ADD. set (it := Item a (HASH_JEN (key_image v)) v).
  destruct h as [t|].
  - simpl in Hwf. destruct Hwf as [Ha Hn Hb Hc Hp Hh].
    rewrite ht_addrs_items in Hfr.
    set (t' := t <| items := items t ++ [it] |>).
    assert (hashv_at (items t') a = HASH_JEN (key_image v)) as Hv.
    { unfold hashv_at, t'; simpl. rewrite item_at_app.
      rewrite (proj2 (item_at_None _ _) Hfr). unfold item_at; simpl.
      by rewrite bool_decide_true. }
    destruct (add_to_bkt_wf t' a) as [Hwf' Hit].
    + unfold t'; simpl. rewrite fmap_app. apply NoDup_app.
      split; [done|]. split; [|apply NoDup_singleton].
      intros x Hx ->%list_elem_of_singleton. done.
    + unfold t'; simpl. by destruct (items t).
    + done.
    + intros i b x Hi Hx. change (buckets t') with (buckets t) in *.
      rewrite <- (Hp i b x) by done. f_equal.
      unfold hashv_at, t'; simpl. rewrite item_at_app.
      assert (x ∈ it_addr <$> items t) as Hin.
      { rewrite <- Hc. apply elem_of_concat. exists (chain b).
        split; [done|]. apply list_elem_of_fmap.
        exists b. split; [done|]. by eapply list_elem_of_lookup_2. }
      destruct (item_at (items t) x) eqn:E; [done|].
      by apply item_at_None in E.
    + unfold t'; simpl. rewrite fmap_app, <- Hc. apply Permutation_cons_append.
    + intros it' [Hin| ->%list_elem_of_singleton]%elem_of_app; auto.
    + rewrite Hv in Hwf', Hit. split; [done|].
      unfold ht_elems at 1. rewrite Hit. unfold t'; simpl. by rewrite fmap_app.
  - set (t' := HASH_MAKE_TABLE it).
    assert (hashv_at (items t') a = HASH_JEN (key_image v)) as Hv.
    { unfold hashv_at, item_at; simpl. by rewrite bool_decide_true. }
    destruct (add_to_bkt_wf t' a) as [Hwf' Hit]; try done.
    + apply NoDup_singleton.
    + apply placed_replicate.
    + intros it' ->%list_elem_of_singleton. done.
    + rewrite Hv in Hwf', Hit. split; [done|].
      unfold ht_elems at 1. by rewrite Hit.
Qed.

Lemma chains_delete t a :
  table_wf t →
  alter (unlink a)
    (HASH_TO_BKT (hashv_at (items t) a) (length (buckets t))) (buckets t)
  = unlink a <$> buckets t.
Proof.
  intros [_ _ _ _ Hp _]. apply list_eq. intros i.
  rewrite list_lookup_fmap.
  destruct (decide (i = HASH_TO_BKT (hashv_at (items t) a) (length (buckets t))))
    as [->|Hne].
  - by rewrite list_lookup_alter_eq.
  - rewrite list_lookup_alter_ne by done.
    destruct (buckets t !! i) as [[c m]|] eqn:Hi; [|done]. simpl. f_equal.
    unfold unlink; simpl. f_equal. symmetry. apply filter_all. apply Forall_forall. intros x Hx ->.
    apply Hne. symmetry. by apply (Hp _ _ _ Hi).
Qed.

Lemma concat_unlink a (bs : list bucket) :
  concat (chain <$> (unlink a <$> bs))
  = filter (λ a', a' ≠ a) (concat (chain <$> bs)).
Proof.
  induction bs as [|b bs IH]; [done|].
  rewrite !fmap_cons. cbn [concat]. rewrite IH, filter_app. done.
Qed.

Lemma addrs_filter (l : list (item V)) a :
  it_addr <$> filter (λ it, it_addr it ≠ a) l
  = filter (λ x, x ≠ a) (it_addr <$> l).
Proof. by rewrite filter_fmap. Qed.

Lemma HASH_DELETE_spec a h :
  ht_wf h →
  ht_wf (HASH_DELETE a h) ∧
  ht_elems (HASH_DELETE a h) = filter (λ av, av.1 ≠ a) (ht_elems h).
Proof.
  destruct h as [t|]; [|done]. simpl. intros Hwf.
  rewrite filter_fmap; simpl.
  destruct (filter (λ x : item V, it_addr x ≠ a) (items t))
    as [|it rest] eqn:E; [done|].
  split; [|done].
  pose proof (chains_delete t a Hwf) as Hd.
  destruct Hwf as [Ha Hn Hb Hc Hp Hh].
  change (table_wf ((HASH_DEL_IN_BKT t
    (HASH_TO_BKT (hashv_at (items t) a) (length (buckets t))) a)
    <| items := it :: rest |>)).
  rewrite <- E.
  assert (HASH_DEL_IN_BKT t
      (HASH_TO_BKT (hashv_at (items t) a) (length (buckets t))) a
    = t <| buckets ::= fmap (unlink a) |>)
    as -> by (unfold HASH_DEL_IN_BKT, setf; f_equal; exact Hd).
  constructor; cbn [items buckets log2_num_buckets setf].
  - rewrite addrs_filter. by apply NoDup_filter.
  - by rewrite E.
  - by rewrite length_fmap.
  - rewrite concat_unlink, addrs_filter. by rewrite Hc.
  - intros i b x Hi Hx. rewrite length_fmap.
    apply list_lookup_fmap_Some in Hi as (b' & -> & Hi).
    simpl in Hx. apply list_elem_of_filter in Hx as [Hne Hx].
    rewrite <- (Hp i b' x) by done. unfold hashv_at.
    by rewrite item_at_filter.
  - intros it' [_ ?]%list_elem_of_filter. auto.
Qed.

(** In-place update of an element that keeps its key. *)
Definition elem_update a (g : V → V) (av : addr * V) : addr * V :=
  if decide (av.1 = a) then (a, g av.2) else av.

Lemma ht_update_spec a g h :
  ht_wf h → (∀ v, (a, v) ∈ ht_elems h → key_image (g v) = key_image v) →
  ht_wf (ht_update a g h) ∧
  ht_elems (ht_update a g h) = elem_update a g <$> ht_elems h.
Proof.
  destruct h as [t|]; [|done]. intros [Ha Hn Hb Hc Hp Hh] Hg.
  set (u := λ it : item V,
    if decide (it_addr it = a) then Item a (it_hashv it) (g (it_val it)) else it).
  assert (∀ it, it_addr (u it) = it_addr it) as Hua.
  { intros it. unfold u. by case_decide. }
  assert (∀ it, it_hashv (u it) = it_hashv it) as Huh.
  { intros it. unfold u. by case_decide. }
  assert (∀ x, hashv_at (u <$> items t) x = hashv_at (items t) x) as Hv.
  { intros x. unfold hashv_at, item_at. clear -Hua Huh.
    induction (items t) as [|it l IH]; [done|]. simpl.
    rewrite Hua. case_bool_decide; [by rewrite Huh|done]. }
  assert (it_addr <$> (u <$> items t) = it_addr <$> items t) as Hmap.
  { rewrite <- list_fmap_compose. apply list_fmap_ext. intros i it _. apply Hua. }
  split.
  - constructor; simpl; change (fmap _ (items t)) with (u <$> items t).
    + by rewrite Hmap.
    + by intros ?%fmap_nil_inv.
    + done.
    + by rewrite Hmap.
    + intros i b x. rewrite Hv. apply Hp.
    + intros it (it' & -> & Hin)%list_elem_of_fmap.
      rewrite Huh, Hh by done. f_equal. unfold u. case_decide; [|done].
      symmetry. apply Hg. apply elem_of_ht_elems. by exists it'.
  - simpl. rewrite <- !list_fmap_compose. apply list_fmap_ext.
    intros i it _. unfold elem_update, compose; simpl.
    by destruct (decide (it_addr it = a)).
Qed.

Lemma elem_in_chain t it :
  table_wf t → it ∈ items t →
  ∃ b, buckets t !! HASH_TO_BKT (it_hashv it) (length (buckets t)) = Some b
       ∧ it_addr it ∈ chain b.
Proof.
  intros [Ha Hn Hb Hc Hp Hh] Hin.
  assert (it_addr it ∈ concat (chain <$> buckets t)) as Hcc.
  { rewrite Hc. by apply list_elem_of_fmap_2. }
  apply elem_of_concat in Hcc as (c & Hx & Hcb).
  apply list_elem_of_fmap in Hcb as (b & -> & Hbb).
  apply list_elem_of_lookup in Hbb as [i Hi].
  pose proof (Hp _ _ _ Hi Hx) as Hpl.
  unfold hashv_at in Hpl. rewrite item_at_elem in Hpl by done.
  exists b. by rewrite Hpl.
Qed.

Lemma HASH_FIND_Some key h a v :
  ht_wf h → HASH_FIND key h = Some (a, v) →
  (a, v) ∈ ht_elems h ∧ key_image v = key.
Proof.
  destruct h as [t|]; [|done]. intros _ Hf. unfold HASH_FIND in Hf. simpl in Hf.
  apply bind_Some in Hf as (b & Hb & Hf).
  apply bind_Some in Hf as (a' & Ha & Hf).
  apply bind_Some in Hf as (it & Hit & Hf). simplify_eq.
  apply first_Some in Ha as [_ Hk]. unfold key_matches in Hk.
  rewrite Hit in Hk. apply bool_decide_eq_true in Hk as [_ <-].
  apply item_at_Some in Hit as [Hin <-].
  split; [|done]. apply elem_of_ht_elems. eauto.
Qed.

Lemma HASH_FIND_None key h :
  ht_wf h →
  HASH_FIND key h = None ↔ ∀ a v, (a, v) ∈ ht_elems h → key_image v ≠ key.
Proof.
  intros Hwf. split.
  - destruct h as [t|]; [|intros _ a v Hx; by apply not_elem_of_nil in Hx].
    intros Hf a v (it & Hin & <- & <-)%elem_of_ht_elems Hk.
    pose proof Hwf as [Ha _ _ _ _ Hh].
    destruct (elem_in_chain t it Hwf Hin) as (b & Hb & Hc).
    rewrite Hh, Hk in Hb by done.
    unfold HASH_FIND in Hf. simpl in Hf. rewrite Hb in Hf. simpl in Hf.
    destruct (HASH_FIND_IN_BKT t b key (HASH_JEN key)) as [x|] eqn:E.
    + simpl in Hf. apply first_Some in E as [_ E]. unfold key_matches in E.
      by destruct (item_at (items t) x).
    + apply (proj1 (first_None _ _) E) in Hc.
      unfold key_matches in Hc. rewrite item_at_elem in Hc by done.
      apply bool_decide_eq_false in Hc. apply Hc. split; [|done].
      by rewrite Hh, Hk.
  - intros Hno. destruct (HASH_FIND key h) as [[a v]|] eqn:E; [|done].
    apply HASH_FIND_Some in E as [Hin Hk]; [|done]. by destruct (Hno a v).
Qed.

(** Keys identify elements when every key occurs once. *)
Definition keys_unique h : Prop := ∀ a v a' v',
  (a, v) ∈ ht_elems h → (a', v') ∈ ht_elems h →
  key_image v = key_image v' → a = a' ∧ v = v'.

Lemma HASH_FIND_unique key h a v :
  ht_wf h → keys_unique h →
  HASH_FIND key h = Some (a, v) ↔ (a, v) ∈ ht_elems h ∧ key_image v = key.
Proof.
  intros Hwf Hu. split; [by apply HASH_FIND_Some|]. intros [Hin <-].
  destruct (HASH_FIND (key_image v) h) as [[a' v']|] eqn:E.
  - apply HASH_FIND_Some in E as [Hin' Hk]; [|done].
    by destruct (Hu a v a' v') as [-> ->].
  - by apply (proj1 (HASH_FIND_None _ _ Hwf)) with (a := a) (v := v) in E.
Qed.

Lemma HASH_COUNT_elems h : HASH_COUNT h = Z.of_nat (length (ht_elems h)).
Proof. destruct h as [t|]; simpl; [|done]. by rewrite length_fmap. Qed.

Lemma ht_elems_nil h : ht_wf h → ht_elems h = [] ↔ h = None.
Proof.
  destruct h as [t|]; [|done]. intros [_ Hn _ _ _ _]. simpl.
  split; [|done]. by intros ?%fmap_nil_inv.
Qed.

(** An address that no element has. *)
Definition fresh_addr h : addr := S (max_list (ht_addrs h)).

Lemma fresh_addr_not_in h : fresh_addr h ∉ ht_addrs h.
Proof.
  unfold fresh_addr. intros Hin. apply max_list_elem_of_le in Hin. lia.
Qed.
End client.

#[export] Hint Resolve fresh_addr_not_in ht_addrs_NoDup : horse.

#[global] Arguments HASH_ADD : simpl never.
#[global] Arguments HASH_FIND : simpl never.
#[global] Arguments HASH_DELETE : simpl never.
#[global] Arguments ht_update : simpl never.
#[global] Arguments HASH_JEN : simpl never.
#[global] Arguments ht_elems : simpl never.
#[global] Arguments ht_wf : simpl never.

(** A concrete element type for the witness: integers keyed by their bytes. *)
Definition sample_word : Type := Z.
#[export] Instance sample_word_keyed : Keyed sample_word := le_bytes 4.

(** C34. The hash table keeps its contract through insertion (with bucket
    expansion) and deletion: from a well-formed table, adding a fresh element
    appends it to the application order, deleting removes exactly that element,
    and [HASH_FIND] returns an element with the key if and only if there is
    one. *)
Theorem uthash_contract {V : Type} `{Keyed V} (h : uthash V) a v key :
  ht_wf h → a ∉ ht_addrs h →
  ht_wf (HASH_ADD a v h) ∧
  ht_elems (HASH_ADD a v h) = ht_elems h ++ [(a, v)] ∧
  ht_wf (HASH_DELETE a (HASH_ADD a v h)) ∧
  ht_elems (HASH_DELETE a (HASH_ADD a v h)) = ht_elems h ∧
  (∀ x w, HASH_FIND key (HASH_ADD a v h) = Some (x, w) →
     (x, w) ∈ ht_elems h ++ [(a, v)] ∧ key_image w = key) ∧
  (HASH_FIND key (HASH_ADD a v h) = None ↔
     ∀ x w, (x, w) ∈ ht_elems h ++ [(a, v)] → key_image w ≠ key).
Proof.
  intros Hwf Ha. destruct (HASH_ADD_spec a v h Hwf Ha) as [Hw He].
  destruct (HASH_DELETE_spec a (HASH_ADD a v h) Hw) as [Hw' He'].
  do 3 (split; [done|]). split; [|split].
  - rewrite He', He, filter_app, filter_cons_False by (simpl; tauto).
    rewrite filter_nil, app_nil_r. apply filter_all, Forall_forall.
    intros [x w] Hin. simpl. intros ->. apply Ha. unfold ht_addrs.
    apply list_elem_of_fmap. by exists (a, w).
  - intros x w Hf. rewrite <- He. by apply HASH_FIND_Some.
  - rewrite <- He. by apply HASH_FIND_None.
Qed.

Lemma uthash_contract_witness :
  ht_elems (HASH_DELETE 1 (HASH_ADD (V := sample_word) 1 5 None)) = [] ∧
  HASH_FIND (le_bytes 4 5) (HASH_ADD (V := sample_word) 1 5 None) = Some (1%nat, 5).
Proof.
  destruct (uthash_contract (V := sample_word) None 1 5 (le_bytes 4 5))
    as (_ & _ & _ & H & _); [done|apply not_elem_of_nil|].
  split; [exact H|by vm_compute].
Defined.
