(* ===== verification/Action.v ===== *)
(** * Action: actions, action lists and action sets

    Models [lib/action.c], [lib/action_list.c], [lib/action_set.c] and their
    headers.  A [struct action] is its type and the 24 bytes of its union; the
    constructors write through the union member they name and leave the other
    bytes as they were.  An action list is the list its [utlist] links make; an
    action set is a [uthash] table keyed by the action type.  The theorems show
    that the set behaves as a finite map from action types to actions: adding
    overwrites, merging is right-biased, iteration has no duplicates. *)

From stdpp Require Import prelude gmap.
From S2P Require Import Prelude Uthash.

(** ** Constants *)

Definition ETH_LEN : nat := 6.
Definition IPV6_LEN : nat := 16.
Definition MAX_ACTION_SET : Z := 14.

(** [enum action_set_order] *)
Definition ACT_METER : Z := 0.
Definition ACT_COPY_TTL_INWARDS : Z := 1.
Definition ACT_POP_VLAN : Z := 2.
Definition ACT_POP_MPLS : Z := 3.
Definition ACT_PUSH_MPLS : Z := 4.
Definition ACT_PUSH_VLAN : Z := 5.
Definition ACT_COPY_TTL_OUTWARDS : Z := 6.
Definition ACT_DECREMENT_TTL : Z := 7.
Definition ACT_SET_MPLS_TTL : Z := 8.
Definition ACT_DECREMENT_MPLS_TTL : Z := 9.
Definition ACT_SET_FIELD : Z := 10.
Definition ACT_QOS : Z := 11.
Definition ACT_GROUP : Z := 12.
Definition ACT_OUTPUT : Z := 13.

(** [enum set_field_type]: the enumerators in order, and their values. *)
Inductive set_field_type :=
| SET_IN_PORT | SET_METADATA | SET_TUNNEL_ID | SET_ETH_TYPE | SET_ETH_DST
| SET_ETH_SRC | SET_VLAN_ID | SET_VLAN_PCP | SET_MPLS_LABEL | SET_MPLS_TC
| SET_MPLS_BOS | SET_IP_DSCP | SET_IP_ECN | SET_IP_PROTO | SET_IPV4_DST
| SET_IPV4_SRC | SET_ICMPV4_TYPE | SET_ICMPV4_CODE | SET_TCP_DST | SET_TCP_SRC
| SET_UDP_DST | SET_UDP_SRC | SET_SCTP_DST | SET_SCTP_SRC | SET_ARP_OP
| SET_ARP_SPA | SET_ARP_TPA | SET_ARP_SHA | SET_ARP_THA | SET_IPV6_DST
| SET_IPV6_SRC | SET_IPV6_FLABEL | SET_ICMPV6_TYPE | SET_ICMPV6_CODE
| SET_IPV6_ND_TARGET | SET_IPV6_ND_SLL | SET_IPV6_ND_TLL.

#[export] Instance set_field_type_eq_dec : EqDecision set_field_type.
Proof. solve_decision. Defined.

Definition set_field_types : list set_field_type :=
  [SET_IN_PORT; SET_METADATA; SET_TUNNEL_ID; SET_ETH_TYPE; SET_ETH_DST;
   SET_ETH_SRC; SET_VLAN_ID; SET_VLAN_PCP; SET_MPLS_LABEL; SET_MPLS_TC;
   SET_MPLS_BOS; SET_IP_DSCP; SET_IP_ECN; SET_IP_PROTO; SET_IPV4_DST;
   SET_IPV4_SRC; SET_ICMPV4_TYPE; SET_ICMPV4_CODE; SET_TCP_DST; SET_TCP_SRC;
   SET_UDP_DST; SET_UDP_SRC; SET_SCTP_DST; SET_SCTP_SRC; SET_ARP_OP;
   SET_ARP_SPA; SET_ARP_TPA; SET_ARP_SHA; SET_ARP_THA; SET_IPV6_DST;
   SET_IPV6_SRC; SET_IPV6_FLABEL; SET_ICMPV6_TYPE; SET_ICMPV6_CODE;
   SET_IPV6_ND_TARGET; SET_IPV6_ND_SLL; SET_IPV6_ND_TLL].

Definition set_field_value (f : set_field_type) : Z :=
  match list_find (λ g, g = f) set_field_types with
  | Some (i, _) => Z.of_nat i
  | None => -1
  end.

Definition set_field_of_value (z : Z) : option set_field_type :=
  if decide (0 ≤ z) then set_field_types !! Z.to_nat z else None.

Lemma set_field_of_value_value f : set_field_of_value (set_field_value f) = Some f.
Proof. by destruct f. Qed.

(** ** struct action *)

(** [act_union] is the memory of the anonymous union (24 bytes: the
    [set_field] member has [field] at offset 0 and its own union at 8). *)
Record action := mk_action { act_type : Z; act_union : list Z }.
#[export] Instance eta_action : Eta action :=
  λ a, mk_action (act_type a) (act_union a).
#[export] Instance action_eq_dec : EqDecision action.
Proof. solve_decision. Defined.

Definition UNION_SIZE : nat := 24.
Definition SET_FIELD_OFF : nat := 8.

Definition action_wf (a : action) : Prop :=
  in_width 16 (act_type a) ∧ bytes_wf UNION_SIZE (act_union a).

(** Store [bs] at offset [off] of the union. *)
Definition patch (off : nat) (bs l : list Z) : list Z :=
  take off l ++ bs ++ drop (off + length bs) l.

Definition union_read (off n : nat) (a : action) : list Z :=
  take n (drop off (act_union a)).

(** Members of the union as the code reads them. *)
Definition act_meter_id (a : action) : Z := le_val (union_read 0 4 a).
Definition act_out_port (a : action) : Z := le_val (union_read 0 4 a).
Definition act_group_id (a : action) : Z := le_val (union_read 0 4 a).
Definition act_new_ttl (a : action) : Z := le_val (union_read 0 1 a).
Definition act_eth_type (a : action) : Z := le_val (union_read 0 2 a).
Definition act_field (a : action) : Z := le_val (union_read 0 1 a).
Definition act_u8_field (a : action) : Z := le_val (union_read SET_FIELD_OFF 1 a).
Definition act_u16_field (a : action) : Z := le_val (union_read SET_FIELD_OFF 2 a).
Definition act_u32_field (a : action) : Z := le_val (union_read SET_FIELD_OFF 4 a).
Definition act_u64_field (a : action) : Z := le_val (union_read SET_FIELD_OFF 8 a).
Definition act_eth_addr (a : action) : list Z := union_read SET_FIELD_OFF ETH_LEN a.
Definition act_ipv6_addr (a : action) : list Z := union_read SET_FIELD_OFF IPV6_LEN a.

(** ** Constructors ([lib/action.c]) *)

Definition action_meter (a : action) (meter_id : Z) : action :=
  mk_action ACT_METER (patch 0 (le_bytes 4 meter_id) (act_union a)).
Definition action_copy_ttl_in (a : action) : action :=
  a <| act_type := ACT_COPY_TTL_INWARDS |>.
Definition action_pop_vlan (a : action) : action :=
  a <| act_type := ACT_POP_VLAN |>.
Definition action_pop_mpls (a : action) (eth_type : Z) : action :=
  mk_action ACT_POP_MPLS (patch 0 (le_bytes 2 eth_type) (act_union a)).
Definition action_push_vlan (a : action) (eth_type : Z) : action :=
  mk_action ACT_PUSH_VLAN (patch 0 (le_bytes 2 eth_type) (act_union a)).
(** The source stores [ACT_POP_MPLS] here. *)
Definition action_push_mpls (a : action) (eth_type : Z) : action :=
  mk_action ACT_POP_MPLS (patch 0 (le_bytes 2 eth_type) (act_union a)).
Definition action_copy_ttl_out (a : action) : action :=
  a <| act_type := ACT_COPY_TTL_OUTWARDS |>.
Definition action_dec_ttl (a : action) : action :=
  a <| act_type := ACT_DECREMENT_TTL |>.
Definition action_dec_mpls_ttl (a : action) : action :=
  a <| act_type := ACT_DECREMENT_MPLS_TTL |>.
Definition action_mpls_ttl (a : action) (new_ttl : Z) : action :=
  mk_action ACT_SET_MPLS_TTL (patch 0 (le_bytes 1 new_ttl) (act_union a)).
Definition set_field (a : action) (field : Z) : action :=
  mk_action ACT_SET_FIELD (patch 0 (le_bytes 1 field) (act_union a)).
Definition set_field_bytes (a : action) (field : Z) (bs : list Z) : action :=
  (set_field a field) <| act_union ::= patch SET_FIELD_OFF bs |>.
Definition action_set_field_u8 (a : action) (field value : Z) : action :=
  set_field_bytes a field (le_bytes 1 value).
Definition action_set_field_u16 (a : action) (field value : Z) : action :=
  set_field_bytes a field (le_bytes 2 value).
Definition action_set_field_u32 (a : action) (field value : Z) : action :=
  set_field_bytes a field (le_bytes 4 value).
Definition action_set_field_u64 (a : action) (field value : Z) : action :=
  set_field_bytes a field (le_bytes 8 value).
Definition action_set_field_eth_addr (a : action) (field : Z) (addr : list Z)
  : action := set_field_bytes a field (take ETH_LEN addr).
Definition action_set_field_ipv6_addr (a : action) (field : Z) (addr : list Z)
  : action := set_field_bytes a field (take IPV6_LEN addr).
Definition action_output (a : action) (port : Z) : action :=
  mk_action ACT_OUTPUT (patch 0 (le_bytes 4 port) (act_union a)).
Definition action_group (a : action) (group_id : Z) : action :=
  mk_action ACT_GROUP (patch 0 (le_bytes 4 group_id) (act_union a)).

(** ** Action lists ([lib/action_list.c]) *)

Definition action_list : Type := list action.
Definition action_list_init : action_list := [].
Definition action_list_clean (al : action_list) : action_list := [].
Definition action_list_add (al : action_list) (act : action) : action_list :=
  al ++ [act].

(** ** Action sets ([lib/action_set.c]) *)

#[export] Instance action_keyed : Keyed action := λ a, le_bytes 2 (act_type a).

Definition action_set : Type := uthash action.
Definition action_set_init : action_set := None.
(** [HASH_ITER] with [HASH_DEL] of every element. *)
Definition action_set_clean (s : action_set) : action_set :=
  foldl (λ s' av, HASH_DELETE av.1 s') s (ht_elems s).

(** The action is copied to a fresh heap object in both branches. *)
Definition action_set_add (s : action_set) (act : action) : action_set :=
  match HASH_FIND (le_bytes 2 (act_type act)) s with
  | Some _ => (HASH_REPLACE (fresh_addr s) act s).1
  | None => HASH_ADD (fresh_addr s) act s
  end.

Definition action_set_merge (s_orig s_merge : action_set) : action_set :=
  foldl (λ s av, action_set_add s av.2) s_orig (ht_elems s_merge).

Definition action_set_action (s : action_set) (type : Z) : option action :=
  snd <$> HASH_FIND (le_bytes 2 type) s.

(** ** Union accesses *)

Lemma patch_length off bs l :
  (off + length bs ≤ length l)%nat → length (patch off bs l) = length l.
Proof.
  intros. unfold patch. rewrite !length_app, length_take, length_drop. lia.
Qed.

Lemma patch_read off bs l :
  (off + length bs ≤ length l)%nat →
  take (length bs) (drop off (patch off bs l)) = bs.
Proof.
  intros. unfold patch. rewrite drop_app_length' by (rewrite length_take; lia).
  apply take_app_length.
Qed.

(** A store does not disturb a read that ends before it. *)
Lemma patch_read_before off bs l off' n :
  (off' + n ≤ off)%nat → (off ≤ length l)%nat →
  take n (drop off' (patch off bs l)) = take n (drop off' l).
Proof.
  intros. unfold patch.
  rewrite drop_app_le by (rewrite length_take; lia).
  rewrite take_app_le by (rewrite length_drop, length_take; lia).
  rewrite skipn_firstn_comm, take_take. f_equal. lia.
Qed.

Lemma patch_wf n off bs l :
  bytes_wf n l → Forall byte_wf bs → (off + length bs ≤ n)%nat →
  bytes_wf n (patch off bs l).
Proof.
  intros [Hl Hf] Hb Hle. split.
  - rewrite patch_length by lia. done.
  - unfold patch. apply Forall_app. split; [by apply Forall_take|].
    apply Forall_app. split; [done|by apply Forall_drop].
Qed.

#[export] Hint Resolve patch_wf : horse.

(** ** The action set as a finite map *)

Lemma action_key_inj t1 t2 :
  in_width 16 t1 → in_width 16 t2 → le_bytes 2 t1 = le_bytes 2 t2 → t1 = t2.
Proof.
  intros H1 H2 He. rewrite <- (wrap_small 16 t1 H1), <- (wrap_small 16 t2 H2).
  change 16 with (8 * Z.of_nat 2). by rewrite <- !le_val_bytes, He.
Qed.

Record action_set_wf (s : action_set) : Prop := {
  asw_table : ht_wf s;
  asw_unique : keys_unique s;
  asw_types : ∀ x act, (x, act) ∈ ht_elems s → in_width 16 (act_type act)
}.

Lemma action_set_action_Some s ty act :
  action_set_wf s → in_width 16 ty →
  action_set_action s ty = Some act ↔
  ∃ x, (x, act) ∈ ht_elems s ∧ act_type act = ty.
Proof.
  intros [Hwf Hu Ht] Hty. unfold action_set_action. rewrite fmap_Some. split.
  - intros ([x a] & [Hin Hk]%HASH_FIND_Some & ->); [|done]. exists x.
    split; [done|]. apply action_key_inj; eauto.
  - intros (x & Hin & <-). exists (x, act). split; [|done].
    by apply HASH_FIND_unique.
Qed.

Lemma action_set_elems_add s act :
  action_set_wf s →
  ht_wf (action_set_add s act) ∧
  ht_elems (action_set_add s act)
  = filter (λ av, key_image av.2 ≠ key_image act) (ht_elems s)
    ++ [(fresh_addr s, act)].
Proof.
  intros [Hwf Hu Ht]. unfold action_set_add, HASH_REPLACE.
  change (le_bytes 2 (act_type act)) with (key_image act).
  destruct (HASH_FIND (key_image act) s) as [[x old]|] eqn:E; simpl.
  - apply HASH_FIND_Some in E as [Hin Hk]; [|done].
    destruct (HASH_DELETE_spec x s Hwf) as [Hwf' He].
    destruct (HASH_ADD_spec (fresh_addr s) act (HASH_DELETE x s)) as [Hw He'];
      [done| |].
    + unfold ht_addrs. rewrite He. intros Hx.
      apply list_elem_of_fmap in Hx as (av & Hav & [_ Hx]%list_elem_of_filter).
      eapply fresh_addr_not_in. rewrite Hav. unfold ht_addrs.
      by apply list_elem_of_fmap_2.
    + split; [done|]. rewrite He', He. f_equal.
      apply filter_ext_in. intros [y a] Hy. simpl. split.
      * intros Hne Hk'. destruct (Hu y a x old); congruence.
      * intros Hne ->. assert (a = old) as ->; [|congruence].
        pose proof (ht_addrs_NoDup s Hwf) as Hnd.
        by eapply NoDup_fst_inj.
  - destruct (HASH_ADD_spec (fresh_addr s) act s) as [Hw He];
      [done|apply fresh_addr_not_in|].
    split; [done|]. rewrite He. f_equal. symmetry. apply filter_all.
    apply Forall_forall. intros [y a] Hy. simpl.
    by eapply (proj1 (HASH_FIND_None _ _ Hwf)) in E.
Qed.

Lemma action_set_add_wf s act :
  action_set_wf s → in_width 16 (act_type act) →
  action_set_wf (action_set_add s act).
Proof.
  intros Hs Hty. destruct (action_set_elems_add s act Hs) as [Hwf He].
  destruct Hs as [Hwf0 Hu Ht]. constructor; [done| |].
  - intros x a x' a'. rewrite He, !elem_of_app, !list_elem_of_singleton.
    rewrite !list_elem_of_filter. simpl.
    intros [[Hk1 H1]|[= -> ->]] [[Hk2 H2]|[= -> ->]] Hkk; eauto;
      by rewrite Hkk in * || by rewrite <- Hkk in *.
  - intros x a. rewrite He, elem_of_app, list_elem_of_singleton.
    intros [[_ Hin]%list_elem_of_filter|Heq]; simplify_eq; eauto.
Qed.

Lemma action_set_init_wf : action_set_wf action_set_init.
Proof.
  split; [done| |]; cbn.
  - intros x a x' a' Hin. by apply not_elem_of_nil in Hin.
  - intros x a Hin. by apply not_elem_of_nil in Hin.
Qed.

(** The abstract action set: at most one action per type. *)
Definition action_set_map (s : action_set) : gmap Z action :=
  list_to_map ((λ av, (act_type av.2, av.2)) <$> ht_elems s).

Lemma action_set_map_lookup s ty act :
  action_set_wf s →
  action_set_map s !! ty = Some act ↔
  ∃ x, (x, act) ∈ ht_elems s ∧ act_type act = ty.
Proof.
  intros [Hwf Hu Ht]. unfold action_set_map.
  rewrite <- elem_of_list_to_map.
  - rewrite list_elem_of_fmap. split.
    + intros ([x a] & Heq & Hin). simplify_eq/=. eauto.
    + intros (x & Hin & <-). by exists (x, act).
  - rewrite <- list_fmap_compose. apply NoDup_fmap_2_strong.
    + intros [x a] [x' a'] H1 H2 Heq. unfold compose in Heq. simpl in Heq.
      destruct (Hu x a x' a') as [-> ->]; auto.
      unfold key_image, action_keyed. by rewrite Heq.
    + eapply NoDup_fmap_1. by apply ht_addrs_NoDup.
Qed.

Lemma action_set_map_action s ty :
  action_set_wf s → in_width 16 ty →
  action_set_map s !! ty = action_set_action s ty.
Proof.
  intros Hs Hty. apply option_eq. intros act.
  by rewrite action_set_map_lookup, action_set_action_Some.
Qed.

Lemma action_set_map_add s act :
  action_set_wf s → in_width 16 (act_type act) →
  action_set_map (action_set_add s act) = <[act_type act := act]> (action_set_map s).
Proof.
  intros Hs Hty. apply map_eq. intros ty. apply option_eq. intros a.
  rewrite action_set_map_lookup by by apply action_set_add_wf.
  rewrite lookup_insert_Some, action_set_map_lookup by done.
  destruct (action_set_elems_add s act Hs) as [_ ->].
  setoid_rewrite elem_of_app. setoid_rewrite list_elem_of_singleton.
  setoid_rewrite list_elem_of_filter. simpl.
  destruct Hs as [_ Hu Ht]. split.
  - intros (x & [[Hk Hin]|Heq] & Hta); simplify_eq; [right|by left].
    split; [|eauto]. intros Heq. apply Hk. unfold key_image, action_keyed.
    by rewrite Heq.
  - intros [[<- <-]|[Hne (x & Hin & <-)]]; [eauto|].
    exists x. split; [|done]. left. split; [|done].
    intros Hk. apply Hne. symmetry.
    apply action_key_inj; eauto.
Qed.

(** Merging adds the actions of the second set one by one. *)
Lemma action_set_merge_list (l : list (addr * action)) s :
  action_set_wf s → Forall (λ av, in_width 16 (act_type av.2)) l →
  NoDup ((λ av, act_type av.2) <$> l) →
  let s' := foldl (λ s av, action_set_add s av.2) s l in
  action_set_wf s' ∧
  action_set_map s' =
    list_to_map ((λ av, (act_type av.2, av.2)) <$> l) ∪ action_set_map s.
Proof.
  intros Hs Hl. revert s Hs.
  induction Hl as [|[x act] l Hty Hl IH]; intros s Hs Hnd; simpl in *.
  - split; [done|]. by rewrite (left_id_L ∅ (∪)).
  - apply NoDup_cons in Hnd as [Hnot Hnd].
    destruct (IH (action_set_add s act)) as [Hwf Hm];
      [by apply action_set_add_wf|done|].
    split; [done|]. rewrite Hm, action_set_map_add by done.
    rewrite <- insert_union_r, insert_union_l; [done|].
    apply not_elem_of_list_to_map_1. rewrite <- list_fmap_compose. done.
Qed.

Lemma action_set_types_NoDup s :
  action_set_wf s → NoDup ((λ av, act_type av.2) <$> ht_elems s).
Proof.
  intros [Hwf Hu Ht]. apply NoDup_fmap_2_strong.
  - intros [x a] [x' a'] H1 H2 Heq. simpl in Heq.
    destruct (Hu x a x' a') as [-> ->]; auto.
    unfold key_image, action_keyed. by rewrite Heq.
  - eapply NoDup_fmap_1. by apply ht_addrs_NoDup.
Qed.

Lemma action_set_merge_spec s s' :
  action_set_wf s → action_set_wf s' →
  action_set_wf (action_set_merge s s') ∧
  action_set_map (action_set_merge s s') = action_set_map s' ∪ action_set_map s.
Proof.
  intros Hs Hs'. apply action_set_merge_list; [done| |].
  - apply Forall_forall. intros [x a] Hin. simpl. by eapply asw_types.
  - by apply action_set_types_NoDup.
Qed.

(** A set of two actions for the witnesses. *)
Definition blank_action : action := mk_action 0 (replicate UNION_SIZE 0).
Definition sample_set : action_set :=
  action_set_add (action_set_add action_set_init (action_pop_vlan blank_action))
    (action_output blank_action 7).

Lemma sample_set_wf : action_set_wf sample_set.
Proof.
  unfold sample_set. apply action_set_add_wf; [apply action_set_add_wf|];
    [apply action_set_init_wf|..]; apply (bool_decide_unpack _); by vm_compute.
Qed.

(** [action_set_add] implements insertion in a finite map from action types
    to actions: the new action replaces the one of its type, if any, and the
    others stay; the hash table stays well formed with one action per type. *)
Theorem action_set_add_refines s act :
  action_set_wf s → in_width 16 (act_type act) →
  action_set_wf (action_set_add s act) ∧
  action_set_map (action_set_add s act) = <[act_type act := act]> (action_set_map s) ∧
  ∀ ty, in_width 16 ty →
    action_set_action (action_set_add s act) ty
    = if decide (ty = act_type act) then Some act else action_set_action s ty.
Proof.
  intros Hs Hty. split; [by apply action_set_add_wf|].
  split; [by apply action_set_map_add|]. intros ty Hw.
  rewrite <- !action_set_map_action by auto using action_set_add_wf.
  rewrite action_set_map_add by done. case_decide; subst.
  - by rewrite lookup_insert_eq.
  - by rewrite lookup_insert_ne.
Qed.

Lemma action_set_add_refines_witness :
  action_set_action (action_set_add sample_set (action_output blank_action 9)) ACT_OUTPUT
    = Some (action_output blank_action 9).
Proof.
  destruct (action_set_add_refines sample_set (action_output blank_action 9) sample_set_wf)
    as (_ & _ & Hl); [apply (bool_decide_unpack _); by vm_compute|].
  rewrite (Hl ACT_OUTPUT); [done|]. apply (bool_decide_unpack _). by vm_compute.
Defined.

(** [action_set_merge] (the write-actions instruction) is the right-biased
    union of the two sets. *)
Theorem action_set_merge_refines s s' :
  action_set_wf s → action_set_wf s' →
  action_set_wf (action_set_merge s s') ∧
  action_set_map (action_set_merge s s') = action_set_map s' ∪ action_set_map s.
Proof. apply action_set_merge_spec. Qed.

Lemma action_set_merge_refines_witness :
  action_set_wf (action_set_merge sample_set sample_set) ∧
  action_set_map (action_set_merge sample_set sample_set)
    = action_set_map sample_set ∪ action_set_map sample_set.
Proof. apply action_set_merge_refines; apply sample_set_wf. Defined.

Lemma read_back off n bs a ty :
  length (act_union a) = UNION_SIZE → length bs = n → (off + n ≤ UNION_SIZE)%nat →
  union_read off n (mk_action ty (patch off bs (act_union a))) = bs.
Proof.
  intros Hl <- Hle. unfold union_read. cbn [act_union]. apply patch_read. lia.
Qed.

(** What an action constructor stores is what the datapath reads back from
    the union (ports, groups, Ethernet types, set-field values), within the
    field's width. *)
Theorem action_fields_read_back a v field addr6 :
  action_wf a → in_width 32 v → in_width 8 field → bytes_wf ETH_LEN addr6 →
  act_out_port (action_output a v) = v ∧
  act_group_id (action_group a v) = v ∧
  act_meter_id (action_meter a v) = v ∧
  act_eth_type (action_push_vlan a v) = u16 v ∧
  act_field (action_set_field_u32 a field v) = field ∧
  act_u32_field (action_set_field_u32 a field v) = v ∧
  act_u16_field (action_set_field_u16 a field v) = u16 v ∧
  act_u8_field (action_set_field_u8 a field v) = u8 v ∧
  act_eth_addr (action_set_field_eth_addr a field addr6) = addr6.
Proof.
  intros [_ [Hl Hf]] Hv Hfd [Ha _].
  assert (length (patch 0 (le_bytes 1 field) (act_union a)) = UNION_SIZE) as Hl1.
  { rewrite patch_length; rewrite ?length_le_bytes; unfold UNION_SIZE in *; lia. }
  assert (∀ n bs, length bs = n → (n ≤ 16)%nat →
    union_read SET_FIELD_OFF n (set_field_bytes a field bs) = bs) as Hsf.
  { intros n bs Hn Hle. unfold set_field_bytes, set_field, setf.
    apply (read_back SET_FIELD_OFF n bs (mk_action _ _)); cbn [act_union]; auto.
    unfold SET_FIELD_OFF, UNION_SIZE; lia. }
  unfold act_out_port, act_group_id, act_meter_id, act_eth_type, act_field,
    act_u32_field, act_u16_field, act_u8_field, act_eth_addr.
  repeat split.
  1-4: unfold action_output, action_group, action_meter, action_push_vlan;
       rewrite read_back, le_val_bytes by
         (rewrite ?length_le_bytes; unfold UNION_SIZE in *; lia || done);
       first [done | by apply wrap_small].
  - unfold action_set_field_u32, set_field_bytes, set_field, union_read, setf.
    cbn [act_union]. rewrite patch_read_before.
    + rewrite (patch_read 0 (le_bytes 1 field)), le_val_bytes.
      * by apply wrap_small.
      * rewrite length_le_bytes, Hl. unfold UNION_SIZE; lia.
    + unfold SET_FIELD_OFF; lia.
    + rewrite Hl1. unfold SET_FIELD_OFF, UNION_SIZE; lia.
  - unfold action_set_field_u32. rewrite Hsf, le_val_bytes by (done || lia).
    by apply wrap_small.
  - unfold action_set_field_u16. by rewrite Hsf, le_val_bytes by (done || lia).
  - unfold action_set_field_u8. by rewrite Hsf, le_val_bytes by (done || lia).
  - unfold action_set_field_eth_addr. rewrite take_ge by (unfold ETH_LEN in *; lia).
    apply Hsf; [done|unfold ETH_LEN; lia].
Qed.

Lemma action_fields_read_back_witness :
  act_out_port (action_output blank_action 4294967293) = 4294967293 ∧
  act_u16_field (action_set_field_u16 blank_action 7 65) = 65.
Proof.
  destruct (action_fields_read_back blank_action 4294967293 7 [1; 2; 3; 4; 5; 6])
    as (H & _); [by split; apply (bool_decide_unpack _); vm_compute|
    by apply (bool_decide_unpack _); vm_compute..|].
  split; [exact H|by vm_compute].
Defined.

(** [action_push_mpls] builds a pop-MPLS action (action.c:30 stores
    [ACT_POP_MPLS]): it is indistinguishable from [action_pop_mpls]. *)
Theorem push_mpls_is_pop_mpls a eth_type :
  action_push_mpls a eth_type = action_pop_mpls a eth_type.
Proof. done. Qed.
