(* ===== verification/Instruction.v ===== *)
(** * Instruction: instructions and instruction sets

    Models [lib/instruction.c], [lib/instruction_set.c] and their headers: the
    five instruction structs with their header type, the constructors
    ([inst_*]), and the instruction set with its bitmap of active
    instructions.  The main fact is that the bitmap and the five [add_*]
    functions do not interfere: an instruction is active exactly when it was
    added, and adding one leaves the contents of the others alone. *)

From stdpp Require Import prelude.
From S2P Require Import Prelude Uthash Action.

(** [enum instruction_type] *)
Definition INSTRUCTION_APPLY_ACTIONS : Z := 1.
Definition INSTRUCTION_CLEAR_ACTIONS : Z := 2.
Definition INSTRUCTION_WRITE_ACTIONS : Z := 4.
Definition INSTRUCTION_WRITE_METADATA : Z := 8.
Definition INSTRUCTION_GOTO_TABLE : Z := 16.

Record apply_actions := ApplyActions { aa_type : Z; aa_actions : action_list }.
Record clear_actions := ClearActions { ca_type : Z }.
Record write_actions := WriteActions { wa_type : Z; wa_actions : action_set }.
Record write_metadata := WriteMetadata {
  wm_type : Z; wm_metadata : Z; wm_metadata_mask : Z }.
Record goto_table := GotoTable { gt_type : Z; gt_table_id : Z }.

#[export] Instance eta_apply_actions : Eta apply_actions :=
  λ r, ApplyActions (aa_type r) (aa_actions r).
#[export] Instance eta_write_actions : Eta write_actions :=
  λ r, WriteActions (wa_type r) (wa_actions r).

(** ** Constructors ([lib/instruction.c]) *)

Definition inst_apply_actions (al : action_list) : apply_actions :=
  ApplyActions INSTRUCTION_APPLY_ACTIONS al.
Definition inst_clear_actions : clear_actions :=
  ClearActions INSTRUCTION_CLEAR_ACTIONS.
Definition inst_write_actions (s : action_set) : write_actions :=
  WriteActions INSTRUCTION_WRITE_ACTIONS s.
Definition inst_write_metadata (metadata metadata_mask : Z) : write_metadata :=
  WriteMetadata INSTRUCTION_WRITE_METADATA metadata metadata_mask.
Definition inst_goto_table (table_id : Z) : goto_table :=
  GotoTable INSTRUCTION_GOTO_TABLE table_id.
Definition apply_actions_clean (aa : apply_actions) : apply_actions :=
  aa <| aa_actions ::= action_list_clean |>.
Definition write_actions_clean (wa : write_actions) : write_actions :=
  wa <| wa_actions ::= action_set_clean |>.

(** ** struct instruction_set *)

Record instruction_set := InstructionSet {
  active : Z;
  apply_act : apply_actions;
  clear_act : clear_actions;
  write_act : write_actions;
  write_meta : write_metadata;
  gt_table : goto_table
}.
#[export] Instance eta_instruction_set : Eta instruction_set := λ s,
  InstructionSet (active s) (apply_act s) (clear_act s) (write_act s)
    (write_meta s) (gt_table s).

(** All bytes zero, as [memset] leaves the set of a new flow. *)
Definition instruction_set_zero : instruction_set :=
  InstructionSet 0 (ApplyActions 0 []) (ClearActions 0) (WriteActions 0 None)
    (WriteMetadata 0 0 0) (GotoTable 0 0).

Definition instruction_set_init (s : instruction_set) : instruction_set :=
  s <| active := 0 |>
    <| apply_act; aa_actions := action_list_init |>
    <| write_act; wa_actions := action_set_init |>.

Definition add_apply_actions (s : instruction_set) (act : apply_actions) :=
  s <| active ::= Z.lor INSTRUCTION_APPLY_ACTIONS |> <| apply_act := act |>.
Definition add_clear_actions (s : instruction_set) (act : clear_actions) :=
  s <| active ::= Z.lor INSTRUCTION_CLEAR_ACTIONS |> <| clear_act := act |>.
Definition add_write_actions (s : instruction_set) (act : write_actions) :=
  s <| active ::= Z.lor INSTRUCTION_WRITE_ACTIONS |> <| write_act := act |>.
Definition add_write_metadata (s : instruction_set) (act : write_metadata) :=
  s <| active ::= Z.lor INSTRUCTION_WRITE_METADATA |> <| write_meta := act |>.
Definition add_goto_table (s : instruction_set) (act : goto_table) :=
  s <| active ::= Z.lor INSTRUCTION_GOTO_TABLE |> <| gt_table := act |>.

Definition instruction_set_clean (s : instruction_set) : instruction_set :=
  s <| apply_act ::= apply_actions_clean |>
    <| write_act ::= write_actions_clean |>.

Definition instruction_is_active (s : instruction_set) (type : Z) : bool :=
  negb (Z.land (active s) type =? 0).

(** ** The bitmap *)

(** The five types are the powers of two below 32. *)
Definition is_instruction_type (ty : Z) : Prop := ∃ k, 0 ≤ k < 5 ∧ ty = 2 ^ k.

Lemma instruction_is_active_bit s k :
  0 ≤ k → instruction_is_active s (2 ^ k) = Z.testbit (active s) k.
Proof.
  intros Hk. unfold instruction_is_active.
  destruct (Z.testbit (active s) k) eqn:E.
  - destruct (Z.eqb_spec (Z.land (active s) (2 ^ k)) 0) as [H0|]; [|done].
    apply (f_equal (λ z, Z.testbit z k)) in H0.
    rewrite Z.land_spec, E, Z.pow2_bits_true, Z.bits_0 in H0 by done. done.
  - destruct (Z.eqb_spec (Z.land (active s) (2 ^ k)) 0) as [|H0]; [done|].
    destruct H0. apply Z.bits_inj'. intros i Hi.
    rewrite Z.land_spec, Z.bits_0, Z.pow2_bits_eqb by done.
    destruct (Z.eqb_spec k i) as [<-|]; [by rewrite E|apply andb_false_r].
Qed.

Lemma is_active_lor s s' ty ty' :
  is_instruction_type ty → is_instruction_type ty' →
  active s' = Z.lor ty (active s) →
  instruction_is_active s' ty' = bool_decide (ty' = ty) || instruction_is_active s ty'.
Proof.
  intros (k & Hk & ->) (k' & Hk' & ->) Ha.
  rewrite !instruction_is_active_bit, Ha, Z.lor_spec, Z.pow2_bits_eqb by lia.
  f_equal. destruct (Z.eqb_spec k k') as [->|Hne].
  - by rewrite bool_decide_true.
  - rewrite bool_decide_false; [done|]. intros Heq.
    apply Hne. symmetry. eapply Z.pow_inj_r; eauto; lia.
Qed.

Ltac inst_type := unfold is_instruction_type;
  (exists 0; split; [lia|reflexivity]) || (exists 1; split; [lia|reflexivity])
  || (exists 2; split; [lia|reflexivity]) || (exists 3; split; [lia|reflexivity])
  || (exists 4; split; [lia|reflexivity]).

#[export] Hint Extern 1 (is_instruction_type _) => inst_type : horse.

(** The five [add_*] functions do not interfere: after adding an
    instruction it is active, every other one is active exactly when it was
    before, and the contents of the others are unchanged. *)
Theorem add_instruction_active s aa ca wa wm gt ty :
  is_instruction_type ty →
  instruction_is_active (add_apply_actions s aa) ty
    = bool_decide (ty = INSTRUCTION_APPLY_ACTIONS) || instruction_is_active s ty ∧
  instruction_is_active (add_clear_actions s ca) ty
    = bool_decide (ty = INSTRUCTION_CLEAR_ACTIONS) || instruction_is_active s ty ∧
  instruction_is_active (add_write_actions s wa) ty
    = bool_decide (ty = INSTRUCTION_WRITE_ACTIONS) || instruction_is_active s ty ∧
  instruction_is_active (add_write_metadata s wm) ty
    = bool_decide (ty = INSTRUCTION_WRITE_METADATA) || instruction_is_active s ty ∧
  instruction_is_active (add_goto_table s gt) ty
    = bool_decide (ty = INSTRUCTION_GOTO_TABLE) || instruction_is_active s ty ∧
  (apply_act (add_goto_table s gt) = apply_act s ∧
   write_act (add_apply_actions s aa) = write_act s ∧
   gt_table (add_write_actions s wa) = gt_table s ∧
   write_meta (add_clear_actions s ca) = write_meta s).
Proof.
  intros Hty. repeat split; (apply is_active_lor; [eauto with horse|done|reflexivity]).
Qed.

Lemma add_instruction_active_witness :
  instruction_is_active (add_goto_table instruction_set_zero (inst_goto_table 3))
    INSTRUCTION_GOTO_TABLE = true.
Proof.
  destruct (add_instruction_active instruction_set_zero (inst_apply_actions [])
    inst_clear_actions (inst_write_actions None) (inst_write_metadata 0 0)
    (inst_goto_table 3) INSTRUCTION_GOTO_TABLE) as (_ & _ & _ & _ & H & _).
  - exists 4. split; [lia|reflexivity].
  - exact H.
Defined.
