(* ===== verification/FlowKey.v ===== *)
(** * FlowKey: match keys and masks

    Models [struct ofl_flow_key] ([lib/ofl.h]) and the functions of
    [lib/flow.c] that work on keys alone: [apply_all_mask] and
    [flow_key_cmp].  A key has 38 fields; the lemmas give the algebra of masks
    (idempotent, commuting, absorbing for submasks) that the flow table's
    lookup by mask rests on, and that the memory image a hash table compares
    determines the key. *)

From stdpp Require Import prelude.
From S2P Require Import Prelude Uthash Action.

(** ** struct ofl_flow_key ([lib/ofl.h]) *)

Record ofl_flow_key := mk_key {
  in_port : Z;
  in_phy_port : Z;
  metadata : Z;
  tunnel_id : Z;
  eth_dst : list Z;
  eth_src : list Z;
  eth_type : Z;
  vlan_id : Z;
  vlan_pcp : Z;
  ip_dscp : Z;
  ip_ecn : Z;
  ip_proto : Z;
  ipv4_src : Z;
  ipv4_dst : Z;
  tcp_src : Z;
  tcp_dst : Z;
  udp_src : Z;
  udp_dst : Z;
  sctp_src : Z;
  sctp_dst : Z;
  icmpv4_type : Z;
  icmpv4_code : Z;
  arp_op : Z;
  arp_spa : Z;
  arp_tpa : Z;
  arp_sha : list Z;
  arp_tha : list Z;
  ipv6_src : list Z;
  ipv6_dst : list Z;
  ipv6_flabel : Z;
  icmpv6_type : Z;
  icmpv6_code : Z;
  ipv6_nd_target : list Z;
  ipv6_nd_sll : list Z;
  ipv6_nd_tll : list Z;
  mpls_label : Z;
  mpls_tc : Z;
  mpls_bos : Z
}.

#[export] Instance eta_ofl_flow_key : Eta ofl_flow_key := λ k,
  mk_key
    (in_port k) (in_phy_port k) (metadata k) (tunnel_id k) (eth_dst k)
    (eth_src k) (eth_type k) (vlan_id k) (vlan_pcp k) (ip_dscp k) (ip_ecn k)
    (ip_proto k) (ipv4_src k) (ipv4_dst k) (tcp_src k) (tcp_dst k)
    (udp_src k) (udp_dst k) (sctp_src k) (sctp_dst k) (icmpv4_type k)
    (icmpv4_code k) (arp_op k) (arp_spa k) (arp_tpa k) (arp_sha k)
    (arp_tha k) (ipv6_src k) (ipv6_dst k) (ipv6_flabel k) (icmpv6_type k)
    (icmpv6_code k) (ipv6_nd_target k) (ipv6_nd_sll k) (ipv6_nd_tll k)
    (mpls_label k) (mpls_tc k) (mpls_bos k).

(** All bytes zero ([memset]). *)
Definition key_zero : ofl_flow_key :=
  mk_key
    0 0 0 0 (replicate ETH_LEN 0) (replicate ETH_LEN 0) 0 0 0 0 0 0 0 0 0 0 0
    0 0 0 0 0 0 0 0 (replicate ETH_LEN 0) (replicate ETH_LEN 0)
    (replicate IPV6_LEN 0) (replicate IPV6_LEN 0) 0 0 0
    (replicate IPV6_LEN 0) (replicate ETH_LEN 0) (replicate ETH_LEN 0) 0 0 0.

(** Every field within its C type. *)
Record key_wf (k : ofl_flow_key) : Prop := {
  kwf_in_port : in_width 32 (in_port k);
  kwf_in_phy_port : in_width 32 (in_phy_port k);
  kwf_metadata : in_width 64 (metadata k);
  kwf_tunnel_id : in_width 64 (tunnel_id k);
  kwf_eth_dst : bytes_wf ETH_LEN (eth_dst k);
  kwf_eth_src : bytes_wf ETH_LEN (eth_src k);
  kwf_eth_type : in_width 16 (eth_type k);
  kwf_vlan_id : in_width 16 (vlan_id k);
  kwf_vlan_pcp : in_width 8 (vlan_pcp k);
  kwf_ip_dscp : in_width 8 (ip_dscp k);
  kwf_ip_ecn : in_width 8 (ip_ecn k);
  kwf_ip_proto : in_width 8 (ip_proto k);
  kwf_ipv4_src : in_width 32 (ipv4_src k);
  kwf_ipv4_dst : in_width 32 (ipv4_dst k);
  kwf_tcp_src : in_width 16 (tcp_src k);
  kwf_tcp_dst : in_width 16 (tcp_dst k);
  kwf_udp_src : in_width 16 (udp_src k);
  kwf_udp_dst : in_width 16 (udp_dst k);
  kwf_sctp_src : in_width 16 (sctp_src k);
  kwf_sctp_dst : in_width 16 (sctp_dst k);
  kwf_icmpv4_type : in_width 8 (icmpv4_type k);
  kwf_icmpv4_code : in_width 8 (icmpv4_code k);
  kwf_arp_op : in_width 16 (arp_op k);
  kwf_arp_spa : in_width 32 (arp_spa k);
  kwf_arp_tpa : in_width 32 (arp_tpa k);
  kwf_arp_sha : bytes_wf ETH_LEN (arp_sha k);
  kwf_arp_tha : bytes_wf ETH_LEN (arp_tha k);
  kwf_ipv6_src : bytes_wf IPV6_LEN (ipv6_src k);
  kwf_ipv6_dst : bytes_wf IPV6_LEN (ipv6_dst k);
  kwf_ipv6_flabel : in_width 32 (ipv6_flabel k);
  kwf_icmpv6_type : in_width 8 (icmpv6_type k);
  kwf_icmpv6_code : in_width 8 (icmpv6_code k);
  kwf_ipv6_nd_target : bytes_wf IPV6_LEN (ipv6_nd_target k);
  kwf_ipv6_nd_sll : bytes_wf ETH_LEN (ipv6_nd_sll k);
  kwf_ipv6_nd_tll : bytes_wf ETH_LEN (ipv6_nd_tll k);
  kwf_mpls_label : in_width 32 (mpls_label k);
  kwf_mpls_tc : in_width 8 (mpls_tc k);
  kwf_mpls_bos : in_width 8 (mpls_bos k)
}.

(** The same as a computable check. *)
Definition key_wf_b (k : ofl_flow_key) : bool :=
  bool_decide (in_width 32 (in_port k)) &&
  bool_decide (in_width 32 (in_phy_port k)) &&
  bool_decide (in_width 64 (metadata k)) &&
  bool_decide (in_width 64 (tunnel_id k)) &&
  bool_decide (bytes_wf ETH_LEN (eth_dst k)) &&
  bool_decide (bytes_wf ETH_LEN (eth_src k)) &&
  bool_decide (in_width 16 (eth_type k)) &&
  bool_decide (in_width 16 (vlan_id k)) &&
  bool_decide (in_width 8 (vlan_pcp k)) &&
  bool_decide (in_width 8 (ip_dscp k)) &&
  bool_decide (in_width 8 (ip_ecn k)) &&
  bool_decide (in_width 8 (ip_proto k)) &&
  bool_decide (in_width 32 (ipv4_src k)) &&
  bool_decide (in_width 32 (ipv4_dst k)) &&
  bool_decide (in_width 16 (tcp_src k)) &&
  bool_decide (in_width 16 (tcp_dst k)) &&
  bool_decide (in_width 16 (udp_src k)) &&
  bool_decide (in_width 16 (udp_dst k)) &&
  bool_decide (in_width 16 (sctp_src k)) &&
  bool_decide (in_width 16 (sctp_dst k)) &&
  bool_decide (in_width 8 (icmpv4_type k)) &&
  bool_decide (in_width 8 (icmpv4_code k)) &&
  bool_decide (in_width 16 (arp_op k)) &&
  bool_decide (in_width 32 (arp_spa k)) &&
  bool_decide (in_width 32 (arp_tpa k)) &&
  bool_decide (bytes_wf ETH_LEN (arp_sha k)) &&
  bool_decide (bytes_wf ETH_LEN (arp_tha k)) &&
  bool_decide (bytes_wf IPV6_LEN (ipv6_src k)) &&
  bool_decide (bytes_wf IPV6_LEN (ipv6_dst k)) &&
  bool_decide (in_width 32 (ipv6_flabel k)) &&
  bool_decide (in_width 8 (icmpv6_type k)) &&
  bool_decide (in_width 8 (icmpv6_code k)) &&
  bool_decide (bytes_wf IPV6_LEN (ipv6_nd_target k)) &&
  bool_decide (bytes_wf ETH_LEN (ipv6_nd_sll k)) &&
  bool_decide (bytes_wf ETH_LEN (ipv6_nd_tll k)) &&
  bool_decide (in_width 32 (mpls_label k)) &&
  bool_decide (in_width 8 (mpls_tc k)) &&
  bool_decide (in_width 8 (mpls_bos k)).

Lemma key_wf_check k : key_wf_b k = true → key_wf k.
Proof.
  unfold key_wf_b. rewrite !andb_true_iff, !bool_decide_eq_true. intros H.
  repeat match goal with H : _ ∧ _ |- _ => destruct H end. by constructor.
Qed.

(** The 168 bytes of the struct in memory, which [uthash] hashes and compares:
    fields in declaration order at their natural alignment, padding zero (keys
    are created by [memset] and copied by assignment). *)
Definition key_bytes (k : ofl_flow_key) : list Z :=
  le_bytes 4 (in_port k) ++ le_bytes 4 (in_phy_port k) ++
  le_bytes 8 (metadata k) ++ le_bytes 8 (tunnel_id k) ++ eth_dst k ++
  eth_src k ++ le_bytes 2 (eth_type k) ++ le_bytes 2 (vlan_id k) ++
  le_bytes 1 (vlan_pcp k) ++ le_bytes 1 (ip_dscp k) ++
  le_bytes 1 (ip_ecn k) ++ le_bytes 1 (ip_proto k) ++
  le_bytes 4 (ipv4_src k) ++ le_bytes 4 (ipv4_dst k) ++
  le_bytes 2 (tcp_src k) ++ le_bytes 2 (tcp_dst k) ++
  le_bytes 2 (udp_src k) ++ le_bytes 2 (udp_dst k) ++
  le_bytes 2 (sctp_src k) ++ le_bytes 2 (sctp_dst k) ++
  le_bytes 1 (icmpv4_type k) ++ le_bytes 1 (icmpv4_code k) ++
  le_bytes 2 (arp_op k) ++ le_bytes 4 (arp_spa k) ++
  le_bytes 4 (arp_tpa k) ++ arp_sha k ++ arp_tha k ++ ipv6_src k ++
  ipv6_dst k ++ le_bytes 4 (ipv6_flabel k) ++ le_bytes 1 (icmpv6_type k) ++
  le_bytes 1 (icmpv6_code k) ++ ipv6_nd_target k ++ ipv6_nd_sll k ++
  ipv6_nd_tll k ++ replicate 2 0 ++ le_bytes 4 (mpls_label k) ++
  le_bytes 1 (mpls_tc k) ++ le_bytes 1 (mpls_bos k) ++ replicate 6 0.

(** ** Masks *)

Definition apply_mask_eth_addr (addr mask : list Z) : list Z := mask_bytes addr mask.
Definition apply_mask_ipv6 (addr mask : list Z) : list Z := mask_bytes addr mask.

Definition apply_all_mask (key mask : ofl_flow_key) : ofl_flow_key :=
  mk_key
    (Z.land (in_port key) (in_port mask))
    (Z.land (in_phy_port key) (in_phy_port mask))
    (Z.land (metadata key) (metadata mask))
    (Z.land (tunnel_id key) (tunnel_id mask))
    (apply_mask_eth_addr (eth_dst key) (eth_dst mask))
    (apply_mask_eth_addr (eth_src key) (eth_src mask))
    (Z.land (eth_type key) (eth_type mask))
    (Z.land (vlan_id key) (vlan_id mask))
    (Z.land (vlan_pcp key) (vlan_pcp mask))
    (Z.land (ip_dscp key) (ip_dscp mask))
    (Z.land (ip_ecn key) (ip_ecn mask))
    (Z.land (ip_proto key) (ip_proto mask))
    (Z.land (ipv4_src key) (ipv4_src mask))
    (Z.land (ipv4_dst key) (ipv4_dst mask))
    (Z.land (tcp_src key) (tcp_src mask))
    (Z.land (tcp_dst key) (tcp_dst mask))
    (Z.land (udp_src key) (udp_src mask))
    (Z.land (udp_dst key) (udp_dst mask))
    (Z.land (sctp_src key) (sctp_src mask))
    (Z.land (sctp_dst key) (sctp_dst mask))
    (Z.land (icmpv4_type key) (icmpv4_type mask))
    (Z.land (icmpv4_code key) (icmpv4_code mask))
    (Z.land (arp_op key) (arp_op mask))
    (Z.land (arp_spa key) (arp_spa mask))
    (Z.land (arp_tpa key) (arp_tpa mask))
    (apply_mask_eth_addr (arp_sha key) (arp_sha mask))
    (apply_mask_eth_addr (arp_tha key) (arp_tha mask))
    (apply_mask_ipv6 (ipv6_src key) (ipv6_src mask))
    (apply_mask_ipv6 (ipv6_dst key) (ipv6_dst mask))
    (Z.land (ipv6_flabel key) (ipv6_flabel mask))
    (Z.land (icmpv6_type key) (icmpv6_type mask))
    (Z.land (icmpv6_code key) (icmpv6_code mask))
    (apply_mask_ipv6 (ipv6_nd_target key) (ipv6_nd_target mask))
    (apply_mask_eth_addr (ipv6_nd_sll key) (ipv6_nd_sll mask))
    (apply_mask_eth_addr (ipv6_nd_tll key) (ipv6_nd_tll mask))
    (Z.land (mpls_label key) (mpls_label mask))
    (Z.land (mpls_tc key) (mpls_tc mask))
    (Z.land (mpls_bos key) (mpls_bos mask)).

(** [memcmp(x, y, sizeof x) == 0] on two arrays of the same type. *)
Definition memcmp_eq (x y : list Z) : bool := bool_decide (x = y).

Definition flow_key_cmp (a b : ofl_flow_key) : bool :=
  (in_port a =? in_port b) && (in_phy_port a =? in_phy_port b) &&
  (metadata a =? metadata b) && (tunnel_id a =? tunnel_id b) &&
  memcmp_eq (eth_dst a) (eth_dst b) && memcmp_eq (eth_src a) (eth_src b) &&
  (eth_type a =? eth_type b) && (vlan_id a =? vlan_id b) &&
  (vlan_pcp a =? vlan_pcp b) && (ip_dscp a =? ip_dscp b) &&
  (ip_ecn a =? ip_ecn b) && (ip_proto a =? ip_proto b) &&
  (ipv4_src a =? ipv4_src b) && (ipv4_dst a =? ipv4_dst b) &&
  (tcp_src a =? tcp_src b) && (tcp_dst a =? tcp_dst b) &&
  (udp_src a =? udp_src b) && (udp_dst a =? udp_dst b) &&
  (sctp_src a =? sctp_src b) && (sctp_dst a =? sctp_dst b) &&
  (icmpv4_type a =? icmpv4_type b) && (icmpv4_code a =? icmpv4_code b) &&
  (arp_op a =? arp_op b) && (arp_spa a =? arp_spa b) &&
  (arp_tpa a =? arp_tpa b) && memcmp_eq (arp_sha a) (arp_sha b) &&
  memcmp_eq (arp_tha a) (arp_tha b) && memcmp_eq (ipv6_src a) (ipv6_src b) &&
  memcmp_eq (ipv6_dst a) (ipv6_dst b) && (ipv6_flabel a =? ipv6_flabel b) &&
  (icmpv6_type a =? icmpv6_type b) && (icmpv6_code a =? icmpv6_code b) &&
  memcmp_eq (ipv6_nd_target a) (ipv6_nd_target b) &&
  memcmp_eq (ipv6_nd_sll a) (ipv6_nd_sll b) &&
  memcmp_eq (ipv6_nd_tll a) (ipv6_nd_tll b) &&
  (mpls_label a =? mpls_label b) && (mpls_tc a =? mpls_tc b) &&
  (mpls_bos a =? mpls_bos b).

(** The mask that keeps every bit. *)
Definition key_ones : ofl_flow_key :=
  mk_key (Z.ones 32) (Z.ones 32) (Z.ones 64) (Z.ones 64)
    (replicate ETH_LEN 255) (replicate ETH_LEN 255) (Z.ones 16) (Z.ones 16)
    (Z.ones 8) (Z.ones 8) (Z.ones 8) (Z.ones 8) (Z.ones 32) (Z.ones 32)
    (Z.ones 16) (Z.ones 16) (Z.ones 16) (Z.ones 16) (Z.ones 16) (Z.ones 16)
    (Z.ones 8) (Z.ones 8) (Z.ones 16) (Z.ones 32) (Z.ones 32)
    (replicate ETH_LEN 255) (replicate ETH_LEN 255) (replicate IPV6_LEN 255)
    (replicate IPV6_LEN 255) (Z.ones 32) (Z.ones 8) (Z.ones 8)
    (replicate IPV6_LEN 255) (replicate ETH_LEN 255) (replicate ETH_LEN 255)
    (Z.ones 32) (Z.ones 8) (Z.ones 8).

(** ** Comparison *)

Lemma flow_key_cmp_spec a b : flow_key_cmp a b = true ↔ a = b.
Proof.
  unfold flow_key_cmp, memcmp_eq.
  rewrite !andb_true_iff, !Z.eqb_eq, !bool_decide_eq_true. split.
  - intros H. repeat match goal with H : _ ∧ _ |- _ => destruct H end.
    destruct a, b; simpl in *. by subst.
  - intros ->. repeat split.
Qed.

#[export] Instance key_eq_dec : EqDecision ofl_flow_key.
Proof.
  intros a b. destruct (flow_key_cmp a b) eqn:E.
  - left. abstract (by apply flow_key_cmp_spec).
  - right. abstract (intros H%flow_key_cmp_spec; congruence).
Defined.

Lemma flow_key_cmp_decide a b : flow_key_cmp a b = bool_decide (a = b).
Proof.
  destruct (flow_key_cmp a b) eqn:E; symmetry.
  - apply bool_decide_eq_true. by apply flow_key_cmp_spec.
  - apply bool_decide_eq_false. rewrite <- flow_key_cmp_spec. congruence.
Qed.

(** ** Algebra of masks *)

Lemma apply_all_mask_idemp k m :
  apply_all_mask (apply_all_mask k m) m = apply_all_mask k m.
Proof.
  unfold apply_all_mask, apply_mask_eth_addr, apply_mask_ipv6; simpl.
  f_equal; rewrite ?mask_bytes_idemp, <- ?Z.land_assoc, ?Z.land_diag; done.
Qed.

Lemma apply_all_mask_comm k m m' :
  apply_all_mask (apply_all_mask k m) m' = apply_all_mask (apply_all_mask k m') m.
Proof.
  unfold apply_all_mask, apply_mask_eth_addr, apply_mask_ipv6; simpl.
  f_equal; first [apply mask_bytes_comm
                 | rewrite <- !Z.land_assoc; f_equal; apply Z.land_comm].
Qed.

(** [m] is a submask of [m'] when masking [m] with [m'] changes nothing. *)
Definition key_submask (m m' : ofl_flow_key) : Prop := apply_all_mask m m' = m.

Lemma apply_all_mask_submask k m m' :
  key_submask m m' → apply_all_mask (apply_all_mask k m') m = apply_all_mask k m.
Proof.
  unfold key_submask. destruct m, m', k.
  unfold apply_all_mask, apply_mask_eth_addr, apply_mask_ipv6; simpl.
  intros [=]. f_equal; first [by apply mask_bytes_submask | by apply land_submask].
Qed.

Lemma apply_all_mask_wf k m : key_wf k → key_wf m → key_wf (apply_all_mask k m).
Proof.
  intros [] []. unfold apply_all_mask, apply_mask_eth_addr, apply_mask_ipv6.
  constructor; simpl;
    first [apply land_in_width; [lia|done]
          | apply mask_bytes_wf; [done|]; by apply bytes_wf_length ].
Qed.

Lemma apply_all_mask_ones k : key_wf k → apply_all_mask k key_ones = k.
Proof.
  intros []. destruct k; simpl in *.
  unfold apply_all_mask, apply_mask_eth_addr, apply_mask_ipv6, key_ones;
    cbn -[Z.ones Z.land replicate mask_bytes].
  f_equal; first [by apply mask_bytes_all_ones | by apply land_ones_in_width].
Qed.

Lemma apply_all_mask_zero k : key_wf k → apply_all_mask k key_zero = key_zero.
Proof.
  intros []. destruct k; simpl in *.
  unfold apply_all_mask, apply_mask_eth_addr, apply_mask_ipv6, key_zero;
    cbn -[Z.land replicate mask_bytes].
  f_equal; first [apply mask_bytes_zeros; by apply bytes_wf_length
                 | apply Z.land_0_r].
Qed.

Lemma key_zero_wf : key_wf key_zero.
Proof.
  constructor; first [apply bytes_wf_replicate | idtac]; unfold in_width; simpl; lia.
Qed.

(** ** The memory image determines the key *)

Lemma le_bytes_inj n x y :
  in_width (8 * Z.of_nat n) x → in_width (8 * Z.of_nat n) y →
  le_bytes n x = le_bytes n y → x = y.
Proof.
  intros Hx Hy He. rewrite <- (wrap_small _ _ Hx), <- (wrap_small _ _ Hy).
  by rewrite <- !le_val_bytes, He.
Qed.

Lemma key_bytes_inj k k' :
  key_wf k → key_wf k' → key_bytes k = key_bytes k' → k = k'.
Proof.
  intros [] [] He. destruct k, k'. unfold key_bytes in He.
  cbn -[le_bytes replicate app in_width] in * |-.
  repeat match type of He with
  | ?x ++ _ = ?y ++ _ =>
      let H := fresh "Hf" in
      apply app_inj_1 in He as [H He];
        [|rewrite ?length_le_bytes; eauto using bytes_wf_length2];
      first [ apply le_bytes_inj in H; [|done..] | idtac ]
  end.
  by subst.
Qed.

#[global] Arguments flow_key_cmp : simpl never.
#[global] Arguments apply_all_mask : simpl never.
#[global] Arguments key_bytes : simpl never.
#[global] Arguments key_eq_dec : simpl never.
