(* ===== verification/Flow.v ===== *)
(** * Flow: the switch flow and its match setters

    Models [struct flow] and [lib/flow.c].  A flow matches a packet key when
    the packet key under the flow's mask equals the flow's key
    ([flow_matches]).  A flow whose key has bits outside its mask matches
    nothing, so the invariant of the setters is [flow_consistent]; the exact
    setters and the masked setters that store to the field they name preserve
    it. *)

From stdpp Require Import prelude.
From S2P Require Import Prelude Uthash Action Instruction FlowKey.

Definition ALL_UINT8_MASK : Z := 0xff.
Definition ALL_UINT16_MASK : Z := 0xffff.
Definition ALL_UINT32_MASK : Z := 0xffffffff.
Definition ALL_UINT64_MASK : Z := 0xffffffffffffffff.

(** ** struct flow *)

Record flow := mk_flow {
  f_key : ofl_flow_key;
  f_mask : ofl_flow_key;
  f_table_id : Z;
  f_flags : Z;
  f_priority : Z;
  f_cookie : Z;
  f_pkt_cnt : Z;
  f_byte_cnt : Z;
  f_created : Z;
  f_hard_timeout : Z;
  f_idle_timeout : Z;
  f_remove_at : Z;
  f_last_used : Z;
  f_insts : instruction_set
}.
#[export] Instance eta_flow : Eta flow := λ f,
  mk_flow (f_key f) (f_mask f) (f_table_id f) (f_flags f) (f_priority f)
    (f_cookie f) (f_pkt_cnt f) (f_byte_cnt f) (f_created f)
    (f_hard_timeout f) (f_idle_timeout f) (f_remove_at f) (f_last_used f)
    (f_insts f).

(** The flow is hashed by its key ([HASH_ADD(hh, ..., key, sizeof key, f)]). *)
#[export] Instance flow_keyed : Keyed flow := λ f, key_bytes (f_key f).

Definition init_instruction_set (f : flow) : flow :=
  f <| f_insts := instruction_set_zero |>.

(** [flow_new] assigns every field but [flags], which keeps what the
    allocation holds. *)
Definition flow_new (flags0 : Z) : flow :=
  mk_flow key_zero key_zero 0 flags0 0 0 0 0 0 0 0 0 0 instruction_set_zero.

(** What [flow_destroy] leaves of the instruction set before freeing. *)
Definition flow_destroy (f : flow) : flow := f <| f_insts ::= instruction_set_clean |>.

(** The set is a value here; that the pointers in it are copied, and their lists shared, is
    the subject of [Ownership]. *)
Definition flow_add_instructions (f : flow) (insts : instruction_set) : flow :=
  f <| f_insts := insts |>.

(** ** Setters *)

Definition set_in_port (f : flow) (v : Z) : flow :=
  f <| f_key; in_port := v |> <| f_mask; in_port := ALL_UINT32_MASK |>.
Definition set_metadata (f : flow) (v : Z) : flow :=
  f <| f_key; metadata := v |> <| f_mask; metadata := ALL_UINT64_MASK |>.
Definition set_tunnel_id (f : flow) (v : Z) : flow :=
  f <| f_key; tunnel_id := v |> <| f_mask; tunnel_id := ALL_UINT64_MASK |>.
Definition set_eth_type (f : flow) (v : Z) : flow :=
  f <| f_key; eth_type := v |> <| f_mask; eth_type := ALL_UINT16_MASK |>.
Definition set_eth_dst (f : flow) (v : list Z) : flow :=
  f <| f_key; eth_dst := take ETH_LEN v |>
    <| f_mask; eth_dst := replicate ETH_LEN 0xff |>.
Definition set_eth_src (f : flow) (v : list Z) : flow :=
  f <| f_key; eth_src := take ETH_LEN v |>
    <| f_mask; eth_src := replicate ETH_LEN 0xff |>.
Definition set_vlan_id (f : flow) (v : Z) : flow :=
  f <| f_key; vlan_id := v |> <| f_mask; vlan_id := ALL_UINT16_MASK |>.
Definition set_vlan_pcp (f : flow) (v : Z) : flow :=
  f <| f_key; vlan_pcp := v |> <| f_mask; vlan_pcp := ALL_UINT8_MASK |>.
Definition set_mpls_label (f : flow) (v : Z) : flow :=
  f <| f_key; mpls_label := v |> <| f_mask; mpls_label := ALL_UINT32_MASK |>.
Definition set_mpls_tc (f : flow) (v : Z) : flow :=
  f <| f_key; mpls_tc := v |> <| f_mask; mpls_tc := ALL_UINT8_MASK |>.
Definition set_mpls_bos (f : flow) (v : Z) : flow :=
  f <| f_key; mpls_bos := v |> <| f_mask; mpls_bos := ALL_UINT8_MASK |>.
Definition set_ip_dscp (f : flow) (v : Z) : flow :=
  f <| f_key; ip_dscp := v |> <| f_mask; ip_dscp := ALL_UINT8_MASK |>.
Definition set_ip_ecn (f : flow) (v : Z) : flow :=
  f <| f_key; ip_ecn := v |> <| f_mask; ip_ecn := ALL_UINT8_MASK |>.
Definition set_ip_proto (f : flow) (v : Z) : flow :=
  f <| f_key; ip_proto := v |> <| f_mask; ip_proto := ALL_UINT8_MASK |>.
Definition set_ipv4_dst (f : flow) (v : Z) : flow :=
  f <| f_key; ipv4_dst := v |> <| f_mask; ipv4_dst := ALL_UINT32_MASK |>.
Definition set_ipv4_src (f : flow) (v : Z) : flow :=
  f <| f_key; ipv4_src := v |> <| f_mask; ipv4_src := ALL_UINT32_MASK |>.
Definition set_tcp_dst (f : flow) (v : Z) : flow :=
  f <| f_key; tcp_dst := v |> <| f_mask; tcp_dst := ALL_UINT16_MASK |>.
Definition set_tcp_src (f : flow) (v : Z) : flow :=
  f <| f_key; tcp_src := v |> <| f_mask; tcp_src := ALL_UINT16_MASK |>.
Definition set_sctp_dst (f : flow) (v : Z) : flow :=
  f <| f_key; sctp_dst := v |> <| f_mask; sctp_dst := ALL_UINT16_MASK |>.
Definition set_sctp_src (f : flow) (v : Z) : flow :=
  f <| f_key; sctp_src := v |> <| f_mask; sctp_src := ALL_UINT16_MASK |>.
Definition set_udp_dst (f : flow) (v : Z) : flow :=
  f <| f_key; udp_dst := v |> <| f_mask; udp_dst := ALL_UINT16_MASK |>.
Definition set_udp_src (f : flow) (v : Z) : flow :=
  f <| f_key; udp_src := v |> <| f_mask; udp_src := ALL_UINT16_MASK |>.
Definition set_icmpv4_type (f : flow) (v : Z) : flow :=
  f <| f_key; icmpv4_type := v |> <| f_mask; icmpv4_type := ALL_UINT8_MASK |>.
Definition set_icmpv4_code (f : flow) (v : Z) : flow :=
  f <| f_key; icmpv4_code := v |> <| f_mask; icmpv4_code := ALL_UINT8_MASK |>.
Definition set_arp_op (f : flow) (v : Z) : flow :=
  f <| f_key; arp_op := v |> <| f_mask; arp_op := ALL_UINT16_MASK |>.
Definition set_arp_spa (f : flow) (v : Z) : flow :=
  f <| f_key; arp_spa := v |> <| f_mask; arp_spa := ALL_UINT32_MASK |>.
Definition set_arp_tpa (f : flow) (v : Z) : flow :=
  f <| f_key; arp_tpa := v |> <| f_mask; arp_tpa := ALL_UINT32_MASK |>.
Definition set_arp_sha (f : flow) (v : list Z) : flow :=
  f <| f_key; arp_sha := take ETH_LEN v |>
    <| f_mask; arp_sha := replicate ETH_LEN 0xff |>.
Definition set_arp_tha (f : flow) (v : list Z) : flow :=
  f <| f_key; arp_tha := take ETH_LEN v |>
    <| f_mask; arp_tha := replicate ETH_LEN 0xff |>.
Definition set_ipv6_dst (f : flow) (v : list Z) : flow :=
  f <| f_key; ipv6_dst := take IPV6_LEN v |>
    <| f_mask; ipv6_dst := replicate IPV6_LEN 0xff |>.
Definition set_ipv6_src (f : flow) (v : list Z) : flow :=
  f <| f_key; ipv6_src := take IPV6_LEN v |>
    <| f_mask; ipv6_src := replicate IPV6_LEN 0xff |>.
Definition set_ipv6_flabel (f : flow) (v : Z) : flow :=
  f <| f_key; ipv6_flabel := v |> <| f_mask; ipv6_flabel := ALL_UINT32_MASK |>.
Definition set_icmpv6_type (f : flow) (v : Z) : flow :=
  f <| f_key; icmpv6_type := v |> <| f_mask; icmpv6_type := ALL_UINT8_MASK |>.
Definition set_icmpv6_code (f : flow) (v : Z) : flow :=
  f <| f_key; icmpv6_code := v |> <| f_mask; icmpv6_code := ALL_UINT8_MASK |>.
Definition set_ipv6_nd_target (f : flow) (v : list Z) : flow :=
  f <| f_key; ipv6_nd_target := take IPV6_LEN v |>
    <| f_mask; ipv6_nd_target := replicate IPV6_LEN 0xff |>.
Definition set_ipv6_nd_sll (f : flow) (v : list Z) : flow :=
  f <| f_key; ipv6_nd_sll := take ETH_LEN v |>
    <| f_mask; ipv6_nd_sll := replicate ETH_LEN 0xff |>.
Definition set_ipv6_nd_tll (f : flow) (v : list Z) : flow :=
  f <| f_key; ipv6_nd_tll := take ETH_LEN v |>
    <| f_mask; ipv6_nd_tll := replicate ETH_LEN 0xff |>.

(** Masked setters.  Three of them store to a field other than the one they
    name, as the source does: see [flow_set_masked_metadata],
    [flow_set_masked_ipv6_dst] and [flow_set_masked_ipv6_src]. *)

Definition flow_set_masked_metadata (f : flow) (v mask : Z) : flow :=
  f <| f_key; metadata := Z.land v mask |> <| f_mask; in_port := u32 mask |>.
Definition flow_set_masked_tunnel_id (f : flow) (v mask : Z) : flow :=
  f <| f_key; tunnel_id := Z.land v mask |> <| f_mask; tunnel_id := mask |>.
Definition flow_set_masked_eth_dst (f : flow) (v mask : list Z) : flow :=
  f <| f_mask; eth_dst := take ETH_LEN mask |>
    <| f_key; eth_dst := apply_mask_eth_addr (take ETH_LEN v) (take ETH_LEN mask) |>.
Definition flow_set_masked_eth_src (f : flow) (v mask : list Z) : flow :=
  f <| f_mask; eth_src := take ETH_LEN mask |>
    <| f_key; eth_src := apply_mask_eth_addr (take ETH_LEN v) (take ETH_LEN mask) |>.
Definition flow_set_masked_vlan_id (f : flow) (v mask : Z) : flow :=
  f <| f_key; vlan_id := Z.land v mask |> <| f_mask; vlan_id := mask |>.
Definition flow_set_masked_mpls_label (f : flow) (v mask : Z) : flow :=
  f <| f_key; mpls_label := Z.land v mask |> <| f_mask; mpls_label := mask |>.
Definition flow_set_masked_ipv4_dst (f : flow) (v mask : Z) : flow :=
  f <| f_key; ipv4_dst := Z.land v mask |> <| f_mask; ipv4_dst := mask |>.
Definition flow_set_masked_ipv4_src (f : flow) (v mask : Z) : flow :=
  f <| f_key; ipv4_src := Z.land v mask |> <| f_mask; ipv4_src := mask |>.
Definition flow_set_masked_arp_spa (f : flow) (v mask : Z) : flow :=
  f <| f_key; arp_spa := Z.land v mask |> <| f_mask; arp_spa := mask |>.
Definition flow_set_masked_arp_tpa (f : flow) (v mask : Z) : flow :=
  f <| f_key; arp_tpa := Z.land v mask |> <| f_mask; arp_tpa := mask |>.
Definition flow_set_masked_arp_sha (f : flow) (v mask : list Z) : flow :=
  f <| f_mask; arp_sha := take ETH_LEN mask |>
    <| f_key; arp_sha := apply_mask_eth_addr (take ETH_LEN v) (take ETH_LEN mask) |>.
Definition flow_set_masked_arp_tha (f : flow) (v mask : list Z) : flow :=
  f <| f_mask; arp_tha := take ETH_LEN mask |>
    <| f_key; arp_tha := apply_mask_eth_addr (take ETH_LEN v) (take ETH_LEN mask) |>.
Definition flow_set_masked_ipv6_dst (f : flow) (v mask : list Z) : flow :=
  f <| f_mask; ipv6_dst := take IPV6_LEN mask |>
    <| f_mask; ipv6_src := take IPV6_LEN v |>
    <| f_key; ipv6_dst ::= λ a, apply_mask_ipv6 a (take IPV6_LEN mask) |>.
Definition flow_set_masked_ipv6_src (f : flow) (v mask : list Z) : flow :=
  f <| f_mask; ipv6_src := take IPV6_LEN mask |>
    <| f_mask; ipv6_src := take IPV6_LEN v |>
    <| f_key; ipv6_src ::= λ a, apply_mask_ipv6 a (take IPV6_LEN mask) |>.
Definition flow_set_masked_ipv6_nd_target (f : flow) (v mask : list Z) : flow :=
  f <| f_mask; ipv6_nd_target := take IPV6_LEN mask |>
    <| f_key; ipv6_nd_target := apply_mask_ipv6 (take IPV6_LEN v) (take IPV6_LEN mask) |>.
Definition flow_set_masked_ipv6_nd_sll (f : flow) (v mask : list Z) : flow :=
  f <| f_mask; ipv6_nd_sll := take ETH_LEN mask |>
    <| f_key; ipv6_nd_sll := apply_mask_eth_addr (take ETH_LEN v) (take ETH_LEN mask) |>.
Definition flow_set_masked_ipv6_nd_tll (f : flow) (v mask : list Z) : flow :=
  f <| f_mask; ipv6_nd_tll := take ETH_LEN mask |>
    <| f_key; ipv6_nd_tll := apply_mask_eth_addr (take ETH_LEN v) (take ETH_LEN mask) |>.

(** ** Matching *)

(** The semantics of a match: the packet under the flow's mask is the key. *)
Definition flow_matches (f : flow) (pkt : ofl_flow_key) : Prop :=
  apply_all_mask pkt (f_mask f) = f_key f.

#[export] Instance flow_matches_dec f pkt : Decision (flow_matches f pkt).
Proof. unfold flow_matches. apply _. Defined.
#[global] Arguments flow_matches_dec : simpl never.

(** The key has no bit outside the mask. *)
Definition flow_consistent (f : flow) : Prop :=
  apply_all_mask (f_key f) (f_mask f) = f_key f.

Record flow_wf (f : flow) : Prop := {
  fwf_key : key_wf (f_key f);
  fwf_mask : key_wf (f_mask f);
  fwf_priority : in_width 16 (f_priority f)
}.

(** The exact-match setters: the width of the value, the field and the setter. *)
Definition exact_setters : list (Z * (ofl_flow_key → Z) * (flow → Z → flow)) :=
  [(32, in_port, set_in_port); (64, metadata, set_metadata);
   (64, tunnel_id, set_tunnel_id); (16, eth_type, set_eth_type);
   (16, vlan_id, set_vlan_id); (8, vlan_pcp, set_vlan_pcp);
   (8, ip_dscp, set_ip_dscp); (8, ip_ecn, set_ip_ecn);
   (8, ip_proto, set_ip_proto); (32, ipv4_src, set_ipv4_src);
   (32, ipv4_dst, set_ipv4_dst); (16, tcp_src, set_tcp_src);
   (16, tcp_dst, set_tcp_dst); (16, udp_src, set_udp_src);
   (16, udp_dst, set_udp_dst); (16, sctp_src, set_sctp_src);
   (16, sctp_dst, set_sctp_dst); (8, icmpv4_type, set_icmpv4_type);
   (8, icmpv4_code, set_icmpv4_code); (16, arp_op, set_arp_op);
   (32, arp_spa, set_arp_spa); (32, arp_tpa, set_arp_tpa);
   (32, ipv6_flabel, set_ipv6_flabel); (8, icmpv6_type, set_icmpv6_type);
   (8, icmpv6_code, set_icmpv6_code); (32, mpls_label, set_mpls_label);
   (8, mpls_tc, set_mpls_tc); (8, mpls_bos, set_mpls_bos)].

Definition exact_array_setters
  : list (nat * (ofl_flow_key → list Z) * (flow → list Z → flow)) :=
  [(ETH_LEN, eth_dst, set_eth_dst); (ETH_LEN, eth_src, set_eth_src);
   (ETH_LEN, arp_sha, set_arp_sha); (ETH_LEN, arp_tha, set_arp_tha);
   (IPV6_LEN, ipv6_src, set_ipv6_src); (IPV6_LEN, ipv6_dst, set_ipv6_dst);
   (IPV6_LEN, ipv6_nd_target, set_ipv6_nd_target);
   (ETH_LEN, ipv6_nd_sll, set_ipv6_nd_sll);
   (ETH_LEN, ipv6_nd_tll, set_ipv6_nd_tll)].

(** The masked setters whose stores go to the field they name. *)
Definition masked_setters
  : list ((ofl_flow_key → Z) * (flow → Z → Z → flow)) :=
  [(tunnel_id, flow_set_masked_tunnel_id); (vlan_id, flow_set_masked_vlan_id);
   (mpls_label, flow_set_masked_mpls_label); (ipv4_dst, flow_set_masked_ipv4_dst);
   (ipv4_src, flow_set_masked_ipv4_src); (arp_spa, flow_set_masked_arp_spa);
   (arp_tpa, flow_set_masked_arp_tpa)].

Definition masked_array_setters
  : list (nat * (ofl_flow_key → list Z) * (flow → list Z → list Z → flow)) :=
  [(ETH_LEN, eth_dst, flow_set_masked_eth_dst);
   (ETH_LEN, eth_src, flow_set_masked_eth_src);
   (ETH_LEN, arp_sha, flow_set_masked_arp_sha);
   (ETH_LEN, arp_tha, flow_set_masked_arp_tha);
   (IPV6_LEN, ipv6_nd_target, flow_set_masked_ipv6_nd_target);
   (ETH_LEN, ipv6_nd_sll, flow_set_masked_ipv6_nd_sll);
   (ETH_LEN, ipv6_nd_tll, flow_set_masked_ipv6_nd_tll)].

Lemma flow_matches_consistent f pkt : flow_matches f pkt → flow_consistent f.
Proof.
  unfold flow_matches, flow_consistent. intros <-. apply apply_all_mask_idemp.
Qed.

(** A masked key, one field at a time. *)
Lemma mask_fields p m k : apply_all_mask p m = k ↔
  Z.land (in_port p) (in_port m) = in_port k ∧
  Z.land (in_phy_port p) (in_phy_port m) = in_phy_port k ∧
  Z.land (metadata p) (metadata m) = metadata k ∧
  Z.land (tunnel_id p) (tunnel_id m) = tunnel_id k ∧
  mask_bytes (eth_dst p) (eth_dst m) = eth_dst k ∧
  mask_bytes (eth_src p) (eth_src m) = eth_src k ∧
  Z.land (eth_type p) (eth_type m) = eth_type k ∧
  Z.land (vlan_id p) (vlan_id m) = vlan_id k ∧
  Z.land (vlan_pcp p) (vlan_pcp m) = vlan_pcp k ∧
  Z.land (ip_dscp p) (ip_dscp m) = ip_dscp k ∧
  Z.land (ip_ecn p) (ip_ecn m) = ip_ecn k ∧
  Z.land (ip_proto p) (ip_proto m) = ip_proto k ∧
  Z.land (ipv4_src p) (ipv4_src m) = ipv4_src k ∧
  Z.land (ipv4_dst p) (ipv4_dst m) = ipv4_dst k ∧
  Z.land (tcp_src p) (tcp_src m) = tcp_src k ∧
  Z.land (tcp_dst p) (tcp_dst m) = tcp_dst k ∧
  Z.land (udp_src p) (udp_src m) = udp_src k ∧
  Z.land (udp_dst p) (udp_dst m) = udp_dst k ∧
  Z.land (sctp_src p) (sctp_src m) = sctp_src k ∧
  Z.land (sctp_dst p) (sctp_dst m) = sctp_dst k ∧
  Z.land (icmpv4_type p) (icmpv4_type m) = icmpv4_type k ∧
  Z.land (icmpv4_code p) (icmpv4_code m) = icmpv4_code k ∧
  Z.land (arp_op p) (arp_op m) = arp_op k ∧
  Z.land (arp_spa p) (arp_spa m) = arp_spa k ∧
  Z.land (arp_tpa p) (arp_tpa m) = arp_tpa k ∧
  mask_bytes (arp_sha p) (arp_sha m) = arp_sha k ∧
  mask_bytes (arp_tha p) (arp_tha m) = arp_tha k ∧
  mask_bytes (ipv6_src p) (ipv6_src m) = ipv6_src k ∧
  mask_bytes (ipv6_dst p) (ipv6_dst m) = ipv6_dst k ∧
  Z.land (ipv6_flabel p) (ipv6_flabel m) = ipv6_flabel k ∧
  Z.land (icmpv6_type p) (icmpv6_type m) = icmpv6_type k ∧
  Z.land (icmpv6_code p) (icmpv6_code m) = icmpv6_code k ∧
  mask_bytes (ipv6_nd_target p) (ipv6_nd_target m) = ipv6_nd_target k ∧
  mask_bytes (ipv6_nd_sll p) (ipv6_nd_sll m) = ipv6_nd_sll k ∧
  mask_bytes (ipv6_nd_tll p) (ipv6_nd_tll m) = ipv6_nd_tll k ∧
  Z.land (mpls_label p) (mpls_label m) = mpls_label k ∧
  Z.land (mpls_tc p) (mpls_tc m) = mpls_tc k ∧
  Z.land (mpls_bos p) (mpls_bos m) = mpls_bos k.
Proof.
  split.
  - intros <-. repeat split.
  - intros H. repeat match goal with H : _ ∧ _ |- _ => destruct H end.
    destruct k; simpl in *. unfold apply_all_mask, apply_mask_eth_addr,
      apply_mask_ipv6; simpl. by f_equal.
Qed.

Ltac split_fields :=
  repeat match goal with H : _ ∧ _ |- _ => destruct H end; repeat split.

(** Replacing the constraint on a field whose current constraint is void. *)
Ltac setter_matches :=
  unfold flow_matches; rewrite !mask_fields;
  cbn -[replicate take mask_bytes apply_mask_eth_addr apply_mask_ipv6]; split;
  intros; split_fields; try assumption.

Ltac fold_masks :=
  change ALL_UINT8_MASK with (Z.ones 8) in *;
  change ALL_UINT16_MASK with (Z.ones 16) in *;
  change ALL_UINT32_MASK with (Z.ones 32) in *;
  change ALL_UINT64_MASK with (Z.ones 64) in *.

(** Each of the exact-match setters of [flow.c], applied to a flow in which
    its field is wildcarded, adds exactly the constraint it names: the new flow
    matches a packet iff the old one did and the packet has that value. *)
Theorem exact_setter_matches w proj set f v pkt :
  (w, proj, set) ∈ exact_setters →
  proj (f_mask f) = 0 → proj (f_key f) = 0 → in_width w (proj pkt) →
  flow_matches (set f v) pkt ↔ flow_matches f pkt ∧ proj pkt = v.
Proof.
  intros Hin Hm Hk Hw. apply list_elem_of_In in Hin. simpl in Hin.
  repeat (destruct Hin as [[= <- <- <-]|Hin]; [
    pose proof (λ H0, land_ones_in_width _ _ H0 Hw) as Hl;
    specialize (Hl ltac:(done)); setter_matches; fold_masks;
    first [congruence | rewrite Hm, Z.land_0_r; congruence]|]).
  done.
Qed.

Lemma exact_setter_matches_witness :
  flow_matches (set_tcp_dst (flow_new 0) 80) (key_zero <| tcp_dst := 80 |>) ↔
  flow_matches (flow_new 0) (key_zero <| tcp_dst := 80 |>) ∧ 80 = 80.
Proof.
  apply (exact_setter_matches 16 tcp_dst set_tcp_dst);
    [|done|done|by apply (bool_decide_unpack _); vm_compute].
  apply list_elem_of_In. simpl. tauto.
Defined.

(** The same for the address-valued setters (Ethernet, IPv6, ARP and ND
    addresses). *)
Theorem exact_array_setter_matches n proj set f v pkt :
  (n, proj, set) ∈ exact_array_setters →
  proj (f_mask f) = replicate n 0 → proj (f_key f) = replicate n 0 →
  bytes_wf n v → bytes_wf n (proj pkt) →
  flow_matches (set f v) pkt ↔ flow_matches f pkt ∧ proj pkt = v.
Proof.
  intros Hin Hm Hk Hv Hw. apply list_elem_of_In in Hin. simpl in Hin.
  pose proof (mask_bytes_all_ones n _ Hw) as Hl.
  pose proof (mask_bytes_zeros n (proj pkt) ltac:(by apply bytes_wf_length)) as Hz.
  pose proof (take_ge v n ltac:(destruct Hv; lia)) as Ht.
  repeat (destruct Hin as [[= <- <- <-]|Hin]; [
    setter_matches; rewrite ?Ht in *;
    first [congruence | rewrite Hm, Hk; done]|]).
  done.
Qed.

Lemma exact_array_setter_matches_witness :
  flow_matches (set_eth_dst (flow_new 0) [1; 2; 3; 4; 5; 6])
      (key_zero <| eth_dst := [1; 2; 3; 4; 5; 6] |>) ↔
  flow_matches (flow_new 0) (key_zero <| eth_dst := [1; 2; 3; 4; 5; 6] |>) ∧
  [1; 2; 3; 4; 5; 6] = [1; 2; 3; 4; 5; 6].
Proof.
  apply (exact_array_setter_matches ETH_LEN eth_dst set_eth_dst);
    [|done|done|by apply (bool_decide_unpack _); vm_compute
     |by apply (bool_decide_unpack _); vm_compute].
  apply list_elem_of_In. simpl. tauto.
Defined.

(** The masked setters of numeric fields that store to the field they name
    add exactly the masked constraint: the packet agrees with the value on the
    bits of the mask. *)
Theorem masked_setter_matches proj set f v mask pkt :
  (proj, set) ∈ masked_setters →
  proj (f_mask f) = 0 → proj (f_key f) = 0 →
  flow_matches (set f v mask) pkt ↔
  flow_matches f pkt ∧ Z.land (proj pkt) mask = Z.land v mask.
Proof.
  intros Hin Hm Hk. apply list_elem_of_In in Hin. simpl in Hin.
  repeat (destruct Hin as [[= <- <-]|Hin]; [
    setter_matches; first [congruence | rewrite Hm, Z.land_0_r; congruence]|]).
  done.
Qed.

Lemma masked_setter_matches_witness :
  flow_matches (flow_set_masked_ipv4_dst (flow_new 0) 0x0a000001 0xff000000)
    (key_zero <| ipv4_dst := 0x0a0a0a0a |>) ↔
  flow_matches (flow_new 0) (key_zero <| ipv4_dst := 0x0a0a0a0a |>) ∧
  Z.land 0x0a0a0a0a 0xff000000 = Z.land 0x0a000001 0xff000000.
Proof.
  apply (masked_setter_matches ipv4_dst flow_set_masked_ipv4_dst); [|done|done].
  apply list_elem_of_In. simpl. tauto.
Defined.

Lemma masked_array_setter_matches n proj set f v mask pkt :
  (n, proj, set) ∈ masked_array_setters →
  proj (f_mask f) = replicate n 0 → proj (f_key f) = replicate n 0 →
  bytes_wf n v → bytes_wf n mask → bytes_wf n (proj pkt) →
  flow_matches (set f v mask) pkt ↔
  flow_matches f pkt ∧ mask_bytes (proj pkt) mask = mask_bytes v mask.
Proof.
  intros Hin Hm Hk Hv Hmask Hw. apply list_elem_of_In in Hin. simpl in Hin.
  pose proof (mask_bytes_zeros n (proj pkt) ltac:(by apply bytes_wf_length)) as Hz.
  pose proof (take_ge v n ltac:(destruct Hv; lia)) as Ht.
  pose proof (take_ge mask n ltac:(destruct Hmask; lia)) as Ht'.
  repeat (destruct Hin as [[= <- <- <-]|Hin]; [
    setter_matches; unfold apply_mask_eth_addr, apply_mask_ipv6 in *;
    rewrite ?Ht, ?Ht' in *; first [congruence | rewrite Hm, Hk; done]|]).
  done.
Qed.

Lemma flow_new_matches flags0 pkt : key_wf pkt → flow_matches (flow_new flags0) pkt.
Proof. apply apply_all_mask_zero. Qed.

(** [flow_set_masked_metadata] stores the mask to [mask.in_port]
    (flow.c:340): on a flow whose metadata was wildcarded, a request with a
    nonzero masked metadata value produces a flow that matches no packet at
    all. *)
Theorem masked_metadata_never_matches f v mask pkt :
  metadata (f_mask f) = 0 → Z.land v mask ≠ 0 →
  ¬ flow_matches (flow_set_masked_metadata f v mask) pkt.
Proof.
  unfold flow_matches, apply_all_mask. intros Hm Hv Hmt.
  apply (f_equal metadata) in Hmt. cbn in Hmt.
  rewrite Hm, Z.land_0_r in Hmt. congruence.
Qed.

Lemma masked_metadata_never_matches_witness :
  ¬ flow_matches (flow_set_masked_metadata (flow_new 0) 5 0xff)
      (key_zero <| metadata := 5 |>).
Proof. apply masked_metadata_never_matches; [reflexivity|by vm_compute]. Defined.

(** The masked IPv6 setters copy the address over [mask.ipv6_src] instead
    of the key (flow.c:417, 424), so the key of the field keeps its old value:
    on a new flow the address is never compared with the packet's. *)
Theorem masked_ipv6_dst_ignores_address flags0 v mask pkt :
  bytes_wf IPV6_LEN mask → key_wf pkt →
  f_key (flow_set_masked_ipv6_dst (flow_new flags0) v mask) = key_zero ∧
  (flow_matches (flow_set_masked_ipv6_dst (flow_new flags0) v mask) pkt →
   mask_bytes (ipv6_dst pkt) mask = replicate IPV6_LEN 0).
Proof.
  intros Hmask Hp.
  assert (f_key (flow_set_masked_ipv6_dst (flow_new flags0) v mask) = key_zero) as Hk.
  { unfold flow_set_masked_ipv6_dst, flow_new. cbn -[take replicate].
    rewrite take_ge by (destruct Hmask; lia). unfold apply_mask_ipv6.
    unfold key_zero. cbn -[replicate mask_bytes]. f_equal.
    rewrite mask_bytes_sym. apply mask_bytes_zeros. by apply bytes_wf_length. }
  split; [done|]. unfold flow_matches, apply_all_mask. rewrite Hk. intros Hmt.
  apply (f_equal ipv6_dst) in Hmt. cbn -[take replicate] in Hmt.
  rewrite take_ge in Hmt by (destruct Hmask; lia). exact Hmt.
Qed.

Lemma masked_ipv6_dst_ignores_address_witness :
  f_key (flow_set_masked_ipv6_dst (flow_new 0) (replicate 16 9) (replicate 16 255))
    = key_zero ∧
  (flow_matches (flow_set_masked_ipv6_dst (flow_new 0) (replicate 16 9)
                   (replicate 16 255)) key_zero →
   mask_bytes (ipv6_dst key_zero) (replicate 16 255) = replicate IPV6_LEN 0).
Proof.
  apply masked_ipv6_dst_ignores_address; [|apply key_zero_wf].
  by apply (bool_decide_unpack _); vm_compute.
Defined.
