(* ===== verification/FlowTable.v ===== *)
(** * FlowTable: tuple-space search flow tables

    Models [net/flow_table.c].  A flow table is a list of mini flow tables,
    one per mask, each a [uthash] of the flows with that mask keyed by their
    match key.  Flows are heap objects: an address comes with every flow, and
    [add_flow] takes the address of the flow its caller allocated.  The loops
    over the doubly linked list of mini tables ([DL_FOREACH_SAFE], with the
    removal of the current node) are recursive functions that return the list
    that is left.

    The theorems give the invariant (distinct masks, no empty mini table, every
    flow in the mini table of its mask), the effect of each operation on the
    list of installed flows, and that lookup returns the highest-priority
    unexpired matching flow. *)

From stdpp Require Import prelude.
From S2P Require Import Prelude Uthash Action Instruction FlowKey Flow.

Record mini_flow_table := Mft {
  mft_flows : uthash flow;
  mft_mask : ofl_flow_key
}.
#[export] Instance eta_mft : Eta mini_flow_table :=
  λ m, Mft (mft_flows m) (mft_mask m).

Record flow_table := Ft {
  ft_flows : list mini_flow_table;
  ft_table_id : Z
}.
#[export] Instance eta_ft : Eta flow_table := λ t, Ft (ft_flows t) (ft_table_id t).

(** [struct ofl_flow_stats_req] *)
Record ofl_flow_stats_req := StatsReq {
  req_table_id : Z;
  req_out_port : Z;
  req_out_group : Z;
  req_cookie : Z;
  req_cookie_mask : Z;
  req_match : ofl_flow_key;
  req_mask : ofl_flow_key
}.

Implicit Types (m : mini_flow_table) (ft : flow_table) (f : flow) (a : addr).
Implicit Types (time : Z) (l : list mini_flow_table).

(** ** Operations *)

Definition flow_table_new (table_id : Z) : flow_table := Ft [] (u8 table_id).

Definition mini_flow_table_new (a : addr) f : mini_flow_table :=
  Mft (HASH_ADD a f None) (f_mask f).

Definition mini_flow_table_add_flow m (a : addr) f : mini_flow_table :=
  m <| mft_flows ::= HASH_ADD a f |>.

(** Deleting the last flow frees the mini table: [None].  The flow is freed with its
    actions ([Ownership.release_actions]). *)
Definition flow_table_del_flow m (a : addr) : option mini_flow_table :=
  let h := HASH_DELETE a (mft_flows m) in
  if decide (HASH_COUNT h = 0) then None else Some (m <| mft_flows := h |>).

(** The condition under which [flow_table_del_expired] deletes; times are in
    microseconds, timeouts in seconds, all in 64 bits. *)
Definition flow_expired f time : bool :=
  (negb (f_hard_timeout f =? 0) && (f_remove_at f <? time))
  || (negb (f_idle_timeout f =? 0) &&
      (u64 (f_last_used f + u64 (f_idle_timeout f * 1000000)) <? time)).

(** The mini table after the call ([None]: freed) and the returned flag. *)
Definition flow_table_del_expired m (a : addr) f time
  : option mini_flow_table * bool :=
  if flow_expired f time then (flow_table_del_flow m a, true) else (Some m, false).

(** Every flow of every mini table is unlinked and freed, then the mini table
    itself; the value is the addresses of the freed flows, in order. *)
Definition mft_clear m : uthash flow * list addr :=
  foldl (λ st av, (HASH_DELETE av.1 st.1, st.2 ++ [av.1]))
    (mft_flows m, []) (ht_elems (mft_flows m)).
Definition flow_table_destroy ft : list addr :=
  mjoin ((λ m, (mft_clear m).2) <$> ft_flows ft).

Definition mft_find m (key : ofl_flow_key) : option (addr * flow) :=
  HASH_FIND (key_bytes key) (mft_flows m).

(** Store through a flow pointer. *)
Definition mft_update (a : addr) (g : flow → flow) m : mini_flow_table :=
  m <| mft_flows ::= ht_update a g |>.
Definition ft_update (a : addr) (g : flow → flow) ft : flow_table :=
  ft <| ft_flows ::= fmap (mft_update a g) |>.

Fixpoint lookup_loop (key : ofl_flow_key) time (cur_priority : Z)
    (ret_flow : option (addr * flow)) l
  : list mini_flow_table * option (addr * flow) :=
  match l with
  | [] => ([], ret_flow)
  | nxt_mft :: l' =>
      match mft_find nxt_mft (apply_all_mask key (mft_mask nxt_mft)) with
      | None =>
          let '(r, ret) := lookup_loop key time cur_priority ret_flow l' in
          (nxt_mft :: r, ret)
      | Some (a, flow_found) =>
          let '(left_mft, expired) :=
            flow_table_del_expired nxt_mft a flow_found time in
          let '(cur, ret) :=
            if negb expired && (cur_priority <? f_priority flow_found)
            then (f_priority flow_found, Some (a, flow_found))
            else (cur_priority, ret_flow) in
          let '(r, ret) := lookup_loop key time cur ret l' in
          (option_list left_mft ++ r, ret)
      end
  end.

Definition flow_table_lookup ft (key : ofl_flow_key) time
  : flow_table * option (addr * flow) :=
  let '(l, ret) := lookup_loop key time (-1) None (ft_flows ft) in
  let ft' := ft <| ft_flows := l |> in
  match ret with
  | None => (ft', None)
  | Some (a, f) =>
      (ft_update a (λ f, f <| f_last_used := time |>) ft',
       Some (a, f <| f_last_used := time |>))
  end.

(** No [break]: every mini table with the flow's mask gets the flow. *)
Fixpoint add_loop (a : addr) f l : list mini_flow_table * bool :=
  match l with
  | [] => ([], false)
  | m :: l' =>
      let '(r, added) := add_loop a f l' in
      if flow_key_cmp (f_mask f) (mft_mask m)
      then (mini_flow_table_add_flow m a f :: r, true)
      else (m :: r, added)
  end.

Definition add_flow ft (a : addr) f time : flow_table :=
  let f := f <| f_remove_at := u64 (u64 (f_hard_timeout f * 1000000) + time) |>
             <| f_last_used := time |> in
  let '(l, added) := add_loop a f (ft_flows ft) in
  ft <| ft_flows := if added then l else l ++ [mini_flow_table_new a f] |>.

(** The flow found and the [stop] flag. *)
Definition match_strict f m : option (addr * flow) * bool :=
  if flow_key_cmp (f_mask f) (mft_mask m)
  then (mft_find m (f_key f), true) else (None, false).

Fixpoint mod_flow_strict f time l : list mini_flow_table :=
  match l with
  | [] => []
  | m :: l' =>
      let '(flow_found, stop) := match_strict f m in
      let left_mft :=
        match flow_found with
        | Some (a, fnd) =>
            if f_priority fnd =? f_priority f then
              let '(m', expired) := flow_table_del_expired m a fnd time in
              if expired then m'
              else mft_update a (λ x, flow_add_instructions x (f_insts f)) <$> m'
            else Some m
        | None => Some m
        end in
      option_list left_mft ++ (if stop then l' else mod_flow_strict f time l')
  end.

Definition is_flow_non_strict_in_mft (fmask : ofl_flow_key) m : bool :=
  flow_key_cmp (apply_all_mask (mft_mask m) fmask) fmask.

Definition match_non_strict (key1 key1_mask key2 : ofl_flow_key) : bool :=
  flow_key_cmp (apply_all_mask key2 key1_mask) key1.

(** The inner [HASH_ITER]: the successor is read before the body runs, and the
    mini table is freed only with its last flow, so the iteration is over the
    flows present at the start. *)
Fixpoint mod_non_strict_iter f time (flows : list (addr * flow))
    (cur : option mini_flow_table) : option mini_flow_table :=
  match flows with
  | [] => cur
  | (a, cur_flow) :: flows' =>
      let cur' :=
        match cur with
        | None => None
        | Some m =>
            if match_non_strict (f_key f) (f_mask f) (f_key cur_flow) then
              let '(m', expired) := flow_table_del_expired m a cur_flow time in
              if expired then m'
              else mft_update a (λ x, flow_add_instructions x (f_insts f)) <$> m'
            else Some m
        end in
      mod_non_strict_iter f time flows' cur'
  end.

Definition mod_flow_non_strict f time l : list mini_flow_table :=
  mjoin ((λ m,
    option_list
      (if is_flow_non_strict_in_mft (f_mask f) m
       then mod_non_strict_iter f time (ht_elems (mft_flows m)) (Some m)
       else Some m)) <$> l).

Definition modify_flow ft f (strict : bool) time : flow_table :=
  ft <| ft_flows ::= λ l,
    if strict then mod_flow_strict f time l else mod_flow_non_strict f time l |>.

(** ** Statistics *)

(** The caller's array of flow pointers: its allocated size and its contents;
    storing past the allocation is a fault. *)
Record stats_acc := StatsAcc {
  st_allocated : Z;
  st_capacity : Z;
  st_flows : list addr
}.
#[export] Instance eta_stats_acc : Eta stats_acc := λ s,
  StatsAcc (st_allocated s) (st_capacity s) (st_flows s).

Definition stats_store (s : stats_acc) (a : addr) : outcome stats_acc :=
  let n := Z.of_nat (length (st_flows s)) in
  let s := if st_allocated s =? n
           then StatsAcc (st_allocated s * 2) (st_allocated s * 2) (st_flows s)
           else s in
  if n <? st_capacity s
  then Ok (s <| st_flows := st_flows s ++ [a] |>) else Fault OutOfBounds.

Fixpoint stats_iter (req : ofl_flow_stats_req) time (flows : list (addr * flow))
    (cur : option mini_flow_table) (s : stats_acc)
  : outcome (option mini_flow_table * stats_acc) :=
  match flows with
  | [] => Ok (cur, s)
  | (a, cur_flow) :: flows' =>
      match cur with
      | None => Ok (None, s)
      | Some m =>
          if match_non_strict (req_match req) (req_mask req) (f_key cur_flow) then
            let '(m', expired) := flow_table_del_expired m a cur_flow time in
            if expired then stats_iter req time flows' m' s
            else s' ← stats_store s a; stats_iter req time flows' m' s'
          else stats_iter req time flows' cur s
      end
  end.

Fixpoint stats_loop (req : ofl_flow_stats_req) time l (s : stats_acc)
  : outcome (list mini_flow_table * stats_acc) :=
  match l with
  | [] => Ok ([], s)
  | m :: l' =>
      r ← (if is_flow_non_strict_in_mft (req_mask req) m
           then stats_iter req time (ht_elems (mft_flows m)) (Some m) s
           else Ok (Some m, s));
      let '(left_mft, s') := r in
      r' ← stats_loop req time l' s';
      let '(ms, s'') := r' in
      Ok (option_list left_mft ++ ms, s'')
  end.

(** [capacity] is what the caller's array holds, [flows] what it stored so far;
    the function assumes one allocated slot ([allocated = 1]). *)
Definition flow_table_stats ft (req : ofl_flow_stats_req) (capacity : Z)
    (flows : list addr) time : outcome (flow_table * stats_acc) :=
  r ← stats_loop req time (ft_flows ft) (StatsAcc 1 capacity flows);
  let '(l, s) := r in Ok (ft <| ft_flows := l |>, s).

(** ** Deletion *)

Fixpoint del_flow_strict f time l : list mini_flow_table :=
  match l with
  | [] => []
  | m :: l' =>
      let '(flow_found, stop) := match_strict f m in
      let left_mft :=
        match flow_found with
        | Some (a, fnd) =>
            if f_priority fnd =? f_priority f then
              let '(m', expired) := flow_table_del_expired m a fnd time in
              if expired then m' else flow_table_del_flow m a
            else Some m
        | None => Some m
        end in
      option_list left_mft ++ (if stop then l' else del_flow_strict f time l')
  end.

Definition del_non_strict_iter f (flows : list (addr * flow)) (h : uthash flow)
  : uthash flow :=
  foldl (λ h av,
    if match_non_strict (f_key f) (f_mask f) (f_key av.2)
    then HASH_DELETE av.1 h else h) h flows.

Definition del_flow_non_strict f l : list mini_flow_table :=
  mjoin ((λ m,
    if is_flow_non_strict_in_mft (f_mask f) m then
      match del_non_strict_iter f (ht_elems (mft_flows m)) (mft_flows m) with
      | None => []
      | h => [m <| mft_flows := h |>]
      end
    else [m]) <$> l).

Definition delete_flow ft f time (strict : bool) : flow_table :=
  ft <| ft_flows ::= λ l,
    if strict then del_flow_strict f time l else del_flow_non_strict f l |>.

#[local] Opaque flow_key_cmp apply_all_mask key_bytes.

(** ** Invariant *)

Definition mft_elems m : list (addr * flow) := ht_elems (mft_flows m).
Definition mfts_elems l : list (addr * flow) := concat (mft_elems <$> l).
Definition ft_elems ft : list (addr * flow) := mfts_elems (ft_flows ft).

Record mft_wf m : Prop := {
  mw_table : ht_wf (mft_flows m);
  mw_nonempty : mft_elems m ≠ [];
  mw_mask : ∀ a f, (a, f) ∈ mft_elems m → f_mask f = mft_mask m;
  mw_flow : ∀ a f, (a, f) ∈ mft_elems m → flow_wf f
}.

Record mfts_wf l : Prop := {
  fw_mfts : Forall mft_wf l;
  fw_masks : NoDup (mft_mask <$> l);
  fw_addrs : NoDup (mfts_elems l).*1
}.
Definition ft_wf ft : Prop := mfts_wf (ft_flows ft).

(** No two flows of the table have the same match (mask and key). *)
Definition elems_unique (k : list (addr * flow)) : Prop := ∀ a f a' f',
  (a, f) ∈ k → (a', f') ∈ k → f_mask f = f_mask f' → f_key f = f_key f' →
  a = a' ∧ f = f'.
Definition ft_unique ft : Prop := elems_unique (ft_elems ft).

Lemma flow_table_new_wf table_id : ft_wf (flow_table_new table_id).
Proof. split; cbn; constructor. Qed.

Lemma mfts_elems_cons m l : mfts_elems (m :: l) = mft_elems m ++ mfts_elems l.
Proof. done. Qed.

Lemma mfts_elems_app l l' : mfts_elems (l ++ l') = mfts_elems l ++ mfts_elems l'.
Proof. unfold mfts_elems. by rewrite fmap_app, concat_app. Qed.

Lemma mfts_elems_singleton m : mfts_elems [m] = mft_elems m.
Proof. unfold mfts_elems. apply app_nil_r. Qed.

Lemma elem_of_mfts_elems l av :
  av ∈ mfts_elems l ↔ ∃ m, m ∈ l ∧ av ∈ mft_elems m.
Proof.
  unfold mfts_elems. rewrite elem_of_concat. setoid_rewrite list_elem_of_fmap.
  naive_solver.
Qed.

(** One loop iteration leaves the mini table, an updated one, or none. *)
Definition mft_step m (om : option mini_flow_table) : Prop :=
  match om with
  | None => True
  | Some m' =>
      mft_wf m' ∧ mft_mask m' = mft_mask m ∧
      (mft_elems m').*1 `sublist_of` (mft_elems m).*1
  end.

Inductive shrinks : list mini_flow_table → list mini_flow_table → Prop :=
| shrinks_nil : shrinks [] []
| shrinks_cons m om l l' :
    mft_step m om → shrinks l l' → shrinks (m :: l) (option_list om ++ l').

Lemma mft_step_refl m : mft_wf m → mft_step m (Some m).
Proof. intros Hm. split; [done|]. split; [done|reflexivity]. Qed.

Lemma shrinks_refl l : Forall mft_wf l → shrinks l l.
Proof.
  induction 1 as [|m l Hm Hl IH]; [constructor|].
  apply (shrinks_cons m (Some m) l l); [by apply mft_step_refl|done].
Qed.

Lemma shrinks_sub l l' :
  shrinks l l' →
  Forall mft_wf l' ∧ mft_mask <$> l' `sublist_of` mft_mask <$> l ∧
  (mfts_elems l').*1 `sublist_of` (mfts_elems l).*1.
Proof.
  induction 1 as [|m [m'|] l l' Hs Hl (IH1 & IH2 & IH3)]; [done|..].
  - destruct Hs as (Hwf & Hm & Hsub). simpl. split; [by constructor|].
    rewrite Hm. split; [by constructor|].
    rewrite !mfts_elems_cons, !fmap_app. by apply sublist_app.
  - simpl. split; [done|]. split; [by constructor|].
    rewrite mfts_elems_cons, fmap_app. by apply sublist_inserts_l.
Qed.

Lemma shrinks_wf l l' : mfts_wf l → shrinks l l' → mfts_wf l'.
Proof.
  intros [_ Hm Ha] (H1 & H2 & H3)%shrinks_sub.
  split; [done|by eapply sublist_NoDup|by eapply sublist_NoDup].
Qed.

(** ** Single mini table steps *)

Definition oelems (om : option mini_flow_table) : list (addr * flow) :=
  match om with None => [] | Some m => mft_elems m end.

Lemma mfts_elems_option om l :
  mfts_elems (option_list om ++ l) = oelems om ++ mfts_elems l.
Proof. by destruct om. Qed.

Lemma del_flow_spec m a :
  mft_wf m →
  mft_step m (flow_table_del_flow m a) ∧
  oelems (flow_table_del_flow m a) = filter (λ av, av.1 ≠ a) (mft_elems m).
Proof.
  intros [Ht Hn Hm Hf]. unfold flow_table_del_flow.
  destruct (HASH_DELETE_spec a (mft_flows m) Ht) as [Hw He].
  rewrite HASH_COUNT_elems. fold (mft_elems m) in He.
  destruct (decide _) as [H0|Hne]; simpl.
  - split; [done|]. rewrite <- He.
    destruct (ht_elems (HASH_DELETE a (mft_flows m))); [done|simpl in H0; lia].
  - split; [|exact He].
    split; [constructor; unfold mft_elems; simpl; try done|split; [done|]].
    + intros H0. by rewrite H0 in Hne.
    + rewrite He. intros a' f' [_ Hin]%list_elem_of_filter. eauto.
    + rewrite He. intros a' f' [_ Hin]%list_elem_of_filter. eauto.
    + unfold mft_elems at 1; simpl. rewrite He. clear.
      induction (mft_elems m) as [|x k IH]; [done|]. rewrite filter_cons.
      case_decide; simpl; by constructor.
Qed.

(** A store through a flow pointer that leaves the match and priority alone. *)
Definition keeps_match (g : flow → flow) : Prop := ∀ f,
  f_key (g f) = f_key f ∧ f_mask (g f) = f_mask f ∧
  f_priority (g f) = f_priority f.

Lemma mft_update_spec m a g :
  mft_wf m → keeps_match g →
  mft_step m (Some (mft_update a g m)) ∧
  mft_elems (mft_update a g m) = elem_update a g <$> mft_elems m.
Proof.
  intros [Ht Hn Hm Hf] Hg.
  destruct (ht_update_spec a g (mft_flows m) Ht) as [Hw He].
  { intros f _. unfold key_image, flow_keyed. by rewrite (proj1 (Hg f)). }
  fold (mft_elems m) in He. split; [|exact He].
  assert (∀ a' f', (a', f') ∈ elem_update a g <$> mft_elems m →
    ∃ f0, (a', f0) ∈ mft_elems m ∧ (f' = f0 ∨ f' = g f0)) as Hin.
  { intros a' f' ([a0 f0] & Heq & Hin)%list_elem_of_fmap. exists f0.
    unfold elem_update in Heq; simpl in Heq. case_decide; simplify_eq; auto. }
  split; [constructor; unfold mft_elems; simpl; try done|split; [done|]].
  - rewrite He. by intros ?%fmap_nil_inv.
  - rewrite He. intros a' f' (f0 & Hin0 & [->| ->])%Hin; [eauto|].
    rewrite (proj1 (proj2 (Hg f0))). eauto.
  - rewrite He. intros a' f' (f0 & Hin0 & [->| ->])%Hin; [eauto|].
    destruct (Hg f0) as (Hk & Hmk & Hp), (Hf _ _ Hin0).
    split; by rewrite ?Hk, ?Hmk, ?Hp.
  - unfold mft_elems at 1; simpl. rewrite He.
    rewrite <- list_fmap_compose.
    erewrite list_fmap_ext; [reflexivity|]. intros i [a' f'] _.
    unfold elem_update, compose; simpl. by case_decide.
Qed.

Lemma keeps_last_used time : keeps_match (λ f, f <| f_last_used := time |>).
Proof. by intros f. Qed.
Lemma keeps_instructions insts : keeps_match (λ f, flow_add_instructions f insts).
Proof. by intros f. Qed.
#[export] Hint Resolve keeps_last_used keeps_instructions : horse.

(** ** Lookup *)

Lemma mft_wf_mask m : mft_wf m → key_wf (mft_mask m).
Proof.
  intros [Ht Hn Hm Hf]. destruct (mft_elems m) as [|[a f] k] eqn:E; [done|].
  rewrite <- (Hm a f) by (rewrite ?E; left). apply fwf_mask, (Hf a f). left.
Qed.

(** In a mini table, searching the masked packet key finds the matching flow. *)
Lemma mft_find_matches m key a f :
  mft_wf m → keys_unique (mft_flows m) → key_wf key →
  mft_find m (apply_all_mask key (mft_mask m)) = Some (a, f) ↔
  (a, f) ∈ mft_elems m ∧ flow_matches f key.
Proof.
  intros Hwf Hu Hk. pose proof (mft_wf_mask m Hwf) as Hmk.
  destruct Hwf as [Ht Hn Hm Hf]. unfold mft_find, flow_matches.
  rewrite HASH_FIND_unique by done. fold (mft_elems m). split.
  - intros [Hin Hb]. split; [done|]. rewrite (Hm a f) by done. symmetry.
    apply key_bytes_inj; [|by apply apply_all_mask_wf|done].
    by apply fwf_key, (Hf a f).
  - intros [Hin He]. split; [done|]. unfold key_image, flow_keyed.
    by rewrite <- He, (Hm a f) by done.
Qed.

Lemma mft_match_unique m key a f a' f' :
  mft_wf m → keys_unique (mft_flows m) → key_wf key →
  (a, f) ∈ mft_elems m → flow_matches f key →
  (a', f') ∈ mft_elems m → flow_matches f' key → a' = a ∧ f' = f.
Proof.
  intros Hwf Hu Hk H1 H2 H3 H4.
  pose proof (proj2 (mft_find_matches m key a f Hwf Hu Hk) (conj H1 H2)) as E1.
  pose proof (proj2 (mft_find_matches m key a' f' Hwf Hu Hk) (conj H3 H4)) as E2.
  split; congruence.
Qed.

(** What a lookup at [time] removes: matching flows that have expired. *)
Definition stale (key : ofl_flow_key) time (av : addr * flow) : Prop :=
  flow_matches av.2 key ∧ flow_expired av.2 time = true.
(** What it chooses from. *)
Definition candidate (key : ofl_flow_key) time (av : addr * flow) : Prop :=
  flow_matches av.2 key ∧ flow_expired av.2 time = false.

#[export] Instance stale_dec key time av : Decision (stale key time av).
Proof. unfold stale. apply _. Defined.
#[export] Instance candidate_dec key time av : Decision (candidate key time av).
Proof. unfold candidate. apply _. Defined.

#[global] Arguments stale_dec : simpl never.
#[global] Arguments candidate_dec : simpl never.

(** The loop with the best flow so far in its accumulators. *)
Definition lookup_result (key : ofl_flow_key) time (cur : Z)
    (elems : list (addr * flow)) (ret ret' : option (addr * flow)) : Prop :=
  (ret' = ret ∧
   ∀ av, av ∈ elems → candidate key time av → f_priority av.2 ≤ cur) ∨
  (∃ av, ret' = Some av ∧ av ∈ elems ∧ candidate key time av ∧
         cur < f_priority av.2 ∧
   ∀ av', av' ∈ elems → candidate key time av' → f_priority av'.2 ≤ f_priority av.2).

(** Processing a mini table with at most one candidate, then the rest. *)
Lemma lookup_result_app key time cur e1 e2 ret ret' :
  (∀ av, av ∈ e1 → ¬ candidate key time av) →
  lookup_result key time cur e2 ret ret' →
  lookup_result key time cur (e1 ++ e2) ret ret'.
Proof.
  unfold lookup_result. setoid_rewrite elem_of_app.
  intros Hno [[-> Hle]|(av & -> & Hin & Hc & Hlt & Hle)]; [left|right].
  - split; [done|]. intros av [H|H] Hc; [by destruct (Hno av)|eauto].
  - exists av. repeat split; auto; try apply Hc.
    intros av' [H|H] Hc'; [by destruct (Hno av')|eauto].
Qed.

Lemma lookup_result_step key time cur e1 e2 ret ret' av :
  av ∈ e1 → candidate key time av → (∀ av', av' ∈ e1 → candidate key time av' → av' = av) →
  (if cur <? f_priority av.2
   then lookup_result key time (f_priority av.2) e2 (Some av) ret'
   else lookup_result key time cur e2 ret ret') →
  lookup_result key time cur (e1 ++ e2) ret ret'.
Proof.
  unfold lookup_result. setoid_rewrite elem_of_app. intros Hin Hc Hu.
  destruct (Z.ltb_spec cur (f_priority av.2)) as [Hlt|Hge].
  - intros [[-> Hle]|(av2 & -> & Hin2 & Hc2 & Hlt2 & Hle)]; right.
    + exists av. repeat split; auto; try apply Hc.
      intros av' [H1|H1] H2; [by rewrite (Hu av')|eauto].
    + exists av2. repeat split; auto; try apply Hc2; [lia|].
      intros av' [H1|H1] H2; [rewrite (Hu av') by done; lia|eauto].
  - intros [[-> Hle]|(av2 & -> & Hin2 & Hc2 & Hlt2 & Hle)]; [left|right].
    + split; [done|]. intros av' [H1|H1] H2; [by rewrite (Hu av')|eauto].
    + exists av2. repeat split; auto; try apply Hc2.
      intros av' [H1|H1] H2; [rewrite (Hu av') by done; lia|eauto].
Qed.

Lemma filter_stale_id key time (k : list (addr * flow)) :
  (∀ av, av ∈ k → ¬ stale key time av) →
  filter (λ av, ¬ stale key time av) k = k.
Proof. intros H. apply filter_all. by apply Forall_forall. Qed.

Lemma lookup_loop_spec key time l cur ret l' ret' :
  Forall mft_wf l → Forall (λ m, keys_unique (mft_flows m)) l → key_wf key →
  lookup_loop key time cur ret l = (l', ret') →
  shrinks l l' ∧
  mfts_elems l' = filter (λ av, ¬ stale key time av) (mfts_elems l) ∧
  lookup_result key time cur (mfts_elems l) ret ret'.
Proof.
  intros Hwf Hu Hk. revert cur ret l' ret'.
  induction Hwf as [|m l Hm Hwf IH]; intros cur ret l' ret';
    cbn [lookup_loop].
  { intros [= <- <-]. split; [constructor|]. split; [done|]. left.
    split; [done|]. intros av Hav. by apply not_elem_of_nil in Hav. }
  apply Forall_cons in Hu as [Hum Hu]. specialize (IH Hu).
  rewrite mfts_elems_cons, filter_app.
  destruct (mft_find m _) as [[a f]|] eqn:E.
  - apply mft_find_matches in E as [Hin Hmt]; [|done..].
    assert (∀ a' f', (a', f') ∈ mft_elems m → flow_matches f' key →
                     a' = a ∧ f' = f) as Huniq.
    { intros. by eapply (mft_match_unique m key). }
    unfold flow_table_del_expired. destruct (flow_expired f time) eqn:Hexp.
    + cbn [negb andb]. destruct (lookup_loop key time cur ret l) as [r rt] eqn:Hl.
      intros [= <- <-]. destruct (IH _ _ _ _ Hl) as (Hs & He & Hr).
      destruct (del_flow_spec m a Hm) as [Hst Hde].
      split; [by constructor|]. rewrite mfts_elems_option, He, Hde. split.
      * f_equal. apply filter_ext_in. intros [a' f'] Hin'. unfold stale; cbn [fst snd].
        split; [intros Hne [Hm' _]; by destruct (Huniq a' f')|].
        intros Hns ->. apply Hns.
        rewrite (NoDup_fst_inj (mft_elems m) a f' f); try done.
        apply ht_addrs_NoDup, Hm.
      * apply lookup_result_app; [|done]. intros [a' f'] Hin' [Hm' Hx]; cbn [fst snd] in Hm', Hx.
        destruct (Huniq a' f') as [-> ->]; congruence.
    + cbn [negb andb]. set (cr := if cur <? f_priority f then _ else _).
      destruct cr as [cur' rt'] eqn:Hcr.
      destruct (lookup_loop key time cur' rt' l) as [r rt] eqn:Hl.
      intros [= <- <-]. destruct (IH _ _ _ _ Hl) as (Hs & He & Hr).
      split; [by apply (shrinks_cons m (Some m)); [apply mft_step_refl|]|].
      cbn [option_list app]. rewrite mfts_elems_cons, He. split.
      * f_equal. symmetry. apply filter_stale_id.
        intros [a' f'] Hin' [Hm' Hx]; cbn [fst snd] in Hm', Hx.
        destruct (Huniq a' f') as [-> ->]; congruence.
      * apply lookup_result_step with (a, f); [done|done| |].
        -- intros [a' f'] Hin' [Hm' _]. by destruct (Huniq a' f') as [-> ->].
        -- unfold cr in Hcr. cbn [snd]. destruct (cur <? f_priority f); by simplify_eq.
  - destruct (lookup_loop key time cur ret l) as [r rt] eqn:Hl.
    intros [= <- <-]. destruct (IH _ _ _ _ Hl) as (Hs & He & Hr).
    assert (∀ a' f', (a', f') ∈ mft_elems m → ¬ flow_matches f' key) as Hno.
    { intros a' f' Hin' Hm'.
      rewrite (proj2 (mft_find_matches m key a' f' Hm Hum Hk)) in E; done. }
    split; [by apply (shrinks_cons m (Some m)); [apply mft_step_refl|]|].
    rewrite mfts_elems_cons, He. split.
    + f_equal. symmetry. apply filter_stale_id.
      intros [a' f'] Hin' [Hm' _]. by eapply Hno.
    + apply lookup_result_app; [|done]. intros [a' f'] Hin' [Hm' _].
      by eapply Hno.
Qed.

Lemma elems_unique_mfts l :
  Forall mft_wf l → elems_unique (mfts_elems l) →
  Forall (λ m, keys_unique (mft_flows m)) l.
Proof.
  intros Hwf Hu. apply Forall_forall. intros m Hm a f a' f' H1 H2 Hk.
  rewrite Forall_forall in Hwf. destruct (Hwf m Hm) as [Ht Hn Hmk Hf].
  apply (Hu a f a' f').
  - apply elem_of_mfts_elems. eauto.
  - apply elem_of_mfts_elems. eauto.
  - by rewrite (Hmk a f), (Hmk a' f').
  - apply key_bytes_inj; [by apply fwf_key, (Hf a f)|by apply fwf_key, (Hf a' f')|done].
Qed.

Lemma elems_unique_filter (P : addr * flow → Prop) `{∀ av, Decision (P av)} k :
  elems_unique k → elems_unique (filter P k).
Proof.
  intros Hu a f a' f' [_ H1]%list_elem_of_filter [_ H2]%list_elem_of_filter.
  by apply Hu.
Qed.

Lemma elems_unique_update a g k :
  keeps_match g → elems_unique k → elems_unique (elem_update a g <$> k).
Proof.
  intros Hg Hu a1 f1 a2 f2 ([b1 g1] & E1 & H1)%list_elem_of_fmap
    ([b2 g2] & E2 & H2)%list_elem_of_fmap Hm Hk.
  assert (∀ x y z w, elem_update a g (x, y) = (z, w) →
    f_mask w = f_mask y ∧ f_key w = f_key y) as Hkeep.
  { intros x y z w. unfold elem_update; simpl. destruct (Hg y) as (? & ? & _).
    by case_decide; intros [= <- <-]. }
  destruct (Hkeep _ _ _ _ (eq_sym E1)), (Hkeep _ _ _ _ (eq_sym E2)).
  destruct (Hu b1 g1 b2 g2); try congruence. subst. by rewrite <- E2 in E1; simplify_eq.
Qed.

(** Stores through a flow pointer, at the level of the table. *)
Lemma mfts_update_spec a g l :
  Forall mft_wf l → keeps_match g →
  shrinks l (mft_update a g <$> l) ∧
  mfts_elems (mft_update a g <$> l) = elem_update a g <$> mfts_elems l.
Proof.
  intros Hwf Hg. induction Hwf as [|m l Hm Hl [IH1 IH2]]; [split; [constructor|done]|].
  destruct (mft_update_spec m a g Hm Hg) as [Hs He]. rewrite fmap_cons. split.
  - by apply (shrinks_cons m (Some (mft_update a g m))).
  - by rewrite !mfts_elems_cons, fmap_app, He, IH2.
Qed.

Lemma flow_table_lookup_effect ft key time ft' ret :
  ft_wf ft → ft_unique ft → key_wf key →
  flow_table_lookup ft key time = (ft', ret) →
  ft_wf ft' ∧ ft_unique ft' ∧
  ft_elems ft' =
    (match ret with
     | None => id
     | Some (a, _) => elem_update a (λ f, f <| f_last_used := time |>)
     end) <$> filter (λ av, ¬ stale key time av) (ft_elems ft).
Proof.
  intros Hwf Hu Hk. unfold flow_table_lookup.
  destruct (lookup_loop key time (-1) None (ft_flows ft)) as [l rt] eqn:Hl.
  apply lookup_loop_spec in Hl as (Hs & He & _);
    [|by apply Hwf|by apply elems_unique_mfts; [apply Hwf|]|done].
  pose proof (shrinks_wf _ _ Hwf Hs) as Hwf'.
  assert (elems_unique (mfts_elems l)) as Hu'.
  { rewrite He. by apply elems_unique_filter. }
  destruct rt as [[a f]|]; intros [= <- <-].
  - destruct (mfts_update_spec a (λ f, f <| f_last_used := time |>) l) as [Hs' He'];
      [apply Hwf'|apply keeps_last_used|].
    split; [by eapply shrinks_wf|].
    unfold ft_unique. change (ft_elems (ft_update _ _ _)) with
      (mfts_elems (mft_update a (λ f, f <| f_last_used := time |>) <$> l)).
    rewrite He'. split; [|by rewrite He].
    apply elems_unique_update; [apply keeps_last_used|done].
  - split; [done|]. split; [done|]. unfold ft_elems; cbn [ft_flows setf].
    by rewrite He, list_fmap_id.
Qed.

Lemma flow_table_lookup_result ft key time ft' ret :
  ft_wf ft → ft_unique ft → key_wf key →
  flow_table_lookup ft key time = (ft', ret) →
  match ret with
  | None => ∀ av, av ∈ ft_elems ft → ¬ candidate key time av
  | Some (a, f') => ∃ f,
      f' = f <| f_last_used := time |> ∧ (a, f) ∈ ft_elems ft ∧
      candidate key time (a, f) ∧
      ∀ av, av ∈ ft_elems ft → candidate key time av → f_priority av.2 ≤ f_priority f
  end.
Proof.
  intros Hwf Hu Hk. unfold flow_table_lookup.
  destruct (lookup_loop key time (-1) None (ft_flows ft)) as [l rt] eqn:Hl.
  apply lookup_loop_spec in Hl as (_ & _ & Hr);
    [|by apply Hwf|by apply elems_unique_mfts; [apply Hwf|]|done].
  destruct Hr as [[-> Hle]|([a f] & -> & Hin & Hc & _ & Hle)].
  - intros [= <- <-] [a f] Hin Hc. specialize (Hle _ Hin Hc).
    apply elem_of_mfts_elems in Hin as (m & Hm & Hin).
    destruct Hwf as [Hwf _ _]. rewrite Forall_forall in Hwf.
    destruct (mw_flow m (Hwf m Hm) a f Hin) as [_ _ [Hp _]]. simpl in Hle. lia.
  - intros [= <- <-]. by exists f.
Qed.

(** ** What is left of a mini table

    [left_with om mask k]: the mini table [om] of mask [mask] holds [k]. *)
Definition left_with (om : option mini_flow_table) (mask : ofl_flow_key)
    (k : list (addr * flow)) : Prop :=
  match om with
  | None => k = []
  | Some m => mft_wf m ∧ mft_mask m = mask ∧ mft_elems m = k
  end.

Lemma left_with_self m : mft_wf m → left_with (Some m) (mft_mask m) (mft_elems m).
Proof. done. Qed.

Lemma left_with_del m mask k a :
  left_with (Some m) mask k →
  left_with (flow_table_del_flow m a) mask (filter (λ av, av.1 ≠ a) k).
Proof.
  intros (Hm & <- & <-). destruct (del_flow_spec m a Hm) as [Hs He].
  destruct (flow_table_del_flow m a) as [m'|]; simpl in *; [|done].
  by destruct Hs as (? & ? & _).
Qed.

Lemma left_with_update m mask k a g :
  left_with (Some m) mask k → keeps_match g →
  left_with (Some (mft_update a g m)) mask (elem_update a g <$> k).
Proof.
  intros (Hm & <- & <-) Hg. destruct (mft_update_spec m a g Hm Hg) as [Hs He].
  by destruct Hs as (? & ? & _).
Qed.

Lemma left_with_step m om k :
  left_with om (mft_mask m) k → k.*1 `sublist_of` (mft_elems m).*1 →
  mft_step m om ∧ oelems om = k.
Proof.
  destruct om as [m'|]; simpl; [|done]. intros (? & ? & <-) ?. done.
Qed.

Lemma left_with_NoDup m mask k : left_with (Some m) mask k → NoDup k.*1.
Proof. intros (Hm & _ & <-). apply ht_addrs_NoDup, Hm. Qed.

(** An address occurs once, so a store or a deletion through it is local. *)
Lemma elem_update_at a f g (d t : list (addr * flow)) :
  NoDup (d ++ (a, f) :: t).*1 →
  elem_update a g <$> (d ++ (a, f) :: t) = d ++ (a, g f) :: t.
Proof.
  assert (∀ k : list (addr * flow), a ∉ k.*1 → elem_update a g <$> k = k) as Hid.
  { intros k Hk. induction k as [|[x y] k IH]; [done|].
    rewrite fmap_cons in Hk. apply not_elem_of_cons in Hk as [Hne Hk].
    rewrite fmap_cons, IH by done.
    unfold elem_update; simpl. by rewrite decide_False. }
  rewrite fmap_app, fmap_cons, NoDup_app, NoDup_cons; simpl.
  intros (_ & Hd & Ht & _). rewrite fmap_app, fmap_cons.
  rewrite !Hid; [|done|intros Ha; eapply Hd; [done|left]].
  unfold elem_update; simpl. by rewrite decide_True.
Qed.

Lemma filter_addr_at a f (d t : list (addr * flow)) :
  NoDup (d ++ (a, f) :: t).*1 →
  filter (λ av, av.1 ≠ a) (d ++ (a, f) :: t) = d ++ t.
Proof.
  assert (∀ k : list (addr * flow), a ∉ k.*1 → filter (λ av, av.1 ≠ a) k = k) as Hid.
  { intros k Hk. apply filter_all, Forall_forall. intros [x y] Hx.
    simpl. intros ->. apply Hk. apply list_elem_of_fmap. by exists (a, y). }
  rewrite fmap_app, fmap_cons, NoDup_app, NoDup_cons; simpl.
  intros (_ & Hd & Ht & _). rewrite filter_app, filter_cons_False by (simpl; tauto).
  rewrite !Hid; [done|done|intros Ha; eapply Hd; [done|left]].
Qed.

(** ** Modification and deletion as list functions

    [edit P E u]: flows satisfying [P] are dropped when they satisfy [E] and
    changed by [u] otherwise. *)
Definition edit (P : flow → bool) (E : flow → bool) (u : flow → flow)
    (k : list (addr * flow)) : list (addr * flow) :=
  (λ av, if P av.2 then (av.1, u av.2) else av) <$>
    filter (λ av, ¬ (P av.2 = true ∧ E av.2 = true)) k.

Lemma edit_app P E u k1 k2 : edit P E u (k1 ++ k2) = edit P E u k1 ++ edit P E u k2.
Proof. unfold edit. by rewrite filter_app, fmap_app. Qed.

Lemma edit_cons P E u a f k :
  edit P E u ((a, f) :: k) =
  (if P f then if E f then [] else [(a, u f)] else [(a, f)]) ++ edit P E u k.
Proof.
  unfold edit. rewrite filter_cons; simpl.
  destruct (P f) eqn:HP, (E f) eqn:HE; case_decide as Hd;
    try (by destruct Hd; intros [??]); try (by destruct Hd);
    simpl; rewrite ?HP; done.
Qed.

Lemma edit_addrs P E u k : (edit P E u k).*1 `sublist_of` k.*1.
Proof.
  induction k as [|[a f] k IH]; [done|]. rewrite edit_cons, fmap_app, fmap_cons.
  destruct (P f), (E f); simpl; by constructor.
Qed.

Lemma edit_none P E u k : (∀ av, av ∈ k → P av.2 = false) → edit P E u k = k.
Proof.
  induction k as [|[a f] k IH]; intros Hno; [done|]. rewrite edit_cons.
  pose proof (Hno (a, f) ltac:(left)) as Hf. simpl in Hf. rewrite Hf. simpl. f_equal.
  apply IH. intros. apply Hno. by right.
Qed.

Lemma edit_ext P Q E u k :
  (∀ av, av ∈ k → P av.2 = Q av.2) → edit P E u k = edit Q E u k.
Proof.
  induction k as [|[a f] k IH]; intros He; [done|]. rewrite !edit_cons.
  pose proof (He (a, f) ltac:(left)) as Hf. simpl in Hf. rewrite Hf. f_equal.
  apply IH. intros. apply He. by right.
Qed.

(** A loop that edits every mini table edits the list of flows. *)
Lemma edit_loop P E u l (op : mini_flow_table → list mini_flow_table) :
  Forall mft_wf l →
  (∀ m, m ∈ l → mft_wf m → ∃ om, op m = option_list om ∧
      left_with om (mft_mask m) (edit P E u (mft_elems m))) →
  shrinks l (mjoin (op <$> l)) ∧
  mfts_elems (mjoin (op <$> l)) = edit P E u (mfts_elems l).
Proof.
  intros Hwf Hop. induction Hwf as [|m l Hm Hl IH]; [split; [constructor|done]|].
  destruct IH as [IH1 IH2]; [intros; apply Hop; [by right|done]|].
  destruct (Hop m ltac:(left) Hm) as (om & Hom & Hlw).
  apply left_with_step in Hlw as [Hs He]; [|apply edit_addrs].
  rewrite fmap_cons. change (mjoin (op m :: (op <$> l))) with (op m ++ mjoin (op <$> l)).
  rewrite Hom. split; [by constructor|].
  by rewrite mfts_elems_option, He, IH2, mfts_elems_cons, edit_app.
Qed.

(** ** Which flows a request selects *)

(** Same mask, key and priority. *)
Definition strict_match f (g : flow) : bool :=
  flow_key_cmp (f_mask f) (f_mask g) && flow_key_cmp (f_key f) (f_key g)
  && (f_priority g =? f_priority f).

(** The mask of [g] covers the mask of [f] and the keys agree under [f]'s. *)
Definition non_strict_match f (g : flow) : bool :=
  flow_key_cmp (apply_all_mask (f_mask g) (f_mask f)) (f_mask f)
  && match_non_strict (f_key f) (f_mask f) (f_key g).

Definition key_match f (g : flow) : bool :=
  match_non_strict (f_key f) (f_mask f) (f_key g).

(** What acting on one found flow leaves of the mini table. *)
Definition acts_as (act : mini_flow_table → addr → flow → option mini_flow_table)
    (E : flow → bool) (u : flow → flow) : Prop :=
  ∀ m mask d a g t, left_with (Some m) mask (d ++ (a, g) :: t) →
  left_with (act m a g) mask (d ++ (if E g then [] else [(a, u g)]) ++ t).

Definition replace_or_expire insts time m a (g : flow) : option mini_flow_table :=
  let '(m', expired) := flow_table_del_expired m a g time in
  if expired then m' else mft_update a (λ x, flow_add_instructions x insts) <$> m'.

Lemma replace_or_expire_acts insts time :
  acts_as (replace_or_expire insts time) (λ g, flow_expired g time)
    (λ g, flow_add_instructions g insts).
Proof.
  intros m mask d a g t Hlw. pose proof (left_with_NoDup _ _ _ Hlw) as Hnd.
  unfold replace_or_expire, flow_table_del_expired.
  destruct (flow_expired g time).
  - cbn [app]. rewrite <- (filter_addr_at a g d t Hnd). by apply left_with_del.
  - cbn [app]. change ((a, flow_add_instructions g insts) :: t) with
      ((a, (λ x, flow_add_instructions x insts) g) :: t).
    rewrite <- (elem_update_at a g _ d t Hnd).
    apply left_with_update; [done|apply keeps_instructions].
Qed.

Definition delete_or_expire time m a (g : flow) : option mini_flow_table :=
  let '(m', expired) := flow_table_del_expired m a g time in
  if expired then m' else flow_table_del_flow m a.

Lemma delete_or_expire_acts time :
  acts_as (delete_or_expire time) (λ _, true) id.
Proof.
  intros m mask d a g t Hlw. pose proof (left_with_NoDup _ _ _ Hlw) as Hnd.
  unfold delete_or_expire, flow_table_del_expired.
  cbn [app]. rewrite <- (filter_addr_at a g d t Hnd).
  destruct (flow_expired g time); by apply left_with_del.
Qed.

(** ** Non-strict modification and deletion *)

Lemma mod_non_strict_iter_spec f time todo d om mask :
  left_with om mask (d ++ todo) →
  left_with (mod_non_strict_iter f time todo om) mask
    (d ++ edit (key_match f) (λ g, flow_expired g time)
            (λ g, flow_add_instructions g (f_insts f)) todo).
Proof.
  revert d om. induction todo as [|[a g] todo IH]; intros d om Hlw; [done|].
  cbn [mod_non_strict_iter]. rewrite edit_cons.
  destruct om as [m|]; [|by destruct d].
  unfold key_match at 1.
  destruct (match_non_strict (f_key f) (f_mask f) (f_key g)) eqn:E.
  - rewrite app_assoc. apply IH. rewrite <- app_assoc.
    by apply (replace_or_expire_acts (f_insts f) time).
  - rewrite app_assoc. apply IH. by rewrite <- app_assoc.
Qed.

Lemma non_strict_in_mft_elems f m av :
  mft_wf m → av ∈ mft_elems m →
  non_strict_match f av.2 =
    is_flow_non_strict_in_mft (f_mask f) m && key_match f av.2.
Proof.
  intros [_ _ Hm _]. destruct av as [a g]. intros Hin.
  unfold non_strict_match, is_flow_non_strict_in_mft. cbn [snd].
  by rewrite (Hm a g Hin).
Qed.

Lemma mod_flow_non_strict_spec f time l :
  Forall mft_wf l →
  shrinks l (mod_flow_non_strict f time l) ∧
  mfts_elems (mod_flow_non_strict f time l) =
    edit (non_strict_match f) (λ g, flow_expired g time)
      (λ g, flow_add_instructions g (f_insts f)) (mfts_elems l).
Proof.
  intros Hwf. apply edit_loop; [done|]. intros m _ Hm. eexists. split; [done|].
  destruct (is_flow_non_strict_in_mft (f_mask f) m) eqn:E.
  - rewrite (edit_ext _ (key_match f)).
    + apply (mod_non_strict_iter_spec f time (mft_elems m) []).
      by apply left_with_self.
    + intros av Hin. by rewrite (non_strict_in_mft_elems f m av), E.
  - rewrite edit_none; [by apply left_with_self|].
    intros av Hin. by rewrite (non_strict_in_mft_elems f m av), E.
Qed.

Lemma del_non_strict_iter_spec f todo d (h : uthash flow) :
  ht_wf h → ht_elems h = d ++ todo →
  ht_wf (del_non_strict_iter f todo h) ∧
  ht_elems (del_non_strict_iter f todo h) =
    d ++ edit (key_match f) (λ _, true) id todo.
Proof.
  revert d h. induction todo as [|[a g] todo IH]; intros d h Hw He; [done|].
  unfold del_non_strict_iter. cbn [foldl]. rewrite edit_cons.
  unfold key_match at 1. cbn [snd fst].
  destruct (match_non_strict (f_key f) (f_mask f) (f_key g)).
  - destruct (HASH_DELETE_spec a h Hw) as [Hw' He'].
    apply (IH d); [done|]. rewrite He', He. apply (filter_addr_at a g).
    rewrite <- He. by apply ht_addrs_NoDup.
  - rewrite app_assoc. apply IH; [done|]. by rewrite <- app_assoc.
Qed.

Lemma del_flow_non_strict_spec f l :
  Forall mft_wf l →
  shrinks l (del_flow_non_strict f l) ∧
  mfts_elems (del_flow_non_strict f l) =
    edit (non_strict_match f) (λ _, true) id (mfts_elems l).
Proof.
  intros Hwf. apply edit_loop; [done|]. intros m _ Hm.
  destruct (is_flow_non_strict_in_mft (f_mask f) m) eqn:E.
  - destruct (del_non_strict_iter_spec f (mft_elems m) [] (mft_flows m))
      as [Hw He]; [apply Hm|done|].
    rewrite (edit_ext _ (key_match f)).
    2: { intros av Hin. by rewrite (non_strict_in_mft_elems f m av), E. }
    fold (mft_elems m).
    destruct (del_non_strict_iter f (mft_elems m) (mft_flows m)) as [t|].
    + exists (Some (m <| mft_flows := Some t |>)). split; [done|].
      split; [|done]. destruct Hm as [_ Hn Hmk Hf].
      assert (∀ a g, (a, g) ∈ ht_elems (Some t) → (a, g) ∈ mft_elems m) as Hsub.
      { rewrite He. intros a g ([a' g'] & Heq & [_ Hin]%list_elem_of_filter)%list_elem_of_fmap.
        simpl in Heq. by destruct (key_match f g'); simplify_eq/=. }
      constructor; unfold mft_elems; simpl; [done| |eauto..].
      by intros ?%ht_elems_nil.
    + exists None. split; [done|]. symmetry. exact He.
  - exists (Some m). split; [done|]. rewrite edit_none; [by apply left_with_self|].
    intros av Hin. by rewrite (non_strict_in_mft_elems f m av), E.
Qed.

(** ** Strict modification and deletion *)

(** One mini table of the request's mask, acted on through the flow that the
    hash lookup finds. *)
Definition strict_on (act : mini_flow_table → addr → flow → option mini_flow_table)
    f m : option mini_flow_table :=
  match mft_find m (f_key f) with
  | Some (a, fnd) => if f_priority fnd =? f_priority f then act m a fnd else Some m
  | None => Some m
  end.

Lemma strict_on_spec act E u f m :
  acts_as act E u → mft_wf m → keys_unique (mft_flows m) → flow_wf f →
  mft_mask m = f_mask f →
  left_with (strict_on act f m) (mft_mask m) (edit (strict_match f) E u (mft_elems m)).
Proof.
  intros Hact Hm Hu Hf Hmask. unfold strict_on.
  assert (∀ a g, (a, g) ∈ mft_elems m →
    strict_match f g = bool_decide (f_key f = f_key g) && (f_priority g =? f_priority f)) as Hsm.
  { intros a g Hin. unfold strict_match. rewrite !flow_key_cmp_decide.
    rewrite (mw_mask m Hm a g Hin), Hmask. by rewrite (bool_decide_true (f_mask f = _)). }
  destruct (mft_find m (f_key f)) as [[a g]|] eqn:E0.
  - apply HASH_FIND_Some in E0 as [Hin Hk]; [|apply Hm].
    assert (∀ a' g', (a', g') ∈ mft_elems m → f_key f = f_key g' → a' = a ∧ g' = g) as Huq.
    { intros a' g' Hin' Hk'. destruct (Hu a' g' a g) as [-> ->]; [done..| |done].
      rewrite Hk, Hk'. done. }
    assert (f_key f = f_key g) as Hkey.
    { symmetry. apply key_bytes_inj; [apply (mw_flow m Hm a g Hin)|apply Hf|done]. }
    destruct (f_priority g =? f_priority f) eqn:Hp.
    + apply list_elem_of_split in Hin as (d & t & Hdt). unfold mft_elems in *.
      rewrite Hdt. pose proof (ht_addrs_NoDup _ (mw_table m Hm)) as Hnd.
      unfold ht_addrs in Hnd. rewrite Hdt in Hnd.
      assert (∀ av, av ∈ d ++ t → strict_match f av.2 = false) as Hno.
      { intros [a' g'] Hin'. simpl. rewrite (Hsm a' g').
        2: { rewrite Hdt. rewrite elem_of_app in Hin'. rewrite elem_of_app, elem_of_cons. tauto. }
        apply andb_false_iff. left. apply bool_decide_eq_false. intros Hk'.
        destruct (Huq a' g') as [-> ->]; [|done|].
        { rewrite Hdt. rewrite elem_of_app in Hin'. rewrite elem_of_app, elem_of_cons. tauto. }
        rewrite fmap_app, fmap_cons, NoDup_app, NoDup_cons in Hnd.
        destruct Hnd as (_ & Hd & Ht & _). simpl in *.
        apply elem_of_app in Hin' as [Hi|Hi].
        - apply (Hd a); [|left]. apply list_elem_of_fmap. by exists (a, g).
        - apply Ht. apply list_elem_of_fmap. by exists (a, g). }
      rewrite edit_app, edit_cons, (edit_none _ _ _ d), (edit_none _ _ _ t).
      2,3: intros av Hav; apply Hno; apply elem_of_app; tauto.
      rewrite (Hsm a g), bool_decide_true, Hp by (done || rewrite Hdt; set_solver).
      apply Hact. split; [done|]. split; [done|exact Hdt].
    + rewrite edit_none; [by apply left_with_self|]. intros [a' g'] Hin'. simpl.
      rewrite (Hsm a' g') by done. destruct (bool_decide_reflect (f_key f = f_key g'));
        [|done]. by destruct (Huq a' g') as [_ ->].
  - rewrite edit_none; [by apply left_with_self|]. intros [a g] Hin. simpl.
    rewrite (Hsm a g) by done. rewrite bool_decide_false; [done|]. intros Hk.
    eapply (proj1 (HASH_FIND_None _ _ (mw_table m Hm))) in E0; [|exact Hin].
    apply E0. unfold key_image, flow_keyed. by rewrite Hk.
Qed.

(** The loop stops at the mini table of the request's mask; masks are distinct,
    so the rest of the list has nothing to edit. *)
Fixpoint strict_loop (act : mini_flow_table → addr → flow → option mini_flow_table)
    f l : list mini_flow_table :=
  match l with
  | [] => []
  | m :: l' =>
      if flow_key_cmp (f_mask f) (mft_mask m)
      then option_list (strict_on act f m) ++ l'
      else m :: strict_loop act f l'
  end.

Lemma mod_flow_strict_loop f time l :
  mod_flow_strict f time l = strict_loop (replace_or_expire (f_insts f) time) f l.
Proof.
  induction l as [|m l IH]; [done|]. cbn [mod_flow_strict strict_loop].
  unfold match_strict. destruct (flow_key_cmp (f_mask f) (mft_mask m)); [done|].
  by rewrite IH.
Qed.

Lemma del_flow_strict_loop f time l :
  del_flow_strict f time l = strict_loop (delete_or_expire time) f l.
Proof.
  induction l as [|m l IH]; [done|]. cbn [del_flow_strict strict_loop].
  unfold match_strict. destruct (flow_key_cmp (f_mask f) (mft_mask m)); [done|].
  by rewrite IH.
Qed.

Lemma strict_other_mask E u f k mask :
  (∀ a g, (a, g) ∈ k → f_mask g ≠ mask) → mask = f_mask f →
  edit (strict_match f) E u k = k.
Proof.
  intros Hno ->. apply edit_none. intros [a g] Hin. simpl. unfold strict_match.
  rewrite !flow_key_cmp_decide, bool_decide_false; [done|].
  intros Heq. by eapply Hno.
Qed.

Lemma strict_loop_spec act E u f l :
  acts_as act E u → flow_wf f → mfts_wf l → elems_unique (mfts_elems l) →
  shrinks l (strict_loop act f l) ∧
  mfts_elems (strict_loop act f l) = edit (strict_match f) E u (mfts_elems l).
Proof.
  intros Hact Hf [Hwf Hnd _] Hu.
  pose proof (elems_unique_mfts l Hwf Hu) as Hku. clear Hu.
  induction Hwf as [|m l Hm Hl IH]; [split; [constructor|done]|].
  rewrite fmap_cons in Hnd. apply NoDup_cons in Hnd as [Hnot Hnd].
  apply Forall_cons in Hku as [Hkm Hku]. cbn [strict_loop].
  rewrite flow_key_cmp_decide, mfts_elems_cons, edit_app.
  destruct (bool_decide_reflect (f_mask f = mft_mask m)) as [Heq|Hne].
  - pose proof (strict_on_spec act E u f m Hact Hm Hkm Hf (eq_sym Heq)) as Hlw.
    apply left_with_step in Hlw as [Hs He]; [|apply edit_addrs].
    split; [constructor; [done|by apply shrinks_refl]|].
    rewrite mfts_elems_option, He. f_equal. symmetry.
    apply strict_other_mask with (mft_mask m); [|done].
    intros a g (m' & Hm' & Hin)%elem_of_mfts_elems Hmg. apply Hnot.
    rewrite <- Hmg. rewrite Forall_forall in Hl.
    rewrite (mw_mask m' (Hl m' Hm') a g Hin). by apply list_elem_of_fmap_2.
  - destruct (IH Hnd Hku) as [IH1 IH2].
    split; [by apply (shrinks_cons m (Some m)); [apply mft_step_refl|]|].
    rewrite mfts_elems_cons, IH2. f_equal. symmetry.
    apply strict_other_mask with (f_mask f); [|done].
    intros a g Hin Hmg. apply Hne. by rewrite <- Hmg, (mw_mask m Hm a g Hin).
Qed.

(** ** Insertion *)

Definition stamped f time : flow :=
  f <| f_remove_at := u64 (u64 (f_hard_timeout f * 1000000) + time) |>
    <| f_last_used := time |>.

Lemma mft_add_spec m a f :
  mft_wf m → flow_wf f → mft_mask m = f_mask f → a ∉ (mft_elems m).*1 →
  mft_wf (mini_flow_table_add_flow m a f) ∧
  mft_elems (mini_flow_table_add_flow m a f) = mft_elems m ++ [(a, f)].
Proof.
  intros [Ht Hn Hm Hf] Hwf Hmask Ha.
  destruct (HASH_ADD_spec a f (mft_flows m) Ht Ha) as [Hw He].
  split; [|exact He]. constructor; unfold mft_elems; simpl; try done.
  - rewrite He. intros ?%app_nil. naive_solver.
  - rewrite He. intros a' f' [Hin|[= -> ->]%list_elem_of_singleton]%elem_of_app; eauto.
  - rewrite He. intros a' f' [Hin|[= -> ->]%list_elem_of_singleton]%elem_of_app; eauto.
Qed.

Lemma mft_new_spec a f :
  flow_wf f →
  mft_wf (mini_flow_table_new a f) ∧ mft_elems (mini_flow_table_new a f) = [(a, f)].
Proof.
  intros Hwf. destruct (HASH_ADD_spec a f None) as [Hw He]; [done|apply not_elem_of_nil|].
  split; [|exact He].
  constructor; unfold mft_elems, mini_flow_table_new; cbn [mft_flows mft_mask];
    rewrite ?He.
  - done.
  - done.
  - by intros a' f' [= -> ->]%list_elem_of_singleton.
  - by intros a' f' [= -> ->]%list_elem_of_singleton.
Qed.

(** At most one mini table has the flow's mask. *)
Lemma add_loop_spec a f l :
  NoDup (mft_mask <$> l) →
  (f_mask f ∉ mft_mask <$> l ∧ add_loop a f l = (l, false)) ∨
  (∃ l1 m l2, l = l1 ++ m :: l2 ∧ mft_mask m = f_mask f ∧
     add_loop a f l = (l1 ++ mini_flow_table_add_flow m a f :: l2, true)).
Proof.
  induction l as [|m l IH]; intros Hnd; [left; split; [apply not_elem_of_nil|done]|].
  rewrite fmap_cons in *. apply NoDup_cons in Hnd as [Hnot Hnd].
  cbn [add_loop]. rewrite flow_key_cmp_decide.
  destruct (bool_decide_reflect (f_mask f = mft_mask m)) as [Heq|Hne].
  - right. exists [], m, l. split; [done|]. split; [done|].
    destruct (IH Hnd) as [[_ ->]|(l1 & m' & l2 & -> & Hm' & _)]; [done|].
    destruct Hnot. rewrite fmap_app, fmap_cons. rewrite <- Heq, <- Hm'. set_solver.
  - destruct (IH Hnd) as [[Hno ->]|(l1 & m' & l2 & -> & Hm' & ->)].
    + left. split; [|done]. by apply not_elem_of_cons.
    + right. exists (m :: l1), m', l2. done.
Qed.

Lemma add_flow_spec ft a f time :
  ft_wf ft → flow_wf f → a ∉ (ft_elems ft).*1 →
  ft_wf (add_flow ft a f time) ∧
  ft_elems (add_flow ft a f time) ≡ₚ (a, stamped f time) :: ft_elems ft.
Proof.
  intros [Hwf Hnd Ha] Hf Hfr. unfold add_flow. fold (stamped f time).
  assert (flow_wf (stamped f time)) as Hf' by (by destruct Hf).
  unfold ft_wf, ft_elems in *. set (g := stamped f time) in *.
  destruct (add_loop_spec a g (ft_flows ft) Hnd)
    as [[Hno ->]|(l1 & m & l2 & Hl & Hm & ->)]; cbn [setf ft_flows].
  - destruct (mft_new_spec a g Hf') as [Hw He]. rewrite mfts_elems_app.
    rewrite mfts_elems_singleton, He. split.
    + split.
      * apply Forall_app. split; [done|]. by constructor.
      * rewrite fmap_app. apply NoDup_app. split; [done|].
        split; [|apply NoDup_singleton]. by intros x Hx ->%list_elem_of_singleton.
      * rewrite mfts_elems_app, mfts_elems_singleton, He, fmap_app.
        apply NoDup_app. split; [done|]. split; [|apply NoDup_singleton].
        by intros x Hx ->%list_elem_of_singleton.
    + symmetry. apply Permutation_cons_append.
  - rewrite Hl in *. rewrite !mfts_elems_app, !mfts_elems_cons in *.
    rewrite fmap_app, fmap_cons in Hnd. apply Forall_app in Hwf as [H1 [H2 H3]%Forall_cons].
    destruct (mft_add_spec m a g H2 Hf' Hm) as [Hw He].
    { intros Hin. apply Hfr. rewrite !fmap_app, !elem_of_app. tauto. }
    assert (mfts_elems l1 ++ mft_elems (mini_flow_table_add_flow m a g) ++ mfts_elems l2
      ≡ₚ (a, g) :: mfts_elems l1 ++ mft_elems m ++ mfts_elems l2) as Hp.
    { rewrite He. rewrite <- (app_assoc (mft_elems m)). cbn [app].
      rewrite !(app_assoc (mfts_elems l1)). symmetry. apply Permutation_middle. }
    split; [|done]. split.
    + apply Forall_app. split; [done|]. by constructor.
    + by rewrite fmap_app, fmap_cons.
    + rewrite mfts_elems_app, mfts_elems_cons, Hp. rewrite fmap_cons.
      by constructor.
Qed.

Lemma add_flow_unique ft a f time :
  ft_wf ft → flow_wf f → a ∉ (ft_elems ft).*1 → ft_unique ft →
  (∀ a' g, (a', g) ∈ ft_elems ft → f_mask g = f_mask f → f_key g ≠ f_key f) →
  ft_unique (add_flow ft a f time).
Proof.
  intros Hwf Hf Ha Hu Hno. destruct (add_flow_spec ft a f time Hwf Hf Ha) as [_ Hp].
  intros a1 f1 a2 f2. rewrite !Hp, !elem_of_cons.
  intros [[= -> ->]|H1] [[= -> ->]|H2] Hm Hk; [done| | |by apply Hu].
  - by destruct (Hno a2 f2 H2).
  - by destruct (Hno a1 f1 H1).
Qed.

(** ** Destruction *)

Lemma mft_clear_spec m : (mft_clear m).2 = (mft_elems m).*1.
Proof.
  unfold mft_clear. fold (mft_elems m).
  assert (∀ k (h : uthash flow) acc,
    (foldl (λ st (av : addr * flow), (HASH_DELETE av.1 st.1, st.2 ++ [av.1]))
       (h, acc) k).2 = acc ++ k.*1) as Hgen.
  { induction k as [|av k IH]; intros h acc; cbn [foldl fst snd].
    - by rewrite app_nil_r.
    - rewrite IH, fmap_cons, <- app_assoc. done. }
  by rewrite Hgen.
Qed.

Lemma flow_table_destroy_spec ft : flow_table_destroy ft = (ft_elems ft).*1.
Proof.
  unfold flow_table_destroy, ft_elems. induction (ft_flows ft) as [|m l IH]; [done|].
  rewrite mfts_elems_cons, fmap_app, <- IH, <- mft_clear_spec. done.
Qed.

(** ** Statistics *)

(** A statistics request selects as a non-strict flow with its match does. *)
Definition req_flow (req : ofl_flow_stats_req) : flow :=
  (flow_new 0) <| f_key := req_match req |> <| f_mask := req_mask req |>.

(** The array has a slot for every stored pointer. *)
Definition stats_inv (s : stats_acc) : Prop :=
  st_allocated s = st_capacity s ∧ 1 ≤ st_capacity s ∧
  Z.of_nat (length (st_flows s)) ≤ st_capacity s.

Lemma stats_store_ok s a :
  stats_inv s → ∃ s', stats_store s a = Ok s' ∧ stats_inv s' ∧
                      st_flows s' = st_flows s ++ [a].
Proof.
  intros (Ha & H1 & Hle). unfold stats_store, stats_inv.
  destruct (Z.eqb_spec (st_allocated s) (Z.of_nat (length (st_flows s)))) as [He|Hne];
    cbn [st_capacity st_flows st_allocated].
  - rewrite (proj2 (Z.ltb_lt _ _)) by lia. eexists. split; [done|]. cbn.
    rewrite length_app. simpl. split; [lia|done].
  - rewrite (proj2 (Z.ltb_lt _ _)) by lia. eexists. split; [done|]. cbn.
    rewrite length_app. simpl. split; [lia|done].
Qed.

(** The flows a request reports: selected and not expired. *)
Definition reported (P : flow → bool) time (k : list (addr * flow)) : list addr :=
  (filter (λ av, P av.2 = true ∧ flow_expired av.2 time = false) k).*1.

Lemma reported_app P time k1 k2 :
  reported P time (k1 ++ k2) = reported P time k1 ++ reported P time k2.
Proof. unfold reported. by rewrite filter_app, fmap_app. Qed.

Lemma reported_cons P time a g k :
  reported P time ((a, g) :: k) =
  (if P g then if flow_expired g time then [] else [a] else []) ++ reported P time k.
Proof.
  unfold reported. rewrite filter_cons. cbn [fst snd].
  destruct (P g), (flow_expired g time); case_decide; try done;
    naive_solver.
Qed.

Lemma reported_ext P Q time k :
  (∀ av, av ∈ k → P av.2 = Q av.2) → reported P time k = reported Q time k.
Proof.
  intros He. unfold reported. f_equal. apply filter_ext_in. intros av Hin.
  by rewrite (He av Hin).
Qed.

Lemma reported_none P time k :
  (∀ av, av ∈ k → P av.2 = false) → reported P time k = [].
Proof.
  induction k as [|[a g] k IH]; intros Hno; [done|]. rewrite reported_cons.
  pose proof (Hno (a, g) ltac:(left)) as Hg. cbn [snd] in Hg. rewrite Hg.
  apply IH. intros. apply Hno. by right.
Qed.

Lemma stats_iter_spec req time todo d om mask s :
  left_with om mask (d ++ todo) → stats_inv s →
  ∃ om' s', stats_iter req time todo om s = Ok (om', s') ∧
    left_with om' mask
      (d ++ edit (key_match (req_flow req)) (λ g, flow_expired g time) id todo) ∧
    stats_inv s' ∧
    st_flows s' = st_flows s ++ reported (key_match (req_flow req)) time todo.
Proof.
  revert d om s. induction todo as [|[a g] todo IH]; intros d om s Hlw Hs.
  { exists om, s. split; [done|]. split; [done|]. split; [done|].
    by rewrite app_nil_r. }
  cbn [stats_iter]. rewrite edit_cons, reported_cons.
  destruct om as [m|]; [|by destruct d].
  pose proof (left_with_NoDup _ _ _ Hlw) as Hnd.
  change (key_match (req_flow req) g)
    with (match_non_strict (req_match req) (req_mask req) (f_key g)).
  destruct (match_non_strict (req_match req) (req_mask req) (f_key g)) eqn:E.
  - unfold flow_table_del_expired. destruct (flow_expired g time) eqn:Hexp.
    + apply IH; [|done]. rewrite <- (filter_addr_at a g d todo Hnd).
      by apply left_with_del.
    + destruct (stats_store_ok s a Hs) as (s1 & Hst & Hs1 & Hf1).
      rewrite Hst. cbn [mbind outcome_bind].
      destruct (IH (d ++ [(a, g)]) (Some m) s1) as (om' & s' & H1 & H2 & H3 & H4);
        [by rewrite <- app_assoc|done|].
      exists om', s'. rewrite H4, Hf1. rewrite <- !app_assoc in *. done.
  - destruct (IH (d ++ [(a, g)]) (Some m) s) as (om' & s' & H1 & H2 & H3 & H4);
      [by rewrite <- app_assoc|done|].
    exists om', s'. rewrite <- app_assoc in H2. done.
Qed.

Lemma stats_loop_spec req time l s :
  Forall mft_wf l → stats_inv s →
  ∃ l' s', stats_loop req time l s = Ok (l', s') ∧ shrinks l l' ∧
    mfts_elems l' = edit (non_strict_match (req_flow req))
                      (λ g, flow_expired g time) id (mfts_elems l) ∧
    stats_inv s' ∧
    st_flows s' = st_flows s ++ reported (non_strict_match (req_flow req)) time (mfts_elems l).
Proof.
  intros Hwf. revert s. induction Hwf as [|m l Hm Hl IH]; intros s Hs.
  { exists [], s. split; [done|]. split; [constructor|]. split; [done|].
    split; [done|]. by rewrite app_nil_r. }
  cbn [stats_loop]. rewrite mfts_elems_cons, edit_app, reported_app.
  assert (∃ om s1, (if is_flow_non_strict_in_mft (req_mask req) m
     then stats_iter req time (ht_elems (mft_flows m)) (Some m) s
     else Ok (Some m, s)) = Ok (om, s1) ∧
    left_with om (mft_mask m) (edit (non_strict_match (req_flow req))
                 (λ g, flow_expired g time) id (mft_elems m)) ∧ stats_inv s1 ∧
    st_flows s1 = st_flows s ++ reported (non_strict_match (req_flow req)) time (mft_elems m))
    as (om & s1 & -> & Hlw & Hs1 & Hf1).
  { destruct (is_flow_non_strict_in_mft (req_mask req) m) eqn:E.
    - rewrite (edit_ext _ (key_match (req_flow req))), (reported_ext _ (key_match (req_flow req)));
        [by apply (stats_iter_spec req time (mft_elems m) []);
          [apply left_with_self|]|..];
        intros av Hin; rewrite (non_strict_in_mft_elems (req_flow req) m av) by done;
        change (f_mask (req_flow req)) with (req_mask req); by rewrite E.
    - assert (∀ av, av ∈ mft_elems m → non_strict_match (req_flow req) av.2 = false) as Hno.
      { intros av Hin. rewrite (non_strict_in_mft_elems (req_flow req) m av) by done.
        change (f_mask (req_flow req)) with (req_mask req). by rewrite E. }
      exists (Some m), s. rewrite edit_none, reported_none, app_nil_r by done.
      split; [done|]. split; [by apply left_with_self|done]. }
  cbn [mbind outcome_bind].
  destruct (IH s1 Hs1) as (l' & s' & -> & Hsh & He & Hs' & Hf').
  cbn [mbind outcome_bind]. apply left_with_step in Hlw as [Hst Heo]; [|apply edit_addrs].
  eexists _, _. split; [done|]. split; [by constructor|].
  rewrite mfts_elems_option, Heo, He, Hf', Hf1, app_assoc. done.
Qed.

(** ** Properties of the component *)

(** A run of a flow table.  Flows are installed with fresh addresses and, as
    the controller must ensure (the code does not check), with a match that is
    not already in the table. *)
Inductive ft_step : flow_table → flow_table → Prop :=
| step_add ft a f time :
    flow_wf f → a ∉ (ft_elems ft).*1 →
    (∀ a' g, (a', g) ∈ ft_elems ft → f_mask g = f_mask f → f_key g ≠ f_key f) →
    ft_step ft (add_flow ft a f time)
| step_lookup ft key time :
    key_wf key → ft_step ft (flow_table_lookup ft key time).1
| step_modify ft f strict time :
    flow_wf f → ft_step ft (modify_flow ft f strict time)
| step_delete ft f time strict :
    flow_wf f → ft_step ft (delete_flow ft f time strict)
| step_stats ft req time ft' s :
    flow_table_stats ft req 1 [] time = Ok (ft', s) → ft_step ft ft'.

Inductive ft_reachable (table_id : Z) : flow_table → Prop :=
| reach_new : ft_reachable table_id (flow_table_new table_id)
| reach_step ft ft' :
    ft_reachable table_id ft → ft_step ft ft' → ft_reachable table_id ft'.

Lemma edit_unique P E u k :
  keeps_match u → elems_unique k → elems_unique (edit P E u k).
Proof.
  intros Hu Hk a1 f1 a2 f2 ([b1 g1] & E1 & [_ H1]%list_elem_of_filter)%list_elem_of_fmap
    ([b2 g2] & E2 & [_ H2]%list_elem_of_filter)%list_elem_of_fmap Hm Hkey.
  cbn [fst snd] in *.
  assert (∀ (b : addr) g b' g', (b', g') = (if P g then (b, u g) else (b, g)) →
    b' = b ∧ f_mask g' = f_mask g ∧ f_key g' = f_key g) as Hkeep.
  { intros b g b' g'. destruct (Hu g) as (? & ? & _). by destruct (P g); intros [= -> ->]. }
  destruct (Hkeep _ _ _ _ E1) as (-> & ? & ?), (Hkeep _ _ _ _ E2) as (-> & ? & ?).
  destruct (Hk b1 g1 b2 g2) as [-> ->]; try congruence. split; congruence.
Qed.

Lemma keeps_id : keeps_match id.
Proof. by intros f. Qed.

Lemma modify_flow_edit ft f strict time :
  ft_wf ft → ft_unique ft → flow_wf f →
  shrinks (ft_flows ft) (ft_flows (modify_flow ft f strict time)) ∧
  ft_elems (modify_flow ft f strict time) =
    edit (if strict then strict_match f else non_strict_match f)
      (λ g, flow_expired g time) (λ g, flow_add_instructions g (f_insts f))
      (ft_elems ft).
Proof.
  intros Hwf Hu Hf. destruct strict; unfold ft_elems; cbn [modify_flow setf ft_flows].
  - rewrite mod_flow_strict_loop. apply strict_loop_spec; try done.
    apply replace_or_expire_acts.
  - apply mod_flow_non_strict_spec, Hwf.
Qed.

Lemma delete_flow_edit ft f time strict :
  ft_wf ft → ft_unique ft → flow_wf f →
  shrinks (ft_flows ft) (ft_flows (delete_flow ft f time strict)) ∧
  ft_elems (delete_flow ft f time strict) =
    edit (if strict then strict_match f else non_strict_match f) (λ _, true) id
      (ft_elems ft).
Proof.
  intros Hwf Hu Hf. destruct strict; unfold ft_elems; cbn [delete_flow setf ft_flows].
  - rewrite del_flow_strict_loop. apply strict_loop_spec; try done.
    apply delete_or_expire_acts.
  - apply del_flow_non_strict_spec, Hwf.
Qed.

Lemma edit_drop P k : edit P (λ _, true) id k = filter (λ av, P av.2 = false) k.
Proof.
  induction k as [|[a g] k IH]; [done|]. rewrite edit_cons, filter_cons, IH. cbn [snd].
  destruct (P g); case_decide; done.
Qed.

Lemma flow_table_stats_ok ft req time :
  ft_wf ft → ∃ ft' s, flow_table_stats ft req 1 [] time = Ok (ft', s) ∧
    shrinks (ft_flows ft) (ft_flows ft') ∧
    ft_elems ft' = edit (non_strict_match (req_flow req))
                     (λ g, flow_expired g time) id (ft_elems ft) ∧
    st_flows s = reported (non_strict_match (req_flow req)) time (ft_elems ft).
Proof.
  intros Hwf. unfold flow_table_stats.
  destruct (stats_loop_spec req time (ft_flows ft) (StatsAcc 1 1 []))
    as (l & s & -> & Hs & He & _ & Hf); [apply Hwf|by split; cbn; [|lia]|].
  by exists (ft <| ft_flows := l |>), s.
Qed.

Lemma ft_step_wf ft ft' :
  ft_wf ft → ft_unique ft → ft_step ft ft' → ft_wf ft' ∧ ft_unique ft'.
Proof.
  intros Hwf Hu Hs.
  destruct Hs as [ft a f time Hf Ha Hno|ft key time Hk|ft f strict time Hf
                 |ft f time strict Hf|ft req time ft' s Hst].
  - split; [by apply add_flow_spec|by apply add_flow_unique].
  - destruct (flow_table_lookup ft key time) as [ft' ret] eqn:E.
    by destruct (flow_table_lookup_effect ft key time ft' ret) as (? & ? & _).
  - destruct (modify_flow_edit ft f strict time Hwf Hu Hf) as [Hs He].
    split; [by eapply shrinks_wf|]. unfold ft_unique. rewrite He.
    apply edit_unique; [apply keeps_instructions|done].
  - destruct (delete_flow_edit ft f time strict Hwf Hu Hf) as [Hs He].
    split; [by eapply shrinks_wf|]. unfold ft_unique. rewrite He.
    apply edit_unique; [apply keeps_id|done].
  - destruct (flow_table_stats_ok ft req time Hwf) as (ft2 & s2 & E & Hs & He & _).
    rewrite E in Hst. injection Hst as <- <-.
    split; [by eapply shrinks_wf|]. unfold ft_unique. rewrite He.
    apply edit_unique; [apply keeps_id|done].
Qed.

(** A concrete table for the witnesses: two IPv4 flows of different width and
    the table-miss flow. *)
Definition sample_ip : flow :=
  (set_eth_type (flow_new 0) 0x800) <| f_priority := 10 |> <| f_idle_timeout := 5 |>.
Definition sample_udp : flow :=
  (set_ip_proto (set_eth_type (flow_new 0) 0x800) 17) <| f_priority := 20 |>
    <| f_hard_timeout := 1 |>.
Definition sample_table : flow_table :=
  add_flow (add_flow (flow_table_new 0) 1 sample_ip 0) 2 sample_udp 0.
Definition sample_packet : ofl_flow_key :=
  key_zero <| eth_type := 0x800 |> <| ip_proto := 17 |> <| ipv4_dst := 7 |>.

Lemma flow_wf_check f :
  key_wf_b (f_key f) && key_wf_b (f_mask f) && bool_decide (in_width 16 (f_priority f)) = true →
  flow_wf f.
Proof.
  rewrite !andb_true_iff, bool_decide_eq_true. intros [[??]?].
  split; auto using key_wf_check.
Qed.

Lemma sample_ip_wf : flow_wf sample_ip.
Proof. by apply flow_wf_check; vm_compute. Qed.
Lemma sample_udp_wf : flow_wf sample_udp.
Proof. by apply flow_wf_check; vm_compute. Qed.
Lemma sample_packet_wf : key_wf sample_packet.
Proof. by apply key_wf_check; vm_compute. Qed.

Lemma sample_table_ok : ft_wf sample_table ∧ ft_unique sample_table.
Proof.
  assert (∀ k : list (addr * flow), k = [] → elems_unique k) as Hnil.
  { intros k -> a f a' f' Hin. by apply not_elem_of_nil in Hin. }
  destruct (add_flow_spec (flow_table_new 0) 1 sample_ip 0) as [Hwf Hp];
    [apply flow_table_new_wf|apply sample_ip_wf|apply not_elem_of_nil|].
  assert (ft_unique (add_flow (flow_table_new 0) 1 sample_ip 0)) as Hu.
  { apply add_flow_unique; [apply flow_table_new_wf|apply sample_ip_wf
      |apply not_elem_of_nil|by apply Hnil|].
    intros a g Hin. by apply not_elem_of_nil in Hin. }
  apply (ft_step_wf (add_flow (flow_table_new 0) 1 sample_ip 0)); [done|done|].
  apply step_add; [apply sample_udp_wf| |].
  - rewrite Hp. apply (bool_decide_unpack _). by vm_compute.
  - intros a g. rewrite Hp. intros [[= -> ->]|Hin]%elem_of_cons.
    + intros Hm. apply (f_equal ip_proto) in Hm. vm_compute in Hm. done.
    + by apply not_elem_of_nil in Hin.
Qed.

(** C2. Lookup is correct: in a well-formed table without duplicate matches,
    [flow_table_lookup] returns the flow of highest priority among those that
    match the packet and have not expired at [time], with its [last_used]
    stamped; it returns [NULL] only when there is no such flow. *)
Theorem flow_table_lookup_correct ft key time ft' ret :
  ft_wf ft → ft_unique ft → key_wf key →
  flow_table_lookup ft key time = (ft', ret) →
  match ret with
  | None => ∀ av, av ∈ ft_elems ft → ¬ candidate key time av
  | Some (a, f') => ∃ f,
      f' = f <| f_last_used := time |> ∧ (a, f) ∈ ft_elems ft ∧
      candidate key time (a, f) ∧
      ∀ av, av ∈ ft_elems ft → candidate key time av → f_priority av.2 ≤ f_priority f
  end.
Proof. apply flow_table_lookup_result. Qed.

Lemma flow_table_lookup_correct_witness :
  ∃ f', (flow_table_lookup sample_table sample_packet 1000000).2 = Some (2%nat, f') ∧
  ∃ f, f' = f <| f_last_used := 1000000 |> ∧ (2%nat, f) ∈ ft_elems sample_table ∧
       candidate sample_packet 1000000 (2%nat, f) ∧
       ∀ av, av ∈ ft_elems sample_table → candidate sample_packet 1000000 av →
             f_priority av.2 ≤ f_priority f.
Proof.
  destruct (flow_table_lookup sample_table sample_packet 1000000) as [ft' ret] eqn:E.
  pose proof (flow_table_lookup_correct _ _ _ _ _ (proj1 sample_table_ok)
    (proj2 sample_table_ok) sample_packet_wf E) as H.
  apply (f_equal snd) in E. vm_compute in E. subst ret. eexists. split; [reflexivity|].
  exact H.
Defined.

(** What a lookup changes: it removes exactly the flows that match the
    packet and have expired (freeing a mini table with its last flow), stamps
    [last_used] of the flow it returns and leaves everything else alone; the
    table stays well formed. *)
Theorem flow_table_lookup_changes ft key time ft' ret :
  ft_wf ft → ft_unique ft → key_wf key →
  flow_table_lookup ft key time = (ft', ret) →
  ft_wf ft' ∧ ft_unique ft' ∧
  ft_elems ft' =
    (match ret with
     | None => id
     | Some (a, _) => elem_update a (λ f, f <| f_last_used := time |>)
     end) <$> filter (λ av, ¬ stale key time av) (ft_elems ft).
Proof. apply flow_table_lookup_effect. Qed.

Lemma flow_table_lookup_changes_witness :
  (flow_table_lookup sample_table sample_packet 2000000).2 =
    Some (1%nat, (stamped sample_ip 0) <| f_last_used := 2000000 |>) ∧
  ft_wf (flow_table_lookup sample_table sample_packet 2000000).1 ∧
  length (ft_elems (flow_table_lookup sample_table sample_packet 2000000).1) = 1%nat.
Proof.
  destruct (flow_table_lookup sample_table sample_packet 2000000) as [ft' ret] eqn:E.
  destruct (flow_table_lookup_changes _ _ _ _ _ (proj1 sample_table_ok)
    (proj2 sample_table_ok) sample_packet_wf E) as (Hwf & _ & He).
  split; [apply (f_equal snd) in E; vm_compute in E; by subst ret|].
  split; [exact Hwf|]. cbn [fst]. apply (f_equal fst) in E. cbn [fst] in E.
  rewrite <- E. by vm_compute.
Defined.

(** C22. Every table the operations of [flow_table.c] can build from a new one
    has distinct masks, no empty mini table, every flow in the mini table of
    its mask and a consistent hash table in each, as long as the controller
    installs flows with distinct matches; and then no two flows share a match. *)
Theorem ft_reachable_wf table_id ft :
  ft_reachable table_id ft → ft_wf ft ∧ ft_unique ft.
Proof.
  induction 1 as [|ft ft' _ [IH1 IH2] Hs]; [|by eapply ft_step_wf].
  split; [apply flow_table_new_wf|]. intros a f a' f' Hin.
  by apply not_elem_of_nil in Hin.
Qed.

Lemma ft_reachable_wf_witness :
  let ft := delete_flow (add_flow (flow_table_new 3) 1 sample_ip 0) sample_udp 9 false in
  ft_wf ft ∧ ft_unique ft.
Proof.
  apply (ft_reachable_wf 3). eapply reach_step; [eapply reach_step; [apply reach_new|]|].
  - apply step_add; [apply sample_ip_wf|apply not_elem_of_nil|].
    intros a g Hin. by apply not_elem_of_nil in Hin.
  - apply step_delete, sample_udp_wf.
Defined.

(** C26. [add_flow] installs exactly one new flow, with [remove_at] set to the
    hard timeout (seconds) after [time] and [last_used] to [time], whichever
    mini table it goes to, and keeps the table well formed. *)
Theorem add_flow_installs ft a f time :
  ft_wf ft → flow_wf f → a ∉ (ft_elems ft).*1 →
  ft_wf (add_flow ft a f time) ∧
  ft_elems (add_flow ft a f time) ≡ₚ (a, stamped f time) :: ft_elems ft.
Proof. apply add_flow_spec. Qed.

Lemma add_flow_installs_witness :
  ft_wf (add_flow sample_table 3 sample_ip 7) ∧
  ft_elems (add_flow sample_table 3 sample_ip 7)
    ≡ₚ (3%nat, stamped sample_ip 7) :: ft_elems sample_table.
Proof.
  apply add_flow_installs; [apply sample_table_ok|apply sample_ip_wf|].
  apply (bool_decide_unpack _). by vm_compute.
Defined.





(** Statistics of one table are memory safe and exact: with the caller's
    one-slot array, [flow_table_stats] never stores past the allocation,
    reports the addresses of exactly the selected unexpired flows in order, and
    removes the selected expired ones. *)
Theorem flow_table_stats_exact ft req time :
  ft_wf ft → ∃ ft' s, flow_table_stats ft req 1 [] time = Ok (ft', s) ∧ ft_wf ft' ∧
    ft_elems ft' = edit (non_strict_match (req_flow req))
                     (λ g, flow_expired g time) id (ft_elems ft) ∧
    st_flows s = reported (non_strict_match (req_flow req)) time (ft_elems ft).
Proof.
  intros Hwf. destruct (flow_table_stats_ok ft req time Hwf) as (ft' & s & H & Hs & He & Hf).
  exists ft', s. split; [done|]. split; [by eapply shrinks_wf|done].
Qed.

Lemma flow_table_stats_exact_witness :
  ∃ ft' s, flow_table_stats sample_table (StatsReq 0 0 0 0 0 key_zero key_zero) 1 [] 8
             = Ok (ft', s) ∧ st_flows s = [1%nat; 2%nat].
Proof.
  destruct (flow_table_stats_exact sample_table (StatsReq 0 0 0 0 0 key_zero key_zero) 8
    (proj1 sample_table_ok)) as (ft' & s & H & _ & _ & Hf).
  exists ft', s. split; [exact H|]. rewrite Hf. by vm_compute.
Defined.

(** A table may hold two flows with the same match: [add_flow] neither
    replaces nor rejects.  The hash lookup then sees only the newest of them,
    so the flow of lower priority wins when it was added last. *)
Theorem duplicate_match_hides_priority :
  let lo := sample_ip <| f_priority := 5 |> in
  let ft := add_flow (add_flow (flow_table_new 0) 1 sample_ip 0) 2 lo 0 in
  candidate sample_packet 3 (1%nat, stamped sample_ip 0) ∧
  (1%nat, stamped sample_ip 0) ∈ ft_elems ft ∧
  (λ r, (r.1, f_priority r.2)) <$> (flow_table_lookup ft sample_packet 3).2
    = Some (2%nat, 5) ∧
  f_priority (stamped sample_ip 0) = 10.
Proof.
  cbv zeta. split; [by split; vm_compute|]. split; [|by split; vm_compute].
  vm_compute. left.
Qed.
