(* ===== verification/Ownership.v ===== *)
(** * Ownership: who frees the actions of a rule

    The other files hold the instructions of a flow as a value.  In [lib/flow.c] they are a
    struct with two pointers, to the elements of the action list and of the action set:
    [flow_add_instructions] copies the pointers, and [flow_destroy] frees what they
    point to ([instruction_set_clean]).  This file adds the memory to the operations of
    [FlowTable]: the block of actions that each flow points to, and which blocks
    are allocated.  A flow that leaves a table was passed to [flow_destroy]; using or
    freeing a block that was freed is the fault [Dangling].

    Theorems: as long as no non-strict modification gives a list of actions to two rules,
    every rule owns its block, no operation uses freed memory, and destroying the table
    frees each block once.  A modification that does select two rules makes
    them share the block: removing one leaves the other dangling. *)

From stdpp Require Import prelude gmap.
From S2P Require Import Prelude Uthash Action Instruction FlowKey Flow FlowTable.

(** ** Blocks *)

(** The pointers are [NULL] when there is no action. *)
Definition has_actions (s : instruction_set) : bool :=
  match aa_actions (apply_act s), wa_actions (write_act s) with [], None => false | _, _ => true end.

(** The block a flow points to, the blocks that are allocated, and the next one. *)
Record memory := Memory { mem_actions : gmap addr nat; mem_live : gset nat; mem_next : nat }.
Definition memory_init : memory := Memory ∅ ∅ 0.

Definition use_actions (m : memory) (a : addr) : outcome memory :=
  match mem_actions m !! a with
  | None => Ok m
  | Some b => if decide (b ∈ mem_live m) then Ok m else Fault Dangling
  end.

(** [flow_destroy]: the elements are freed, then the flow. *)
Definition release_actions (m : memory) (a : addr) : outcome memory :=
  match mem_actions m !! a with
  | None => Ok m
  | Some b =>
      if decide (b ∈ mem_live m)
      then Ok (Memory (delete a (mem_actions m)) (mem_live m ∖ {[b]}) (mem_next m))
      else Fault Dangling
  end.

(** [unpack_instructions] allocates one block for a request, if it has actions. *)
Definition request_block (m : memory) (insts : instruction_set) : memory * option nat :=
  if has_actions insts
  then (Memory (mem_actions m) ({[mem_next m]} ∪ mem_live m) (S (mem_next m)), Some (mem_next m))
  else (m, None).

(** [flow_add_instructions]: the pointers are copied; what the flow had is not freed. *)
Definition point_to (b : option nat) (m : memory) (a : addr) : memory :=
  Memory (partial_alter (λ _, b) a (mem_actions m)) (mem_live m) (mem_next m).

(** ** The operations of a table, with the memory *)

Inductive table_call :=
| CallAdd (a : addr) (f : flow) (time : Z)
| CallModify (f : flow) (strict : bool) (time : Z)
| CallDelete (f : flow) (strict : bool) (time : Z)
| CallLookup (key : ofl_flow_key) (time : Z)
| CallStats (req : ofl_flow_stats_req) (time : Z).

Definition selects (f : flow) (strict : bool) : flow → bool :=
  if strict then strict_match f else non_strict_match f.

(** The rules that a modification gives its instructions to. *)
Definition takers (f : flow) (strict : bool) (time : Z) (ft : flow_table) : list addr :=
  (filter (λ av, selects f strict av.2 = true ∧ flow_expired av.2 time = false) (ft_elems ft)).*1.

(** The flows that left the table: each was destroyed. *)
Definition gone (ft ft' : flow_table) : list addr :=
  filter (λ a, a ∉ (ft_elems ft').*1) (ft_elems ft).*1.

(** The table after the call, the flows whose actions are read by the caller, and
    the flows that get the instructions of the request. *)
Definition run_table (c : table_call) (ft : flow_table)
  : outcome (flow_table * list addr * (instruction_set * list addr)) :=
  let none := (instruction_set_zero, []) in
  match c with
  | CallAdd a f time => Ok (add_flow ft a f time, [], (f_insts f, [a]))
  | CallModify f strict time =>
      Ok (modify_flow ft f strict time, [], (f_insts f, takers f strict time ft))
  | CallDelete f strict time => Ok (delete_flow ft f time strict, [], none)
  | CallLookup key time =>
      let '(ft', ret) := flow_table_lookup ft key time in Ok (ft', option_list (fst <$> ret), none)
  | CallStats req time =>
      r ← flow_table_stats ft req 1 [] time; Ok (r.1, st_flows r.2, none)
  end.

(** The flows that a modification destroys are not those it edits, so that the frees
    come first without loss. *)
Definition run_call (s : flow_table * memory) (c : table_call) : outcome (flow_table * memory) :=
  r ← run_table c s.1;
  let '(ft', reads, (insts, to)) := r in
  m ← for_each release_actions s.2 (gone s.1 ft');
  m ← for_each use_actions m reads;
  let '(m, b) := request_block m insts in
  Ok (ft', foldl (point_to b) m to).

(** [flow_table_destroy] *)
Definition destroy_call (s : flow_table * memory) : outcome memory :=
  for_each release_actions s.2 (flow_table_destroy s.1).

(** What the calls of the simulator satisfy: well-formed requests, and a new flow for a
    match that is not installed. *)
Definition call_wf (ft : flow_table) (c : table_call) : Prop :=
  match c with
  | CallAdd a f _ => flow_wf f ∧ a ∉ (ft_elems ft).*1 ∧
      ∀ a' g, (a', g) ∈ ft_elems ft → f_mask g = f_mask f → f_key g ≠ f_key f
  | CallModify f _ _ | CallDelete f _ _ => flow_wf f
  | CallLookup key _ => key_wf key
  | CallStats _ _ => True
  end.

(** A non-strict modification that makes rules share a block. *)
Definition shares (ft : flow_table) (f : flow) (time : Z) : bool :=
  has_actions (f_insts f) && (1 <? length (takers f false time ft))%nat.
Definition call_sole (ft : flow_table) (c : table_call) : Prop :=
  match c with CallModify f false time => shares ft f time = false | _ => True end.

Inductive owning (table_id : Z) : flow_table → memory → Prop :=
| own_new : owning table_id (flow_table_new table_id) memory_init
| own_call ft m c ft' m' :
    owning table_id ft m → call_wf ft c → call_sole ft c →
    run_call (ft, m) c = Ok (ft', m') → owning table_id ft' m'.

(** ** The invariant *)

(** Every pointer is to an allocated block, and no two are to the same. *)
Record mem_wf (m : memory) : Prop := {
  mm_live : ∀ a b, mem_actions m !! a = Some b → b ∈ mem_live m;
  mm_inj : ∀ a a' b, mem_actions m !! a = Some b → mem_actions m !! a' = Some b → a = a';
  mm_next : ∀ b, b ∈ mem_live m → (b < mem_next m)%nat }.

(** The pointers are those of the rules with actions. *)
Definition points (ft : flow_table) (m : memory) : Prop :=
  (∀ a b, mem_actions m !! a = Some b → a ∈ (ft_elems ft).*1) ∧
  ∀ a f, (a, f) ∈ ft_elems ft → has_actions (f_insts f) = true → is_Some (mem_actions m !! a).

Lemma release_ok m a : mem_wf m → ∃ m', release_actions m a = Ok m' ∧ mem_wf m' ∧
  (∀ x, mem_actions m' !! x = if decide (x = a) then None else mem_actions m !! x) ∧
  ∀ b, b ∈ mem_live m' ↔ b ∈ mem_live m ∧ mem_actions m !! a ≠ Some b.
Proof.
  intros [Hl Hi Hn]. unfold release_actions. destruct (mem_actions m !! a) as [b|] eqn:E.
  - rewrite decide_True by by eapply Hl. eexists. split; [done|]. split; [split; cbn|split].
    + intros x c [Hx Hc]%lookup_delete_Some. apply elem_of_difference. split; [by eapply Hl|].
      intros ->%elem_of_singleton. by apply Hx, (Hi _ _ b).
    + intros x y c [_ Hx]%lookup_delete_Some [_ Hy]%lookup_delete_Some. by eapply Hi.
    + intros c [Hc _]%elem_of_difference. by apply Hn.
    + intros x. cbn. case_decide; [subst; apply lookup_delete_eq|by apply lookup_delete_ne].
    + intros c. cbn. rewrite elem_of_difference, elem_of_singleton. naive_solver.
  - exists m. split; [done|]. split; [by split|]. split; [|naive_solver]. intros x. by case_decide; subst.
Qed.

Lemma releases_ok l : ∀ m, mem_wf m → ∃ m', for_each release_actions m l = Ok m' ∧ mem_wf m' ∧
  (∀ x, mem_actions m' !! x = if decide (x ∈ l) then None else mem_actions m !! x) ∧
  ∀ b, b ∈ mem_live m' ↔ b ∈ mem_live m ∧ ∀ a, a ∈ l → mem_actions m !! a ≠ Some b.
Proof.
  induction l as [|a l IH]; intros m Hm; cbn [for_each].
  { exists m. split; [done|]. split; [done|]. split; [|set_solver].
    intros x. by rewrite decide_False by apply not_elem_of_nil. }
  destruct (release_ok m a Hm) as (m1 & -> & H1 & L1 & F1). cbn [mbind outcome_bind].
  destruct (IH m1 H1) as (m2 & -> & H2 & L2 & F2). exists m2. split; [done|]. split; [done|]. split.
  - intros x. rewrite L2, L1. repeat case_decide; set_solver.
  - intros b. rewrite F2, F1. split.
    + intros [[Hb Ha] Hl]. split; [done|]. intros x [->|Hx]%elem_of_cons; [done|]. specialize (Hl x Hx).
      rewrite L1 in Hl. by case_decide; subst.
    + intros [Hb Hl]. split; [split; [done|apply Hl; by left]|]. intros x Hx. rewrite L1. case_decide; [done|].
      apply Hl. by right.
Qed.

Lemma uses_ok l m : mem_wf m → for_each use_actions m l = Ok m.
Proof.
  intros Hm. induction l as [|a l IH]; [done|]. cbn [for_each].
  assert (use_actions m a = Ok m) as ->; [|exact IH]. unfold use_actions.
  destruct (mem_actions m !! a) as [b|] eqn:E; [|done]. by rewrite decide_True by by eapply mm_live.
Qed.

Lemma point_to_spec b l : ∀ m,
  mem_live (foldl (point_to b) m l) = mem_live m ∧ mem_next (foldl (point_to b) m l) = mem_next m ∧
  ∀ x, mem_actions (foldl (point_to b) m l) !! x = if decide (x ∈ l) then b else mem_actions m !! x.
Proof.
  induction l as [|a l IH]; intros m; cbn [foldl].
  { split_and!; [done..|]. intros x. by rewrite decide_False by apply not_elem_of_nil. }
  destruct (IH (point_to b m a)) as (-> & -> & L). split_and!; [done..|]. intros x. rewrite L. cbn.
  destruct (decide (x = a)) as [->|Hne]; [rewrite lookup_partial_alter_eq|rewrite lookup_partial_alter_ne by done];
    repeat case_decide; set_solver.
Qed.

(** What a call does to the rules: those in [to] have the instructions of the request, the
    others are rules of the table before with the instructions they had. *)
Record call_effect (ft ft' : flow_table) (insts : instruction_set) (to : list addr) : Prop := {
  ce_wf : ft_wf ft' ∧ ft_unique ft';
  ce_to : ∀ a, a ∈ to → a ∈ (ft_elems ft').*1;
  ce_rules : ∀ a f', (a, f') ∈ ft_elems ft' →
    if decide (a ∈ to) then f_insts f' = insts else ∃ f, (a, f) ∈ ft_elems ft ∧ f_insts f' = f_insts f }.

Lemma edit_in P E u k a f : (a, f) ∈ edit P E u k ↔
  ∃ g, (a, g) ∈ k ∧ ¬ (P g = true ∧ E g = true) ∧ f = if P g then u g else g.
Proof.
  unfold edit. rewrite list_elem_of_fmap. split.
  - intros ([x g] & Eq & [Hne Hin]%list_elem_of_filter). cbn [fst snd] in *. exists g.
    destruct (P g); injection Eq as -> ->; done.
  - intros (g & Hin & Hne & ->). exists (a, g). rewrite list_elem_of_filter. cbn [fst snd].
    by destruct (P g).
Qed.

Lemma elem_of_addrs (k : list (addr * flow)) a : a ∈ k.*1 ↔ ∃ f, (a, f) ∈ k.
Proof.
  rewrite list_elem_of_fmap. split; [intros ([x f] & -> & Hin); by exists f|intros [f Hin]; by exists (a, f)].
Qed.

Lemma takers_in f strict time ft a : a ∈ takers f strict time ft ↔
  ∃ g, (a, g) ∈ ft_elems ft ∧ selects f strict g = true ∧ flow_expired g time = false.
Proof.
  unfold takers. rewrite elem_of_addrs. split.
  - intros [g [Hs Hin]%list_elem_of_filter]. eauto.
  - intros (g & Hin & Hs). exists g. by apply list_elem_of_filter.
Qed.

(** A strict modification edits at most one rule. *)
Lemma strict_takers f time ft : ft_wf ft → ft_unique ft → (length (takers f true time ft) ≤ 1)%nat.
Proof.
  intros Hwf Hu. assert (∀ a a', a ∈ takers f true time ft → a' ∈ takers f true time ft → a = a') as Hone.
  { intros a a' (g & Hg & Hs & _)%takers_in (g' & Hg' & Hs' & _)%takers_in. cbn [selects] in *.
    unfold strict_match in Hs, Hs'. rewrite !flow_key_cmp_decide, !andb_true_iff, !bool_decide_eq_true in Hs, Hs'.
    destruct Hs as [[Hm Hk] _], Hs' as [[Hm' Hk'] _]. by apply (Hu a g a' g'); [..|congruence|congruence]. }
  assert (NoDup (takers f true time ft)) as Hnd.
  { unfold takers. eapply sublist_NoDup; [apply Hwf|]. apply fmap_sublist, sublist_filter. }
  destruct (takers f true time ft) as [|a [|a' l]]; cbn; [lia..|].
  apply NoDup_cons in Hnd as [Hn _]. destruct Hn. rewrite (Hone a a'); set_solver.
Qed.

Lemma edit_effect ft ft' P E : ft_wf ft' ∧ ft_unique ft' →
  ft_elems ft' = edit P E id (ft_elems ft) → call_effect ft ft' instruction_set_zero [].
Proof.
  intros Hwf He. split; [done|by intros a Ha%elem_of_nil|]. intros a f' Hin.
  rewrite decide_False by apply not_elem_of_nil. rewrite He in Hin. apply edit_in in Hin as (g & Hg & _ & ->).
  exists g. split; [done|]. by destruct (P g).
Qed.

Lemma modify_effect ft f strict time : ft_wf ft → ft_unique ft → flow_wf f →
  call_effect ft (modify_flow ft f strict time) (f_insts f) (takers f strict time ft).
Proof.
  intros Hwf Hu Hf. destruct (modify_flow_edit ft f strict time Hwf Hu Hf) as [_ He].
  fold (selects f strict) in He. split.
  - apply (ft_step_wf ft); [done|done|by apply step_modify].
  - intros a (g & Hg & Hs & Hx)%takers_in. apply elem_of_addrs. eexists. rewrite He. apply edit_in.
    exists g. rewrite Hs, Hx. split; [done|]. split; [by intros [_ ?]|done].
  - intros a f' Hin. rewrite He in Hin. apply edit_in in Hin as (g & Hg & Hne & ->). case_decide as Ht.
    + apply takers_in in Ht as (g' & Hg' & Hs & _).
      rewrite (NoDup_fst_inj _ _ _ _ (fw_addrs _ Hwf) Hg Hg'), Hs. done.
    + exists g. split; [done|]. destruct (selects f strict g) eqn:Hs; [|done]. destruct Ht. apply takers_in.
      exists g. split; [done|]. split; [done|]. destruct (flow_expired g time) eqn:Hx; [by destruct Hne|done].
Qed.

Lemma run_table_ok c ft : ft_wf ft → ft_unique ft → call_wf ft c → call_sole ft c →
  ∃ ft' reads insts to, run_table c ft = Ok (ft', reads, (insts, to)) ∧ call_effect ft ft' insts to ∧
    (has_actions insts = true → (length to ≤ 1)%nat).
Proof.
  intros Hwf Hu Hc Hs. destruct c as [a f time|f strict time|f strict time|key time|req time]; cbn in Hc, Hs |- *.
  - destruct Hc as (Hf & Ha & Hno). eexists _, _, _, _. split; [done|]. split; [|cbn; lia].
    destruct (add_flow_spec ft a f time Hwf Hf Ha) as [Hwf' Hp]. split.
    + split; [done|by apply add_flow_unique].
    + intros x ->%list_elem_of_singleton. apply elem_of_addrs. exists (stamped f time). rewrite Hp. by left.
    + intros x f'. rewrite Hp. intros [[= -> ->]|Hin]%elem_of_cons; [by rewrite decide_True by set_solver|].
      rewrite decide_False; [by exists f'|]. intros ->%list_elem_of_singleton. apply Ha, elem_of_addrs. by exists f'.
  - eexists _, _, _, _. split; [done|]. split; [by apply modify_effect|]. intros Hh.
    destruct strict; [by apply strict_takers|]. unfold shares in Hs. rewrite Hh in Hs. apply Nat.ltb_ge in Hs. lia.
  - eexists _, _, _, _. split; [done|]. split; [|done]. destruct (delete_flow_edit ft f time strict Hwf Hu Hc) as [_ He].
    eapply edit_effect; [|exact He]. apply (ft_step_wf ft); [done|done|by apply step_delete].
  - destruct (flow_table_lookup ft key time) as [ft' ret] eqn:E. eexists _, _, _, _. split; [done|]. split; [|done].
    destruct (flow_table_lookup_effect ft key time ft' ret) as (H1 & H2 & He); [done..|].
    split; [done|by intros a Ha%elem_of_nil|]. intros a f' Hin. rewrite decide_False by apply not_elem_of_nil.
    rewrite He in Hin. apply list_elem_of_fmap in Hin as ([x g] & Eq & [_ Hg]%list_elem_of_filter).
    assert (x = a ∧ f_insts f' = f_insts g) as [-> Hi]; [|by exists g].
    destruct ret as [[b h]|]; [|by injection Eq as -> ->]. unfold elem_update in Eq. cbn [fst snd] in Eq.
    case_decide; by injection Eq as -> ->.
  - destruct (flow_table_stats_ok ft req time Hwf) as (ft' & s & E & Hsh & He & _). rewrite E.
    eexists _, _, _, _. split; [done|]. split; [|done]. eapply edit_effect; [|exact He].
    apply (ft_step_wf ft); [done|done|]. by eapply step_stats.
Qed.

(** Giving the block of a request to at most one flow. *)
Lemma give_ok m insts to : mem_wf m → (has_actions insts = true → (length to ≤ 1)%nat) →
  let '(m1, b) := request_block m insts in
  mem_wf (foldl (point_to b) m1 to) ∧
  ∀ x, mem_actions (foldl (point_to b) m1 to) !! x =
    if decide (x ∈ to) then (if has_actions insts then Some (mem_next m) else None) else mem_actions m !! x.
Proof.
  intros Hm Hlen. unfold request_block. destruct (has_actions insts) eqn:Hh;
    match goal with |- context [foldl (point_to ?b) ?m1 _] => destruct (point_to_spec b to m1) as (Hl & Hn & L) end;
    (split; [|exact L]); split; rewrite ?Hl, ?Hn; cbn [mem_actions mem_live mem_next] in *.
  - intros a b. rewrite L. case_decide; [intros [= <-]; set_solver|]. intros Hb%mm_live; [set_solver|done].
  - assert (∀ a, mem_actions m !! a ≠ Some (mem_next m)) as Hnew.
    { intros a Ha%mm_live; [|done]. apply mm_next in Ha; [lia|done]. }
    specialize (Hlen eq_refl). intros a a' b. rewrite !L. repeat case_decide; intros Ha Ha'; simplify_eq.
    + destruct to as [|x [|y to]]; [set_solver..|cbn in Hlen; lia].
    + by apply Hnew in Ha'.
    + by apply Hnew in Ha.
    + by apply (mm_inj m Hm _ _ b).
  - intros b [->%elem_of_singleton|Hb%mm_next]%elem_of_union; [lia|lia|done].
  - intros a b. rewrite L. case_decide; [done|]. by apply mm_live.
  - intros a a' b. rewrite !L. repeat case_decide; try done. by apply mm_inj.
  - by apply mm_next.
Qed.

(** A call that shares nothing keeps the invariant, and does not fault. *)
Lemma run_call_ok call ft m : ft_wf ft → ft_unique ft → mem_wf m → points ft m → call_wf ft call → call_sole ft call →
  ∃ ft' m', run_call (ft, m) call = Ok (ft', m') ∧ ft_wf ft' ∧ ft_unique ft' ∧ mem_wf m' ∧ points ft' m'.
Proof.
  intros Hwf Hu Hm [Hp1 Hp2] Hc Hs.
  destruct (run_table_ok call ft Hwf Hu Hc Hs) as (ft' & reads & insts & to & Er & [[Hw' Hu'] Hto Hrules] & Hlen).
  unfold run_call. cbn [fst snd]. rewrite Er. cbn [mbind outcome_bind].
  destruct (releases_ok (gone ft ft') m Hm) as (m1 & -> & Hm1 & L1 & _). cbn [mbind outcome_bind].
  rewrite (uses_ok reads m1 Hm1). cbn [mbind outcome_bind].
  pose proof (give_ok m1 insts to Hm1 Hlen) as Hgive. destruct (request_block m1 insts) as [m2 b] eqn:Eb.
  destruct Hgive as [Hm' L]. eexists _, _. do 4 (split; [done|]). split.
  - intros a c. rewrite L, L1. case_decide as Ha; [intros _; by apply Hto|]. case_decide as Hg; [done|].
    intros Hx. destruct (decide (a ∈ (ft_elems ft').*1)); [done|]. destruct Hg. apply list_elem_of_filter.
    split; [done|by eapply Hp1].
  - intros a f' Hin Hh. rewrite L, L1. specialize (Hrules a f' Hin). case_decide as Ha.
    + rewrite Hrules in Hh. rewrite Hh. by eexists.
    + destruct Hrules as (f & Hf & Hi). rewrite Hi in Hh. rewrite decide_False; [by apply (Hp2 a f)|].
      intros [Hg _]%list_elem_of_filter. apply Hg, elem_of_addrs. by exists f'.
Qed.

Lemma owning_ok table_id ft m : owning table_id ft m → ft_wf ft ∧ ft_unique ft ∧ mem_wf m ∧ points ft m.
Proof.
  induction 1 as [|ft m call ft' m' _ (Hw & Hu & Hm & Hp) Hc Hs E].
  - split; [apply flow_table_new_wf|]. split; [by intros ? ? ? ? ?%elem_of_nil|].
    split; [by split|]. split; [done|]. by intros ? ? ?%elem_of_nil.
  - destruct (run_call_ok call ft m Hw Hu Hm Hp Hc Hs) as (ft1 & m1 & E1 & H). rewrite E1 in E. by injection E as <- <-.
Qed.


(** ** Shared blocks *)

Lemma release_cases m x : release_actions m x = Fault Dangling ∨
  ∃ m', release_actions m x = Ok m' ∧
    (∀ y, y ≠ x → mem_actions m' !! y = mem_actions m !! y) ∧ mem_live m' ⊆ mem_live m ∧
    ∀ b, mem_actions m !! x = Some b → b ∉ mem_live m'.
Proof.
  unfold release_actions. destruct (mem_actions m !! x) as [b|] eqn:E; [|right; exists m; split_and!; naive_solver].
  case_decide; [right|by left]. eexists. split; [done|]. cbn. split_and!.
  - intros y Hy. by apply lookup_delete_ne.
  - set_solver.
  - intros c [= <-]. set_solver.
Qed.

Lemma release_freed l x b : ∀ m, NoDup l → x ∈ l → mem_actions m !! x = Some b → b ∉ mem_live m →
  for_each release_actions m l = Fault Dangling.
Proof.
  induction l as [|y l IH]; intros m Hnd Hin Hx Hb; [by apply elem_of_nil in Hin|]. cbn [for_each].
  apply NoDup_cons in Hnd as [Hy Hnd]. destruct (decide (y = x)) as [->|Hne].
  { unfold release_actions. by rewrite Hx, decide_False. }
  destruct (release_cases m y) as [->|(m' & -> & Hk & Hl & _)]; [done|]. cbn [mbind outcome_bind].
  apply IH; [done|set_solver|by rewrite Hk|set_solver].
Qed.

Lemma release_shared l x x' b : ∀ m, NoDup l → x ∈ l → x' ∈ l → x ≠ x' →
  mem_actions m !! x = Some b → mem_actions m !! x' = Some b →
  for_each release_actions m l = Fault Dangling.
Proof.
  induction l as [|y l IH]; intros m Hnd Hin Hin' Hne Hx Hx'; [by apply elem_of_nil in Hin|].
  cbn [for_each]. apply NoDup_cons in Hnd as [Hy Hnd].
  destruct (release_cases m y) as [->|(m' & -> & Hk & Hl & Hf)]; [done|]. cbn [mbind outcome_bind].
  destruct (decide (y = x)) as [->|Hyx]; [|destruct (decide (y = x')) as [->|Hyx']].
  - apply (release_freed l x' b); [done|set_solver|by rewrite Hk|by apply Hf].
  - apply (release_freed l x b); [done|set_solver|by rewrite Hk|by apply Hf].
  - apply IH; [done|set_solver|set_solver|done|by rewrite Hk..].
Qed.

(** A non-strict modification that gives a list of actions to two rules makes them share
    it: once one of them is removed, the other is used and freed through a dangling pointer,
    and destroying the table as it is frees the list twice. *)
Theorem shared_actions_dangle table_id ft m f time a a' :
  owning table_id ft m → flow_wf f → has_actions (f_insts f) = true →
  a ∈ takers f false time ft → a' ∈ takers f false time ft → a ≠ a' →
  ∃ ft' m' m'', run_call (ft, m) (CallModify f false time) = Ok (ft', m') ∧
    release_actions m' a = Ok m'' ∧
    use_actions m'' a' = Fault Dangling ∧ release_actions m'' a' = Fault Dangling ∧
    destroy_call (ft', m') = Fault Dangling.
Proof.
  intros (Hw & Hu & Hm & _)%owning_ok Hf Hh Ha Ha' Hne.
  destruct (modify_effect ft f false time Hw Hu Hf) as [[Hw' _] Hto _].
  unfold run_call. cbn [fst snd run_table mbind outcome_bind].
  destruct (releases_ok (gone ft (modify_flow ft f false time)) m Hm) as (m1 & -> & Hm1 & _).
  cbn [mbind outcome_bind for_each]. unfold request_block. rewrite Hh.
  match goal with |- context [foldl (point_to ?b) ?m2 ?l] =>
    destruct (point_to_spec b l m2) as (Hl & _ & L); set (m' := foldl (point_to b) m2 l) in * end.
  pose proof (L a) as La. rewrite decide_True in La by exact Ha.
  pose proof (L a') as La'. rewrite decide_True in La' by exact Ha'.
  eexists _, m', _. split; [reflexivity|]. cbn [mem_live] in Hl.
  split; [unfold release_actions; rewrite La, decide_True; [reflexivity|rewrite Hl; apply elem_of_union_l, elem_of_singleton, eq_refl]|].
  unfold use_actions, release_actions. cbn [mem_actions mem_live]. rewrite lookup_delete_ne, La' by exact Hne.
  rewrite !decide_False by (rewrite elem_of_difference, elem_of_singleton; intros [_ []]; reflexivity).
  split; [reflexivity|]. split; [reflexivity|].
  unfold destroy_call. cbn [fst snd]. rewrite flow_table_destroy_spec.
  exact (release_shared _ a a' (mem_next m1) _ (fw_addrs _ Hw') (Hto _ Ha) (Hto _ Ha') Hne La La').
Qed.

(** ** Concrete tables *)

(** Two rules for IPv4 with different priority and width, and a request that selects both. *)
Definition forward_to (port : Z) : instruction_set :=
  add_apply_actions instruction_set_zero (inst_apply_actions [action_output blank_action port]).
Definition own_ip : flow := sample_ip <| f_insts := forward_to 1 |>.
Definition own_udp : flow := sample_udp <| f_insts := forward_to 2 |>.
Definition own_request : flow := sample_ip <| f_insts := forward_to 3 |>.
Definition run_calls (calls : list table_call) : outcome (flow_table * memory) :=
  for_each run_call (flow_table_new 0, memory_init) calls.

(** The request, the removal of the first rule, and a packet for the second. *)
Example modified_rule_dangles :
  run_calls [CallAdd 1 own_ip 0; CallAdd 2 own_udp 0; CallModify own_request false 1; CallDelete own_ip true 2;
             CallLookup sample_packet 3] = Fault Dangling.
Proof. vm_compute. reflexivity. Qed.

Lemma own_ip_wf : flow_wf own_ip.
Proof. by apply flow_wf_check; vm_compute. Qed.
Lemma own_request_wf : flow_wf own_request.
Proof. by apply flow_wf_check; vm_compute. Qed.

(** The addition of a rule and a modification of it, with what they leave. *)
Lemma own_run : ∃ ft m ft' m', run_call (flow_table_new 0, memory_init) (CallAdd 1 own_ip 0) = Ok (ft, m) ∧
  run_call (ft, m) (CallModify own_request false 1) = Ok (ft', m') ∧
  shares ft own_request 1 = false ∧ (ft_elems ft').*1 = [1%nat] ∧
  mem_actions m' !! 1%nat = Some 1%nat ∧ elements (mem_live m') = [1; 0]%nat ∧
  ∀ a, mem_actions m' !! a ≠ Some 0%nat.
Proof.
  assert ((s ← run_call (flow_table_new 0, memory_init) (CallAdd 1 own_ip 0);
           t ← run_call s (CallModify own_request false 1);
           Ok (shares s.1 own_request 1, (ft_elems t.1).*1, mem_actions t.2 !! 1%nat, elements (mem_live t.2), map_to_list (mem_actions t.2)))
          = Ok (false, [1%nat], Some 1%nat, [1; 0]%nat, [(1, 1)]%nat)) as C by (vm_compute; reflexivity).
  apply outcome_bind_Ok in C as ([ft m] & E1 & C). apply outcome_bind_Ok in C as ([ft' m'] & E2 & C).
  apply Ok_inj in C. cbn [fst snd] in C. exists ft, m, ft', m'. injection C as C1 C2 C3 C4 C5.
  split; [exact E1|]. split; [exact E2|]. split_and!; try assumption.
  intros a Ha%elem_of_map_to_list. rewrite C5 in Ha. apply list_elem_of_singleton in Ha. discriminate.
Qed.

