(* ===== verification/FlowMatch.v ===== *)
(** * FlowMatch: what non-strict selection means

    [flow_table.c] selects the flows a non-strict request applies to by two
    tests on masks and keys ([is_flow_non_strict_in_mft], [match_non_strict]).
    Here these tests are related to the packets flows match: the request
    selects exactly the flows whose match set is contained in the request's. *)

From stdpp Require Import prelude.
From S2P Require Import Prelude Uthash Action Instruction FlowKey Flow FlowTable.

(** ** Bits outside a mask *)

(** [k] with every bit outside [m] set, within [w] bits. *)
Definition fill (w k m : Z) : Z := Z.lor k (Z.ldiff (Z.ones w) m).
Definition fill_bytes (k m : list Z) : list Z := zip_with (fill 8) k m.

Lemma fill_in_width w k m : 0 ≤ w → in_width w k → in_width w (fill w k m).
Proof.
  intros Hw Hk. apply lor_in_width; [done|done|].
  apply in_width_bits; [done|]. split.
  - apply Z.ldiff_nonneg. left. rewrite Z.ones_equiv.
    pose proof (Z.pow_pos_nonneg 2 w). lia.
  - intros i Hi. by rewrite Z.ldiff_spec, Z.ones_spec_high by lia.
Qed.

Lemma fill_masked w k m : Z.land k m = k → Z.land (fill w k m) m = k.
Proof.
  intros Hk. apply Z.bits_inj'. intros i Hi. rewrite <- Hk at 2. unfold fill.
  rewrite !Z.land_spec, Z.lor_spec, Z.ldiff_spec.
  by destruct (Z.testbit k i), (Z.testbit m i), (Z.testbit (Z.ones w) i).
Qed.

(** If filling the bits outside [m] is invisible under [fm], then [fm] has no
    bit outside [m]. *)
Lemma fill_invisible w k m fm :
  0 ≤ w → in_width w fm → Z.land k m = k →
  Z.land (fill w k m) fm = Z.land k fm → Z.land m fm = fm.
Proof.
  intros Hw [_ Hfm]%in_width_bits Hk He; [|done]. apply Z.bits_inj'. intros i Hi.
  apply (f_equal (λ z, Z.testbit z i)) in He.
  apply (f_equal (λ z, Z.testbit z i)) in Hk.
  unfold fill in He. rewrite !Z.land_spec, Z.lor_spec, Z.ldiff_spec in He.
  rewrite Z.land_spec in Hk |- *. destruct (decide (i < w)) as [Hlt|Hge].
  - rewrite Z.ones_spec_low in He by lia.
    by destruct (Z.testbit k i), (Z.testbit m i), (Z.testbit fm i).
  - rewrite Hfm by lia. apply andb_false_r.
Qed.

Lemma fill_bytes_wf n k m : bytes_wf n k → bytes_wf n m → bytes_wf n (fill_bytes k m).
Proof.
  intros [Hk Hfk] [Hm Hfm]. split; [unfold fill_bytes; rewrite length_zip_with; lia|].
  clear Hk Hm. revert m Hfm. induction Hfk as [|x k Hx Hk IH]; intros [|y m] Hm;
    constructor; inversion Hm; subst; [by apply fill_in_width|by apply IH].
Qed.

Lemma fill_bytes_masked k m : mask_bytes k m = k → mask_bytes (fill_bytes k m) m = k.
Proof.
  unfold mask_bytes, fill_bytes. revert m.
  induction k as [|x k IH]; intros [|y m]; simpl; try done. intros [= Hx Hk].
  f_equal; [by apply fill_masked|by apply IH].
Qed.

Lemma fill_bytes_invisible n k m fm :
  bytes_wf n fm → bytes_wf n k → bytes_wf n m → mask_bytes k m = k →
  mask_bytes (fill_bytes k m) fm = mask_bytes k fm → mask_bytes m fm = fm.
Proof.
  intros [Hl Hf] [Hlk _] [Hlm _]. revert k m n Hl Hlk Hlm. unfold mask_bytes, fill_bytes.
  induction Hf as [|z fm Hz Hf IH]; intros [|x k] [|y m] [|n] ???; simpl in *;
    try done.
  intros [= Hx Hk] [= He Hes]. f_equal.
  - by eapply (fill_invisible 8 x).
  - eapply (IH k m n); by try lia.
Qed.

(** The packet key [k] with every wildcarded bit of [m] set. *)
Definition key_fill (k m : ofl_flow_key) : ofl_flow_key :=
  mk_key
    (fill 32 (in_port k) (in_port m))
    (fill 32 (in_phy_port k) (in_phy_port m))
    (fill 64 (metadata k) (metadata m))
    (fill 64 (tunnel_id k) (tunnel_id m))
    (fill_bytes (eth_dst k) (eth_dst m))
    (fill_bytes (eth_src k) (eth_src m))
    (fill 16 (eth_type k) (eth_type m))
    (fill 16 (vlan_id k) (vlan_id m))
    (fill 8 (vlan_pcp k) (vlan_pcp m))
    (fill 8 (ip_dscp k) (ip_dscp m))
    (fill 8 (ip_ecn k) (ip_ecn m))
    (fill 8 (ip_proto k) (ip_proto m))
    (fill 32 (ipv4_src k) (ipv4_src m))
    (fill 32 (ipv4_dst k) (ipv4_dst m))
    (fill 16 (tcp_src k) (tcp_src m))
    (fill 16 (tcp_dst k) (tcp_dst m))
    (fill 16 (udp_src k) (udp_src m))
    (fill 16 (udp_dst k) (udp_dst m))
    (fill 16 (sctp_src k) (sctp_src m))
    (fill 16 (sctp_dst k) (sctp_dst m))
    (fill 8 (icmpv4_type k) (icmpv4_type m))
    (fill 8 (icmpv4_code k) (icmpv4_code m))
    (fill 16 (arp_op k) (arp_op m))
    (fill 32 (arp_spa k) (arp_spa m))
    (fill 32 (arp_tpa k) (arp_tpa m))
    (fill_bytes (arp_sha k) (arp_sha m))
    (fill_bytes (arp_tha k) (arp_tha m))
    (fill_bytes (ipv6_src k) (ipv6_src m))
    (fill_bytes (ipv6_dst k) (ipv6_dst m))
    (fill 32 (ipv6_flabel k) (ipv6_flabel m))
    (fill 8 (icmpv6_type k) (icmpv6_type m))
    (fill 8 (icmpv6_code k) (icmpv6_code m))
    (fill_bytes (ipv6_nd_target k) (ipv6_nd_target m))
    (fill_bytes (ipv6_nd_sll k) (ipv6_nd_sll m))
    (fill_bytes (ipv6_nd_tll k) (ipv6_nd_tll m))
    (fill 32 (mpls_label k) (mpls_label m))
    (fill 8 (mpls_tc k) (mpls_tc m))
    (fill 8 (mpls_bos k) (mpls_bos m)).

Lemma key_fill_wf k m : key_wf k → key_wf m → key_wf (key_fill k m).
Proof.
  intros [] []. constructor; cbn;
    first [apply fill_in_width; [lia|done] | by apply fill_bytes_wf].
Qed.

Lemma key_fill_masked k m : apply_all_mask k m = k → apply_all_mask (key_fill k m) m = k.
Proof.
  rewrite !mask_fields. intros. split_fields; cbn;
    first [by apply fill_masked | by apply fill_bytes_masked].
Qed.

Lemma key_fill_invisible k m fm :
  key_wf k → key_wf m → key_wf fm → apply_all_mask k m = k →
  apply_all_mask (key_fill k m) fm = apply_all_mask k fm → apply_all_mask m fm = fm.
Proof.
  intros Hk Hm Hfm. rewrite !mask_fields. intros. destruct Hk, Hm, Hfm.
  unfold apply_all_mask, apply_mask_eth_addr, apply_mask_ipv6 in *.
  cbn -[mask_bytes fill fill_bytes Z.land in_width bytes_wf] in *.
  split_fields;
    first [ eapply fill_invisible; [|eassumption|eassumption|eassumption]; lia
          | eapply fill_bytes_invisible;
              [eassumption| | |eassumption|eassumption]; eassumption ].
Qed.

(** ** Semantics of non-strict selection *)

Lemma non_strict_match_masks f g :
  non_strict_match f g = true ↔
  apply_all_mask (f_mask g) (f_mask f) = f_mask f ∧
  apply_all_mask (f_key g) (f_mask f) = f_key f.
Proof.
  unfold non_strict_match, match_non_strict.
  by rewrite andb_true_iff, !flow_key_cmp_spec.
Qed.

Lemma apply_all_mask_sym k m : apply_all_mask k m = apply_all_mask m k.
Proof.
  unfold apply_all_mask, apply_mask_eth_addr, apply_mask_ipv6.
  f_equal; first [apply Z.land_comm | apply mask_bytes_sym].
Qed.

(** C38. A non-strict request [f] (modify, delete, statistics) selects an
    installed flow [g] exactly when every packet that matches [g] also matches
    [f]: the two bitwise tests of the code decide inclusion of match sets. *)
Theorem non_strict_match_iff_inclusion f g :
  flow_wf f → flow_wf g → flow_consistent g →
  non_strict_match f g = true ↔
  ∀ pkt, key_wf pkt → flow_matches g pkt → flow_matches f pkt.
Proof.
  intros Hf Hg Hc. rewrite non_strict_match_masks. split.
  - intros [Hm Hk] pkt _ Hmt. unfold flow_matches in *.
    rewrite <- Hk, <- Hmt. symmetry. apply apply_all_mask_submask.
    unfold key_submask. by rewrite apply_all_mask_sym.
  - intros Hinc. unfold flow_matches, flow_consistent in *.
    pose proof (Hinc (f_key g) (fwf_key g Hg) Hc) as Hkey. split; [|done].
    pose proof (Hinc (key_fill (f_key g) (f_mask g))) as Hfill.
    specialize (Hfill ltac:(apply key_fill_wf; apply Hg) (key_fill_masked _ _ Hc)).
    apply (key_fill_invisible (f_key g)); [apply Hg..|apply Hf|done|congruence].
Qed.

Lemma non_strict_match_iff_inclusion_witness :
  non_strict_match (set_eth_type (flow_new 0) 0x800)
    (set_ip_proto (set_eth_type (flow_new 0) 0x800) 17) = true ↔
  ∀ pkt, key_wf pkt →
    flow_matches (set_ip_proto (set_eth_type (flow_new 0) 0x800) 17) pkt →
    flow_matches (set_eth_type (flow_new 0) 0x800) pkt.
Proof.
  apply non_strict_match_iff_inclusion.
  - split; [apply key_wf_check..|]; vm_compute; done.
  - split; [apply key_wf_check..|]; vm_compute; done.
  - vm_compute. done.
Defined.
