(* ===== verification/Netflow.v ===== *)
(** * Netflow: the unit of traffic

    Models [struct netflow] and the functions of [lib/netflow.c] that work on
    it in memory: the VLAN/MPLS tag stack, the list of output ports, the hash
    and the transmission time.  Packet parsing and printing are in [Packet].
    Array accesses through the stack's [top] are checked, so that the theorems
    say when the code stays inside [level[MAX_STACK_SIZE]]. *)

From stdpp Require Import prelude.
From S2P Require Import Prelude Util Uthash Action FlowKey.

(** ** Constants ([lib/packets.h], [lib/flow.h], [lib/netflow.h]) *)

Definition ETH_TYPE_IP : Z := 0x0800.
Definition ETH_TYPE_IPV6 : Z := 0x86dd.
Definition ETH_TYPE_ARP : Z := 0x0806.
Definition ETH_TYPE_VLAN : Z := 0x8100.
Definition ETH_TYPE_LLDP : Z := 0x88cc.
Definition ETH_TYPE_VLAN_QinQ : Z := 0x88a8.
Definition ETH_TYPE_MPLS : Z := 0x8847.
Definition ETH_TYPE_MPLS_MCAST : Z := 0x8848.
Definition VLAN_VID_MASK : Z := 0x0fff.
Definition VLAN_VID_SHIFT : Z := 0.
Definition VLAN_PCP_MASK : Z := 0xe000.
Definition VLAN_PCP_SHIFT : Z := 13.
Definition MPLS_S_MASK : Z := 0x00000100.
Definition MPLS_S_SHIFT : Z := 8.
Definition MPLS_TC_MASK : Z := 0x00000e00.
Definition MPLS_TC_SHIFT : Z := 9.
Definition MPLS_LABEL_MASK : Z := 0xfffff000.
Definition MPLS_LABEL_SHIFT : Z := 12.
Definition IP_PROTO_ICMPV4 : Z := 1.
Definition IP_PROTO_TCP : Z := 6.
Definition IP_PROTO_UDP : Z := 17.
Definition IP_PROTO_ICMPV6 : Z := 58.
Definition MAX_STACK_SIZE : nat := 8.
Definition STACK_EMPTY : Z := -1.

Definition is_vlan_type (t : Z) : bool :=
  (t =? ETH_TYPE_VLAN) || (t =? ETH_TYPE_VLAN_QinQ).
Definition is_mpls_type (t : Z) : bool :=
  (t =? ETH_TYPE_MPLS) || (t =? ETH_TYPE_MPLS_MCAST).

(** ** struct tag, struct tag_stack *)

(** The union of [struct vlan] ([ethertype], [tag]) and [struct mpls]
    ([fields]) is four bytes. *)
Record tag := Tag { tag_type : Z; tag_union : list Z }.
#[export] Instance eta_tag : Eta tag := λ t, Tag (tag_type t) (tag_union t).
Definition tag_zero : tag := Tag 0 [0; 0; 0; 0].

Definition vlan_ethertype (t : tag) : Z := le_val (take 2 (tag_union t)).
Definition vlan_tag (t : tag) : Z := le_val (take 2 (drop 2 (tag_union t))).
Definition mpls_fields (t : tag) : Z := le_val (take 4 (tag_union t)).
Definition set_vlan_ethertype (v : Z) (t : tag) : tag :=
  t <| tag_union ::= patch 0 (le_bytes 2 v) |>.
Definition set_vlan_tag (v : Z) (t : tag) : tag :=
  t <| tag_union ::= patch 2 (le_bytes 2 v) |>.
Definition set_mpls_fields (v : Z) (t : tag) : tag :=
  t <| tag_union ::= patch 0 (le_bytes 4 v) |>.

Record tag_stack := TagStack { level : list tag; top : Z }.
#[export] Instance eta_tag_stack : Eta tag_stack := λ s, TagStack (level s) (top s).

(** ** struct netflow *)

Record dp_meta := DpMeta {
  dm_buffer_id : Z; dm_reason : Z; dm_table_id : Z; dm_cookie : Z }.
#[export] Instance eta_dp_meta : Eta dp_meta := λ d,
  DpMeta (dm_buffer_id d) (dm_reason d) (dm_table_id d) (dm_cookie d).

(** [nf_info] is the 52-byte union of [tcp_flags] (2 bytes) and
    [struct icmp_echo_reply] (identifier, sequence number, 48 data bytes). *)
Record netflow := mk_netflow {
  nf_pkt_cnt : Z;
  nf_byte_cnt : Z;
  nf_start_time : Z;
  nf_exec_id : Z;
  nf_rate : Z;
  nf_match : ofl_flow_key;
  nf_tags : tag_stack;
  nf_info : list Z;
  nf_payload : option (list Z);
  nf_payload_len : Z;
  nf_metadata : dp_meta;
  nf_out_ports : list Z
}.
#[export] Instance eta_netflow : Eta netflow := λ n,
  mk_netflow (nf_pkt_cnt n) (nf_byte_cnt n) (nf_start_time n) (nf_exec_id n)
    (nf_rate n) (nf_match n) (nf_tags n) (nf_info n) (nf_payload n)
    (nf_payload_len n) (nf_metadata n) (nf_out_ports n).

Definition tcp_flags (n : netflow) : Z := le_val (take 2 (nf_info n)).
Definition icmp_identifier (n : netflow) : Z := le_val (take 2 (nf_info n)).
Definition icmp_seq_number (n : netflow) : Z := le_val (take 2 (drop 2 (nf_info n))).
Definition icmp_data (n : netflow) : list Z := take 48 (drop 4 (nf_info n)).

(** All zero, as [netflow_init] leaves it: note that [tags.top] is 0. *)
Definition netflow_init : netflow :=
  mk_netflow 0 0 0 0 0 key_zero
    (TagStack (replicate MAX_STACK_SIZE tag_zero) 0)
    (replicate 52 0) None 0 (DpMeta 0 0 0 0) [].

(** A byte copy: the payload and output-port pointers are shared. *)
Definition netflow_new_from_netflow (to_copy : netflow) : netflow := to_copy.

(** ** Tag stack *)

Definition netflow_is_vlan_tagged (n : netflow) : outcome bool :=
  if top (nf_tags n) =? STACK_EMPTY then Ok false
  else t ← array_get (level (nf_tags n)) (top (nf_tags n));
       Ok (is_vlan_type (tag_type t)).

Definition netflow_is_outer_mpls (n : netflow) : outcome bool :=
  if top (nf_tags n) =? STACK_EMPTY then Ok false
  else t ← array_get (level (nf_tags n)) (top (nf_tags n));
       Ok (is_mpls_type (tag_type t)).

Definition netflow_push_vlan (n : netflow) (ethtype : Z) : outcome netflow :=
  if (top (nf_tags n) <? Z.of_nat MAX_STACK_SIZE - 1) && is_vlan_type ethtype then
    let empty := top (nf_tags n) =? STACK_EMPTY in
    let tp := top (nf_tags n) + 1 in
    new ← array_get (level (nf_tags n)) tp;
    let new := new <| tag_type := ethtype |> in
    new ← (if negb empty then
             prev ← array_get (level (nf_tags n)) (tp - 1);
             Ok (if is_vlan_type (tag_type prev)
                 then set_vlan_tag (vlan_tag prev) new else new)
           else Ok (set_vlan_tag 0 new));
    let new := set_vlan_ethertype ethtype new in
    l ← array_set (level (nf_tags n)) tp new;
    Ok (n <| nf_tags := TagStack l tp |>)
  else Ok n.

Definition netflow_push_mpls (n : netflow) (ethtype : Z) : outcome netflow :=
  if (top (nf_tags n) <? Z.of_nat MAX_STACK_SIZE - 1) && is_mpls_type ethtype then
    let prev_empty := top (nf_tags n) =? STACK_EMPTY in
    let tp := top (nf_tags n) + 1 in
    new ← array_get (level (nf_tags n)) tp;
    let new := new <| tag_type := ethtype |> in
    r ← (if negb prev_empty then
           prev ← array_get (level (nf_tags n)) (tp - 1);
           Ok (if is_mpls_type (tag_type prev)
               then (set_mpls_fields
                       (Z.land (mpls_fields prev) (bnot 32 MPLS_S_MASK)) new,
                     n <| nf_match; mpls_bos := 0 |>)
               else (new, n))
         else Ok (set_mpls_fields MPLS_S_MASK new, n <| nf_match; mpls_bos := 1 |>));
    let '(new, n) := r in
    l ← array_set (level (nf_tags n)) tp new;
    Ok (n <| nf_tags := TagStack l tp |> <| nf_match; eth_type := ethtype |>)
  else Ok n.

Definition netflow_pop_vlan (n : netflow) : outcome netflow :=
  tagged ← netflow_is_vlan_tagged n;
  if tagged : bool then
    l ← array_set (level (nf_tags n)) (top (nf_tags n)) tag_zero;
    let n := n <| nf_tags := TagStack l (top (nf_tags n) - 1) |> in
    tagged' ← netflow_is_vlan_tagged n;
    if tagged' : bool then
      t ← array_get (level (nf_tags n)) (top (nf_tags n));
      Ok (n <| nf_match; vlan_id :=
                 Z.shiftr (Z.land (vlan_tag t) VLAN_VID_MASK) VLAN_VID_SHIFT |>
            <| nf_match; vlan_pcp :=
                 u8 (Z.shiftr (Z.land (vlan_tag t) VLAN_PCP_MASK) VLAN_PCP_SHIFT) |>)
    else Ok (n <| nf_match; vlan_pcp := 0 |> <| nf_match; vlan_id := 0 |>)
  else Ok n.

(** The source reads the match fields from the tag it has just zeroed. *)
Definition netflow_pop_mpls (n : netflow) (ethtype : Z) : outcome netflow :=
  if 0 <=? top (nf_tags n) then
    l ← array_set (level (nf_tags n)) (top (nf_tags n)) tag_zero;
    let t := tag_zero in
    let n := n <| nf_tags := TagStack l (top (nf_tags n) - 1) |>
               <| nf_match; eth_type := ethtype |> in
    outer ← netflow_is_outer_mpls n;
    if outer : bool then
      Ok (n <| nf_match; mpls_label :=
                 Z.shiftr (Z.land (mpls_fields t) MPLS_LABEL_MASK) MPLS_LABEL_SHIFT |>
            <| nf_match; mpls_tc :=
                 u8 (Z.shiftr (Z.land (mpls_fields t) MPLS_TC_MASK) MPLS_TC_SHIFT) |>
            <| nf_match; mpls_bos :=
                 u8 (Z.shiftr (Z.land (mpls_fields t) MPLS_S_MASK) MPLS_S_SHIFT) |>)
    else Ok (n <| nf_match; mpls_label := 0 |> <| nf_match; mpls_tc := 0 |>
               <| nf_match; mpls_bos := 0 |>)
  else Ok n.

Definition tags_empty (n : netflow) : bool := top (nf_tags n) =? STACK_EMPTY.

(** ** Output ports, hash, transmission time *)

Definition netflow_clean_out_ports (n : netflow) : netflow := n <| nf_out_ports := [] |>.
Definition netflow_add_out_port (n : netflow) (out_port : Z) : netflow :=
  n <| nf_out_ports ::= λ l, l ++ [out_port] |>.

(** The 14 bytes that are hashed: addresses, protocol and ports, host order. *)
Definition netflow_hash_data (n : netflow) : list Z :=
  let m := nf_match n in
  if eth_type m =? ETH_TYPE_IP then
    let '(source, destination) :=
      if ip_proto m =? IP_PROTO_TCP then (tcp_src m, tcp_dst m)
      else if ip_proto m =? IP_PROTO_UDP then (udp_src m, udp_dst m)
      else (0, 0) in
    le_bytes 4 (ipv4_src m) ++ le_bytes 4 (ipv4_dst m) ++ le_bytes 2 (ip_proto m)
    ++ le_bytes 2 source ++ le_bytes 2 destination
  else replicate 14 0.

Definition netflow_calculate_hash (n : netflow) : Z := crc32 (netflow_hash_data n) 0.

(** [port_speed] is a [uint32_t]: the multiplication wraps at 32 bits. *)
Definition netflow_update_send_time (n : netflow) (port_speed : Z) : outcome netflow :=
  let bits_per_us := u32 (port_speed * 1000) / 1000000 in
  if bits_per_us =? 0 then Fault DivByZero
  else Ok (n <| nf_start_time ::= λ t,
                  u64 (t + u64 (nf_byte_cnt n * 8) / bits_per_us) |>).

(** ** Invariant of the tag stack *)

Definition tag_wf (t : tag) : Prop := length (tag_union t) = 4%nat.

(** [top] within the array, and the levels above it zero. *)
Record stack_wf (s : tag_stack) : Prop := {
  sw_length : length (level s) = MAX_STACK_SIZE;
  sw_top : STACK_EMPTY ≤ top s < Z.of_nat MAX_STACK_SIZE;
  sw_tags : Forall tag_wf (level s);
  sw_above : ∀ i, top s < Z.of_nat i → (i < MAX_STACK_SIZE)%nat →
               level s !! i = Some tag_zero
}.

Lemma netflow_init_stack : stack_wf (nf_tags netflow_init).
Proof.
  split; cbn -[replicate]; [done|unfold STACK_EMPTY, MAX_STACK_SIZE; lia| |].
  - by apply Forall_replicate.
  - intros i _ Hi. by apply lookup_replicate_2.
Qed.

Lemma level_get s i :
  stack_wf s → 0 ≤ i < Z.of_nat MAX_STACK_SIZE →
  ∃ t, array_get (level s) i = Ok t ∧ tag_wf t ∧ level s !! Z.to_nat i = Some t.
Proof.
  intros [Hl _ Ht _] Hi. destruct (array_get_in_range (level s) i) as [t Hg]; [lia|].
  pose proof Hg as Hg'. apply array_get_Ok in Hg' as [_ Hlk].
  exists t. split; [done|]. split; [|done]. by eapply Forall_lookup_1.
Qed.

Lemma level_set s i t :
  stack_wf s → 0 ≤ i < Z.of_nat MAX_STACK_SIZE →
  array_set (level s) i t = Ok (<[Z.to_nat i := t]> (level s)).
Proof. intros [Hl _ _ _] Hi. apply array_set_in_range. lia. Qed.

(** Pushing a tag of the right shape on top. *)
Lemma stack_push_wf s t :
  stack_wf s → tag_wf t → top s + 1 < Z.of_nat MAX_STACK_SIZE →
  stack_wf (TagStack (<[Z.to_nat (top s + 1) := t]> (level s)) (top s + 1)).
Proof.
  intros [Hl Ht Hf Ha] Hw Hlt. split; cbn; unfold STACK_EMPTY, MAX_STACK_SIZE in *.
  - by rewrite length_insert.
  - lia.
  - by apply Forall_insert.
  - intros i Hi Hm. rewrite list_lookup_insert_ne by lia. apply Ha; [lia|done].
Qed.

(** Clearing the top tag. *)
Lemma stack_pop_wf s :
  stack_wf s → 0 ≤ top s →
  stack_wf (TagStack (<[Z.to_nat (top s) := tag_zero]> (level s)) (top s - 1)).
Proof.
  intros [Hl Ht Hf Ha] H0. split; cbn; unfold STACK_EMPTY, MAX_STACK_SIZE in *.
  - by rewrite length_insert.
  - lia.
  - by apply Forall_insert.
  - intros i Hi Hm. destruct (decide (i = Z.to_nat (top s))) as [->|Hne].
    + rewrite list_lookup_insert_eq; [done|lia].
    + rewrite list_lookup_insert_ne by done. apply Ha; [lia|done].
Qed.

Lemma patch_tag_wf off bs t :
  tag_wf t → (off + length bs ≤ 4)%nat → tag_wf (t <| tag_union ::= patch off bs |>).
Proof. unfold tag_wf. intros Ht Hle. cbn. rewrite patch_length; lia. Qed.

Lemma set_vlan_tag_wf v t : tag_wf t → tag_wf (set_vlan_tag v t).
Proof. intros. apply patch_tag_wf; [done|]. rewrite length_le_bytes. lia. Qed.
Lemma set_vlan_ethertype_wf v t : tag_wf t → tag_wf (set_vlan_ethertype v t).
Proof. intros. apply patch_tag_wf; [done|]. rewrite length_le_bytes. lia. Qed.
Lemma set_mpls_fields_wf v t : tag_wf t → tag_wf (set_mpls_fields v t).
Proof. intros. apply patch_tag_wf; [done|]. rewrite length_le_bytes. lia. Qed.
#[export] Hint Resolve set_vlan_tag_wf set_vlan_ethertype_wf set_mpls_fields_wf : horse.

Lemma is_tagged_ok s (P : Z → bool) :
  stack_wf s →
  ∃ b, (if top s =? STACK_EMPTY then Ok false
        else t ← array_get (level s) (top s); Ok (P (tag_type t))) = Ok b ∧
       (b = true → 0 ≤ top s).
Proof.
  intros Hw. pose proof (sw_top s Hw) as Ht. unfold STACK_EMPTY in *.
  destruct (Z.eqb_spec (top s) (-1)); [by exists false|].
  destruct (level_get s (top s) Hw) as (t & -> & _); [lia|].
  cbn. eexists. split; [done|]. lia.
Qed.

Lemma push_vlan_ok n ty :
  stack_wf (nf_tags n) → ∃ n', netflow_push_vlan n ty = Ok n' ∧ stack_wf (nf_tags n') ∧
    nf_match n' = nf_match n ∧
    (is_vlan_type ty = true → top (nf_tags n) < 7 →
     ∃ t, tag_wf t ∧ tag_type t = ty ∧ vlan_ethertype t = u16 ty ∧
       nf_tags n' = TagStack (<[Z.to_nat (top (nf_tags n) + 1) := t]> (level (nf_tags n)))
                      (top (nf_tags n) + 1)).
Proof.
  intros Hw. pose proof (sw_top _ Hw) as Ht. unfold netflow_push_vlan, STACK_EMPTY in *.
  destruct (_ && _) eqn:E.
  2: { exists n. split; [done|]. split; [done|]. split; [done|]. intros Hty Hlt.
       rewrite Hty, andb_true_r in E. apply Z.ltb_ge in E. unfold MAX_STACK_SIZE in E. lia. }
  apply andb_true_iff in E as [Hlt%Z.ltb_lt Hty].
  destruct (level_get _ (top (nf_tags n) + 1) Hw) as (new & -> & Hnw & _); [lia|].
  cbn [mbind outcome_bind].
  assert (∃ new', (if negb (top (nf_tags n) =? -1)
     then prev ← array_get (level (nf_tags n)) (top (nf_tags n) + 1 - 1);
          Ok (if is_vlan_type (tag_type prev)
              then set_vlan_tag (vlan_tag prev) (new <| tag_type := ty |>)
              else new <| tag_type := ty |>)
     else Ok (set_vlan_tag 0 (new <| tag_type := ty |>))) = Ok new' ∧
     tag_wf new' ∧ tag_type new' = ty) as (new' & -> & Hw' & Hty').
  { destruct (Z.eqb_spec (top (nf_tags n)) (-1)); cbn [negb].
    - eexists. split; [done|]. split; [by apply set_vlan_tag_wf|done].
    - destruct (level_get _ (top (nf_tags n) + 1 - 1) Hw) as (prev & -> & _); [lia|].
      cbn [mbind outcome_bind]. destruct (is_vlan_type (tag_type prev)); eexists;
        (split; [done|]); split; try done. by apply set_vlan_tag_wf. }
  cbn [mbind outcome_bind].
  assert (tag_wf (set_vlan_ethertype ty new')) as Hw2 by by apply set_vlan_ethertype_wf.
  rewrite level_set by (done || lia). cbn [mbind outcome_bind].
  eexists. split; [done|]. cbn [nf_tags nf_match setf].
  split; [apply stack_push_wf; [done|done|lia]|]. split; [done|]. intros _ _.
  exists (set_vlan_ethertype ty new'). split; [done|]. split; [done|]. split; [|done].
  unfold vlan_ethertype, set_vlan_ethertype; cbn [tag_union setf].
  pose proof (patch_read 0 (le_bytes 2 ty) (tag_union new')) as Hr.
  rewrite length_le_bytes in Hr. unfold tag_wf in Hw'. rewrite drop_0 in Hr.
  rewrite Hr by lia. apply (le_val_bytes 2).
Qed.

Lemma push_mpls_ok n ty :
  stack_wf (nf_tags n) → ∃ n', netflow_push_mpls n ty = Ok n' ∧ stack_wf (nf_tags n').
Proof.
  intros Hw. pose proof (sw_top _ Hw) as Ht. unfold netflow_push_mpls, STACK_EMPTY in *.
  destruct (_ && _) eqn:E; [|by exists n].
  apply andb_true_iff in E as [Hlt%Z.ltb_lt Hty].
  destruct (level_get _ (top (nf_tags n) + 1) Hw) as (new & -> & Hnw & _); [lia|].
  cbn [mbind outcome_bind].
  destruct (Z.eqb_spec (top (nf_tags n)) (-1)) as [He|Hne]; cbn [negb].
  - cbn [mbind outcome_bind nf_tags setf]. rewrite level_set by (done || lia).
    cbn [mbind outcome_bind]. eexists. split; [done|].
    cbn [nf_tags setf]. apply stack_push_wf; [done|by apply set_mpls_fields_wf|lia].
  - destruct (level_get _ (top (nf_tags n) + 1 - 1) Hw) as (prev & -> & _); [lia|].
    cbn [mbind outcome_bind].
    destruct (is_mpls_type (tag_type prev)); cbn [nf_tags setf];
      (rewrite level_set by (done || lia)); cbn [mbind outcome_bind];
      eexists; (split; [done|]); cbn [nf_tags setf];
      apply stack_push_wf; try lia; try done. by apply set_mpls_fields_wf.
Qed.

Lemma pop_vlan_ok n :
  stack_wf (nf_tags n) → ∃ n', netflow_pop_vlan n = Ok n' ∧ stack_wf (nf_tags n') ∧
    (∀ t, array_get (level (nf_tags n)) (top (nf_tags n)) = Ok t →
          is_vlan_type (tag_type t) = true →
     nf_tags n' = TagStack (<[Z.to_nat (top (nf_tags n)) := tag_zero]> (level (nf_tags n)))
                    (top (nf_tags n) - 1)).
Proof.
  intros Hw. unfold netflow_pop_vlan.
  destruct (is_tagged_ok (nf_tags n) is_vlan_type Hw) as (b & Hb & Hb0).
  change (netflow_is_vlan_tagged n = Ok b) in Hb. rewrite Hb. cbn [mbind outcome_bind].
  destruct b.
  2: { exists n. split; [done|]. split; [done|]. intros t Hg Hty.
       unfold netflow_is_vlan_tagged in Hb. rewrite Hg in Hb. destruct (Z.eqb_spec (top (nf_tags n)) STACK_EMPTY) as [He|_].
       - rewrite He in Hg. done.
       - cbn in Hb. congruence. }
  specialize (Hb0 eq_refl). pose proof (sw_top _ Hw) as Ht.
  rewrite level_set by (done || lia). cbn [mbind outcome_bind].
  pose proof (stack_pop_wf _ Hw Hb0) as Hw'.
  set (s' := TagStack _ _) in *.
  destruct (is_tagged_ok s' is_vlan_type Hw') as (b' & Hb' & Hb0').
  change (netflow_is_vlan_tagged (n <| nf_tags := s' |>) = Ok b') in Hb'.
  rewrite Hb'. cbn [mbind outcome_bind]. destruct b'; [|by eexists].
  cbn [nf_tags setf].
  destruct (level_get s' (top s') Hw') as (t' & -> & _).
  { pose proof (sw_top _ Hw'). specialize (Hb0' eq_refl). lia. }
  cbn [mbind outcome_bind]. by eexists.
Qed.

Lemma pop_mpls_ok n ty :
  stack_wf (nf_tags n) → ∃ n', netflow_pop_mpls n ty = Ok n' ∧ stack_wf (nf_tags n') ∧
    (0 ≤ top (nf_tags n) → mpls_label (nf_match n') = 0 ∧ mpls_tc (nf_match n') = 0 ∧
       mpls_bos (nf_match n') = 0 ∧ eth_type (nf_match n') = ty).
Proof.
  intros Hw. pose proof (sw_top _ Hw) as Ht. unfold netflow_pop_mpls.
  destruct (Z.leb_spec 0 (top (nf_tags n))) as [H0|H0].
  2: { exists n. split; [done|]. split; [done|lia]. }
  rewrite level_set by (done || lia). cbn [mbind outcome_bind].
  pose proof (stack_pop_wf _ Hw H0) as Hw'. set (s' := TagStack _ _) in *.
  destruct (is_tagged_ok s' is_mpls_type Hw') as (b' & Hb' & _).
  change (netflow_is_outer_mpls (n <| nf_tags := s' |> <| nf_match; eth_type := ty |>)
          = Ok b') in Hb'.
  rewrite Hb'. cbn [mbind outcome_bind].
  destruct b'; eexists; (split; [done|]); (split; [done|]); intros _; by repeat split.
Qed.

(** The tag-stack operations never leave the array and keep the stack well
    formed: from a netflow whose stack invariant holds (as after
    [netflow_init]), pushing and popping VLAN and MPLS tags always succeeds. *)
Theorem tag_ops_safe n ty :
  stack_wf (nf_tags n) →
  (∃ n', netflow_push_vlan n ty = Ok n' ∧ stack_wf (nf_tags n')) ∧
  (∃ n', netflow_push_mpls n ty = Ok n' ∧ stack_wf (nf_tags n')) ∧
  (∃ n', netflow_pop_vlan n = Ok n' ∧ stack_wf (nf_tags n')) ∧
  (∃ n', netflow_pop_mpls n ty = Ok n' ∧ stack_wf (nf_tags n')).
Proof.
  intros Hw. split; [|split; [|split]].
  - destruct (push_vlan_ok n ty Hw) as (n' & ? & ? & _). eauto.
  - by apply push_mpls_ok.
  - destruct (pop_vlan_ok n Hw) as (n' & ? & ? & _). eauto.
  - destruct (pop_mpls_ok n ty Hw) as (n' & ? & ? & _). eauto.
Qed.

Lemma tag_ops_safe_witness :
  ∃ n', netflow_push_vlan netflow_init ETH_TYPE_VLAN = Ok n' ∧ stack_wf (nf_tags n').
Proof. exact (proj1 (tag_ops_safe netflow_init ETH_TYPE_VLAN netflow_init_stack)). Defined.

(** Pop undoes push: after pushing a VLAN tag on a stack with room, popping
    restores the tag stack. *)
Theorem pop_push_vlan n ty n1 n2 :
  stack_wf (nf_tags n) → is_vlan_type ty = true → top (nf_tags n) < 7 →
  netflow_push_vlan n ty = Ok n1 → netflow_pop_vlan n1 = Ok n2 →
  nf_tags n2 = nf_tags n.
Proof.
  intros Hw Hty Hlt Hpush Hpop. pose proof (sw_top _ Hw) as Ht. unfold STACK_EMPTY in Ht.
  destruct (push_vlan_ok n ty Hw) as (n1' & Hp1 & Hw1 & _ & Htag).
  rewrite Hpush in Hp1. injection Hp1 as <-.
  destruct (Htag Hty Hlt) as (t & Htw & Htt & _ & Hs1).
  destruct (pop_vlan_ok n1 Hw1) as (n2' & Hp2 & _ & Hs2).
  rewrite Hpop in Hp2. injection Hp2 as <-.
  assert (length (level (nf_tags n)) = 8%nat) as Hl by apply Hw.
  rewrite (Hs2 t); rewrite ?Hs1; cbn [level top].
  - rewrite list_insert_insert, decide_True by done.
    rewrite list_insert_id.
    + destruct (nf_tags n). cbn. f_equal. lia.
    + apply (sw_above _ Hw); unfold MAX_STACK_SIZE; lia.
  - apply array_get_Ok. split; [lia|]. rewrite list_lookup_insert_eq; [done|]. lia.
  - by rewrite Htt.
Qed.

Lemma pop_push_vlan_witness :
  ∃ n1 n2, netflow_push_vlan netflow_init ETH_TYPE_VLAN = Ok n1 ∧
    netflow_pop_vlan n1 = Ok n2 ∧ nf_tags n2 = nf_tags netflow_init.
Proof.
  eexists _, _. split; [vm_compute; reflexivity|]. split; [vm_compute; reflexivity|].
  eapply (pop_push_vlan netflow_init ETH_TYPE_VLAN); [apply netflow_init_stack|done|done|..];
    vm_compute; reflexivity.
Defined.

(** A fresh netflow is not an empty stack: [netflow_init] leaves [tags.top]
    at 0 instead of [STACK_EMPTY] (-1).  The first MPLS push therefore misses
    the bottom-of-stack case: neither the S bit of the tag nor [mpls_bos] is
    set. *)
Theorem first_mpls_push_misses_bos :
  tags_empty netflow_init = false ∧
  ∃ n, netflow_push_mpls netflow_init ETH_TYPE_MPLS = Ok n ∧
       mpls_bos (nf_match n) = 0 ∧
       mpls_fields <$> (level (nf_tags n) !! 1%nat) = Some 0.
Proof. split; [done|]. eexists. split; [vm_compute; reflexivity|]. by vm_compute. Qed.

(** [netflow_pop_mpls] reads the match fields from the tag it has just
    cleared (netflow.c:122-130): whatever is left on the stack, label, TC and
    bottom-of-stack come out as 0. *)
Theorem pop_mpls_forgets_label n ty n' :
  stack_wf (nf_tags n) → 0 ≤ top (nf_tags n) → netflow_pop_mpls n ty = Ok n' →
  mpls_label (nf_match n') = 0 ∧ mpls_tc (nf_match n') = 0 ∧
  mpls_bos (nf_match n') = 0 ∧ eth_type (nf_match n') = ty.
Proof.
  intros Hw H0 Hp. destruct (pop_mpls_ok n ty Hw) as (n2 & Hp2 & _ & H).
  rewrite Hp in Hp2. injection Hp2 as <-. by apply H.
Qed.

Lemma pop_mpls_forgets_label_witness :
  ∃ n1 n2 n3, netflow_push_mpls netflow_init ETH_TYPE_MPLS = Ok n1 ∧
    netflow_push_mpls n1 ETH_TYPE_MPLS = Ok n2 ∧
    netflow_pop_mpls n2 ETH_TYPE_MPLS = Ok n3 ∧ mpls_label (nf_match n3) = 0.
Proof.
  destruct (push_mpls_ok netflow_init ETH_TYPE_MPLS netflow_init_stack) as (n1 & H1 & Hw1).
  destruct (push_mpls_ok n1 ETH_TYPE_MPLS Hw1) as (n2 & H2 & Hw2).
  destruct (pop_mpls_ok n2 ETH_TYPE_MPLS Hw2) as (n3 & H3 & _).
  exists n1, n2, n3. do 3 (split; [assumption|]).
  eapply (pop_mpls_forgets_label n2 ETH_TYPE_MPLS n3 Hw2); [|exact H3].
  vm_compute in H1. injection H1 as <-. vm_compute in H2. injection H2 as <-. done.
Defined.

(** Transmission time: for link speeds from 1000 kb/s (1 Mb/s) up to
    4294967 kb/s the delay added is [bits / (kb/s / 1000)] microseconds; below
    that the code divides by zero, and from 4294968 kb/s on the 32-bit product
    wraps (at exactly that speed to a division by zero). *)
Theorem send_time_range n speed :
  0 ≤ speed →
  (speed < 1000 → netflow_update_send_time n speed = Fault DivByZero) ∧
  (1000 ≤ speed ≤ 4294967 →
   netflow_update_send_time n speed =
   Ok (n <| nf_start_time ::= λ t,
              u64 (t + u64 (nf_byte_cnt n * 8) / (speed / 1000)) |>)) ∧
  netflow_update_send_time n 4294968 = Fault DivByZero.
Proof.
  intros Hs. unfold netflow_update_send_time. split; [|split].
  - intros Hlt. rewrite wrap_small by (unfold in_width; lia).
    by rewrite Z.div_small by lia.
  - intros Hr. rewrite wrap_small by (unfold in_width; lia).
    change 1000000 with (1000 * 1000). rewrite Z.div_mul_cancel_r by lia.
    destruct (Z.eqb_spec (speed / 1000) 0) as [H0|_]; [|done].
    assert (1 ≤ speed / 1000) by (apply Z.div_le_lower_bound; lia). lia.
  - done.
Qed.

Lemma send_time_range_witness :
  netflow_update_send_time (netflow_init <| nf_byte_cnt := 1250 |>) 10000
  = Ok (netflow_init <| nf_byte_cnt := 1250 |> <| nf_start_time := 1000 |>).
Proof.
  destruct (send_time_range (netflow_init <| nf_byte_cnt := 1250 |>) 10000) as (_ & H & _);
    [lia|]. rewrite H by lia. vm_compute. reflexivity.
Defined.
