(* ===== verification/Packet.v ===== *)
(** * Packet: netflows to packet headers and back

    Models [netflow_to_pkt] and [pkt_to_netflow] of [lib/netflow.c] over byte
    buffers with checked accesses.  Headers are the byte layouts of the packed
    structs of [lib/packets.h]; multi-byte fields are big-endian in memory.
    The theorems are the round trips of ARP and IPv4 headers, the two DSCP
    encodings, and the exact condition for the memory safety of the parser. *)

From stdpp Require Import prelude.
From S2P Require Import Prelude Util Uthash Action FlowKey Netflow.

Definition ARP_HW_TYPE_ETH : Z := 1.
Definition ARP_OP_REQUEST : Z := 1.
Definition ARP_OP_REPLY : Z := 2.
Definition ECHO_REPLY : Z := 0.
Definition ECHO : Z := 8.
Definition IP_ECN_MASK : Z := 0x03.
Definition IP_MORE_FRAGMENTS : Z := 0x2000.
Definition IP_FRAG_OFF_MASK : Z := 0x1fff.

(** Sizes of the packed structs. *)
Definition ETH_HEADER : nat := 14.
Definition VLAN_HEADER : nat := 4.
Definition MPLS_HEADER : nat := 4.
Definition ARP_HEADER : nat := 28.
Definition IP_HEADER : nat := 20.
Definition IPV6_HEADER : nat := 40.
Definition TCP_HEADER_LEN : nat := 20.
Definition UDP_HEADER_LEN : nat := 8.
Definition ICMP_HEADER_LEN : nat := 4.
Definition ECHO_HEADER : nat := 52.

(** ** Headers as bytes *)

Definition eth_bytes (m : ofl_flow_key) : list Z :=
  eth_dst m ++ eth_src m ++ be_bytes 2 (eth_type m).

Definition arp_bytes (m : ofl_flow_key) : list Z :=
  be_bytes 2 ARP_HW_TYPE_ETH ++ be_bytes 2 ETH_TYPE_IP ++ [6] ++ [4] ++
  be_bytes 2 (arp_op m) ++ arp_sha m ++ be_bytes 4 (arp_spa m) ++
  arp_tha m ++ be_bytes 4 (arp_tpa m).

(** The source shifts the DSCP by one bit. *)
Definition ip_tos (m : ofl_flow_key) : Z :=
  u8 (Z.lor (Z.shiftl (Z.lor 0 (ip_dscp m)) 1) (ip_ecn m)).

Definition ip_bytes (m : ofl_flow_key) : list Z :=
  [Z.lor (Z.shiftl 1 6) 5] ++ [ip_tos m] ++ be_bytes 2 20 ++ [0; 0] ++ [0; 0] ++
  [0] ++ [ip_proto m] ++ [0; 0] ++ be_bytes 4 (ipv4_src m) ++ be_bytes 4 (ipv4_dst m).

Definition ipv6_bytes (m : ofl_flow_key) : list Z :=
  replicate 6 0 ++ [ip_proto m] ++ [0] ++ ipv6_src m ++ ipv6_dst m.

Definition tcp_bytes (m : ofl_flow_key) : list Z :=
  be_bytes 2 (tcp_src m) ++ be_bytes 2 (tcp_dst m) ++ replicate 16 0.

Definition udp_bytes (m : ofl_flow_key) : list Z :=
  be_bytes 2 (udp_src m) ++ be_bytes 2 (udp_dst m) ++ be_bytes 2 8 ++ [0; 0].

Definition icmp_bytes (type code : Z) : list Z := [type; code; 0; 0].

Definition echo_bytes (n : netflow) : list Z :=
  be_bytes 2 (icmp_identifier n) ++ be_bytes 2 (icmp_seq_number n) ++ icmp_data n.

(** ** Printing *)

(** Buffer, offset, payload length so far. *)
Definition tags_to_pkt (n : netflow) (buf : list Z) (off : nat)
  : outcome (list Z * nat) :=
  if tags_empty n then Ok (buf, off)
  else
    foldl (λ acc i,
      st ← acc;
      let '(buf, off) := st in
      t ← array_get (level (nf_tags n)) (Z.of_nat i);
      if is_mpls_type (tag_type t) || is_vlan_type (tag_type t) then
        buf ← mem_write buf off (tag_union t);
        Ok (buf, (off + 4)%nat)
      else Ok (buf, off)) (Ok (buf, off)) (seq 0 (Z.to_nat (top (nf_tags n) + 1))).

(** The part after the label [l4]. *)
Definition l4_to_pkt (n : netflow) (buf : list Z) (off length_off payload_len : nat)
  : outcome (list Z * nat) :=
  let m := nf_match n in
  let emit buf off plen bs :=
    buf ← mem_write buf off bs;
    Ok (buf, (off + length bs)%nat, (plen + length bs)%nat) in
  st ← (if ip_proto m =? IP_PROTO_TCP then emit buf off payload_len (tcp_bytes m)
        else Ok (buf, off, payload_len));
  let '(buf, off, plen) := st in
  st ← (if ip_proto m =? IP_PROTO_UDP then emit buf off plen (udp_bytes m)
        else Ok (buf, off, plen));
  let '(buf, off, plen) := st in
  st ← (if ip_proto m =? IP_PROTO_ICMPV4 then
          st ← emit buf off plen (icmp_bytes (icmpv4_type m) (icmpv4_code m));
          let '(buf, off, plen) := st in
          if (icmpv4_type m =? ECHO) || (icmpv4_type m =? ECHO_REPLY)
          then emit buf off plen (echo_bytes n) else Ok (buf, off, plen)
        else Ok (buf, off, plen));
  let '(buf, off, plen) := st in
  st ← (if ip_proto m =? IP_PROTO_ICMPV6 then
          emit buf off plen (icmp_bytes (icmpv6_type m) (icmpv6_code m))
        else Ok (buf, off, plen));
  let '(buf, off, plen) := st in
  buf ← mem_write buf length_off (be_bytes 2 (Z.of_nat plen));
  Ok (buf, off).

(** Returns the buffer and the number of bytes to send. *)
Definition netflow_to_pkt (n : netflow) (buf : list Z) : outcome (list Z * nat) :=
  let m := nf_match n in
  buf ← mem_write buf 0 (eth_bytes m);
  st ← tags_to_pkt n buf ETH_HEADER;
  let '(buf, off) := st in
  if eth_type m =? ETH_TYPE_LLDP then
    let len := Z.to_nat (nf_payload_len n) in
    data ← match nf_payload n with
           | Some p => mem_read p 0 len
           | None => if decide (len = 0%nat) then Ok [] else Fault NullDeref
           end;
    buf ← mem_write buf off data;
    Ok (buf, (off + len)%nat)
  else if eth_type m =? ETH_TYPE_ARP then
    buf ← mem_write buf off (arp_bytes m);
    Ok (buf, (off + ARP_HEADER)%nat)
  else if eth_type m =? ETH_TYPE_IP then
    buf ← mem_write buf off (ip_bytes m);
    l4_to_pkt n buf (off + IP_HEADER) (off + 2) IP_HEADER
  else if eth_type m =? ETH_TYPE_IPV6 then
    buf ← mem_write buf off (ipv6_bytes m);
    l4_to_pkt n buf (off + IPV6_HEADER) (off + 4) 0
  else Ok (buf, off).

(** ** Parsing *)

(** Bytes [off, off+k) of a header. *)
Definition fld (off k : nat) (h : list Z) : list Z := take k (drop off h).

Definition set_match (g : ofl_flow_key → ofl_flow_key) (n : netflow) : netflow :=
  n <| nf_match ::= g |>.

(** Increment [top] and store the tag there. *)
Definition add_vlan_tag (n : netflow) (type : Z) (raw : list Z) : outcome netflow :=
  let tp := top (nf_tags n) + 1 in
  l ← array_set (level (nf_tags n)) tp (Tag type raw);
  Ok (n <| nf_tags := TagStack l tp |>).

(** The result of a parsing stage: continue with the netflow and the offset, or
    return. *)
Inductive parsed := Next (n : netflow) (off : nat) | Return (n : netflow).

Definition parse_first_vlan (buf : list Z) (n : netflow) (off : nat) (pkt_len : Z)
  : outcome parsed :=
  if is_vlan_type (eth_type (nf_match n)) then
    if pkt_len <? Z.of_nat (off + VLAN_HEADER) then Ok (Return n)
    else
      h ← mem_read buf off VLAN_HEADER;
      let tci := be_val (fld 2 2 h) in
      let type := be_val (fld 0 2 h) in
      let n := set_match (λ m,
        m <| vlan_id := Z.shiftr (Z.land tci VLAN_VID_MASK) VLAN_VID_SHIFT |>
          <| vlan_pcp := u8 (Z.shiftr (Z.land tci VLAN_PCP_MASK) VLAN_PCP_SHIFT) |>
          <| eth_type := type |>) n in
      n ← add_vlan_tag n type h;
      Ok (Next n (off + VLAN_HEADER))
  else Ok (Next n off).

(** The [while] loop: each round increments [top], which must stay below
    [MAX_STACK_SIZE] to go on, so ten rounds are enough from [top >= -1]. *)
Fixpoint parse_more_vlans (fuel : nat) (buf : list Z) (n : netflow) (off : nat)
    (pkt_len : Z) : outcome parsed :=
  if is_vlan_type (eth_type (nf_match n)) then
    match fuel with
    | O => Fault OutOfFuel
    | S fuel =>
        if pkt_len <? Z.of_nat (off + VLAN_HEADER) then Ok (Return n)
        else
          h ← mem_read buf off VLAN_HEADER;
          let type := be_val (fld 0 2 h) in
          let n := set_match (λ m, m <| eth_type := type |>) n in
          if top (nf_tags n) <? Z.of_nat MAX_STACK_SIZE then
            n ← add_vlan_tag n type h;
            parse_more_vlans fuel buf n (off + VLAN_HEADER) pkt_len
          else Ok (Return n)
    end
  else Ok (Next n off).

Definition parse_arp (h : list Z) (m : ofl_flow_key) : ofl_flow_key :=
  if (be_val (fld 0 2 h) =? 1) && (be_val (fld 2 2 h) =? ETH_TYPE_IP)
     && (be_val (fld 4 1 h) =? 6) && (be_val (fld 5 1 h) =? 4) then
    let op := be_val (fld 6 2 h) in
    let m := if op <=? 0xff then m <| arp_op := op |> else m in
    if (op =? ARP_OP_REQUEST) || (op =? ARP_OP_REPLY) then
      m <| arp_spa := be_val (fld 14 4 h) |> <| arp_tpa := be_val (fld 24 4 h) |>
        <| arp_sha := fld 8 6 h |> <| arp_tha := fld 18 6 h |>
    else m
  else m.

Definition parse_ip (h : list Z) (m : ofl_flow_key) : ofl_flow_key :=
  m <| ipv4_src := be_val (fld 12 4 h) |> <| ipv4_dst := be_val (fld 16 4 h) |>
    <| ip_proto := be_val (fld 9 1 h) |>
    <| ip_ecn := Z.land (be_val (fld 1 1 h)) IP_ECN_MASK |>
    <| ip_dscp := Z.shiftr (be_val (fld 1 1 h)) 2 |>.

Definition ip_is_fragment (h : list Z) : bool :=
  negb (Z.land (be_val (fld 6 2 h)) (Z.lor IP_MORE_FRAGMENTS IP_FRAG_OFF_MASK) =? 0).

Definition parse_l4 (buf : list Z) (n : netflow) (off : nat) (pkt_len : Z)
  : outcome netflow :=
  let proto := ip_proto (nf_match n) in
  if proto =? IP_PROTO_UDP then
    if pkt_len <? Z.of_nat (off + UDP_HEADER_LEN) then Ok n
    else h ← mem_read buf off UDP_HEADER_LEN;
         Ok (set_match (λ m, m <| udp_src := be_val (fld 0 2 h) |>
                               <| udp_dst := be_val (fld 2 2 h) |>) n)
  else if proto =? IP_PROTO_TCP then
    if pkt_len <? Z.of_nat (off + TCP_HEADER_LEN) then Ok n
    else h ← mem_read buf off TCP_HEADER_LEN;
         Ok ((set_match (λ m, m <| tcp_src := be_val (fld 0 2 h) |>
                                <| tcp_dst := be_val (fld 2 2 h) |>) n)
             <| nf_info ::= patch 0 (le_bytes 2 (be_val (fld 12 2 h))) |>)
  else if proto =? IP_PROTO_ICMPV4 then
    if pkt_len <? Z.of_nat (off + ICMP_HEADER_LEN) then Ok n
    else
      h ← mem_read buf off ICMP_HEADER_LEN;
      let off := (off + ICMP_HEADER_LEN)%nat in
      let n := set_match (λ m, m <| icmpv4_code := be_val (fld 1 1 h) |>
                                 <| icmpv4_type := be_val (fld 0 1 h) |>) n in
      if (icmpv4_type (nf_match n) =? ECHO) || (icmpv4_type (nf_match n) =? ECHO_REPLY)
      then
        if pkt_len <? Z.of_nat (off + ECHO_HEADER) then Ok n
        else e ← mem_read buf off ECHO_HEADER;
             Ok (n <| nf_info := le_bytes 2 (be_val (fld 0 2 e)) ++
                        le_bytes 2 (be_val (fld 2 2 e)) ++ fld 4 48 e |>)
      else Ok n
  else Ok n.

(** The part after the VLAN tags. *)
Definition parse_body (buf : list Z) (n : netflow) (off : nat) (pkt_len : Z)
  : outcome netflow :=
  let ty := eth_type (nf_match n) in
  if is_mpls_type ty then
    if pkt_len <? Z.of_nat (off + MPLS_HEADER) then Ok n
    else
      h ← mem_read buf off MPLS_HEADER;
      let fields := be_val h in
      Ok (set_match (λ m,
        m <| mpls_label := Z.shiftr (Z.land fields MPLS_LABEL_MASK) MPLS_LABEL_SHIFT |>
          <| mpls_tc := u8 (Z.shiftr (Z.land fields MPLS_TC_MASK) MPLS_TC_SHIFT) |>
          <| mpls_bos := u8 (Z.shiftr (Z.land fields MPLS_S_MASK) MPLS_S_SHIFT) |>) n)
  else if ty =? ETH_TYPE_LLDP then
    let len := u16 (u64 (pkt_len - Z.of_nat off)) in
    data ← mem_read buf off (Z.to_nat len);
    Ok (n <| nf_payload_len := len |> <| nf_payload := Some data |>)
  else if ty =? ETH_TYPE_ARP then
    if pkt_len <? Z.of_nat (off + ARP_HEADER) then Ok n
    else h ← mem_read buf off ARP_HEADER; Ok (set_match (parse_arp h) n)
  else if ty =? ETH_TYPE_IP then
    if pkt_len <? Z.of_nat (off + IP_HEADER) then Ok n
    else
      h ← mem_read buf off IP_HEADER;
      let n := set_match (parse_ip h) n in
      if ip_is_fragment h then Ok n else parse_l4 buf n (off + IP_HEADER) pkt_len
  else parse_l4 buf n off pkt_len.

Definition pkt_to_netflow (buf : list Z) (n : netflow) (pkt_len : Z) : outcome netflow :=
  h ← mem_read buf 0 ETH_HEADER;
  let n := set_match (λ m, m <| eth_type := be_val (fld 12 2 h) |>
                             <| eth_src := fld 6 6 h |> <| eth_dst := fld 0 6 h |>) n in
  r ← parse_first_vlan buf n ETH_HEADER pkt_len;
  match r with
  | Return n => Ok n
  | Next n off =>
      r ← parse_more_vlans 10 buf n off pkt_len;
      match r with
      | Return n => Ok n
      | Next n off => parse_body buf n off pkt_len
      end
  end.

(** ** Slicing headers *)

Lemma length_be_bytes k z : length (be_bytes k z) = k.
Proof. apply be_bytes_wf. Qed.

Lemma fld_here k (a b : list Z) : length a = k → fld 0 k (a ++ b) = a.
Proof. intros <-. unfold fld. by rewrite drop_0, take_app_length. Qed.

Lemma fld_all k (a : list Z) : length a = k → fld 0 k a = a.
Proof. intros <-. unfold fld. by rewrite drop_0, firstn_all. Qed.

Lemma fld_skip off k (a b : list Z) :
  (length a ≤ off)%nat → fld off k (a ++ b) = fld (off - length a) k b.
Proof. intros. unfold fld. by rewrite drop_app_ge. Qed.

Ltac list_len :=
  rewrite ?length_app, ?length_be_bytes, ?length_replicate; cbn [length]; lia.

(** Compute a slice of a header written as a concatenation of fields. *)
Ltac slice :=
  repeat first
    [ rewrite fld_here by list_len
    | rewrite fld_all by list_len
    | rewrite fld_skip by list_len; rewrite ?length_be_bytes, ?length_replicate;
      repeat match goal with
      | H : length ?x = _ |- context [length ?x] => rewrite H
      end; cbn [length]; cbn [Nat.sub] ].

Lemma be_val_small k z : in_width (8 * Z.of_nat k) z → be_val (be_bytes k z) = z.
Proof. intros. rewrite be_val_bytes. by apply wrap_small. Qed.

Lemma be_val_byte z : be_val [z] = z.
Proof. unfold be_val. cbn. lia. Qed.

(** ** Buffers *)

Lemma mem_write_at (a r bs : list Z) off :
  length a = off → (length bs ≤ length r)%nat →
  mem_write (a ++ r) off bs = Ok (a ++ bs ++ drop (length bs) r).
Proof.
  intros <- Hle. unfold mem_write. rewrite decide_True by (rewrite length_app; lia).
  rewrite take_app_length. do 3 f_equal. by rewrite drop_app_add.
Qed.

Lemma mem_write_start (r bs : list Z) :
  (length bs ≤ length r)%nat → mem_write r 0 bs = Ok (bs ++ drop (length bs) r).
Proof. intros. by apply (mem_write_at [] r bs 0). Qed.

Lemma mem_read_at (a b r : list Z) off k :
  length a = off → length b = k → mem_read (a ++ b ++ r) off k = Ok b.
Proof.
  intros <- <-. unfold mem_read. rewrite decide_True by (rewrite !length_app; lia).
  by rewrite drop_app_length, take_app_length.
Qed.

Lemma mem_read_start (b r : list Z) k : length b = k → mem_read (b ++ r) 0 k = Ok b.
Proof. intros. by apply (mem_read_at [] b r 0 k). Qed.

(** ** Round trips *)

Lemma set_match_twice f g n : set_match f (set_match g n) = set_match (f ∘ g) n.
Proof. done. Qed.

Lemma set_match_ext f g n : f (nf_match n) = g (nf_match n) → set_match f n = set_match g n.
Proof. unfold set_match, setf. by intros ->. Qed.

(** A netflow whose stack holds no VLAN or MPLS tag (as after [netflow_init]). *)
Definition untagged (n : netflow) : Prop :=
  STACK_EMPTY ≤ top (nf_tags n) < Z.of_nat (length (level (nf_tags n))) ∧
  Forall (λ t, is_mpls_type (tag_type t) || is_vlan_type (tag_type t) = false)
    (level (nf_tags n)).

Lemma tags_to_pkt_untagged n buf off : untagged n → tags_to_pkt n buf off = Ok (buf, off).
Proof.
  intros [Ht Hf]. unfold tags_to_pkt. destruct (tags_empty n) eqn:E; [done|].
  unfold tags_empty in E. apply Z.eqb_neq in E. unfold STACK_EMPTY in *.
  assert (∀ l, Forall (λ i, Z.of_nat i < Z.of_nat (length (level (nf_tags n)))) l →
    foldl (λ acc i, st ← acc; let '(buf, off) := st in
      t ← array_get (level (nf_tags n)) (Z.of_nat i);
      if is_mpls_type (tag_type t) || is_vlan_type (tag_type t) then
        buf ← mem_write buf off (tag_union t); Ok (buf, (off + 4)%nat)
      else Ok (buf, off)) (Ok (buf, off)) l = Ok (buf, off)) as Hgen.
  { induction 1 as [|i l Hi Hl IH]; [done|]. cbn [foldl mbind outcome_bind].
    destruct (array_get_in_range (level (nf_tags n)) (Z.of_nat i)) as [t Hg]; [lia|].
    rewrite Hg. cbn [mbind outcome_bind]. apply array_get_Ok in Hg as [_ Hg].
    rewrite (Forall_lookup_1 _ _ _ _ Hf Hg). done. }
  apply Hgen. apply Forall_forall. intros i Hi. apply elem_of_seq in Hi. lia.
Qed.

Lemma untagged_init : untagged netflow_init.
Proof.
  split; [unfold STACK_EMPTY; cbn; lia|]. cbn -[replicate]. by apply Forall_replicate.
Qed.

(** The Ethernet header the parser sees. *)
Lemma parse_eth m :
  key_wf m →
  be_val (fld 12 2 (eth_bytes m)) = eth_type m ∧ fld 6 6 (eth_bytes m) = eth_src m ∧
  fld 0 6 (eth_bytes m) = eth_dst m ∧ length (eth_bytes m) = ETH_HEADER.
Proof.
  intros Hm. pose proof (bytes_wf_length _ _ (kwf_eth_dst m Hm)) as H1.
  pose proof (bytes_wf_length _ _ (kwf_eth_src m Hm)) as H2.
  pose proof (kwf_eth_type m Hm) as H3. unfold ETH_LEN in *. unfold eth_bytes.
  repeat split.
  - slice. by apply be_val_small.
  - by slice.
  - by slice.
  - unfold ETH_HEADER. list_len.
Qed.

(** What parsing an ARP header of request or reply recovers. *)
Definition arp_fields (m m0 : ofl_flow_key) : ofl_flow_key :=
  m0 <| eth_type := eth_type m |> <| eth_src := eth_src m |> <| eth_dst := eth_dst m |>
     <| arp_op := arp_op m |> <| arp_spa := arp_spa m |> <| arp_tpa := arp_tpa m |>
     <| arp_sha := arp_sha m |> <| arp_tha := arp_tha m |>.

Lemma parse_arp_bytes m m0 :
  key_wf m → arp_op m = ARP_OP_REQUEST ∨ arp_op m = ARP_OP_REPLY →
  length (arp_bytes m) = ARP_HEADER ∧
  parse_arp (arp_bytes m) m0 =
    m0 <| arp_op := arp_op m |> <| arp_spa := arp_spa m |> <| arp_tpa := arp_tpa m |>
       <| arp_sha := arp_sha m |> <| arp_tha := arp_tha m |>.
Proof.
  intros Hm Hop. pose proof (bytes_wf_length _ _ (kwf_arp_sha m Hm)) as H1.
  pose proof (bytes_wf_length _ _ (kwf_arp_tha m Hm)) as H2.
  pose proof (kwf_arp_spa m Hm) as H3. pose proof (kwf_arp_tpa m Hm) as H4.
  pose proof (kwf_arp_op m Hm) as H5. unfold ETH_LEN in *. unfold arp_bytes.
  split; [unfold ARP_HEADER; list_len|].
  assert (fld 8 6 (arp_bytes m) = arp_sha m) as E8 by (unfold arp_bytes; by slice).
  assert (fld 14 4 (arp_bytes m) = be_bytes 4 (arp_spa m)) as E14.
  { unfold arp_bytes. by slice. }
  assert (fld 18 6 (arp_bytes m) = arp_tha m) as E18.
  { unfold arp_bytes. by slice. }
  assert (fld 24 4 (arp_bytes m) = be_bytes 4 (arp_tpa m)) as E24.
  { unfold arp_bytes. by slice. }
  assert (fld 0 2 (arp_bytes m) = be_bytes 2 1) as E0 by (unfold arp_bytes; by slice).
  assert (fld 2 2 (arp_bytes m) = be_bytes 2 ETH_TYPE_IP) as E2
    by (unfold arp_bytes; by slice).
  assert (fld 4 1 (arp_bytes m) = [6]) as E4 by (unfold arp_bytes; by slice).
  assert (fld 5 1 (arp_bytes m) = [4]) as E5 by (unfold arp_bytes; by slice).
  assert (fld 6 2 (arp_bytes m) = be_bytes 2 (arp_op m)) as E6
    by (unfold arp_bytes; by slice).
  fold (arp_bytes m). unfold parse_arp. rewrite E0, E2, E4, E5, E6, E8, E14, E18, E24.
  rewrite !be_val_byte, !be_val_small by (done || (unfold in_width, ETH_TYPE_IP; cbn; lia)).
  unfold ARP_OP_REQUEST, ARP_OP_REPLY in *. cbn [Z.eqb Pos.eqb andb].
  by destruct Hop as [-> | ->].
Qed.

Lemma to_pkt_eth n buf :
  key_wf (nf_match n) → untagged n → (ETH_HEADER ≤ length buf)%nat →
  ∃ r, length r = (length buf - ETH_HEADER)%nat ∧
    mem_write buf 0 (eth_bytes (nf_match n)) = Ok (eth_bytes (nf_match n) ++ r) ∧
    ∀ r', tags_to_pkt n r' ETH_HEADER = Ok (r', ETH_HEADER).
Proof.
  intros Hm Hu Hl. destruct (parse_eth _ Hm) as (_ & _ & _ & He).
  exists (drop ETH_HEADER buf). split; [by rewrite length_drop|].
  rewrite mem_write_start, He by lia. split; [done|].
  intros. by apply tags_to_pkt_untagged.
Qed.

(** Parsing starts by recovering the Ethernet fields; without a VLAN type the
    body follows the header. *)
Lemma from_pkt_eth m n0 r pkt_len :
  key_wf m → is_vlan_type (eth_type m) = false →
  pkt_to_netflow (eth_bytes m ++ r) n0 pkt_len =
  parse_body (eth_bytes m ++ r)
    (set_match (λ m0, m0 <| eth_type := eth_type m |> <| eth_src := eth_src m |>
                         <| eth_dst := eth_dst m |>) n0) ETH_HEADER pkt_len.
Proof.
  intros Hm Hv. destruct (parse_eth m Hm) as (E1 & E2 & E3 & E4).
  unfold pkt_to_netflow. rewrite mem_read_start by done. cbn [mbind outcome_bind].
  rewrite E1, E2, E3. set (n1 := set_match _ n0).
  assert (is_vlan_type (eth_type (nf_match n1)) = false) as Hv1 by exact Hv.
  unfold parse_first_vlan. rewrite Hv1. cbn [mbind outcome_bind].
  unfold parse_more_vlans. by rewrite Hv1.
Qed.

(** The branches of the body, one Ethernet type at a time. *)
Lemma parse_body_arp buf n off pkt_len :
  eth_type (nf_match n) = ETH_TYPE_ARP → pkt_len <? Z.of_nat (off + ARP_HEADER) = false →
  parse_body buf n off pkt_len =
  (h ← mem_read buf off ARP_HEADER; Ok (set_match (parse_arp h) n)).
Proof. intros Hty Hl. unfold parse_body. by rewrite Hty, Hl. Qed.

Lemma parse_body_ip buf n off pkt_len h :
  eth_type (nf_match n) = ETH_TYPE_IP → pkt_len <? Z.of_nat (off + IP_HEADER) = false →
  mem_read buf off IP_HEADER = Ok h → ip_is_fragment h = false →
  parse_body buf n off pkt_len =
  parse_l4 buf (set_match (parse_ip h) n) (off + IP_HEADER) pkt_len.
Proof. intros Hty Hl Hr Hf. unfold parse_body. rewrite Hty, Hl, Hr. cbn. by rewrite Hf. Qed.

(** Printing and parsing an ARP frame. *)
Lemma arp_print n buf :
  key_wf (nf_match n) → untagged n → eth_type (nf_match n) = ETH_TYPE_ARP →
  arp_op (nf_match n) = ARP_OP_REQUEST ∨ arp_op (nf_match n) = ARP_OP_REPLY →
  (42 ≤ length buf)%nat →
  ∃ r, netflow_to_pkt n buf =
    Ok ((eth_bytes (nf_match n) ++ arp_bytes (nf_match n)) ++ r, 42%nat).
Proof.
  intros Hm Hu Hty Hop Hl.
  destruct (to_pkt_eth n buf Hm Hu) as (r & Hr & Hw & Ht); [unfold ETH_HEADER; lia|].
  destruct (parse_arp_bytes (nf_match n) key_zero Hm Hop) as [Ha _].
  destruct (parse_eth _ Hm) as (_ & _ & _ & He).
  exists (drop ARP_HEADER r). unfold netflow_to_pkt. rewrite Hw. cbn [mbind outcome_bind].
  rewrite Ht. cbn [mbind outcome_bind]. rewrite Hty.
  change (ETH_TYPE_ARP =? ETH_TYPE_LLDP) with false.
  change (ETH_TYPE_ARP =? ETH_TYPE_ARP) with true. cbv iota.
  rewrite mem_write_at by (done || (rewrite Ha, Hr; unfold ARP_HEADER, ETH_HEADER; lia)).
  by rewrite Ha, <- app_assoc.
Qed.

Lemma arp_parse m n0 r :
  key_wf m → eth_type m = ETH_TYPE_ARP →
  arp_op m = ARP_OP_REQUEST ∨ arp_op m = ARP_OP_REPLY →
  pkt_to_netflow ((eth_bytes m ++ arp_bytes m) ++ r) n0 42 = Ok (set_match (arp_fields m) n0).
Proof.
  intros Hm Hty Hop.
  destruct (parse_arp_bytes m
    ((nf_match n0) <| eth_type := eth_type m |>
       <| eth_src := eth_src m |> <| eth_dst := eth_dst m |>) Hm Hop) as [Ha Hp].
  destruct (parse_eth _ Hm) as (_ & _ & _ & He). rewrite <- app_assoc.
  rewrite from_pkt_eth by (done || by rewrite Hty).
  rewrite parse_body_arp; [|exact Hty|done].
  rewrite mem_read_at by done. cbn [mbind outcome_bind]. f_equal.
  rewrite set_match_twice. apply set_match_ext. unfold arp_fields, compose.
  exact Hp.
Qed.

Lemma length_arp_frame m :
  key_wf m → arp_op m = ARP_OP_REQUEST ∨ arp_op m = ARP_OP_REPLY →
  length (eth_bytes m ++ arp_bytes m) = 42%nat.
Proof.
  intros Hm Hop. destruct (parse_arp_bytes m key_zero Hm Hop) as [Ha _].
  destruct (parse_eth _ Hm) as (_ & _ & _ & He). by rewrite length_app, Ha, He.
Qed.

(** ARP round trip: printing an untagged ARP request or reply netflow gives
    a 42-byte frame from which the parser recovers every Ethernet and ARP field,
    leaving the rest of the netflow it fills untouched. *)
Theorem arp_round_trip n n0 buf :
  key_wf (nf_match n) → untagged n → eth_type (nf_match n) = ETH_TYPE_ARP →
  arp_op (nf_match n) = ARP_OP_REQUEST ∨ arp_op (nf_match n) = ARP_OP_REPLY →
  (42 ≤ length buf)%nat →
  ∃ pkt, netflow_to_pkt n buf = Ok (pkt, 42%nat) ∧
         pkt_to_netflow pkt n0 42 = Ok (set_match (arp_fields (nf_match n)) n0).
Proof.
  intros Hm Hu Hty Hop Hl. destruct (arp_print n buf Hm Hu Hty Hop Hl) as [r Hr].
  eexists. split; [exact Hr|]. by apply arp_parse.
Qed.

(** A sample ARP request for the witness. *)
Definition sample_arp : netflow :=
  netflow_init <| nf_match := key_zero <| eth_type := ETH_TYPE_ARP |>
    <| eth_dst := replicate 6 255 |> <| eth_src := [0; 0; 0; 0; 0; 1] |>
    <| arp_op := ARP_OP_REQUEST |> <| arp_spa := 0x0a000001 |>
    <| arp_tpa := 0x0a000002 |> <| arp_sha := [0; 0; 0; 0; 0; 1] |> |>.

Lemma arp_round_trip_witness :
  ∃ pkt, netflow_to_pkt sample_arp (replicate 64 0) = Ok (pkt, 42%nat) ∧
         pkt_to_netflow pkt netflow_init 42 = Ok sample_arp.
Proof.
  destruct (arp_round_trip sample_arp netflow_init (replicate 64 0)) as (pkt & H1 & H2).
  - by apply key_wf_check; vm_compute.
  - apply untagged_init.
  - reflexivity.
  - by left.
  - cbn. lia.
  - exists pkt. split; [exact H1|]. rewrite H2. vm_compute. reflexivity.
Defined.

(** ** IPv4 *)

(** The transport header [l4_to_pkt] emits. *)
Definition l4_bytes (n : netflow) : list Z :=
  let m := nf_match n in
  if ip_proto m =? IP_PROTO_TCP then tcp_bytes m
  else if ip_proto m =? IP_PROTO_UDP then udp_bytes m
  else if ip_proto m =? IP_PROTO_ICMPV4 then
    icmp_bytes (icmpv4_type m) (icmpv4_code m) ++
    (if (icmpv4_type m =? ECHO) || (icmpv4_type m =? ECHO_REPLY) then echo_bytes n else [])
  else if ip_proto m =? IP_PROTO_ICMPV6 then
    icmp_bytes (icmpv6_type m) (icmpv6_code m)
  else [].

(** The four [if]s exclude each other, so one header is emitted. *)
Lemma l4_to_pkt_spec n a r off length_off plen :
  length a = off → (length (l4_bytes n) ≤ length r)%nat →
  l4_to_pkt n (a ++ r) off length_off plen =
  (buf ← mem_write (a ++ l4_bytes n ++ drop (length (l4_bytes n)) r) length_off
           (be_bytes 2 (Z.of_nat (plen + length (l4_bytes n))));
   Ok (buf, (off + length (l4_bytes n))%nat)).
Proof.
  intros Ha Hl. unfold l4_to_pkt, l4_bytes in *.
  destruct (Z.eqb_spec (ip_proto (nf_match n)) IP_PROTO_TCP) as [Hp|_].
  { rewrite ?Hp in *. rewrite mem_write_at by done. done. }
  destruct (Z.eqb_spec (ip_proto (nf_match n)) IP_PROTO_UDP) as [Hp|_].
  { rewrite ?Hp in *. cbn [mbind outcome_bind]. rewrite mem_write_at by done. done. }
  destruct (Z.eqb_spec (ip_proto (nf_match n)) IP_PROTO_ICMPV4) as [Hp|_].
  { rewrite ?Hp in *. cbn [mbind outcome_bind]. rewrite length_app in Hl.
    rewrite mem_write_at by (done || lia). cbn [mbind outcome_bind].
    destruct (_ || _).
    - rewrite app_assoc, (mem_write_at (a ++ _)) by
        (rewrite ?length_app, ?length_drop; lia).
      cbn [mbind outcome_bind]. change (IP_PROTO_ICMPV4 =? IP_PROTO_ICMPV6) with false.
      cbv iota. cbn [mbind outcome_bind]. rewrite !length_app, <- !app_assoc, drop_drop.
      by rewrite !Nat.add_assoc.
    - rewrite app_nil_r in *. done. }
  destruct (Z.eqb_spec (ip_proto (nf_match n)) IP_PROTO_ICMPV6) as [Hp|_].
  { rewrite ?Hp in *. cbn [mbind outcome_bind]. rewrite mem_write_at by done. done. }
  cbn [mbind outcome_bind app length]. by rewrite drop_0, !Nat.add_0_r.
Qed.

(** The IPv4 header with a given total length. *)
Definition ip_header_bytes (m : ofl_flow_key) (tot_len : Z) : list Z :=
  [Z.lor (Z.shiftl 1 6) 5] ++ [ip_tos m] ++ be_bytes 2 tot_len ++ [0; 0] ++ [0; 0] ++
  [0] ++ [ip_proto m] ++ [0; 0] ++ be_bytes 4 (ipv4_src m) ++ be_bytes 4 (ipv4_dst m).

Lemma length_ip_header m len : length (ip_header_bytes m len) = IP_HEADER.
Proof. unfold ip_header_bytes, IP_HEADER. list_len. Qed.

(** Patching the total length. *)
Lemma ip_patch_length a m len len' r :
  length a = ETH_HEADER →
  mem_write (a ++ ip_header_bytes m len ++ r) (ETH_HEADER + 2) (be_bytes 2 len')
  = Ok (a ++ ip_header_bytes m len' ++ r).
Proof.
  intros Ha. unfold ip_header_bytes. rewrite <- !app_assoc.
  rewrite (app_assoc a), (app_assoc (a ++ _)).
  rewrite mem_write_at.
  - rewrite length_be_bytes, drop_app_length' by by rewrite length_be_bytes.
    by rewrite <- !app_assoc.
  - rewrite !length_app, Ha. done.
  - list_len.
Qed.

Lemma ip_to_pkt n buf :
  key_wf (nf_match n) → untagged n → eth_type (nf_match n) = ETH_TYPE_IP →
  (34 + length (l4_bytes n) ≤ length buf)%nat →
  ∃ r, netflow_to_pkt n buf =
    Ok (eth_bytes (nf_match n) ++
        ip_header_bytes (nf_match n) (Z.of_nat (20 + length (l4_bytes n))) ++
        l4_bytes n ++ r, (34 + length (l4_bytes n))%nat).
Proof.
  intros Hm Hu Hty Hl.
  destruct (to_pkt_eth n buf Hm Hu) as (r & Hr & Hw & Ht); [unfold ETH_HEADER; lia|].
  destruct (parse_eth _ Hm) as (_ & _ & _ & He).
  exists (drop (length (l4_bytes n)) (drop IP_HEADER r)).
  unfold netflow_to_pkt. rewrite Hw. cbn [mbind outcome_bind].
  rewrite Ht. cbn [mbind outcome_bind]. rewrite Hty.
  change (ETH_TYPE_IP =? ETH_TYPE_LLDP) with false.
  change (ETH_TYPE_IP =? ETH_TYPE_ARP) with false.
  change (ETH_TYPE_IP =? ETH_TYPE_IP) with true. cbv iota.
  change (ip_bytes (nf_match n)) with (ip_header_bytes (nf_match n) 20).
  rewrite mem_write_at by
    (done || (rewrite length_ip_header, Hr; unfold IP_HEADER, ETH_HEADER; lia)).
  cbn [mbind outcome_bind]. rewrite length_ip_header, app_assoc.
  rewrite l4_to_pkt_spec.
  - rewrite <- app_assoc. rewrite ip_patch_length by done. done.
  - rewrite length_app, He, length_ip_header. done.
  - rewrite length_drop, Hr. unfold IP_HEADER, ETH_HEADER. lia.
Qed.

(** What the parser recovers from the IPv4 header of a netflow with DSCP 0. *)
Definition ip_fields (m m0 : ofl_flow_key) : ofl_flow_key :=
  m0 <| eth_type := eth_type m |> <| eth_src := eth_src m |> <| eth_dst := eth_dst m |>
     <| ipv4_src := ipv4_src m |> <| ipv4_dst := ipv4_dst m |>
     <| ip_proto := ip_proto m |> <| ip_ecn := ip_ecn m |> <| ip_dscp := ip_dscp m |>.

Lemma tos_dscp_zero m :
  ip_dscp m = 0 → 0 ≤ ip_ecn m ≤ 3 →
  Z.land (ip_tos m) IP_ECN_MASK = ip_ecn m ∧ Z.shiftr (ip_tos m) 2 = 0.
Proof.
  intros Hd He. unfold ip_tos. rewrite Hd.
  assert (ip_ecn m = 0 ∨ ip_ecn m = 1 ∨ ip_ecn m = 2 ∨ ip_ecn m = 3) as Hc by lia.
  by destruct Hc as [-> |[-> |[-> | ->]]].
Qed.

Lemma parse_ip_bytes m m0 len :
  key_wf m → ip_dscp m = 0 → 0 ≤ ip_ecn m ≤ 3 →
  parse_ip (ip_header_bytes m len)
    (m0 <| eth_type := eth_type m |> <| eth_src := eth_src m |> <| eth_dst := eth_dst m |>)
  = ip_fields m m0 ∧
  ip_is_fragment (ip_header_bytes m len) = false.
Proof.
  intros Hm Hd He. pose proof (kwf_ipv4_src m Hm) as H1.
  pose proof (kwf_ipv4_dst m Hm) as H2. destruct (tos_dscp_zero m Hd He) as [T1 T2].
  unfold parse_ip, ip_is_fragment.
  assert (fld 12 4 (ip_header_bytes m len) = be_bytes 4 (ipv4_src m)) as E12
    by (unfold ip_header_bytes; by slice).
  assert (fld 16 4 (ip_header_bytes m len) = be_bytes 4 (ipv4_dst m)) as E16
    by (unfold ip_header_bytes; by slice).
  assert (fld 9 1 (ip_header_bytes m len) = [ip_proto m]) as E9
    by (unfold ip_header_bytes; by slice).
  assert (fld 1 1 (ip_header_bytes m len) = [ip_tos m]) as E1
    by (unfold ip_header_bytes; by slice).
  assert (fld 6 2 (ip_header_bytes m len) = [0; 0]) as E6
    by (unfold ip_header_bytes; by slice).
  rewrite E12, E16, E9, E1, E6, !be_val_byte, !be_val_small, T1, T2 by done.
  unfold ip_fields. by rewrite Hd.
Qed.

(** Parsing a printed IPv4 packet reaches the transport header. *)
Lemma ip_from_pkt n n0 len l4 r pkt_len :
  key_wf (nf_match n) → eth_type (nf_match n) = ETH_TYPE_IP →
  ip_dscp (nf_match n) = 0 → 0 ≤ ip_ecn (nf_match n) ≤ 3 → 34 ≤ pkt_len →
  pkt_to_netflow
    (eth_bytes (nf_match n) ++ ip_header_bytes (nf_match n) len ++ l4 ++ r) n0 pkt_len =
  parse_l4
    (eth_bytes (nf_match n) ++ ip_header_bytes (nf_match n) len ++ l4 ++ r)
    (set_match (ip_fields (nf_match n)) n0) (ETH_HEADER + IP_HEADER) pkt_len.
Proof.
  intros Hm Hty Hd He Hlen. destruct (parse_eth _ Hm) as (_ & _ & _ & Hl).
  destruct (parse_ip_bytes (nf_match n) (nf_match n0) len Hm Hd He) as [Hp Hf].
  rewrite from_pkt_eth by (done || by rewrite Hty).
  rewrite (parse_body_ip _ _ _ _ (ip_header_bytes (nf_match n) len)).
  - f_equal. rewrite set_match_twice. apply set_match_ext. exact Hp.
  - exact Hty.
  - apply Z.ltb_ge. unfold ETH_HEADER, IP_HEADER. lia.
  - apply mem_read_at; [done|apply length_ip_header].
  - exact Hf.
Qed.

Lemma parse_l4_udp buf n off pkt_len h :
  ip_proto (nf_match n) = IP_PROTO_UDP → pkt_len <? Z.of_nat (off + UDP_HEADER_LEN) = false →
  mem_read buf off UDP_HEADER_LEN = Ok h →
  parse_l4 buf n off pkt_len =
  Ok (set_match (λ m, m <| udp_src := be_val (fld 0 2 h) |>
                        <| udp_dst := be_val (fld 2 2 h) |>) n).
Proof. intros Hp Hl Hr. unfold parse_l4. by rewrite Hp, Hl, Hr. Qed.

Lemma parse_l4_tcp buf n off pkt_len h :
  ip_proto (nf_match n) = IP_PROTO_TCP → pkt_len <? Z.of_nat (off + TCP_HEADER_LEN) = false →
  mem_read buf off TCP_HEADER_LEN = Ok h →
  parse_l4 buf n off pkt_len =
  Ok ((set_match (λ m, m <| tcp_src := be_val (fld 0 2 h) |>
                         <| tcp_dst := be_val (fld 2 2 h) |>) n)
      <| nf_info ::= patch 0 (le_bytes 2 (be_val (fld 12 2 h))) |>).
Proof. intros Hp Hl Hr. unfold parse_l4. by rewrite Hp, Hl, Hr. Qed.

Lemma parse_l4_echo buf n off pkt_len h e :
  ip_proto (nf_match n) = IP_PROTO_ICMPV4 →
  pkt_len <? Z.of_nat (off + ICMP_HEADER_LEN) = false →
  mem_read buf off ICMP_HEADER_LEN = Ok h →
  be_val (fld 0 1 h) = ECHO ∨ be_val (fld 0 1 h) = ECHO_REPLY →
  pkt_len <? Z.of_nat (off + ICMP_HEADER_LEN + ECHO_HEADER) = false →
  mem_read buf (off + ICMP_HEADER_LEN) ECHO_HEADER = Ok e →
  parse_l4 buf n off pkt_len =
  Ok ((set_match (λ m, m <| icmpv4_code := be_val (fld 1 1 h) |>
                         <| icmpv4_type := be_val (fld 0 1 h) |>) n)
      <| nf_info := le_bytes 2 (be_val (fld 0 2 e)) ++
           le_bytes 2 (be_val (fld 2 2 e)) ++ fld 4 48 e |>).
Proof.
  intros Hp Hl Hr Ht Hl' Hr'. unfold parse_l4. rewrite Hp, Hl, Hr. cbn [mbind outcome_bind].
  change (IP_PROTO_ICMPV4 =? IP_PROTO_UDP) with false.
  change (IP_PROTO_ICMPV4 =? IP_PROTO_TCP) with false.
  change (IP_PROTO_ICMPV4 =? IP_PROTO_ICMPV4) with true. cbv iota.
  set (n1 := set_match _ n).
  assert (icmpv4_type (nf_match n1) = be_val (fld 0 1 h)) as Hty by done.
  rewrite Hty, Hl', Hr'. cbn [mbind outcome_bind]. by destruct Ht as [-> | ->].
Qed.

(** The echo fields are the bytes of the union. *)
Lemma echo_info n :
  bytes_wf 52 (nf_info n) →
  length (echo_bytes n) = ECHO_HEADER ∧
  le_bytes 2 (be_val (fld 0 2 (echo_bytes n))) ++
  le_bytes 2 (be_val (fld 2 2 (echo_bytes n))) ++ fld 4 48 (echo_bytes n) = nf_info n.
Proof.
  intros [Hl Hf].
  assert (length (icmp_data n) = 48%nat) as Hd.
  { unfold icmp_data. rewrite length_take, length_drop. lia. }
  assert (∀ k, (k + 2 ≤ 52)%nat → Forall byte_wf (take 2 (drop k (nf_info n))) ∧
    length (take 2 (drop k (nf_info n))) = 2%nat) as Hk.
  { intros k Hle. split; [by apply Forall_take, Forall_drop|].
    rewrite length_take, length_drop. lia. }
  destruct (Hk 0%nat ltac:(lia)) as [Hf0 Hl0]. destruct (Hk 2%nat ltac:(lia)) as [Hf2 Hl2].
  rewrite drop_0 in *. unfold echo_bytes. split; [unfold ECHO_HEADER; list_len|].
  slice. rewrite !be_val_small.
  2: { pose proof (le_val_in_width _ Hf2) as H. by rewrite Hl2 in H. }
  2: { pose proof (le_val_in_width _ Hf0) as H. by rewrite Hl0 in H. }
  unfold icmp_identifier, icmp_seq_number, icmp_data.
  pose proof (le_bytes_val _ Hf0) as E0. pose proof (le_bytes_val _ Hf2) as E2.
  rewrite Hl0 in E0. rewrite Hl2 in E2. rewrite E0, E2.
  rewrite (take_ge (drop 4 (nf_info n))) by (rewrite length_drop; lia).
  change 4%nat with (2 + 2)%nat. rewrite <- drop_drop, (take_drop 2 (drop 2 _)).
  apply take_drop.
Qed.

(** The three payloads behind the first two headers [pre]. *)
Section l4_round_trip.
Context (n n' : netflow) (pre r : list Z) (pl : Z).
Hypothesis (Hm : key_wf (nf_match n)) (Hpre : length pre = (ETH_HEADER + IP_HEADER)%nat).

Lemma udp_from_pkt :
  ip_proto (nf_match n') = IP_PROTO_UDP →
  pl = Z.of_nat (ETH_HEADER + IP_HEADER + length (udp_bytes (nf_match n))) →
  parse_l4 (pre ++ udp_bytes (nf_match n) ++ r) n' (ETH_HEADER + IP_HEADER) pl =
  Ok (set_match (λ m, m <| udp_src := udp_src (nf_match n) |>
                        <| udp_dst := udp_dst (nf_match n) |>) n').
Proof.
  intros Hp ->. pose proof (kwf_udp_src _ Hm) as H1. pose proof (kwf_udp_dst _ Hm) as H2.
  rewrite (parse_l4_udp _ _ _ _ (udp_bytes (nf_match n))); [|exact Hp|done|].
  - f_equal. apply set_match_ext. unfold udp_bytes. slice. by rewrite !be_val_small.
  - by apply mem_read_at.
Qed.

Lemma tcp_from_pkt :
  ip_proto (nf_match n') = IP_PROTO_TCP →
  pl = Z.of_nat (ETH_HEADER + IP_HEADER + length (tcp_bytes (nf_match n))) →
  parse_l4 (pre ++ tcp_bytes (nf_match n) ++ r) n' (ETH_HEADER + IP_HEADER) pl =
  Ok ((set_match (λ m, m <| tcp_src := tcp_src (nf_match n) |>
                         <| tcp_dst := tcp_dst (nf_match n) |>) n') <| nf_info ::= patch 0 [0; 0] |>).
Proof.
  intros Hp ->. pose proof (kwf_tcp_src _ Hm) as H1. pose proof (kwf_tcp_dst _ Hm) as H2.
  rewrite (parse_l4_tcp _ _ _ _ (tcp_bytes (nf_match n))); [|exact Hp|done|].
  - assert (fld 12 2 (tcp_bytes (nf_match n)) = [0; 0]) as ->.
    { unfold tcp_bytes. rewrite !fld_skip by list_len. by rewrite !length_be_bytes. }
    do 2 f_equal. apply set_match_ext. unfold tcp_bytes. slice. by rewrite !be_val_small.
  - by apply mem_read_at.
Qed.

Lemma echo_from_pkt :
  ip_proto (nf_match n') = IP_PROTO_ICMPV4 → bytes_wf 52 (nf_info n) →
  icmpv4_type (nf_match n) = ECHO ∨ icmpv4_type (nf_match n) = ECHO_REPLY →
  let l4 := icmp_bytes (icmpv4_type (nf_match n)) (icmpv4_code (nf_match n)) ++ echo_bytes n in
  pl = Z.of_nat (ETH_HEADER + IP_HEADER + length l4) →
  parse_l4 (pre ++ l4 ++ r) n' (ETH_HEADER + IP_HEADER) pl =
  Ok ((set_match (λ m, m <| icmpv4_code := icmpv4_code (nf_match n) |>
                         <| icmpv4_type := icmpv4_type (nf_match n) |>) n')
      <| nf_info := nf_info n |>).
Proof.
  intros Hp Hi Ht l4 ->. destruct (echo_info n Hi) as [He1 He2]. unfold l4.
  rewrite (parse_l4_echo _ _ _ _ (icmp_bytes (icmpv4_type (nf_match n))
             (icmpv4_code (nf_match n))) (echo_bytes n)).
  - rewrite He2. do 2 f_equal. apply set_match_ext.
    unfold icmp_bytes, fld. cbn [drop take]. by rewrite !be_val_byte.
  - exact Hp.
  - apply Z.ltb_ge. rewrite length_app. cbn [length icmp_bytes app].
    unfold ETH_HEADER, IP_HEADER, ICMP_HEADER_LEN. lia.
  - rewrite <- app_assoc. by apply mem_read_at.
  - unfold icmp_bytes, fld. cbn [drop take]. by rewrite be_val_byte.
  - apply Z.ltb_ge. rewrite length_app, He1. cbn [length icmp_bytes].
    unfold ETH_HEADER, IP_HEADER, ICMP_HEADER_LEN, ECHO_HEADER. lia.
  - rewrite <- app_assoc, app_assoc. apply mem_read_at; [|done]. by rewrite length_app, Hpre.
Qed.
End l4_round_trip.

(** C33. IPv4 round trip: printing an untagged IPv4 netflow with DSCP 0 gives a
    frame from which the parser recovers the Ethernet and IPv4 fields, the UDP
    or TCP ports, and for ICMP echo messages (the ping application) type, code,
    identifier, sequence number and data. *)
Theorem ipv4_round_trip n n0 buf :
  key_wf (nf_match n) → untagged n → eth_type (nf_match n) = ETH_TYPE_IP →
  ip_dscp (nf_match n) = 0 → 0 ≤ ip_ecn (nf_match n) ≤ 3 →
  (34 + length (l4_bytes n) ≤ length buf)%nat →
  ∃ pkt len, netflow_to_pkt n buf = Ok (pkt, len) ∧
    (ip_proto (nf_match n) = IP_PROTO_UDP →
     pkt_to_netflow pkt n0 (Z.of_nat len) =
     Ok (set_match (λ m, (ip_fields (nf_match n) m)
           <| udp_src := udp_src (nf_match n) |> <| udp_dst := udp_dst (nf_match n) |>) n0)) ∧
    (ip_proto (nf_match n) = IP_PROTO_TCP →
     pkt_to_netflow pkt n0 (Z.of_nat len) =
     Ok ((set_match (λ m, (ip_fields (nf_match n) m)
            <| tcp_src := tcp_src (nf_match n) |> <| tcp_dst := tcp_dst (nf_match n) |>) n0)
         <| nf_info ::= patch 0 [0; 0] |>)) ∧
    (ip_proto (nf_match n) = IP_PROTO_ICMPV4 → bytes_wf 52 (nf_info n) →
     icmpv4_type (nf_match n) = ECHO ∨ icmpv4_type (nf_match n) = ECHO_REPLY →
     pkt_to_netflow pkt n0 (Z.of_nat len) =
     Ok ((set_match (λ m, (ip_fields (nf_match n) m)
            <| icmpv4_code := icmpv4_code (nf_match n) |>
            <| icmpv4_type := icmpv4_type (nf_match n) |>) n0)
         <| nf_info := nf_info n |>)).
Proof.
  intros Hm Hu Hty Hd He Hl. destruct (ip_to_pkt n buf Hm Hu Hty Hl) as [r Hpkt].
  destruct (parse_eth _ Hm) as (_ & _ & _ & Hle).
  eexists _, _. split; [exact Hpkt|].
  rewrite (ip_from_pkt n n0 _ (l4_bytes n) r) by (done || lia). set (hdr := ip_header_bytes _ _).
  assert (length (eth_bytes (nf_match n) ++ hdr) = (ETH_HEADER + IP_HEADER)%nat) as Hlen.
  { rewrite length_app, Hle. unfold hdr. by rewrite length_ip_header. }
  rewrite (app_assoc (eth_bytes _)). set (n1 := set_match (ip_fields (nf_match n)) n0).
  split; [|split].
  - intros Hp. assert (l4_bytes n = udp_bytes (nf_match n)) as -> by (unfold l4_bytes; by rewrite Hp).
    rewrite (udp_from_pkt n) by done. unfold n1. by rewrite set_match_twice.
  - intros Hp. assert (l4_bytes n = tcp_bytes (nf_match n)) as -> by (unfold l4_bytes; by rewrite Hp).
    rewrite (tcp_from_pkt n) by done. unfold n1. by rewrite set_match_twice.
  - intros Hp Hi Ht.
    assert (l4_bytes n = icmp_bytes (icmpv4_type (nf_match n)) (icmpv4_code (nf_match n))
              ++ echo_bytes n) as -> by (unfold l4_bytes; rewrite Hp; by destruct Ht as [-> | ->]).
    rewrite (echo_from_pkt n) by done. unfold n1. by rewrite set_match_twice.
Qed.

(** A UDP packet for the witness. *)
Definition sample_udp : netflow :=
  netflow_init <| nf_match := key_zero <| eth_type := ETH_TYPE_IP |>
    <| eth_dst := [0; 0; 0; 0; 0; 2] |> <| eth_src := [0; 0; 0; 0; 0; 1] |>
    <| ip_proto := IP_PROTO_UDP |> <| ipv4_src := 0x0a000001 |>
    <| ipv4_dst := 0x0a000002 |> <| ip_ecn := 2 |> <| udp_src := 5001 |>
    <| udp_dst := 53 |> |>.

Lemma ipv4_round_trip_witness :
  ∃ pkt len, netflow_to_pkt sample_udp (replicate 64 0) = Ok (pkt, len) ∧
         pkt_to_netflow pkt netflow_init (Z.of_nat len) = Ok sample_udp.
Proof.
  destruct (ipv4_round_trip sample_udp netflow_init (replicate 64 0))
    as (pkt & len & H1 & H2 & _).
  - by apply key_wf_check; vm_compute.
  - apply untagged_init.
  - reflexivity.
  - reflexivity.
  - cbn. lia.
  - cbn. lia.
  - exists pkt, len. split; [exact H1|]. rewrite H2 by reflexivity. vm_compute. reflexivity.
Defined.

(** The printer and the parser disagree on the DSCP: the printer shifts it by
    one bit, the parser by two, so the parser reads half of the printed value
    (the low bit lands in the ECN field). *)
Theorem dscp_does_not_round_trip m d :
  ip_dscp m = d → ip_ecn m = 0 → 0 ≤ d < 64 →
  Z.shiftr (ip_tos m) 2 = d / 2 ∧ Z.land (ip_tos m) IP_ECN_MASK = 2 * (d mod 2).
Proof.
  intros Hd He Hr. unfold ip_tos. rewrite Hd, He, Z.lor_0_l, Z.lor_0_r.
  rewrite Z.shiftl_mul_pow2 by lia. rewrite wrap_small.
  2: { unfold in_width. change (2 ^ 8) with 256. lia. }
  rewrite Z.shiftr_div_pow2 by lia. change IP_ECN_MASK with (Z.ones 2).
  rewrite Z.land_ones by lia. change (2 ^ 1) with 2. change (2 ^ 2) with 4.
  Z.to_euclidean_division_equations. lia.
Qed.

Lemma dscp_does_not_round_trip_witness :
  Z.shiftr (ip_tos (key_zero <| ip_dscp := 46 |>)) 2 = 23.
Proof.
  apply (dscp_does_not_round_trip (key_zero <| ip_dscp := 46 |>) 46);
    [reflexivity|reflexivity|lia].
Defined.

(** ** Memory safety of the parser *)

(** The packet has at least [k] stacked VLAN headers, the first one at [off]
    announced by the type [ty]. *)
Fixpoint stacked (k : nat) (ty : Z) (buf : list Z) (off : nat) : bool :=
  match k with
  | O => true
  | S k => is_vlan_type ty && stacked k (be_val (fld off 2 buf)) buf (off + VLAN_HEADER)
  end.

(** The number of tags that overruns [level] from a stack top [t]. *)
Definition overrun (t : Z) : nat := Z.to_nat (8 - t).

Lemma fld_header off k w (buf : list Z) :
  (w ≤ k)%nat → fld 0 w (take k (drop off buf)) = fld off w buf.
Proof. intros. unfold fld. rewrite drop_0, take_take. by rewrite Nat.min_l. Qed.

Lemma mem_read_ok (buf : list Z) off k :
  (off + k ≤ length buf)%nat → mem_read buf off k = Ok (take k (drop off buf)).
Proof. intros. unfold mem_read. by rewrite decide_True. Qed.

Lemma add_vlan_tag_eq n ty raw :
  length (level (nf_tags n)) = MAX_STACK_SIZE → -1 ≤ top (nf_tags n) ≤ 7 →
  (top (nf_tags n) < 7 ∧ ∃ n', add_vlan_tag n ty raw = Ok n' ∧ nf_match n' = nf_match n ∧
     length (level (nf_tags n')) = MAX_STACK_SIZE ∧ top (nf_tags n') = top (nf_tags n) + 1) ∨
  (top (nf_tags n) = 7 ∧ add_vlan_tag n ty raw = Fault OutOfBounds).
Proof.
  intros Hl Ht. destruct (decide (top (nf_tags n) = 7)) as [E|E].
  - right. split; [done|]. unfold add_vlan_tag, array_set.
    rewrite decide_False; [done|]. unfold MAX_STACK_SIZE in Hl. lia.
  - left. split; [lia|]. unfold add_vlan_tag.
    rewrite array_set_in_range by (rewrite Hl; unfold MAX_STACK_SIZE; lia).
    eexists. split; [done|]. cbn [mbind outcome_bind nf_match nf_tags level top].
    split; [done|]. split; [|done]. cbn [level setf nf_tags]. by rewrite length_insert.
Qed.

(** The loop returns within its fuel, without a fault unless the tags overrun
    the stack. *)
Lemma parse_more_vlans_safe fuel buf n off pkt_len :
  length (level (nf_tags n)) = MAX_STACK_SIZE → -1 ≤ top (nf_tags n) ≤ 7 →
  (overrun (top (nf_tags n)) ≤ fuel)%nat → Z.of_nat off ≤ pkt_len ≤ Z.of_nat (length buf) →
  let k := overrun (top (nf_tags n)) in
  if stacked k (eth_type (nf_match n)) buf off && (Z.of_nat (off + 4 * k) <=? pkt_len) then
    parse_more_vlans fuel buf n off pkt_len = Fault OutOfBounds
  else (∃ n', parse_more_vlans fuel buf n off pkt_len = Ok (Return n')) ∨
       (∃ n' off', parse_more_vlans fuel buf n off pkt_len = Ok (Next n' off') ∧
          Z.of_nat off' ≤ pkt_len).
Proof.
  revert n off. induction fuel as [|fuel IH]; intros n off Hl Ht Hf Hoff k.
  { unfold overrun in Hf. lia. }
  assert (∃ k', k = S k') as [k' Hk] by (exists (Nat.pred k); unfold k, overrun; lia).
  rewrite Hk. cbn [stacked parse_more_vlans].
  destruct (is_vlan_type (eth_type (nf_match n))); cbn [andb];
    [|right; exists n, off; split; [done|lia]].
  destruct (pkt_len <? Z.of_nat (off + VLAN_HEADER)) eqn:Hshort.
  { apply Z.ltb_lt in Hshort. unfold VLAN_HEADER in Hshort.
    rewrite (proj2 (Z.leb_gt _ _)), andb_false_r by lia. left. by eexists. }
  apply Z.ltb_ge in Hshort. unfold VLAN_HEADER in *.
  rewrite mem_read_ok by lia. cbn [mbind outcome_bind].
  rewrite fld_header by lia. set (ty := be_val (fld off 2 buf)).
  set (n1 := set_match _ n). change (nf_tags n1) with (nf_tags n).
  rewrite (proj2 (Z.ltb_lt _ _)) by (unfold MAX_STACK_SIZE; lia).
  destruct (add_vlan_tag_eq n1 ty (take 4 (drop off buf)) Hl Ht)
    as [(Hlt & n2 & -> & Hm & Hl2 & Ht2)|[H7 ->]]; cbn [mbind outcome_bind].
  - change (nf_tags n1) with (nf_tags n) in *.
    assert (overrun (top (nf_tags n2)) = k') as Hk'
      by (rewrite Ht2; unfold k, overrun in *; lia).
    specialize (IH n2 (off + 4)%nat Hl2 ltac:(lia) ltac:(lia) ltac:(lia)).
    rewrite Hk', Hm in IH. cbv zeta in IH.
    replace (off + 4 * S k')%nat with (off + 4 + 4 * k')%nat by lia. exact IH.
  - change (nf_tags n1) with (nf_tags n) in H7.
    assert (k' = 0%nat) as -> by (unfold k, overrun in *; lia). cbn [stacked andb].
    rewrite (proj2 (Z.leb_le _ _)) by lia. done.
Qed.

(** Steps of the parser: a comparison, and a read the comparisons allow. *)
Ltac case_if :=
  match goal with
  | |- context [if ?x <? ?y then _ else _] => destruct (Z.ltb_spec x y)
  | |- context [if ?b then _ else _] => destruct b
  end.
Ltac read_in_range := rewrite mem_read_ok by lia; cbn [mbind outcome_bind]; cbv zeta.

Lemma parse_l4_safe buf n (off : nat) pkt_len :
  pkt_len ≤ Z.of_nat (length buf) → ∃ n', parse_l4 buf n off pkt_len = Ok n'.
Proof.
  intros Hb. unfold parse_l4, UDP_HEADER_LEN, TCP_HEADER_LEN, ICMP_HEADER_LEN, ECHO_HEADER.
  repeat first
    [ by eexists
    | case_if | read_in_range ].
Qed.

(** The length of an LLDP payload, cut to 16 bits, stays in the packet. *)
Lemma lldp_read (buf : list Z) (off : nat) pkt_len :
  Z.of_nat off ≤ pkt_len ≤ Z.of_nat (length buf) →
  ∃ data, mem_read buf off (Z.to_nat (u16 (u64 (pkt_len - Z.of_nat off)))) = Ok data.
Proof.
  intros Hb. eexists. apply mem_read_ok.
  assert (∀ w z, 0 ≤ w → 0 ≤ z → 0 ≤ wrap w z ≤ z) as Hw.
  { intros w z Hw Hz. unfold wrap. pose proof (Z.pow_pos_nonneg 2 w ltac:(lia) Hw).
    split; [by apply Z.mod_pos_bound|by apply Z.mod_le]. }
  pose proof (Hw 64 (pkt_len - Z.of_nat off) ltac:(lia) ltac:(lia)) as H1.
  pose proof (Hw 16 (u64 (pkt_len - Z.of_nat off)) ltac:(lia) ltac:(lia)). lia.
Qed.

Lemma parse_body_safe buf n (off : nat) pkt_len :
  Z.of_nat off ≤ pkt_len ≤ Z.of_nat (length buf) →
  ∃ n', parse_body buf n off pkt_len = Ok n'.
Proof.
  intros Hb. destruct (lldp_read buf off pkt_len Hb) as [data Hd].
  unfold parse_body, MPLS_HEADER, ARP_HEADER, IP_HEADER. cbv zeta. rewrite Hd.
  repeat first
    [ by eexists | apply parse_l4_safe; lia | case_if | read_in_range ].
Qed.

(** The continuation of the parser after the VLAN tags. *)
Lemma finish_parse (bad : bool) buf pkt_len (r : outcome parsed) :
  pkt_len ≤ Z.of_nat (length buf) →
  (if bad then r = Fault OutOfBounds
   else (∃ n', r = Ok (Return n')) ∨
        (∃ n' off', r = Ok (Next n' off') ∧ Z.of_nat off' ≤ pkt_len)) →
  let k r := match r with
             | Return n => Ok n
             | Next n off => parse_body buf n off pkt_len
             end in
  if bad then (r ≫= k) = Fault OutOfBounds else ∃ n', (r ≫= k) = Ok n'.
Proof.
  intros Hb. destruct bad; [by intros ->|].
  intros [[n' ->]|(n' & off' & -> & Hoff)]; cbn [mbind outcome_bind]; [by eexists|].
  apply parse_body_safe. lia.
Qed.

(** C32. Memory safety of the parser, exactly: on a frame of at least an Ethernet
    header, [pkt_to_netflow] terminates and stays inside the packet buffer and the
    tag stack unless the frame carries [8 - top] stacked VLAN headers, and then it
    writes past the end of [level].  From [netflow_init], whose [top] is 0, eight
    tags are enough. *)
Theorem pkt_to_netflow_safe buf n pkt_len :
  length (level (nf_tags n)) = MAX_STACK_SIZE → -1 ≤ top (nf_tags n) ≤ 7 →
  14 ≤ pkt_len ≤ Z.of_nat (length buf) →
  let k := overrun (top (nf_tags n)) in
  if stacked k (be_val (fld 12 2 buf)) buf ETH_HEADER && (Z.of_nat (14 + 4 * k) <=? pkt_len)
  then pkt_to_netflow buf n pkt_len = Fault OutOfBounds
  else ∃ n', pkt_to_netflow buf n pkt_len = Ok n'.
Proof.
  intros Hl Ht Hb k.
  assert (∃ k', k = S k') as [k' Hk] by (exists (Nat.pred k); unfold k, overrun; lia).
  unfold pkt_to_netflow, ETH_HEADER. rewrite mem_read_ok by lia. cbn [mbind outcome_bind].
  assert (fld 12 2 (take 14 (drop 0 buf)) = fld 12 2 buf) as ->.
  { unfold fld. rewrite drop_0, skipn_firstn_comm. cbn [Nat.sub].
    by rewrite take_take. }
  set (n1 := set_match _ n). rewrite Hk. cbn [stacked].
  assert (eth_type (nf_match n1) = be_val (fld 12 2 buf)) as Hty by done.
  unfold parse_first_vlan. rewrite Hty.
  destruct (is_vlan_type (be_val (fld 12 2 buf))) eqn:Hv; cbn [andb mbind outcome_bind].
  - destruct (Z.ltb_spec pkt_len (Z.of_nat (14 + VLAN_HEADER))) as [Hs|Hs].
    { unfold VLAN_HEADER in Hs. rewrite (proj2 (Z.leb_gt _ _)), andb_false_r by lia.
      by eexists. }
    unfold VLAN_HEADER in *. rewrite mem_read_ok by lia. cbn [mbind outcome_bind].
    rewrite !fld_header by lia. set (n2 := set_match _ n1).
    destruct (add_vlan_tag_eq n2 (be_val (fld 14 2 buf)) (take 4 (drop 14 buf)) Hl Ht)
      as [(Hlt & n3 & -> & Hm & Hl3 & Ht3)|[H7 ->]]; cbn [mbind outcome_bind].
    + change (nf_tags n2) with (nf_tags n) in *.
      assert (overrun (top (nf_tags n3)) = k') as Hk'
        by (rewrite Ht3; unfold k, overrun in *; lia).
      pose proof (parse_more_vlans_safe 10 buf n3 18 pkt_len Hl3 ltac:(lia)
        ltac:(unfold overrun; lia) ltac:(lia)) as Hs'.
      rewrite Hk', Hm in Hs'. cbv zeta in Hs'.
      replace (14 + 4 * S k')%nat with (18 + 4 * k')%nat by lia.
      apply finish_parse; [lia|exact Hs'].
    + change (nf_tags n2) with (nf_tags n) in H7.
      assert (k' = 0%nat) as -> by (unfold k, overrun in *; lia). cbn [stacked andb].
      by rewrite (proj2 (Z.leb_le _ _)) by lia.
  - pose proof (parse_more_vlans_safe 10 buf n1 14 pkt_len Hl Ht
      ltac:(change (nf_tags n1) with (nf_tags n); unfold overrun; lia) ltac:(lia)) as Hs'.
    change (nf_tags n1) with (nf_tags n) in Hs'. fold k in Hs'. cbv zeta in Hs'.
    rewrite Hk in Hs'. cbn [stacked] in Hs'. rewrite Hty, Hv in Hs'.
    apply (finish_parse false); [lia|exact Hs'].
Qed.

(** Eight tags of type 0x8100 overrun the stack of a fresh netflow; a plain
    packet does not. *)
Lemma pkt_to_netflow_safe_witness :
  pkt_to_netflow (replicate 12 0 ++ concat (replicate 18 [0x81; 0x00])) netflow_init 48
  = Fault OutOfBounds ∧
  ∃ n', pkt_to_netflow (replicate 60 0) netflow_init 60 = Ok n'.
Proof.
  split.
  - apply (pkt_to_netflow_safe
      (replicate 12 0 ++ concat (replicate 18 [0x81; 0x00])) netflow_init 48);
      [reflexivity|cbn; lia|cbn; lia].
  - apply (pkt_to_netflow_safe (replicate 60 0) netflow_init 60);
      [reflexivity|cbn; lia|cbn; lia].
Defined.
