(* ===== verification/Node.v ===== *)
(** * Node: ports, buffers and live flows

    Models [net/port.c], [net/buffer_state.c], [net/node.c] and
    [net/live_flow.c] with their headers: what every node of the network
    (switch, router, host) shares.  A node keeps its ports in a [uthash] table
    keyed by the port number, two buffers of load accounting, and a three-slot
    array of flows waiting to be sent.  The function pointers of [struct node]
    are the handlers of the node kinds and are not data of this model.

    The theorems: a port that was added is found; the flow array is a stack
    that holds two flows; the rates [node_write_stats] prints add up to the
    traffic of the port; the load of a port is never negative. *)

From stdpp Require Import prelude.
From S2P Require Import Prelude Util Uthash Action FlowKey Netflow.

(** ** buffer_state.c *)

Record buffer_state := BufferState {
  bs_capacity : Z; bs_load : Z; bs_last_updated : Z }.
#[export] Instance eta_buffer_state : Eta buffer_state := λ b,
  BufferState (bs_capacity b) (bs_load b) (bs_last_updated b).

Definition buffer_state_init : buffer_state := BufferState 0 0 0.

(** [int] addition: overflow is undefined. *)
Definition int_add (x y : Z) : outcome Z :=
  if decide (-2 ^ 31 ≤ x + y < 2 ^ 31) then Ok (x + y) else Fault SignedOverflow.

Definition buffer_state_update_capacity (ts : buffer_state) (bits : Z)
  : outcome buffer_state :=
  load ← int_add (bs_load ts) bits;
  Ok (ts <| bs_load := if load <? 0 then 0 else load |>).

Definition buffer_state_calculate_loss (ts : buffer_state) (bw : Z) : Z :=
  let total := bs_capacity ts + bw in
  if total <? bs_load ts then i32 (bs_load ts - total) else 0.

(** ** port.c *)

Definition MAX_PORT_NAME : nat := 64.
(** [enum port_config], [enum port_state] *)
Definition PORT_DOWN : Z := 1.
Definition PORT_UP : Z := 2.
Definition PORT_NO_RECV : Z := 4.
Definition PORT_NO_FWD : Z := 8.
Definition PORT_LINK_DOWN : Z := 1.
Definition PORT_BLOCKED : Z := 2.
Definition PORT_LIVE : Z := 4.

Record port_stats := PortStats {
  rx_packets : Z; tx_packets : Z; tx_bytes : Z; rx_bytes : Z }.
#[export] Instance eta_port_stats : Eta port_stats := λ s,
  PortStats (rx_packets s) (tx_packets s) (tx_bytes s) (rx_bytes s).

(** [bcast_addr] is not set by the code below. *)
Record ipv4_info := Ipv4Info { v4_addr : Z; v4_netmask : Z }.
Record ipv6_info := Ipv6Info { v6_addr : list Z; v6_netmask : list Z }.

Record port := mk_port {
  p_port_id : Z;
  p_peer : Z;
  p_max_speed : Z;
  p_curr : Z;
  p_curr_speed : Z;
  p_advertised : Z;
  p_supported : Z;
  p_config : Z;
  p_state : Z;
  p_name : list Z;
  p_stats : port_stats;
  p_prev_stats : port_stats;
  p_eth_address : list Z;
  p_ipv4_addr : option ipv4_info;
  p_ipv6_addr : option ipv6_info;
  p_buffer_state : buffer_state
}.
#[export] Instance eta_port : Eta port := λ p,
  mk_port (p_port_id p) (p_peer p) (p_max_speed p) (p_curr p) (p_curr_speed p)
    (p_advertised p) (p_supported p) (p_config p) (p_state p) (p_name p) (p_stats p)
    (p_prev_stats p) (p_eth_address p) (p_ipv4_addr p) (p_ipv6_addr p)
    (p_buffer_state p).

Definition port_new (port_id : Z) (eth_addr : list Z) (speed curr_speed : Z) : port :=
  mk_port port_id 0 speed 0 curr_speed 0 0 (Z.lor 0 PORT_UP) (Z.lor 0 PORT_LIVE)
    (replicate MAX_PORT_NAME 0) (PortStats 0 0 0 0) (PortStats 0 0 0 0)
    (take ETH_LEN eth_addr) None None buffer_state_init.

Definition port_add_v4addr (p : port) (ipv4_addr netmask : Z) : port :=
  p <| p_ipv4_addr := Some (Ipv4Info ipv4_addr netmask) |>.
Definition port_add_v6addr (p : port) (ipv6_addr netmask : list Z) : port :=
  p <| p_ipv6_addr := Some (Ipv6Info (take IPV6_LEN ipv6_addr) (take IPV6_LEN netmask)) |>.

(** A C string argument is the list of its bytes before the NUL. *)
Definition port_set_name (p : port) (name : list Z) : outcome port :=
  if decide (length name + 1 ≤ MAX_PORT_NAME)%nat then
    buf ← mem_write (p_name p) 0 (name ++ [0]);
    Ok (p <| p_name := buf |>)
  else Ok p.

#[export] Instance port_keyed : Keyed port := λ p, le_bytes 4 (p_port_id p).

(** ** node.c *)

Definition BUFFER_MAX : nat := 3.
Definition MAX_NODE_NAME : nat := 32.
(** [enum node_type] *)
Definition DATAPATH : Z := 0.
Definition ROUTER : Z := 1.
Definition L2_SWITCH : Z := 2.
Definition HOST : Z := 3.

(** The array holds netflow pointers; it is not initialised ([None]). *)
Record flow_buffer := FlowBuffer { fb_flows : list (option addr); fb_tail : Z }.
#[export] Instance eta_flow_buffer : Eta flow_buffer := λ b,
  FlowBuffer (fb_flows b) (fb_tail b).

Record node := mk_node {
  n_uuid : Z;
  n_name : list Z;
  n_ports : uthash port;
  n_ports_num : Z;
  n_type : Z;
  n_flow_buff : flow_buffer;
  n_buffer_state : buffer_state
}.
#[export] Instance eta_node : Eta node := λ n,
  mk_node (n_uuid n) (n_name n) (n_ports n) (n_ports_num n) (n_type n)
    (n_flow_buff n) (n_buffer_state n).

(** [current_uuid] is a static counter: it is passed and returned. *)
Definition node_init (current_uuid type : Z) : Z * node :=
  let uuid := u64 (current_uuid + 1) in
  (uuid, mk_node uuid (replicate MAX_NODE_NAME 0) None 0 type
           (FlowBuffer (replicate BUFFER_MAX None) 0) buffer_state_init).

Definition node_set_name (n : node) (name : option (list Z)) : outcome (node * bool) :=
  match name with
  | None => Ok (n, false)
  | Some s =>
      if decide (MAX_NODE_NAME ≤ length s)%nat then Ok (n, false)
      else buf ← mem_write (n_name n) 0 (s ++ [0]);
           Ok (n <| n_name := buf |>, true)
  end.

(** Deletes the ports one by one; returns what is left and the freed ports. *)
Definition node_destroy_ports (n : node) : node * list addr :=
  let '(h, freed) :=
    foldl (λ st av, (HASH_DELETE av.1 st.1, st.2 ++ [av.1]))
      (n_ports n, []) (ht_elems (n_ports n)) in
  (n <| n_ports := h |>, freed).

(** The bytes of a NUL-terminated array before the NUL. *)
Fixpoint c_string (l : list Z) : list Z :=
  match l with
  | [] => []
  | c :: l => if c =? 0 then [] else c :: c_string l
  end.

(** Decimal digits of an unsigned integer ([%PRIu32]). *)
Fixpoint digits (fuel : nat) (z : Z) (acc : list Z) : list Z :=
  match fuel with
  | O => acc
  | S fuel =>
      let acc := (48 + z mod 10) :: acc in
      if z / 10 =? 0 then acc else digits fuel (z / 10) acc
  end.
Definition print_u32 (z : Z) : list Z := digits 10 z [].

(** "<name>-eth<port_id>", as [sprintf] writes it to [port_name]. *)
Definition port_name_string (n : node) (port_id : Z) : list Z :=
  c_string (n_name n) ++ [45; 101; 116; 104] ++ print_u32 port_id.

(** [sprintf] goes to an array of [MAX_NODE_NAME + 16] bytes; [snprintf] copies
    at most 63 bytes and a NUL to [p->name]. *)
Definition node_add_port (n : node) (a : addr) (port_id : Z) (eth_addr : list Z)
    (speed curr_speed : Z) : outcome node :=
  let p := port_new port_id eth_addr speed curr_speed in
  let s := port_name_string n port_id in
  _ ← mem_write (replicate (MAX_NODE_NAME + 16) 0) 0 (s ++ [0]);
  name ← mem_write (p_name p) 0 (take (MAX_PORT_NAME - 1) s ++ [0]);
  Ok (n <| n_ports ::= HASH_ADD a (p <| p_name := name |>) |>
        <| n_ports_num ::= λ k, u16 (k + 1) |>).

Definition node_port (n : node) (port_id : Z) : option (addr * port) :=
  HASH_FIND (le_bytes 4 port_id) (n_ports n).

(** Store through a port pointer. *)
Definition port_update (a : addr) (g : port → port) (n : node) : node :=
  n <| n_ports ::= ht_update a g |>.

Definition node_add_tx_time (n : node) (out_port : Z) (flow : netflow)
  : outcome netflow :=
  match node_port n out_port with
  | Some (_, p) => netflow_update_send_time flow (p_curr_speed p)
  | None => Ok flow
  end.

Definition upnlive (p : port) : bool :=
  negb (Z.land (p_config p) PORT_UP =? 0) && negb (Z.land (p_state p) PORT_LIVE =? 0).

Definition node_update_port_stats (n : node) (flow : netflow) (out_port : Z) : node :=
  match node_port n out_port with
  | Some (a, p) =>
      if upnlive p then
        port_update a (λ p, p
          <| p_stats; tx_packets ::= λ c, u64 (c + nf_pkt_cnt flow) |>
          <| p_stats; tx_bytes ::= λ c, u64 (c + nf_byte_cnt flow) |>) n
      else n
  | None => n
  end.

Definition node_is_buffer_empty (n : node) : bool := fb_tail (n_flow_buff n) =? 0.

Definition node_flow_push (n : node) (flow : addr) : outcome (node * bool) :=
  let b := n_flow_buff n in
  if fb_tail b - (Z.of_nat BUFFER_MAX - 1) =? 0 then Ok (n, false)
  else
    l ← array_set (fb_flows b) (fb_tail b + 1) (Some flow);
    Ok (n <| n_flow_buff := FlowBuffer l (fb_tail b + 1) |>, true).

Definition node_flow_pop (n : node) : outcome (node * addr) :=
  let b := n_flow_buff n in
  f ← array_get (fb_flows b) (fb_tail b);
  match f with
  | None => Fault Indeterminate
  | Some f => Ok (n <| n_flow_buff; fb_tail := fb_tail b - 1 |>, f)
  end.

(** The result is discarded by the source. *)
Definition node_calculate_loss (n : node) (nf : netflow) (out_port : Z) : node := n.

Definition node_update_port_capacity (n : node) (bits out_port : Z) : outcome node :=
  match node_port n out_port with
  | Some (a, p) =>
      b ← buffer_state_update_capacity (p_buffer_state p) bits;
      Ok (port_update a (λ p, p <| p_buffer_state := b |>) n)
  | None => Ok n
  end.

Definition node_calculate_port_loss (n : node) (nf : netflow) (out_port : Z) : Z :=
  match node_port n out_port with
  | Some (_, p) => buffer_state_calculate_loss (p_buffer_state p) (p_curr_speed p)
  | None => 0
  end.

(** One printed line: time in seconds, port name, transmit and receive rates. *)
Record stats_line := StatsLine {
  sl_time : Z; sl_name : list Z; sl_tx : Z; sl_rx : Z }.

Definition port_line (t : Z) (p : port) : stats_line :=
  StatsLine t (c_string (p_name p))
    (u64 (tx_bytes (p_stats p) - tx_bytes (p_prev_stats p)))
    (u64 (rx_bytes (p_stats p) - rx_bytes (p_prev_stats p))).
Definition port_mark (p : port) : port :=
  p <| p_prev_stats; tx_bytes := tx_bytes (p_stats p) |>
    <| p_prev_stats; rx_bytes := rx_bytes (p_stats p) |>.

Definition node_write_stats (n : node) (time : Z) : node * list stats_line :=
  let t := time / 1000000 in
  foldl (λ st av, (port_update av.1 port_mark st.1, st.2 ++ [port_line t av.2]))
    (n, []) (ht_elems (n_ports n)).

(** ** live_flow.c *)

Record live_flow := LiveFlow { lf_flow_id : Z; lf_node_id : Z; lf_flow : addr }.
#[export] Instance eta_live_flow : Eta live_flow := λ f,
  LiveFlow (lf_flow_id f) (lf_node_id f) (lf_flow f).

(** [flow_id] is a static counter. *)
Definition live_flow_new (flow_id node_id : Z) (nf : addr) : Z * live_flow :=
  (u64 (flow_id + 1), LiveFlow flow_id node_id nf).

(** ** Well-formed nodes *)

Record node_wf (n : node) : Prop := {
  nw_name : length (n_name n) = MAX_NODE_NAME;
  nw_nul : (length (c_string (n_name n)) < MAX_NODE_NAME)%nat;
  nw_table : ht_wf (n_ports n);
  nw_ids : keys_unique (n_ports n);
  nw_width : ∀ a p, (a, p) ∈ ht_elems (n_ports n) → in_width 32 (p_port_id p)
}.

Lemma c_string_zeros k : c_string (replicate k 0) = [].
Proof. by destruct k. Qed.

Lemma c_string_nul s r : Forall (λ c, c ≠ 0) s → c_string (s ++ 0 :: r) = s.
Proof.
  induction 1 as [|c s Hc _ IH]; [done|]. simpl.
  rewrite (proj2 (Z.eqb_neq _ _) Hc). by rewrite IH.
Qed.

Lemma node_init_wf uuid type : node_wf (node_init uuid type).2.
Proof.
  split; cbn -[replicate]; try done.
  - rewrite c_string_zeros. unfold MAX_NODE_NAME. simpl. lia.
  - intros ???? Hx. by apply not_elem_of_nil in Hx.
  - intros ?? Hx. by apply not_elem_of_nil in Hx.
Qed.

Lemma mem_write_prefix (buf bs : list Z) :
  (length bs ≤ length buf)%nat → mem_write buf 0 bs = Ok (bs ++ drop (length bs) buf).
Proof. intros. unfold mem_write. by rewrite decide_True by lia. Qed.

Lemma port_key_inj i j :
  in_width 32 i → in_width 32 j → le_bytes 4 i = le_bytes 4 j → i = j.
Proof.
  intros Hi Hj He. rewrite <- (wrap_small 32 i Hi), <- (wrap_small 32 j Hj).
  change 32 with (8 * Z.of_nat 4). by rewrite <- !le_val_bytes, He.
Qed.

(** The port table as a map from port numbers. *)
Lemma node_port_Some n i a p :
  node_wf n → in_width 32 i →
  node_port n i = Some (a, p) ↔ (a, p) ∈ ht_elems (n_ports n) ∧ p_port_id p = i.
Proof.
  intros Hn Hi. unfold node_port.
  rewrite HASH_FIND_unique by apply Hn. split; intros [Hin He]; (split; [done|]).
  - apply port_key_inj; [by eapply nw_width|done|exact He].
  - by rewrite <- He.
Qed.

Lemma node_port_None n i :
  node_wf n → in_width 32 i →
  node_port n i = None ↔ ∀ a p, (a, p) ∈ ht_elems (n_ports n) → p_port_id p ≠ i.
Proof.
  intros Hn Hi. unfold node_port. rewrite HASH_FIND_None by apply Hn.
  split; intros H a p Hin E; apply (H a p Hin).
  - by rewrite <- E.
  - apply port_key_inj; [by eapply nw_width|done|exact E].
Qed.

(** Two nodes with the same ports seen through the table answer alike. *)
Lemma node_port_ext n n' i j :
  node_wf n → node_wf n' → in_width 32 i →
  (∀ a p, p_port_id p = i →
     (a, p) ∈ ht_elems (n_ports n') ↔ (a, p) ∈ ht_elems (n_ports n)) → i = j →
  node_port n' i = node_port n j.
Proof.
  intros Hn Hn' Hi Hext <-. destruct (node_port n i) as [[a p]|] eqn:E.
  - apply node_port_Some in E as [Hin Hp]; [|done|done].
    apply node_port_Some; [done|done|]. split; [|done]. by apply Hext.
  - apply node_port_None; [done|done|]. intros a p Hin Hp.
    apply (proj1 (node_port_None n i Hn Hi) E a p); [|done]. by apply Hext.
Qed.

Lemma length_digits fuel z acc : (length (digits fuel z acc) ≤ fuel + length acc)%nat.
Proof.
  revert z acc. induction fuel as [|fuel IH]; intros z acc; simpl; [done|].
  case_match; simpl; [lia|]. specialize (IH (z / 10) ((48 + z mod 10) :: acc)).
  simpl in IH. lia.
Qed.

(** The port [node_add_port] links in. *)
Definition named_port (n : node) (i : Z) (eth : list Z) (speed curr : Z) : port :=
  let s := port_name_string n i in
  (port_new i eth speed curr) <| p_name := s ++ 0 :: replicate (63 - length s) 0 |>.

Lemma node_add_port_spec n a i eth speed curr :
  node_wf n → a ∉ ht_addrs (n_ports n) → in_width 32 i → node_port n i = None →
  let p := named_port n i eth speed curr in
  ∃ n', node_add_port n a i eth speed curr = Ok n' ∧ node_wf n' ∧
    ht_elems (n_ports n') = ht_elems (n_ports n) ++ [(a, p)].
Proof.
  intros Hn Ha Hi Hnone. cbv zeta. set (s := port_name_string n i).
  assert (length s ≤ 45)%nat as Hs.
  { unfold s, port_name_string, print_u32. rewrite !length_app.
    pose proof (length_digits 10 i []). pose proof (nw_nul n Hn).
    unfold MAX_NODE_NAME in *. simpl in *. lia. }
  set (p := named_port n i eth speed curr).
  set (n' := n <| n_ports ::= HASH_ADD a p |> <| n_ports_num ::= λ k, u16 (k + 1) |>).
  assert (node_add_port n a i eth speed curr = Ok n') as Hadd.
  { unfold node_add_port. fold s.
    rewrite (mem_write_prefix (replicate (MAX_NODE_NAME + 16) 0)).
    2: { rewrite length_app, length_replicate. unfold MAX_NODE_NAME. simpl. lia. }
    cbn [mbind outcome_bind]. unfold MAX_PORT_NAME. rewrite take_ge by lia.
    change (p_name (port_new i eth speed curr)) with (replicate 64 0).
    rewrite mem_write_prefix; cbn [mbind outcome_bind].
    2: { rewrite length_app, length_replicate. simpl. lia. }
    unfold n', p, named_port. fold s. rewrite drop_replicate, length_app, <- app_assoc.
    cbn [app length].
    by replace (64 - (length s + 1))%nat with (63 - length s)%nat by lia. }
  destruct (HASH_ADD_spec a p (n_ports n) (nw_table n Hn) Ha) as [Hw He].
  assert (node_wf n') as Hn'.
  { split; [apply Hn|apply Hn|exact Hw| |].
    - intros x v x' v'. cbn [n' setf n_ports]. rewrite He, !elem_of_app, !list_elem_of_singleton.
      intros [H1|[= -> ->]] [H2|[= -> ->]] Hk; [by eapply (nw_ids n Hn)|..|done].
      + destruct (proj1 (node_port_None n i Hn Hi) Hnone x v H1).
        apply port_key_inj; [by eapply nw_width|done|exact Hk].
      + destruct (proj1 (node_port_None n i Hn Hi) Hnone x' v' H2).
        apply port_key_inj; [by eapply nw_width|done|by symmetry].
    - intros x v. cbn [n' setf n_ports]. rewrite He, elem_of_app, list_elem_of_singleton.
      intros [H1|H1]; [by eapply nw_width|]. by simplify_eq. }
  by exists n'.
Qed.

(** Adding a port: the two name buffers are never overrun, the node stays
    well formed, the new port is found under its number, is up and live with its
    speeds and zero counters, and every other number finds what it found before. *)
Theorem node_add_port_found n a i eth speed curr :
  node_wf n → a ∉ ht_addrs (n_ports n) → in_width 32 i → node_port n i = None →
  ∃ n' p, node_add_port n a i eth speed curr = Ok n' ∧ node_wf n' ∧
    node_port n' i = Some (a, p) ∧ p_port_id p = i ∧ upnlive p = true ∧
    p_max_speed p = speed ∧ p_curr_speed p = curr ∧ p_stats p = PortStats 0 0 0 0 ∧
    (∃ r, p_name p = port_name_string n i ++ 0 :: r) ∧
    ∀ j, in_width 32 j → j ≠ i → node_port n' j = node_port n j.
Proof.
  intros Hn Ha Hi Hnone.
  destruct (node_add_port_spec n a i eth speed curr Hn Ha Hi Hnone) as (n' & Hadd & Hn' & He).
  exists n', (named_port n i eth speed curr). split; [done|]. split; [done|].
  split; [|repeat (split; [done|]); split].
  - apply node_port_Some; [done|done|]. split; [|done].
    rewrite He. apply elem_of_app. right. by apply list_elem_of_singleton.
  - by eexists.
  - intros j Hj Hne. apply node_port_ext; try done. intros x v Hv.
    rewrite He, elem_of_app, list_elem_of_singleton. split; [|by left].
    intros [H1|[= -> ->]]; [done|]. by destruct Hne.
Qed.

(** ** The flow buffer as a bounded stack *)

(** The contents of the buffer: slot 0 is never used. *)
Record fb_repr (n : node) (l : list addr) : Prop := {
  fr_length : length (fb_flows (n_flow_buff n)) = BUFFER_MAX;
  fr_slot0 : fb_flows (n_flow_buff n) !! 0%nat = Some None;
  fr_tail : fb_tail (n_flow_buff n) = Z.of_nat (length l);
  fr_cap : (length l ≤ 2)%nat;
  fr_slots : ∀ i x, l !! i = Some x → fb_flows (n_flow_buff n) !! S i = Some (Some x)
}.

Lemma fb_repr_init uuid type : fb_repr (node_init uuid type).2 [].
Proof. split; [done|done|done|simpl; lia|by intros ? ? ?]. Qed.

Lemma fb_push n l x : fb_repr n l → (length l < 2)%nat →
  ∃ b, node_flow_push n x = Ok (n <| n_flow_buff := b |>, true) ∧
       fb_repr (n <| n_flow_buff := b |>) (l ++ [x]).
Proof.
  intros [Hl H0 Ht Hc Hs] E. unfold BUFFER_MAX in *. unfold node_flow_push. rewrite Ht.
  rewrite (proj2 (Z.eqb_neq _ _)) by (unfold BUFFER_MAX; lia).
  rewrite array_set_in_range by lia. cbn [mbind outcome_bind]. eexists. split; [done|].
  replace (Z.to_nat (Z.of_nat (length l) + 1)) with (S (length l)) by lia.
  split; cbn [n_flow_buff setf fb_flows fb_tail].
  - by rewrite length_insert.
  - by rewrite list_lookup_insert_ne.
  - rewrite length_app. simpl. lia.
  - rewrite length_app. simpl. lia.
  - intros i y. destruct (decide (i = length l)) as [-> |Hne].
    + rewrite lookup_app_r, Nat.sub_diag by done. intros [= ->].
      apply list_lookup_insert_eq. lia.
    + intros Hy. assert (i < length l)%nat.
      { apply lookup_lt_Some in Hy. rewrite length_app in Hy. simpl in Hy. lia. }
      rewrite lookup_app_l in Hy by done. rewrite list_lookup_insert_ne by lia. by apply Hs.
Qed.

Lemma fb_pop n l x : fb_repr n (l ++ [x]) →
  ∃ b, node_flow_pop n = Ok (n <| n_flow_buff := b |>, x) ∧
       fb_repr (n <| n_flow_buff := b |>) l.
Proof.
  intros [Hl H0 Ht Hc Hs]. rewrite length_app in *. cbn [length] in *. unfold node_flow_pop.
  rewrite Ht. erewrite (proj2 (array_get_Ok _ _ _)).
  2: { split; [lia|]. replace (Z.to_nat _) with (S (length l)) by lia.
       apply Hs. by rewrite lookup_app_r, Nat.sub_diag. }
  cbn [mbind outcome_bind]. eexists (FlowBuffer (fb_flows (n_flow_buff n)) _). split; [done|].
  split; cbn [n_flow_buff setf fb_flows fb_tail]; try done; try lia.
  intros i z Hz. apply Hs. by apply lookup_app_l_Some.
Qed.

Lemma fb_empty n l : fb_repr n l → node_is_buffer_empty n = bool_decide (l = []).
Proof.
  intros [Hl H0 Ht Hc Hs]. unfold node_is_buffer_empty. rewrite Ht. destruct l as [|y l]; [done|].
  rewrite bool_decide_false by done. apply Z.eqb_neq. cbn [length]. lia.
Qed.

(** The flow buffer of a node refines a stack of capacity two (the three-slot
    array never uses its first slot): a push on a full buffer is refused and changes
    nothing, any other push stores the flow, a pop returns the flow pushed last, and
    only a pop from an empty buffer reads an uninitialised slot. *)
Theorem node_flow_buffer_stack n l x :
  fb_repr n l →
  (length l = 2%nat → node_flow_push n x = Ok (n, false)) ∧
  ((length l < 2)%nat → ∃ n', node_flow_push n x = Ok (n', true) ∧ fb_repr n' (l ++ [x])) ∧
  (l = [] → node_flow_pop n = Fault Indeterminate) ∧
  (∀ l' y, l = l' ++ [y] → ∃ n', node_flow_pop n = Ok (n', y) ∧ fb_repr n' l') ∧
  node_is_buffer_empty n = bool_decide (l = []).
Proof.
  intros Hb. split_and!.
  - intros E. unfold node_flow_push. by rewrite (fr_tail _ _ Hb), E.
  - intros E. destruct (fb_push n l x Hb E) as (b & ? & ?). eauto.
  - intros ->. unfold node_flow_pop. rewrite (fr_tail _ _ Hb).
    by rewrite (proj2 (array_get_Ok _ _ None)) by (split; [done|apply Hb]).
  - intros l' y ->. destruct (fb_pop n l' y Hb) as (b & ? & ?). eauto.
  - by apply fb_empty.
Qed.

(** A node with two ports. *)
Definition sample_node : outcome node :=
  n ← node_add_port (node_init 0 DATAPATH).2 1 1 (replicate 6 1) 100000 100000;
  node_add_port n 2 2 (replicate 6 2) 100000 100000.

Lemma sample_node_wf : ∃ n, sample_node = Ok n ∧ node_wf n.
Proof.
  unfold sample_node.
  destruct (node_add_port_spec (node_init 0 DATAPATH).2 1 1 (replicate 6 1) 100000 100000)
    as (n & E & Hn & He); [apply node_init_wf|apply not_elem_of_nil|done|done|].
  rewrite E. cbn [mbind outcome_bind].
  destruct (node_add_port_spec n 2 2 (replicate 6 2) 100000 100000)
    as (n' & E' & Hn' & He').
  - done.
  - unfold ht_addrs. rewrite He. vm_compute. by intros [=]%list_elem_of_singleton.
  - done.
  - apply node_port_None; [done|done|]. rewrite He.
    intros a p [= -> ->]%list_elem_of_singleton. done.
  - by exists n'.
Qed.

Lemma node_add_port_found_witness :
  ∃ n p, node_add_port (node_init 0 DATAPATH).2 1 7 (replicate 6 1) 100000 1000 = Ok n ∧
         node_port n 7 = Some (1%nat, p) ∧ p_curr_speed p = 1000.
Proof.
  destruct (node_add_port_found (node_init 0 DATAPATH).2 1 7 (replicate 6 1) 100000 1000)
    as (n & p & H1 & _ & H2 & _ & _ & _ & H3 & _).
  - apply node_init_wf.
  - apply not_elem_of_nil.
  - by apply (bool_decide_unpack _); vm_compute.
  - reflexivity.
  - by exists n, p.
Defined.

Lemma node_flow_buffer_stack_witness :
  ∃ n, node_flow_push (node_init 0 HOST).2 5 = Ok (n, true).
Proof.
  destruct (node_flow_buffer_stack (node_init 0 HOST).2 [] 5 (fb_repr_init 0 HOST))
    as (_ & H & _).
  destruct H as (n & H & _); [simpl; lia|]. by exists n.
Defined.

(** ** Statistics *)

Lemma port_update_elems a g n :
  ht_wf (n_ports n) → (∀ p, key_image (g p) = key_image p) →
  ht_wf (n_ports (port_update a g n)) ∧
  ht_elems (n_ports (port_update a g n)) = elem_update a g <$> ht_elems (n_ports n).
Proof. intros Hw Hg. by apply ht_update_spec. Qed.

Lemma port_update_wf a g n :
  node_wf n → (∀ p, p_port_id (g p) = p_port_id p) → node_wf (port_update a g n).
Proof.
  intros Hn Hg. destruct (port_update_elems a g n (nw_table n Hn)) as [Hw He].
  { intros p. unfold key_image, port_keyed. by rewrite Hg. }
  assert (∀ x v, (x, v) ∈ ht_elems (n_ports (port_update a g n)) → ∃ w,
    (x, w) ∈ ht_elems (n_ports n) ∧ p_port_id v = p_port_id w ∧
    (x, v) = elem_update a g (x, w)) as Hin.
  { intros x v. rewrite He, list_elem_of_fmap. intros ([y w] & E & H).
    exists w. unfold elem_update in *. cbn [fst snd] in *.
    destruct (decide (y = a)) as [-> |Hy]; injection E as -> ->.
    - by rewrite Hg, decide_True.
    - by rewrite decide_False. }
  split; [apply Hn|apply Hn|exact Hw| |].
  - intros x v x' v' (w & H1 & E1 & U1)%Hin (w' & H2 & E2 & U2)%Hin Hk.
    unfold key_image, port_keyed in Hk. rewrite E1, E2 in Hk.
    destruct (nw_ids n Hn _ _ _ _ H1 H2 Hk) as [-> ->].
    rewrite <- U2 in U1. by simplify_eq.
  - intros x v (w & H1 & -> & _)%Hin. by eapply nw_width.
Qed.

(** What the port at [a] is after an update; other ports are not touched. *)
Lemma node_port_update n a g i :
  node_wf n → (∀ p, p_port_id (g p) = p_port_id p) → in_width 32 i →
  node_port (port_update a g n) i =
  (λ ap, (ap.1, if decide (ap.1 = a) then g ap.2 else ap.2)) <$> node_port n i.
Proof.
  intros Hn Hg Hi. pose proof (port_update_wf a g n Hn Hg) as Hn'.
  destruct (port_update_elems a g n (nw_table n Hn)) as [Hw He].
  { intros p. unfold key_image, port_keyed. by rewrite Hg. }
  destruct (node_port n i) as [[x p]|] eqn:E; cbn [fmap option_fmap option_map].
  - apply node_port_Some in E as [Hin Hp]; [|done|done]. cbn [fst snd].
    apply node_port_Some; [done|done|]. rewrite He. split.
    + apply list_elem_of_fmap. exists (x, p). split; [|done]. unfold elem_update.
      cbn [fst snd]. by case_decide; [subst|].
    + case_decide; [by rewrite Hg|done].
  - apply node_port_None; [done|done|]. intros y v. rewrite He, list_elem_of_fmap.
    intros ([z w] & Ev & Hin). pose proof (proj1 (node_port_None n i Hn Hi) E z w Hin).
    unfold elem_update in Ev. cbn [fst snd] in Ev. case_decide; simplify_eq; [by rewrite Hg|done].
Qed.

(** The loop of [node_write_stats] over a suffix of the ports. *)
Lemma write_stats_loop t l n lines :
  node_wf n → NoDup l.*1 →
  let '(n', lines') :=
    foldl (λ st av, (port_update av.1 port_mark st.1, st.2 ++ [port_line t av.2]))
      (n, lines) l in
  node_wf n' ∧ lines' = lines ++ (port_line t ∘ snd <$> l) ∧
  ht_elems (n_ports n') =
  (λ av, if decide (av.1 ∈ l.*1) then (av.1, port_mark av.2) else av) <$> ht_elems (n_ports n).
Proof.
  revert n lines. induction l as [|[a p] l IH]; intros n lines Hn Hnd; cbn [foldl].
  - split; [done|]. split; [by rewrite app_nil_r|].
    etransitivity; [symmetry; apply list_fmap_id|]. apply list_fmap_ext. intros i [x v] _.
    rewrite decide_False; [done|apply not_elem_of_nil].
  - cbn [fmap list_fmap fst snd] in *. apply NoDup_cons in Hnd as [Ha Hnd].
    pose proof (port_update_wf a port_mark n Hn ltac:(done)) as Hn1.
    destruct (port_update_elems a port_mark n (nw_table n Hn) ltac:(done)) as [_ He].
    specialize (IH _ (lines ++ [port_line t p]) Hn1 Hnd). destruct (foldl _ _ l) as [n' lines'].
    destruct IH as (Hn' & -> & ->). split; [done|]. split; [by rewrite <- app_assoc|].
    rewrite He, <- list_fmap_compose. apply list_fmap_ext. intros i [x v] _.
    unfold compose, elem_update. cbn [fst snd].
    destruct (decide (x = a)) as [-> |Hx]; cbn [fst snd].
    + rewrite decide_False by done. by rewrite decide_True by set_solver.
    + destruct (decide (x ∈ l.*1)) as [Hl|Hl].
      * by rewrite decide_True by set_solver.
      * by rewrite decide_False by set_solver.
Qed.

(** [node_write_stats] prints one line per port, in order, with the bytes sent
    and received since the previous call (modulo 2^64), and starts the next interval
    at the current counters, changing nothing else: the rates printed over time add
    up to the counters of the port. *)
Theorem node_write_stats_rates n time n' lines :
  node_wf n → node_write_stats n time = (n', lines) →
  node_wf n' ∧
  lines = (λ av, port_line (time / 1000000) av.2) <$> ht_elems (n_ports n) ∧
  ht_elems (n_ports n') = (λ av, (av.1, port_mark av.2)) <$> ht_elems (n_ports n) ∧
  ∀ p, let '(StatsLine _ _ tx rx) := port_line (time / 1000000) p in
    u64 (tx_bytes (p_prev_stats p) + tx) = u64 (tx_bytes (p_prev_stats (port_mark p))) ∧
    u64 (rx_bytes (p_prev_stats p) + rx) = u64 (rx_bytes (p_prev_stats (port_mark p))) ∧
    p_stats (port_mark p) = p_stats p.
Proof.
  intros Hn H. unfold node_write_stats in H.
  pose proof (write_stats_loop (time / 1000000) (ht_elems (n_ports n)) n [] Hn
    (ht_addrs_NoDup _ (nw_table n Hn))) as HL.
  rewrite H in HL. destruct HL as (Hn' & Hl & He). split; [done|]. split; [exact Hl|]. split.
  - rewrite He. apply list_fmap_ext. intros i [x v] Hx. cbn [fst snd].
    rewrite decide_True; [done|]. apply list_elem_of_fmap. exists (x, v).
    split; [done|]. by eapply list_elem_of_lookup_2.
  - intros p. cbn [port_line]. unfold wrap.
    split; [|split; [|done]]; rewrite Zplus_mod_idemp_r; cbn; f_equal; lia.
Qed.

Lemma node_write_stats_rates_witness :
  ∃ n n' lines, sample_node = Ok n ∧ node_wf n ∧
    node_write_stats n 5000000 = (n', lines) ∧ node_wf n' ∧ length lines = 2%nat.
Proof.
  destruct sample_node_wf as (n & E & Hn).
  destruct (node_write_stats n 5000000) as [n' lines] eqn:W.
  destruct (node_write_stats_rates n 5000000 n' lines Hn W) as (Hn' & Hl & _).
  exists n, n', lines. do 4 (split; [done|]). rewrite Hl, length_fmap.
  vm_compute in E. injection E as <-. reflexivity.
Defined.
