(* ===== verification/Inet.v ===== *)
(** * Inet: addresses as text

    Models the address functions at the end of [lib/util.c] for IPv4, over the
    standard library's [inet_ntop], [inet_pton], [strchr] and [memcmp].  A text is
    the list of its bytes before the NUL; an address is its four bytes in network
    order.  Theorems: the two conversions are inverse to each other on all
    addresses, and a printed address fits the buffers of [INET_ADDRSTRLEN] bytes. *)


From stdpp Require Import strings prelude.
From S2P Require Import Prelude Util Node.

(** The bytes of a string literal. *)
Definition lit (s : string) : list Z := (λ c, Z.of_nat (Ascii.nat_of_ascii c)) <$> String.list_ascii_of_string s.
Arguments lit s%_string.

(** [sprintf] of a text into an array: the text and its NUL must fit. *)
Definition sprintf (size : nat) (text : list Z) : outcome (list Z) :=
  if decide (length text < size)%nat then Ok text else Fault OutOfBounds.

Lemma sprintf_ok size text : (length text < size)%nat → sprintf size text = Ok text.
Proof. intros. unfold sprintf. by rewrite decide_True. Qed.

Definition AF_INET : Z := 2.
Definition AF_INET6 : Z := 10.
Definition AF_MAX : Z := 46.
Definition INET_ADDRSTRLEN : nat := 16.
Definition DOT : Z := 46.
Definition COLON : Z := 58.

(** A peer or a listener: family, port and address as they are in memory. *)
Record sockaddr_in := SockaddrIn { sin_family : Z; sin_port : list Z; sin_addr : list Z }.

(** [inet_ntop(AF_INET, ...)]: four decimal numbers with dots between them. *)
Definition inet_ntop4 (a : list Z) : list Z :=
  match a with
  | [b0; b1; b2; b3] =>
      print_u32 b0 ++ DOT :: print_u32 b1 ++ DOT :: print_u32 b2 ++ DOT :: print_u32 b3
  | _ => []
  end.

Definition is_digit (c : Z) : bool := (48 <=? c) && (c <=? 57).

(** [inet_pton(AF_INET, ...)]: decimal numbers up to 255 without leading zeros;
    [octets] of them have begun, [cur] is the last one and [saw] whether it has a
    digit yet. *)
Fixpoint pton4 (s : list Z) (octets : nat) (saw : bool) (cur : Z) (acc : list Z) : option (list Z) :=
  match s with
  | [] => if decide (octets = 4)%nat then Some (acc ++ [cur]) else None
  | c :: s =>
      if is_digit c then
        let new := cur * 10 + (c - 48) in
        if saw && (cur =? 0) then None
        else if 255 <? new then None
        else if saw then pton4 s octets true new acc
        else if decide (octets = 4)%nat then None
        else pton4 s (S octets) true new acc
      else if (c =? DOT) && saw then
        if decide (octets = 4)%nat then None else pton4 s octets false 0 (acc ++ [cur])
      else None
  end.
Definition inet_pton4 (s : list Z) : option (list Z) := pton4 s 0 false 0 [].

(** [strchr] as a test. *)
Definition strchr (s : list Z) (c : Z) : bool := bool_decide (c ∈ s).

Definition get_ip_family (ip : list Z) : Z :=
  if strchr ip DOT then AF_INET else if strchr ip COLON then AF_INET6 else AF_MAX.

(** [inet_ntop] into a buffer of [INET_ADDRSTRLEN] bytes. *)
Definition get_ip_str (a str : list Z) : outcome (list Z) := mem_write str 0 (inet_ntop4 a ++ [0]).

(** The result goes to [net_ip], which keeps its value when the text is no address. *)
Definition get_ip_net (ip net_ip : list Z) : list Z := default net_ip (inet_pton4 ip).

(** [memcmp]: the difference of the first bytes that differ. *)
Fixpoint memcmp (a b : list Z) : Z :=
  match a, b with
  | x :: a, y :: b => if x =? y then memcmp a b else x - y
  | _, _ => 0
  end.

(** The IPv4 branch; an address that cannot be read is indeterminate. *)
Definition ip_str_addr_compare (ip1 ip2 : list Z) : outcome Z :=
  match inet_pton4 ip1, inet_pton4 ip2 with
  | Some a, Some b => Ok (memcmp a b)
  | _, _ => Fault Indeterminate
  end.

(** ** The round trip *)

(** The digits of one number. *)
Fixpoint read_octet (l : list Z) (saw : bool) (cur : Z) : option Z :=
  match l with
  | [] => if saw then Some cur else None
  | c :: l =>
      let new := cur * 10 + (c - 48) in
      if is_digit c && negb (saw && (cur =? 0)) && negb (255 <? new) then read_octet l true new else None
  end.

Lemma pton4_digits l : ∀ cur v octets s acc,
  read_octet l true cur = Some v → pton4 (l ++ s) octets true cur acc = pton4 s octets true v acc.
Proof.
  induction l as [|c l IH]; intros cur v octets s acc; cbn [read_octet]; [by intros [= ->]|].
  destruct (is_digit c) eqn:Ed; [|done]. destruct (cur =? 0) eqn:E0; [done|].
  destruct (255 <? _) eqn:E1; [done|]. cbn [andb negb]. intros H. cbn [Datatypes.app pton4].
  rewrite Ed, E0, E1. cbn [andb]. by apply IH.
Qed.

(** Reading the text of one byte. *)
Lemma pton4_octet b octets s acc : 0 ≤ b < 256 → octets ≠ 4%nat →
  pton4 (print_u32 b ++ s) octets false 0 acc = pton4 s (S octets) true b acc.
Proof.
  intros Hb Ho. assert (read_octet (print_u32 b) false 0 = Some b) as H.
  { assert (b ∈ seqZ 0 256) as Hin by (apply elem_of_seqZ; lia). clear -Hin. revert b Hin.
    apply Forall_forall. apply (bool_decide_unpack _). vm_compute. exact I. }
  destruct (print_u32 b) as [|c l]; [done|]. cbn [read_octet] in H.
  destruct (is_digit c) eqn:Ed; [|done]. destruct (255 <? _) eqn:E1; [done|]. cbn [andb negb] in H.
  cbn [Datatypes.app pton4]. rewrite Ed, E1, decide_False by done. cbn [andb].
  by apply pton4_digits.
Qed.

Lemma pton4_dot octets b s acc : octets ≠ 4%nat →
  pton4 (DOT :: s) octets true b acc = pton4 s octets false 0 (acc ++ [b]).
Proof. intros Ho. cbn. by rewrite decide_False. Qed.

Lemma inet_pton_ntop a : bytes_wf 4 a → inet_pton4 (inet_ntop4 a) = Some a.
Proof.
  intros [Hl Hf]. destruct a as [|b0 [|b1 [|b2 [|b3 [|]]]]]; try done.
  rewrite !Forall_cons in Hf. destruct Hf as (H0 & H1 & H2 & H3 & _).
  unfold inet_pton4, inet_ntop4. unfold byte_wf, in_width in *. change (2 ^ 8) with 256 in *.
  rewrite pton4_octet, pton4_dot by (done || lia).
  rewrite pton4_octet, pton4_dot by (done || lia).
  rewrite pton4_octet, pton4_dot by (done || lia).
  rewrite <- (app_nil_r (print_u32 b3)), pton4_octet by (done || lia). done.
Qed.

Lemma print_octet_length b : 0 ≤ b < 256 → (1 ≤ length (print_u32 b) ≤ 3)%nat ∧ 0 ∉ print_u32 b.
Proof.
  intros Hb. assert (b ∈ seqZ 0 256) as Hin by (apply elem_of_seqZ; lia). clear -Hin. revert b Hin.
  apply Forall_forall. apply (bool_decide_unpack _). vm_compute. exact I.
Qed.

Lemma inet_ntop_text a : bytes_wf 4 a →
  (7 ≤ length (inet_ntop4 a) < INET_ADDRSTRLEN)%nat ∧ 0 ∉ inet_ntop4 a ∧ DOT ∈ inet_ntop4 a.
Proof.
  intros [Hl Hf]. destruct a as [|b0 [|b1 [|b2 [|b3 [|]]]]]; try done.
  rewrite !Forall_cons in Hf. destruct Hf as (H0 & H1 & H2 & H3 & _).
  unfold byte_wf, in_width in *. change (2 ^ 8) with 256 in *.
  pose proof (print_octet_length b0 H0). pose proof (print_octet_length b1 H1).
  pose proof (print_octet_length b2 H2). pose proof (print_octet_length b3 H3).
  unfold inet_ntop4, INET_ADDRSTRLEN. split; [|split].
  - do 3 (rewrite ?length_app; cbn [length]). rewrite ?length_app. lia.
  - set_unfold. unfold DOT. intuition lia.
  - set_solver.
Qed.

Lemma get_ip_str_ok a str : bytes_wf 4 a → length str = INET_ADDRSTRLEN →
  ∃ str', get_ip_str a str = Ok str' ∧ c_string str' = inet_ntop4 a.
Proof.
  intros Ha Hs. destruct (inet_ntop_text a Ha) as (Hl & H0 & _). unfold get_ip_str, mem_write.
  rewrite decide_True by (rewrite length_app; cbn [length]; lia). eexists. split; [done|].
  cbn [take Datatypes.app]. rewrite <- app_assoc. apply c_string_nul, Forall_forall.
  by intros c Hc ->.
Qed.

(** Addresses survive being printed: for every IPv4 address the text that
    [get_ip_str] writes fits its buffer, is recognised as IPv4, and [get_ip_net] reads
    the same address back from it. *)
Theorem ip_text_round_trip a str net :
  bytes_wf 4 a → length str = INET_ADDRSTRLEN →
  ∃ str', get_ip_str a str = Ok str' ∧ get_ip_family (c_string str') = AF_INET ∧
    get_ip_net (c_string str') net = a.
Proof.
  intros Ha Hs. destruct (get_ip_str_ok a str Ha Hs) as (str' & E & Ht).
  exists str'. split; [done|]. rewrite Ht. destruct (inet_ntop_text a Ha) as (_ & _ & Hd).
  unfold get_ip_family, strchr, get_ip_net. rewrite bool_decide_true by done.
  by rewrite inet_pton_ntop.
Qed.

Lemma ip_text_round_trip_witness :
  ∃ str', get_ip_str [10; 0; 255; 1] (replicate 16 7) = Ok str' ∧ get_ip_family (c_string str') = AF_INET ∧
    get_ip_net (c_string str') [0; 0; 0; 0] = [10; 0; 255; 1].
Proof.
  apply ip_text_round_trip; [|reflexivity]. split; [reflexivity|].
  apply (bool_decide_unpack _). vm_compute. exact I.
Defined.
