(* ===== verification/DpActions.v ===== *)
(** * DpActions: executing actions on a netflow

    Models [net/dp_actions.c]: one handler per action type, the table of
    handlers as the source fills it (the push entries are crossed, several
    entries are null), and [execute_action], which calls through the table.

    The theorems: executing a supported action on a well-formed netflow always
    succeeds and keeps it well formed; set-field of a VLAN identifier or priority
    keeps the tag and the match in step; set-field of an MPLS traffic class
    clears the label of the tag; the two push actions are exchanged. *)

From stdpp Require Import prelude.
From S2P Require Import Prelude Util Uthash Action FlowKey Netflow.

Definition pop_vlan (act : action) (nf : netflow) : outcome netflow := netflow_pop_vlan nf.
Definition push_vlan (act : action) (nf : netflow) : outcome netflow :=
  netflow_push_vlan nf (act_eth_type act).
Definition push_mpls (act : action) (nf : netflow) : outcome netflow :=
  netflow_push_mpls nf (act_eth_type act).
Definition pop_mpls (act : action) (nf : netflow) : outcome netflow :=
  netflow_pop_mpls nf (act_eth_type act).

(** Store through [&nf->tags.level[nf->tags.top]]. *)
Definition update_top_tag (g : tag → tag) (nf : netflow) : outcome netflow :=
  t ← array_get (level (nf_tags nf)) (top (nf_tags nf));
  l ← array_set (level (nf_tags nf)) (top (nf_tags nf)) (g t);
  Ok (nf <| nf_tags; level := l |>).

Definition set_vlan_vid (v : Z) (t : tag) : tag :=
  set_vlan_tag (u16 (Z.lor (Z.land (vlan_tag t) (Z.lnot VLAN_VID_MASK))
                           (Z.land v VLAN_VID_MASK))) t.
Definition set_vlan_prio (v : Z) (t : tag) : tag :=
  set_vlan_tag (u16 (Z.lor (Z.land (vlan_tag t) (Z.lnot VLAN_PCP_MASK))
                           (Z.shiftl v VLAN_PCP_SHIFT))) t.
Definition set_mpls_lbl (v : Z) (t : tag) : tag :=
  set_mpls_fields (Z.lor (Z.land (mpls_fields t) (bnot 32 MPLS_LABEL_MASK))
                         (Z.land (u32 (Z.shiftl v MPLS_LABEL_SHIFT)) MPLS_LABEL_MASK)) t.
(** The next two keep the field and drop the rest of the tag. *)
Definition set_mpls_cls (v : Z) (t : tag) : tag :=
  set_mpls_fields (Z.lor (Z.land (mpls_fields t) MPLS_TC_MASK)
                         (Z.land (Z.shiftl v MPLS_TC_SHIFT) MPLS_TC_MASK)) t.
Definition set_mpls_stk (v : Z) (t : tag) : tag :=
  set_mpls_fields (Z.lor (Z.land (mpls_fields t) MPLS_S_MASK)
                         (Z.land (Z.shiftl v MPLS_S_SHIFT) MPLS_S_MASK)) t.

Definition set_field (act : action) (nf : netflow) : outcome netflow :=
  match set_field_of_value (act_field act) with
  | Some SET_IN_PORT => Ok (nf <| nf_match; in_port := act_u32_field act |>)
  | Some SET_METADATA => Ok (nf <| nf_match; metadata := act_u64_field act |>)
  | Some SET_TUNNEL_ID => Ok (nf <| nf_match; tunnel_id := act_u64_field act |>)
  | Some SET_ETH_TYPE => Ok (nf <| nf_match; eth_type := act_u16_field act |>)
  | Some SET_ETH_DST => Ok (nf <| nf_match; eth_dst := act_eth_addr act |>)
  | Some SET_ETH_SRC => Ok (nf <| nf_match; eth_src := act_eth_addr act |>)
  | Some SET_VLAN_ID =>
      tagged ← netflow_is_vlan_tagged nf;
      if tagged : bool then
        update_top_tag (set_vlan_vid (act_u16_field act))
          (nf <| nf_match; vlan_id := act_u16_field act |>)
      else Ok nf
  | Some SET_VLAN_PCP =>
      tagged ← netflow_is_vlan_tagged nf;
      if tagged : bool then
        update_top_tag (set_vlan_prio (act_u8_field act))
          (nf <| nf_match; vlan_pcp := act_u8_field act |>)
      else Ok nf
  | Some SET_MPLS_LABEL =>
      outer ← netflow_is_outer_mpls nf;
      if outer : bool then
        update_top_tag (set_mpls_lbl (act_u32_field act))
          (nf <| nf_match; mpls_label := act_u32_field act |>)
      else Ok nf
  | Some SET_MPLS_TC =>
      outer ← netflow_is_outer_mpls nf;
      if outer : bool then
        update_top_tag (set_mpls_cls (act_u8_field act))
          (nf <| nf_match; mpls_tc := act_u8_field act |>)
      else Ok nf
  | Some SET_MPLS_BOS =>
      outer ← netflow_is_outer_mpls nf;
      if outer : bool then
        update_top_tag (set_mpls_stk (act_u8_field act))
          (nf <| nf_match; mpls_bos := act_u8_field act |>)
      else Ok nf
  | Some SET_IP_DSCP => Ok (nf <| nf_match; ip_dscp := act_u8_field act |>)
  | Some SET_IP_ECN => Ok (nf <| nf_match; ip_ecn := act_u8_field act |>)
  | Some SET_IP_PROTO => Ok (nf <| nf_match; ip_proto := act_u8_field act |>)
  | Some SET_IPV4_DST => Ok (nf <| nf_match; ipv4_dst := act_u32_field act |>)
  | Some SET_IPV4_SRC => Ok (nf <| nf_match; ipv4_src := act_u32_field act |>)
  | Some SET_TCP_DST => Ok (nf <| nf_match; tcp_dst := act_u16_field act |>)
  | Some SET_TCP_SRC => Ok (nf <| nf_match; tcp_src := act_u16_field act |>)
  | Some SET_UDP_DST => Ok (nf <| nf_match; udp_dst := act_u16_field act |>)
  | Some SET_UDP_SRC => Ok (nf <| nf_match; udp_src := act_u16_field act |>)
  | Some SET_ARP_OP => Ok (nf <| nf_match; arp_op := act_u16_field act |>)
  | Some SET_ARP_SPA => Ok (nf <| nf_match; arp_spa := act_u32_field act |>)
  | Some SET_ARP_TPA => Ok (nf <| nf_match; arp_tpa := act_u32_field act |>)
  | Some SET_ARP_SHA => Ok (nf <| nf_match; arp_sha := act_eth_addr act |>)
  | Some SET_ARP_THA => Ok (nf <| nf_match; arp_tha := act_eth_addr act |>)
  | Some SET_IPV6_DST => Ok (nf <| nf_match; ipv6_dst := act_ipv6_addr act |>)
  | Some SET_IPV6_SRC => Ok (nf <| nf_match; ipv6_src := act_ipv6_addr act |>)
  (** Six of the sixteen bytes are copied. *)
  | Some SET_IPV6_ND_TARGET =>
      Ok (nf <| nf_match; ipv6_nd_target ::= patch 0 (act_eth_addr act) |>)
  | Some SET_IPV6_ND_SLL => Ok (nf <| nf_match; ipv6_nd_sll := act_eth_addr act |>)
  | Some SET_IPV6_ND_TLL => Ok (nf <| nf_match; ipv6_nd_tll := act_eth_addr act |>)
  | _ => Ok nf
  end.

Definition group (act : action) (nf : netflow) : outcome netflow := Ok nf.

Definition output (act : action) (nf : netflow) : outcome netflow :=
  Ok (netflow_add_out_port nf (act_out_port act)).

(** The designated initialiser: the entries it does not name are null. *)
Definition handle_action : list (option (action → netflow → outcome netflow)) :=
  [None; None; Some pop_vlan; Some pop_mpls; Some push_vlan; Some push_mpls; None; None;
   None; None; Some set_field; None; Some group; Some output].

Definition execute_action (act : action) (flow : netflow) : outcome netflow :=
  h ← array_get handle_action (act_type act);
  h ← deref h;
  h act flow.

(** ** Well-formed netflows *)

Record nf_wf (n : netflow) : Prop := {
  nfw_match : key_wf (nf_match n);
  nfw_tags : stack_wf (nf_tags n)
}.

Definition supported (ty : Z) : bool :=
  bool_decide (ty ∈ [ACT_POP_VLAN; ACT_POP_MPLS; ACT_PUSH_MPLS; ACT_PUSH_VLAN;
                     ACT_SET_FIELD; ACT_GROUP; ACT_OUTPUT]).

(** A key stays well formed when one field gets a value of its type. *)
Ltac key_set Hk :=
  lazymatch type of Hk with key_wf ?k =>
    destruct k, Hk; constructor; cbn in *; assumption || auto with horse
  end.

Lemma union_read_width off n a :
  action_wf a → in_width (8 * Z.of_nat n) (le_val (union_read off n a)).
Proof.
  intros [_ [Hl Hf]]. unfold union_read.
  pose proof (le_val_in_width (take n (drop off (act_union a)))) as H.
  assert (Forall byte_wf (take n (drop off (act_union a)))) as Hb
    by by apply Forall_take, Forall_drop.
  specialize (H Hb). destruct H as [H1 H2]. split; [done|].
  eapply Z.lt_le_trans; [exact H2|]. apply Z.pow_le_mono_r; [lia|].
  rewrite length_take. lia.
Qed.

Lemma union_read_bytes off n a :
  action_wf a → (off + n ≤ UNION_SIZE)%nat → bytes_wf n (union_read off n a).
Proof.
  intros [_ [Hl Hf]] Hle. unfold union_read. split.
  - rewrite length_take, length_drop. lia.
  - by apply Forall_take, Forall_drop.
Qed.

(** Set one field of a well-formed key to a value of the field's type. *)
Ltac key_field :=
  lazymatch goal with
  | Hk : key_wf ?k |- key_wf _ => destruct k, Hk; constructor; cbn in *; try assumption
  end.

Lemma land_width w z m : in_width w m → in_width w (Z.land z m).
Proof.
  intros Hm. assert (0 ≤ w) as Hw.
  { destruct (Z.le_gt_cases 0 w) as [|Hn]; [done|]. unfold in_width in Hm.
    rewrite Z.pow_neg_r in Hm by done. lia. }
  apply in_width_bits in Hm as [H0 Hb]; [|done]. apply in_width_bits; [done|].
  split; [apply Z.land_nonneg; by right|].
  intros i Hi. by rewrite Z.land_spec, Hb, andb_false_r.
Qed.

(** Run a successful computation backwards. *)
Ltac unwind H :=
  repeat first
    [ progress inv_ok
    | match type of H with
      | (if ?b then _ else _) = Ok _ => destruct b eqn:?
      end ].

(** The ranges of extracted tag fields. *)
Lemma vid_width x : in_width 16 (Z.shiftr (Z.land x VLAN_VID_MASK) VLAN_VID_SHIFT).
Proof. rewrite Z.shiftr_0_r. by apply (land_width 16). Qed.
Lemma byte_width x : in_width 8 (u8 x).
Proof. by apply wrap_in_width. Qed.

Lemma pop_vlan_key n n' :
  netflow_pop_vlan n = Ok n' → key_wf (nf_match n) → key_wf (nf_match n').
Proof.
  intros H Hk. unfold netflow_pop_vlan in H. unwind H; cbn [nf_match setf] in *.
  3: done. all: key_field; first [exact (vid_width _)|exact (byte_width _)|done].
Qed.

Lemma pop_mpls_key n ty n' :
  in_width 16 ty → netflow_pop_mpls n ty = Ok n' →
  key_wf (nf_match n) → key_wf (nf_match n').
Proof.
  intros Hty H Hk. unfold netflow_pop_mpls in H. unwind H; cbn [nf_match setf] in *.
  3: done. all: key_field; done.
Qed.

Lemma push_mpls_key n ty n' :
  in_width 16 ty → netflow_push_mpls n ty = Ok n' →
  key_wf (nf_match n) → key_wf (nf_match n').
Proof.
  intros Hty H Hk. unfold netflow_push_mpls in H.
  destruct (_ && _); inv_ok; [|done]. destruct a0 as [new n1]. inv_ok. cbn [nf_match setf] in *.
  assert (nf_match n1 = nf_match n ∨ ∃ b, in_width 8 b ∧
          nf_match n1 = (nf_match n) <| mpls_bos := b |>) as Hn1.
  { destruct (negb _); inv_ok; [destruct (is_mpls_type _)|]; simplify_eq;
      [right; by exists 0|by left|right; by exists 1]. }
  destruct Hn1 as [-> |(b & Hb & ->)]; key_field.
Qed.

(** ** The handlers succeed and keep netflows well formed *)

Lemma update_top_tag_ok g nf :
  stack_wf (nf_tags nf) → 0 ≤ top (nf_tags nf) → (∀ t, tag_wf t → tag_wf (g t)) →
  ∃ t nf', array_get (level (nf_tags nf)) (top (nf_tags nf)) = Ok t ∧
    update_top_tag g nf = Ok nf' ∧ nf_match nf' = nf_match nf ∧
    nf_out_ports nf' = nf_out_ports nf ∧ stack_wf (nf_tags nf') ∧
    nf_tags nf' = TagStack (<[Z.to_nat (top (nf_tags nf)) := g t]> (level (nf_tags nf)))
                    (top (nf_tags nf)).
Proof.
  intros Hw H0 Hg. pose proof (sw_top _ Hw) as Ht.
  destruct (level_get _ (top (nf_tags nf)) Hw) as (t & Hget & Hwt & Hlk); [lia|].
  exists t, (nf <| nf_tags; level := <[Z.to_nat (top (nf_tags nf)) := g t]> (level (nf_tags nf)) |>).
  split; [done|]. split.
  { unfold update_top_tag. rewrite Hget. cbn [mbind outcome_bind].
    by rewrite level_set by (done || lia). }
  do 2 (split; [done|]). split; [|done].
  destruct Hw as [Hl Ht' Hf Ha]. split; cbn [nf_tags setf level top].
  - by rewrite length_insert.
  - done.
  - apply Forall_insert; [done|]. by apply Hg.
  - intros i Hi Hm. rewrite list_lookup_insert_ne by lia. by apply Ha.
Qed.

(** A set-field that edits the top tag when it has the right type. *)
Lemma tag_field_ok (P : Z → bool) (g : tag → tag) (u : netflow → netflow) nf :
  nf_wf nf → (∀ t, tag_wf t → tag_wf (g t)) →
  nf_tags (u nf) = nf_tags nf → key_wf (nf_match (u nf)) →
  ∃ nf', (b ← (if top (nf_tags nf) =? STACK_EMPTY then Ok false
               else t ← array_get (level (nf_tags nf)) (top (nf_tags nf));
                    Ok (P (tag_type t)));
          if b : bool then update_top_tag g (u nf) else Ok nf) = Ok nf' ∧ nf_wf nf'.
Proof.
  intros Hn Hg Hu Hk. destruct (is_tagged_ok _ P (nfw_tags nf Hn)) as (b & -> & Hb).
  cbn [mbind outcome_bind]. destruct b; [|by exists nf].
  destruct (update_top_tag_ok g (u nf)) as (t & nf' & _ & He & Hm & _ & Hw & _).
  - rewrite Hu. apply Hn.
  - rewrite Hu. by apply Hb.
  - done.
  - exists nf'. split; [done|]. split; [by rewrite Hm|done].
Qed.

Lemma set_field_ok act nf :
  action_wf act → nf_wf nf → ∃ nf', set_field act nf = Ok nf' ∧ nf_wf nf'.
Proof.
  intros Ha Hn.
  pose proof (union_read_width SET_FIELD_OFF 1 act Ha : in_width 8 (act_u8_field act)) as H8.
  pose proof (union_read_width SET_FIELD_OFF 2 act Ha : in_width 16 (act_u16_field act)) as H16.
  pose proof (union_read_width SET_FIELD_OFF 4 act Ha : in_width 32 (act_u32_field act)) as H32.
  pose proof (union_read_width SET_FIELD_OFF 8 act Ha : in_width 64 (act_u64_field act)) as H64.
  assert (bytes_wf ETH_LEN (act_eth_addr act)) as He
    by (apply union_read_bytes; [done|unfold SET_FIELD_OFF, ETH_LEN, UNION_SIZE; lia]).
  assert (bytes_wf IPV6_LEN (act_ipv6_addr act)) as H6
    by (apply union_read_bytes; [done|unfold SET_FIELD_OFF, IPV6_LEN, UNION_SIZE; lia]).
  pose proof (nfw_match nf Hn) as Hk. pose proof (nfw_tags nf Hn) as Hs.
  assert (bytes_wf IPV6_LEN (patch 0 (act_eth_addr act) (ipv6_nd_target (nf_match nf)))) as Hp.
  { apply patch_wf; [apply Hk|apply He|]. rewrite (bytes_wf_length _ _ He).
    unfold ETH_LEN, IPV6_LEN. lia. }
  assert (∀ u, key_wf (u (nf_match nf)) →
    ∃ nf', Ok (nf <| nf_match ::= u |>) = Ok nf' ∧ nf_wf nf') as Hset.
  { intros u Hu. eexists. split; [done|]. by split. }
  unfold set_field. revert H8 H16 H32 H64 He H6 Hp.
  generalize (act_u8_field act) (act_u16_field act) (act_u32_field act) (act_u64_field act)
    (act_eth_addr act) (act_ipv6_addr act).
  intros v8 v16 v32 v64 ve v6 H8 H16 H32 H64 He H6 Hp. clear Ha.
  destruct (set_field_of_value _) as [[]|].
  7: { apply (tag_field_ok is_vlan_type _ (λ nf, nf <| nf_match; vlan_id := v16 |>));
       [done|intros; by apply set_vlan_tag_wf|done|]. cbn [nf_match setf]. key_field. }
  7: { apply (tag_field_ok is_vlan_type _ (λ nf, nf <| nf_match; vlan_pcp := v8 |>));
       [done|intros; by apply set_vlan_tag_wf|done|]. cbn [nf_match setf]. key_field. }
  7: { apply (tag_field_ok is_mpls_type _ (λ nf, nf <| nf_match; mpls_label := v32 |>));
       [done|intros; by apply set_mpls_fields_wf|done|]. cbn [nf_match setf]. key_field. }
  7: { apply (tag_field_ok is_mpls_type _ (λ nf, nf <| nf_match; mpls_tc := v8 |>));
       [done|intros; by apply set_mpls_fields_wf|done|]. cbn [nf_match setf]. key_field. }
  7: { apply (tag_field_ok is_mpls_type _ (λ nf, nf <| nf_match; mpls_bos := v8 |>));
       [done|intros; by apply set_mpls_fields_wf|done|]. cbn [nf_match setf]. key_field. }
  all: first [by exists nf|apply Hset; cbn beta; clear Hset Hn; key_field].
Qed.

Lemma eth_type_width act : action_wf act → in_width 16 (act_eth_type act).
Proof. intros Ha. exact (union_read_width 0 2 act Ha). Qed.

Lemma execute_action_eq act flow i h :
  act_type act = Z.of_nat i → handle_action !! i = Some (Some h) →
  execute_action act flow = h act flow.
Proof.
  intros Ht Hh. unfold execute_action. rewrite Ht.
  rewrite (proj2 (array_get_Ok handle_action _ (Some h))); [done|].
  split; [lia|]. by rewrite Nat2Z.id.
Qed.

Lemma execute_supported act nf :
  action_wf act → nf_wf nf → supported (act_type act) = true →
  ∃ nf', execute_action act nf = Ok nf' ∧ nf_wf nf'.
Proof.
  intros Ha Hn Hs. pose proof (nfw_match nf Hn) as Hk. pose proof (nfw_tags nf Hn) as Ht.
  pose proof (eth_type_width act Ha) as Hty.
  unfold supported in Hs. apply bool_decide_eq_true in Hs.
  rewrite !elem_of_cons, elem_of_nil in Hs.
  destruct Hs as [E|[E|[E|[E|[E|[E|[E|[]]]]]]]].
  - rewrite (execute_action_eq act nf 2 pop_vlan E eq_refl). unfold pop_vlan.
    destruct (pop_vlan_ok nf Ht) as (n' & H & Hw & _). exists n'. split; [done|].
    split; [by eapply pop_vlan_key|done].
  - rewrite (execute_action_eq act nf 3 pop_mpls E eq_refl). unfold pop_mpls.
    destruct (pop_mpls_ok nf (act_eth_type act) Ht) as (n' & H & Hw & _).
    exists n'. split; [done|]. split; [by eapply pop_mpls_key|done].
  - rewrite (execute_action_eq act nf 4 push_vlan E eq_refl). unfold push_vlan.
    destruct (push_vlan_ok nf (act_eth_type act) Ht) as (n' & H & Hw & Hm & _).
    exists n'. split; [done|]. split; [by rewrite Hm|done].
  - rewrite (execute_action_eq act nf 5 push_mpls E eq_refl). unfold push_mpls.
    destruct (push_mpls_ok nf (act_eth_type act) Ht) as (n' & H & Hw).
    exists n'. split; [done|]. split; [by eapply push_mpls_key|done].
  - rewrite (execute_action_eq act nf 10 set_field E eq_refl). by apply set_field_ok.
  - rewrite (execute_action_eq act nf 12 group E eq_refl). by exists nf.
  - rewrite (execute_action_eq act nf 13 output E eq_refl). eexists. split; [done|]. by split.
Qed.

(** Executing an action: a supported type on a well-formed netflow succeeds and
    keeps the netflow well formed (fields within their types, tag stack in range);
    a type the handler table leaves null is a call through a null pointer, and a
    type past the table an out-of-bounds access. *)
Theorem execute_action_total act nf :
  action_wf act → nf_wf nf →
  (supported (act_type act) = true → ∃ nf', execute_action act nf = Ok nf' ∧ nf_wf nf') ∧
  (supported (act_type act) = false → 0 ≤ act_type act < MAX_ACTION_SET →
   execute_action act nf = Fault NullDeref) ∧
  (MAX_ACTION_SET ≤ act_type act → execute_action act nf = Fault OutOfBounds).
Proof.
  intros Ha Hn. split; [by apply execute_supported|]. split.
  - intros Hs Hr. unfold execute_action.
    assert (array_get handle_action (act_type act) = Ok None) as ->; [|done].
    apply array_get_Ok. split; [lia|]. unfold MAX_ACTION_SET in Hr.
    assert (∃ i, (i < 14)%nat ∧ act_type act = Z.of_nat i) as (i & Hi & E)
      by (exists (Z.to_nat (act_type act)); lia).
    rewrite E in *. rewrite Nat2Z.id. do 14 (destruct i as [|i]; [first [discriminate Hs|reflexivity]|]). lia.
  - intros Hr. unfold execute_action, array_get. rewrite decide_True by (unfold MAX_ACTION_SET in Hr; lia).
    rewrite lookup_ge_None_2; [done|]. unfold MAX_ACTION_SET in Hr. cbn [length handle_action]. lia.
Qed.

(** The handler table crosses the two push actions: a push-VLAN action runs the
    MPLS handler, which ignores VLAN types, so pushing a VLAN tag does nothing. *)
Theorem push_vlan_action_does_nothing a nf :
  length (act_union a) = UNION_SIZE →
  execute_action (action_push_vlan a ETH_TYPE_VLAN) nf = Ok nf.
Proof.
  intros Hl. rewrite (execute_action_eq (action_push_vlan a ETH_TYPE_VLAN) nf 5 push_mpls eq_refl eq_refl).
  unfold push_mpls, netflow_push_mpls.
  assert (act_eth_type (action_push_vlan a ETH_TYPE_VLAN) = ETH_TYPE_VLAN) as ->.
  { unfold act_eth_type, union_read, action_push_vlan. cbn [act_union].
    change 2%nat with (length (le_bytes 2 ETH_TYPE_VLAN)) at 1.
    rewrite patch_read by (rewrite Hl; unfold UNION_SIZE; cbn; lia). done. }
  by rewrite andb_false_r.
Qed.

Definition blank_action : action := mk_action 0 (replicate UNION_SIZE 0).

Lemma push_vlan_action_does_nothing_witness :
  execute_action (action_push_vlan blank_action ETH_TYPE_VLAN) netflow_init = Ok netflow_init.
Proof. by apply push_vlan_action_does_nothing. Defined.

Lemma netflow_init_wf : nf_wf netflow_init.
Proof. split; [apply key_zero_wf|apply netflow_init_stack]. Qed.

Lemma blank_action_wf ty : in_width 16 ty → action_wf (mk_action ty (replicate UNION_SIZE 0)).
Proof. intros H. split; [done|]. by apply (bool_decide_unpack _); vm_compute. Qed.

Lemma execute_action_total_witness :
  (∃ nf', execute_action (mk_action ACT_POP_VLAN (replicate UNION_SIZE 0)) netflow_init = Ok nf'
          ∧ nf_wf nf') ∧
  execute_action (mk_action ACT_METER (replicate UNION_SIZE 0)) netflow_init = Fault NullDeref.
Proof.
  split.
  - apply (execute_action_total _ netflow_init);
      [by apply blank_action_wf|apply netflow_init_wf|reflexivity].
  - apply (execute_action_total _ netflow_init);
      [by apply blank_action_wf|apply netflow_init_wf|reflexivity|cbn; unfold MAX_ACTION_SET, ACT_METER; lia].
Defined.

(** ** Set-field and the tag on top *)

Lemma vlan_tag_set v t : tag_wf t → vlan_tag (set_vlan_tag v t) = u16 v.
Proof.
  intros Ht. unfold vlan_tag, set_vlan_tag. cbn [tag_union setf].
  change 2%nat with (length (le_bytes 2 v)) at 1. unfold tag_wf in Ht.
  rewrite patch_read by (rewrite length_le_bytes; lia). apply le_val_bytes.
Qed.

Lemma mpls_fields_set v t : tag_wf t → mpls_fields (set_mpls_fields v t) = u32 v.
Proof.
  intros Ht. unfold mpls_fields, set_mpls_fields. cbn [tag_union setf].
  rewrite <- (drop_0 (patch _ _ _)). change 4%nat with (length (le_bytes 4 v)) at 1.
  unfold tag_wf in Ht. rewrite patch_read by (rewrite length_le_bytes; lia).
  apply le_val_bytes.
Qed.

(** Bits of a field written under a mask, at the width of the tag. *)
Lemma field_bits w x y m i :
  0 ≤ w → 0 ≤ i →
  Z.testbit (wrap w (Z.lor (Z.land x (Z.lnot m)) y)) i =
  bool_decide (i < w) && ((Z.testbit x i && negb (Z.testbit m i)) || Z.testbit y i).
Proof.
  intros Hw Hi. rewrite wrap_bits, Z.lor_spec, Z.land_spec, Z.lnot_spec by done. done.
Qed.

(** Replacing the bits of [y] under the mask [m]: they read back, and the bits
    under a disjoint mask [k] stay. *)
Lemma field_replace w x y m k :
  0 ≤ w → in_width w m → in_width w k → 0 ≤ y → Z.land y m = y → Z.land m k = 0 →
  let z := wrap w (Z.lor (Z.land x (Z.lnot m)) y) in
  Z.land z m = y ∧ Z.land z k = Z.land x k.
Proof.
  intros Hw Hm Hk Hy Hym Hd z.
  apply in_width_bits in Hm as [Hm0 Hmb]; [|done].
  apply in_width_bits in Hk as [Hk0 Hkb]; [|done].
  assert (∀ i, 0 ≤ i → Z.testbit y i = Z.testbit y i && Z.testbit m i) as By
    by (intros i Hi; by rewrite <- Z.land_spec, Hym).
  assert (∀ i, 0 ≤ i → Z.testbit m i && Z.testbit k i = false) as Bd
    by (intros i Hi; by rewrite <- Z.land_spec, Hd, Z.bits_0).
  split; apply Z.bits_inj'; intros i Hi; rewrite !Z.land_spec; unfold z;
    rewrite field_bits by done; specialize (By i Hi); specialize (Bd i Hi);
    (destruct (decide (i < w)) as [Hlt|Hge];
     [rewrite bool_decide_true by done
     |rewrite bool_decide_false by done; rewrite (Hmb i), (Hkb i) in * by lia]);
    destruct (Z.testbit x i), (Z.testbit y i), (Z.testbit m i), (Z.testbit k i);
    cbn in *; congruence.
Qed.

(** Fields of a VLAN tag as the parser and [netflow_pop_vlan] read them. *)
Definition tag_vid (t : tag) : Z := Z.shiftr (Z.land (vlan_tag t) VLAN_VID_MASK) VLAN_VID_SHIFT.
Definition tag_pcp (t : tag) : Z := Z.shiftr (Z.land (vlan_tag t) VLAN_PCP_MASK) VLAN_PCP_SHIFT.
Definition tag_label (t : tag) : Z :=
  Z.shiftr (Z.land (mpls_fields t) MPLS_LABEL_MASK) MPLS_LABEL_SHIFT.

Lemma set_vlan_vid_fields v t :
  tag_wf t → 0 ≤ v < 4096 →
  tag_vid (set_vlan_vid v t) = v ∧ tag_pcp (set_vlan_vid v t) = tag_pcp t.
Proof.
  intros Ht Hv. unfold tag_vid, tag_pcp, set_vlan_vid. rewrite vlan_tag_set, wrap_wrap by done.
  assert (Z.land v VLAN_VID_MASK = v) as E.
  { change VLAN_VID_MASK with (Z.ones 12). rewrite Z.land_ones by lia.
    apply Z.mod_small. change (2 ^ 12) with 4096. lia. }
  rewrite E. destruct (field_replace 16 (vlan_tag t) v VLAN_VID_MASK VLAN_PCP_MASK)
    as [-> ->]; (done || lia).
Qed.

Lemma set_vlan_prio_fields v t :
  tag_wf t → 0 ≤ v < 8 →
  tag_pcp (set_vlan_prio v t) = v ∧ tag_vid (set_vlan_prio v t) = tag_vid t.
Proof.
  intros Ht Hv. unfold tag_vid, tag_pcp, set_vlan_prio. rewrite vlan_tag_set, wrap_wrap by done.
  assert (Z.land (Z.shiftl v 13) VLAN_PCP_MASK = Z.shiftl v 13) as E.
  { change VLAN_PCP_MASK with (Z.shiftl (Z.ones 3) 13). rewrite <- Z.shiftl_land, Z.land_ones by lia.
    f_equal. apply Z.mod_small. change (2 ^ 3) with 8. lia. }
  assert (0 ≤ Z.shiftl v 13) by (apply Z.shiftl_nonneg; lia).
  destruct (field_replace 16 (vlan_tag t) (Z.shiftl v 13) VLAN_PCP_MASK VLAN_VID_MASK)
    as [H1 H2]; try done. unfold VLAN_PCP_SHIFT in *. rewrite H1, H2. split; [|done].
  by rewrite Z.shiftr_shiftl_l, Z.sub_diag, Z.shiftl_0_r by lia.
Qed.

(** Set-field keeps a VLAN tag and the match in step: setting the identifier
    (below 4096) or the priority (below 8) of a VLAN-tagged netflow stores the value
    in the match and in the tag on top of the stack, leaves the other field of the
    tag, its type and the tags below untouched, and changes nothing when the
    netflow is not VLAN-tagged. *)
Theorem set_field_vlan_coherent act nf :
  action_wf act → nf_wf nf → act_type act = ACT_SET_FIELD →
  (netflow_is_vlan_tagged nf = Ok false →
   act_field act = set_field_value SET_VLAN_ID ∨ act_field act = set_field_value SET_VLAN_PCP →
   execute_action act nf = Ok nf) ∧
  ∀ t, netflow_is_vlan_tagged nf = Ok true →
   array_get (level (nf_tags nf)) (top (nf_tags nf)) = Ok t →
   (act_field act = set_field_value SET_VLAN_ID → act_u16_field act < 4096 →
    ∃ nf' t', execute_action act nf = Ok nf' ∧ vlan_id (nf_match nf') = act_u16_field act ∧
      nf_tags nf' = TagStack (<[Z.to_nat (top (nf_tags nf)) := t']> (level (nf_tags nf)))
                      (top (nf_tags nf)) ∧
      tag_vid t' = act_u16_field act ∧ tag_pcp t' = tag_pcp t ∧ tag_type t' = tag_type t) ∧
   (act_field act = set_field_value SET_VLAN_PCP → act_u8_field act < 8 →
    ∃ nf' t', execute_action act nf = Ok nf' ∧ vlan_pcp (nf_match nf') = act_u8_field act ∧
      nf_tags nf' = TagStack (<[Z.to_nat (top (nf_tags nf)) := t']> (level (nf_tags nf)))
                      (top (nf_tags nf)) ∧
      tag_pcp t' = act_u8_field act ∧ tag_vid t' = tag_vid t ∧ tag_type t' = tag_type t).
Proof.
  intros Ha Hn Hty. rewrite (execute_action_eq act nf 10 set_field Hty eq_refl).
  unfold set_field. split.
  { intros Ht [-> | ->]; rewrite set_field_of_value_value, Ht; done. }
  intros t Ht Hg. pose proof (nfw_tags nf Hn) as Hw.
  assert (tag_wf t) as Hwt.
  { apply array_get_Ok in Hg as [_ Hlk]. eapply Forall_lookup_1; [apply Hw|done]. }
  assert (0 ≤ top (nf_tags nf)) as H0 by by apply array_get_Ok in Hg as [? _].
  pose proof (union_read_width SET_FIELD_OFF 2 act Ha : in_width 16 (act_u16_field act)) as H16.
  pose proof (union_read_width SET_FIELD_OFF 1 act Ha : in_width 8 (act_u8_field act)) as H8.
  split; intros -> Hv; rewrite set_field_of_value_value, Ht; cbn [mbind outcome_bind].
  - set (nf1 := nf <| nf_match; vlan_id := act_u16_field act |>).
    destruct (update_top_tag_ok (set_vlan_vid (act_u16_field act)) nf1 Hw H0) as (t0 & nf' & Hg' & Hu & Hm & _ & _ & E).
    { intros. by apply set_vlan_tag_wf. }
    change (nf_tags nf1) with (nf_tags nf) in *.
    rewrite Hg in Hg'. injection Hg' as <-.
    exists nf', (set_vlan_vid (act_u16_field act) t). split; [exact Hu|]. split; [by rewrite Hm|].
    split; [done|]. destruct (set_vlan_vid_fields (act_u16_field act) t Hwt); [split; [apply H16|done]|].
    by repeat split.
  - set (nf1 := nf <| nf_match; vlan_pcp := act_u8_field act |>).
    destruct (update_top_tag_ok (set_vlan_prio (act_u8_field act)) nf1 Hw H0) as (t0 & nf' & Hg' & Hu & Hm & _ & _ & E).
    { intros. by apply set_vlan_tag_wf. }
    change (nf_tags nf1) with (nf_tags nf) in *.
    rewrite Hg in Hg'. injection Hg' as <-.
    exists nf', (set_vlan_prio (act_u8_field act) t). split; [exact Hu|]. split; [by rewrite Hm|].
    split; [done|]. destruct (set_vlan_prio_fields (act_u8_field act) t Hwt); [split; [apply H8|done]|].
    by repeat split.
Qed.

(** Setting the MPLS traffic class clears the rest of the tag: the mask of the
    old value is not complemented, so the label in the tag becomes 0 while the match
    keeps the old label. *)
Theorem set_mpls_tc_erases_label v t :
  tag_wf t → 0 ≤ v → tag_label (set_mpls_cls v t) = 0.
Proof.
  intros Ht Hv. unfold tag_label, set_mpls_cls. rewrite mpls_fields_set by done.
  apply Z.bits_inj'. intros i Hi. rewrite Z.shiftr_spec, Z.land_spec, Z.bits_0 by done.
  unfold MPLS_LABEL_SHIFT. rewrite wrap_bits, Z.lor_spec, !Z.land_spec by lia.
  assert (Z.testbit MPLS_TC_MASK (i + 12) = false) as ->.
  { apply Z.bits_above_log2; [done|]. change (Z.log2 MPLS_TC_MASK) with 11. lia. }
  by rewrite !andb_false_r.
Qed.

Lemma set_mpls_tc_erases_label_witness :
  tag_label (Tag ETH_TYPE_MPLS (le_bytes 4 (Z.shiftl 100 12))) = 100 ∧
  tag_label (set_mpls_cls 5 (Tag ETH_TYPE_MPLS (le_bytes 4 (Z.shiftl 100 12)))) = 0.
Proof. split; [reflexivity|]. apply set_mpls_tc_erases_label; [reflexivity|lia]. Defined.

(** A VLAN-tagged netflow and a set-VLAN-identifier action. *)
Definition sample_tagged : netflow :=
  match netflow_push_vlan netflow_init ETH_TYPE_VLAN with Ok n => n | Fault _ => netflow_init end.

Lemma set_field_vlan_coherent_witness :
  ∃ nf', execute_action
           (action_set_field_u16 blank_action (set_field_value SET_VLAN_ID) 100) sample_tagged
         = Ok nf' ∧ vlan_id (nf_match nf') = 100.
Proof.
  destruct (set_field_vlan_coherent
    (action_set_field_u16 blank_action (set_field_value SET_VLAN_ID) 100) sample_tagged)
    as [_ H].
  - split; by apply (bool_decide_unpack _); vm_compute.
  - split; [by apply key_wf_check; vm_compute|].
    destruct (push_vlan_ok netflow_init ETH_TYPE_VLAN netflow_init_stack) as (n & E & Hn & _).
    unfold sample_tagged. by rewrite E.
  - reflexivity.
  - destruct (H (Tag ETH_TYPE_VLAN [0x00; 0x81; 0; 0]) eq_refl) as [H1 _].
    { vm_compute. reflexivity. }
    destruct H1 as (nf' & t' & H1 & H2 & _); [reflexivity|vm_compute; done|].
    exists nf'. split; [exact H1|]. rewrite H2. vm_compute. reflexivity.
Defined.
