(* ===== verification/OfMsg.v ===== *)
(** * OfMsg: the OpenFlow objects exchanged with the controller

    The control plane speaks OpenFlow 1.3 through loci, a generated library that
    turns wire buffers into typed objects.  This file holds those objects as the
    code under [src/src] sees them: a record per message, a constructor per
    action and instruction, the fields its accessors name.  An accessor applied
    to an object of another class trips [LOCI_ASSERT], which aborts the process
    in the build the repository ships ([liboci.so] keeps its assertions).  The
    enumerations come from [lib/openflow.h]. *)

From stdpp Require Import prelude.
From S2P Require Import Prelude.

(** ** Match fields *)

(** [of_match_fields_t], up to the extension fields the code never touches. *)
Record of_match_fields := MatchFields {
  mf_in_port : Z;
  mf_in_phy_port : Z;
  mf_metadata : Z;
  mf_tunnel_id : Z;
  mf_eth_dst : list Z;
  mf_eth_src : list Z;
  mf_eth_type : Z;
  mf_vlan_vid : Z;
  mf_vlan_pcp : Z;
  mf_ip_dscp : Z;
  mf_ip_ecn : Z;
  mf_ip_proto : Z;
  mf_ipv4_src : Z;
  mf_ipv4_dst : Z;
  mf_tcp_src : Z;
  mf_tcp_dst : Z;
  mf_udp_src : Z;
  mf_udp_dst : Z;
  mf_sctp_src : Z;
  mf_sctp_dst : Z;
  mf_icmpv4_type : Z;
  mf_icmpv4_code : Z;
  mf_arp_op : Z;
  mf_arp_spa : Z;
  mf_arp_tpa : Z;
  mf_arp_sha : list Z;
  mf_arp_tha : list Z;
  mf_ipv6_src : list Z;
  mf_ipv6_dst : list Z;
  mf_ipv6_flabel : Z;
  mf_icmpv6_type : Z;
  mf_icmpv6_code : Z;
  mf_ipv6_nd_target : list Z;
  mf_ipv6_nd_sll : list Z;
  mf_ipv6_nd_tll : list Z;
  mf_mpls_label : Z;
  mf_mpls_tc : Z;
  mf_mpls_bos : Z
}.

Definition match_fields_zero : of_match_fields :=
  MatchFields
    0 0 0 0 (replicate 6 0) (replicate 6 0) 0 0 0 0 0 0 0 0 0 0 0 0 0 0 0 0 0 0 0
    (replicate 6 0) (replicate 6 0) (replicate 16 0) (replicate 16 0) 0 0 0
    (replicate 16 0) (replicate 6 0) (replicate 6 0) 0 0 0.

#[export] Instance eta_of_match_fields : Eta of_match_fields := λ m,
  MatchFields
    (mf_in_port m) (mf_in_phy_port m) (mf_metadata m) (mf_tunnel_id m)
    (mf_eth_dst m) (mf_eth_src m) (mf_eth_type m) (mf_vlan_vid m) (mf_vlan_pcp m)
    (mf_ip_dscp m) (mf_ip_ecn m) (mf_ip_proto m) (mf_ipv4_src m) (mf_ipv4_dst m)
    (mf_tcp_src m) (mf_tcp_dst m) (mf_udp_src m) (mf_udp_dst m) (mf_sctp_src m)
    (mf_sctp_dst m) (mf_icmpv4_type m) (mf_icmpv4_code m) (mf_arp_op m)
    (mf_arp_spa m) (mf_arp_tpa m) (mf_arp_sha m) (mf_arp_tha m) (mf_ipv6_src m)
    (mf_ipv6_dst m) (mf_ipv6_flabel m) (mf_icmpv6_type m) (mf_icmpv6_code m)
    (mf_ipv6_nd_target m) (mf_ipv6_nd_sll m) (mf_ipv6_nd_tll m) (mf_mpls_label m)
    (mf_mpls_tc m) (mf_mpls_bos m).

Record of_match := OfMatch { om_fields : of_match_fields; om_masks : of_match_fields }.

(** ** OXM fields *)

(** [enum oxm_ofb_match_fields]; [OFPXMT_OTHER] stands for every other number. *)
Inductive oxm_ofb_match_fields :=
| OFPXMT_OFB_IN_PORT | OFPXMT_OFB_IN_PHY_PORT | OFPXMT_OFB_METADATA
| OFPXMT_OFB_ETH_DST | OFPXMT_OFB_ETH_SRC | OFPXMT_OFB_ETH_TYPE
| OFPXMT_OFB_VLAN_VID | OFPXMT_OFB_VLAN_PCP | OFPXMT_OFB_IP_DSCP | OFPXMT_OFB_IP_ECN
| OFPXMT_OFB_IP_PROTO | OFPXMT_OFB_IPV4_SRC | OFPXMT_OFB_IPV4_DST
| OFPXMT_OFB_TCP_SRC | OFPXMT_OFB_TCP_DST | OFPXMT_OFB_UDP_SRC | OFPXMT_OFB_UDP_DST
| OFPXMT_OFB_SCTP_SRC | OFPXMT_OFB_SCTP_DST | OFPXMT_OFB_ICMPV4_TYPE
| OFPXMT_OFB_ICMPV4_CODE | OFPXMT_OFB_ARP_OP | OFPXMT_OFB_ARP_SPA
| OFPXMT_OFB_ARP_TPA | OFPXMT_OFB_ARP_SHA | OFPXMT_OFB_ARP_THA | OFPXMT_OFB_IPV6_SRC
| OFPXMT_OFB_IPV6_DST | OFPXMT_OFB_IPV6_FLABEL | OFPXMT_OFB_ICMPV6_TYPE
| OFPXMT_OFB_ICMPV6_CODE | OFPXMT_OFB_IPV6_ND_TARGET | OFPXMT_OFB_IPV6_ND_SLL
| OFPXMT_OFB_IPV6_ND_TLL | OFPXMT_OFB_MPLS_LABEL | OFPXMT_OFB_MPLS_TC
| OFPXMT_OFB_MPLS_BOS | OFPXMT_OFB_PBB_ISID | OFPXMT_OFB_TUNNEL_ID
| OFPXMT_OFB_IPV6_EXTHDR | OFPXMT_OTHER (type : Z).

#[export] Instance oxm_ofb_match_fields_eq_dec : EqDecision oxm_ofb_match_fields.
Proof. solve_decision. Defined.

(** A field header and its value in network byte order. *)
Record of_oxm := Oxm { oxm_field : oxm_ofb_match_fields; oxm_value : list Z }.

(** [of_oxm_<field>_value_get] *)
Definition of_oxm_value_get (id : oxm_ofb_match_fields) (n : nat) (f : of_oxm)
  : outcome (list Z) :=
  if decide (oxm_field f = id) then Ok (take n (oxm_value f)) else Fault Aborted.

(** [of_oxm_<field>_new] and [of_oxm_<field>_value_set] *)
Definition of_oxm_new (id : oxm_ofb_match_fields) (value : list Z) : of_oxm := Oxm id value.

(** ** Actions *)

(** [OF_ACTION_OTHER] stands for the types the code does not name.  A set-field
    action that was created and never given a field holds [None]. *)
Inductive of_action :=
| OF_ACTION_OUTPUT (port max_len : Z)
| OF_ACTION_SET_FIELD (field : option of_oxm)
| OF_ACTION_GROUP (group_id : Z)
| OF_ACTION_PUSH_VLAN (ethertype : Z)
| OF_ACTION_PUSH_MPLS (ethertype : Z)
| OF_ACTION_POP_VLAN
| OF_ACTION_POP_MPLS (ethertype : Z)
| OF_ACTION_COPY_TTL_OUT
| OF_ACTION_COPY_TTL_IN
| OF_ACTION_DEC_MPLS_TTL
| OF_ACTION_SET_MPLS_TTL (mpls_ttl : Z)
| OF_ACTION_OTHER (type : Z).

(** ** Instructions *)

Definition OFPIT_GOTO_TABLE : Z := 1.
Definition OFPIT_WRITE_METADATA : Z := 2.
Definition OFPIT_WRITE_ACTIONS : Z := 3.
Definition OFPIT_APPLY_ACTIONS : Z := 4.
Definition OFPIT_CLEAR_ACTIONS : Z := 5.

Inductive of_instruction :=
| OF_INSTRUCTION_GOTO_TABLE (table_id : Z)
| OF_INSTRUCTION_WRITE_METADATA (metadata metadata_mask : Z)
| OF_INSTRUCTION_WRITE_ACTIONS (actions : list of_action)
| OF_INSTRUCTION_APPLY_ACTIONS (actions : list of_action)
| OF_INSTRUCTION_CLEAR_ACTIONS
| OF_INSTRUCTION_OTHER (type : Z).

(** The type field on the wire. *)
Definition of_instruction_type (i : of_instruction) : Z :=
  match i with
  | OF_INSTRUCTION_GOTO_TABLE _ => OFPIT_GOTO_TABLE
  | OF_INSTRUCTION_WRITE_METADATA _ _ => OFPIT_WRITE_METADATA
  | OF_INSTRUCTION_WRITE_ACTIONS _ => OFPIT_WRITE_ACTIONS
  | OF_INSTRUCTION_APPLY_ACTIONS _ => OFPIT_APPLY_ACTIONS
  | OF_INSTRUCTION_CLEAR_ACTIONS => OFPIT_CLEAR_ACTIONS
  | OF_INSTRUCTION_OTHER type => type
  end.

Definition of_instruction_goto_table_table_id_get (i : of_instruction) : outcome Z :=
  match i with OF_INSTRUCTION_GOTO_TABLE t => Ok t | _ => Fault Aborted end.
Definition of_instruction_write_metadata_get (i : of_instruction) : outcome (Z * Z) :=
  match i with OF_INSTRUCTION_WRITE_METADATA v m => Ok (v, m) | _ => Fault Aborted end.
Definition of_instruction_apply_actions_actions_get (i : of_instruction)
  : outcome (list of_action) :=
  match i with OF_INSTRUCTION_APPLY_ACTIONS l => Ok l | _ => Fault Aborted end.

(** ** Messages *)

(** [object_id] of the five flow-mod messages. *)
Inductive flow_mod_command :=
| OF_FLOW_ADD | OF_FLOW_MODIFY | OF_FLOW_MODIFY_STRICT
| OF_FLOW_DELETE | OF_FLOW_DELETE_STRICT.

(** The match and the instruction list are [None] when loci fails to decode
    them. *)
Record of_flow_mod := FlowMod {
  fm_table_id : Z; fm_idle_timeout : Z; fm_hard_timeout : Z; fm_flags : Z;
  fm_cookie : Z; fm_priority : Z;
  fm_match : option of_match;
  fm_instructions : option (list of_instruction)
}.

(** Flow and aggregate statistics requests have the same fields. *)
Record of_flow_stats_request := FlowStatsRequest {
  fsr_xid : Z; fsr_cookie : Z; fsr_cookie_mask : Z; fsr_table_id : Z;
  fsr_out_port : Z; fsr_out_group : Z; fsr_match : option of_match
}.

(** [po_data] is [None] when the octets have no data pointer. *)
Record of_packet_out := PacketOut {
  po_buffer_id : Z; po_in_port : Z; po_actions : list of_action;
  po_data : option (list Z)
}.

Inductive of_request :=
| OF_PACKET_OUT (m : of_packet_out)
| OF_FLOW_MOD (command : flow_mod_command) (m : of_flow_mod)
| OF_PORT_STATS_REQUEST (xid port_no : Z)
| OF_FLOW_STATS_REQUEST (m : of_flow_stats_request)
| OF_AGGREGATE_STATS_REQUEST (m : of_flow_stats_request)
| OF_FEATURES_REQUEST (xid : Z)
| OF_PORT_MOD (xid : Z)
| OF_DESC_STATS_REQUEST (xid : Z)
| OF_PORT_DESC_STATS_REQUEST (xid : Z)
| OF_OTHER_MESSAGE.

Record of_packet_in := PacketIn {
  pi_buffer_id : Z; pi_reason : Z; pi_table_id : Z; pi_cookie : Z;
  pi_match : of_match; pi_data : list Z; pi_total_len : Z
}.

Record of_flow_stats_entry := FlowStatsEntry {
  fse_table_id : Z; fse_duration_sec : Z; fse_duration_nsec : Z; fse_priority : Z;
  fse_idle_timeout : Z; fse_hard_timeout : Z; fse_cookie : Z; fse_packet_count : Z;
  fse_byte_count : Z; fse_match : of_match; fse_instructions : list of_instruction
}.

(** One entry of a port statistics reply: the counters the message carries that
    are not constant 0. *)
Record port_stats_entry := PortStatsEntry {
  pse_port_no : Z; pse_rx_packets : Z; pse_tx_packets : Z;
  pse_rx_bytes : Z; pse_tx_bytes : Z }.

(** One entry of a port description reply. *)
Record port_desc := PortDesc {
  pd_port_no : Z; pd_hw_addr : list Z; pd_name : list Z; pd_config : Z; pd_state : Z;
  pd_curr : Z; pd_advertised : Z; pd_supported : Z; pd_peer : Z;
  pd_curr_speed : Z; pd_max_speed : Z }.

Inductive of_reply :=
| OF_PORT_STATS_REPLY (xid : Z) (entries : list port_stats_entry)
| OF_FLOW_STATS_REPLY (xid : Z) (entries : list of_flow_stats_entry)
| OF_AGGREGATE_STATS_REPLY (xid flow_count packet_count byte_count : Z)
| OF_PORT_DESC_STATS_REPLY (xid : Z) (entries : list port_desc).
