(* ===== verification/OfUnpack.v ===== *)
(** * OfUnpack: from OpenFlow objects to the switch's own data

    Models [lib/of_unpack.c]: match fields to a flow key, wire actions to an
    action list or an action set, wire instructions to an instruction set, and
    the four messages that carry them.  The local [struct action gen_act] of
    [unpack_actions] is never initialised and is reused from one action to the
    next; its first contents are a parameter, and the theorems hold for all of
    them. *)

From stdpp Require Import prelude.
From S2P Require Import Prelude Uthash Action Instruction FlowKey Flow FlowTable.
From S2P Require Import Netflow Packet OfMsg.

(** The fields, copied one by one. *)
Definition unpack_match_fields (fields : of_match_fields) : ofl_flow_key :=
  mk_key
    (mf_in_port fields) (mf_in_phy_port fields) (mf_metadata fields)
    (mf_tunnel_id fields) (mf_eth_dst fields) (mf_eth_src fields)
    (mf_eth_type fields) (mf_vlan_vid fields) (mf_vlan_pcp fields)
    (mf_ip_dscp fields) (mf_ip_ecn fields) (mf_ip_proto fields) (mf_ipv4_src fields)
    (mf_ipv4_dst fields) (mf_tcp_src fields) (mf_tcp_dst fields) (mf_udp_src fields)
    (mf_udp_dst fields) (mf_sctp_src fields) (mf_sctp_dst fields)
    (mf_icmpv4_type fields) (mf_icmpv4_code fields) (mf_arp_op fields)
    (mf_arp_spa fields) (mf_arp_tpa fields) (mf_arp_sha fields) (mf_arp_tha fields)
    (mf_ipv6_src fields) (mf_ipv6_dst fields) (mf_ipv6_flabel fields)
    (mf_icmpv6_type fields) (mf_icmpv6_code fields) (mf_ipv6_nd_target fields)
    (mf_ipv6_nd_sll fields) (mf_ipv6_nd_tll fields) (mf_mpls_label fields)
    (mf_mpls_tc fields) (mf_mpls_bos fields).

(** The cases for IPv6, MPLS and the tunnel id; unknown fields leave [act] alone. *)
Definition parse_set_upper (oxm : of_oxm) (type : oxm_ofb_match_fields) (act : action)
  : outcome action :=
  match type with
  | OFPXMT_OFB_IPV6_SRC =>
      v ← of_oxm_value_get OFPXMT_OFB_IPV6_SRC 16 oxm;
      Ok (action_set_field_ipv6_addr act (set_field_value SET_IPV6_SRC) v)
  | OFPXMT_OFB_IPV6_DST =>
      v ← of_oxm_value_get OFPXMT_OFB_IPV6_SRC 16 oxm;
      Ok (action_set_field_ipv6_addr act (set_field_value SET_IPV6_DST) v)
  | OFPXMT_OFB_IPV6_FLABEL =>
      v ← of_oxm_value_get OFPXMT_OFB_IPV6_FLABEL 4 oxm;
      Ok (action_set_field_u32 act (set_field_value SET_IPV6_FLABEL) (be_val v))
  | OFPXMT_OFB_ICMPV6_TYPE =>
      v ← of_oxm_value_get OFPXMT_OFB_ICMPV6_TYPE 1 oxm;
      Ok (action_set_field_u8 act (set_field_value SET_ICMPV6_TYPE) (be_val v))
  | OFPXMT_OFB_ICMPV6_CODE =>
      v ← of_oxm_value_get OFPXMT_OFB_ICMPV6_CODE 1 oxm;
      Ok (action_set_field_u8 act (set_field_value SET_ICMPV6_CODE) (be_val v))
  | OFPXMT_OFB_IPV6_ND_TARGET =>
      v ← of_oxm_value_get OFPXMT_OFB_IPV6_ND_TARGET 16 oxm;
      Ok (action_set_field_ipv6_addr act (set_field_value SET_IPV6_ND_TARGET) v)
  | OFPXMT_OFB_IPV6_ND_SLL =>
      v ← of_oxm_value_get OFPXMT_OFB_IPV6_ND_SLL 6 oxm;
      Ok (action_set_field_eth_addr act (set_field_value SET_IPV6_ND_SLL) v)
  | OFPXMT_OFB_IPV6_ND_TLL =>
      v ← of_oxm_value_get OFPXMT_OFB_IPV6_ND_TLL 6 oxm;
      Ok (action_set_field_eth_addr act (set_field_value SET_IPV6_ND_TLL) v)
  | OFPXMT_OFB_MPLS_LABEL =>
      v ← of_oxm_value_get OFPXMT_OFB_MPLS_LABEL 4 oxm;
      Ok (action_set_field_u32 act (set_field_value SET_MPLS_LABEL) (be_val v))
  | OFPXMT_OFB_MPLS_TC =>
      v ← of_oxm_value_get OFPXMT_OFB_MPLS_TC 1 oxm;
      Ok (action_set_field_u8 act (set_field_value SET_MPLS_TC) (be_val v))
  | OFPXMT_OFB_MPLS_BOS =>
      v ← of_oxm_value_get OFPXMT_OFB_MPLS_BOS 1 oxm;
      Ok (action_set_field_u8 act (set_field_value SET_MPLS_BOS) (be_val v))
  | OFPXMT_OFB_TUNNEL_ID =>
      v ← of_oxm_value_get OFPXMT_OFB_TUNNEL_ID 8 oxm;
      Ok (action_set_field_u8 act (set_field_value SET_TUNNEL_ID) (be_val v))
  | _ => Ok act
  end.

(** Stores the field into [act]. *)
Definition parse_set_field (oxm : of_oxm) (type : oxm_ofb_match_fields) (act : action)
  : outcome action :=
  match type with
  | OFPXMT_OFB_VLAN_VID =>
      v ← of_oxm_value_get OFPXMT_OFB_VLAN_VID 2 oxm;
      Ok (action_set_field_u16 act (set_field_value SET_VLAN_ID) (be_val v))
  | OFPXMT_OFB_VLAN_PCP =>
      v ← of_oxm_value_get OFPXMT_OFB_VLAN_PCP 1 oxm;
      Ok (action_set_field_u8 act (set_field_value SET_VLAN_PCP) (be_val v))
  | OFPXMT_OFB_ETH_DST =>
      v ← of_oxm_value_get OFPXMT_OFB_ETH_DST 6 oxm;
      Ok (action_set_field_eth_addr act (set_field_value SET_ETH_DST) v)
  | OFPXMT_OFB_ETH_SRC =>
      v ← of_oxm_value_get OFPXMT_OFB_ETH_SRC 6 oxm;
      Ok (action_set_field_eth_addr act (set_field_value SET_ETH_SRC) v)
  | OFPXMT_OFB_ETH_TYPE =>
      v ← of_oxm_value_get OFPXMT_OFB_ETH_TYPE 2 oxm;
      Ok (action_set_field_u16 act (set_field_value SET_VLAN_ID) (be_val v))
  | OFPXMT_OFB_IP_DSCP =>
      v ← of_oxm_value_get OFPXMT_OFB_IP_DSCP 1 oxm;
      Ok (action_set_field_u8 act (set_field_value SET_IP_DSCP) (be_val v))
  | OFPXMT_OFB_IP_ECN =>
      v ← of_oxm_value_get OFPXMT_OFB_IP_ECN 1 oxm;
      Ok (action_set_field_u8 act (set_field_value SET_IP_ECN) (be_val v))
  | OFPXMT_OFB_IP_PROTO =>
      v ← of_oxm_value_get OFPXMT_OFB_IP_PROTO 1 oxm;
      Ok (action_set_field_u8 act (set_field_value SET_IP_PROTO) (be_val v))
  | OFPXMT_OFB_IPV4_SRC =>
      v ← of_oxm_value_get OFPXMT_OFB_IPV4_SRC 4 oxm;
      Ok (action_set_field_u32 act (set_field_value SET_IPV4_SRC) (be_val v))
  | OFPXMT_OFB_IPV4_DST =>
      v ← of_oxm_value_get OFPXMT_OFB_IPV4_DST 4 oxm;
      Ok (action_set_field_u32 act (set_field_value SET_IPV4_DST) (be_val v))
  | OFPXMT_OFB_TCP_SRC =>
      v ← of_oxm_value_get OFPXMT_OFB_TCP_SRC 2 oxm;
      Ok (action_set_field_u16 act (set_field_value SET_TCP_SRC) (be_val v))
  | OFPXMT_OFB_TCP_DST =>
      v ← of_oxm_value_get OFPXMT_OFB_TCP_DST 2 oxm;
      Ok (action_set_field_u16 act (set_field_value SET_TCP_DST) (be_val v))
  | OFPXMT_OFB_UDP_SRC =>
      v ← of_oxm_value_get OFPXMT_OFB_UDP_SRC 2 oxm;
      Ok (action_set_field_u16 act (set_field_value SET_UDP_SRC) (be_val v))
  | OFPXMT_OFB_UDP_DST =>
      v ← of_oxm_value_get OFPXMT_OFB_UDP_DST 2 oxm;
      Ok (action_set_field_u16 act (set_field_value SET_UDP_DST) (be_val v))
  | OFPXMT_OFB_SCTP_SRC =>
      v ← of_oxm_value_get OFPXMT_OFB_SCTP_SRC 2 oxm;
      Ok (action_set_field_u16 act (set_field_value SET_SCTP_DST) (be_val v))
  | OFPXMT_OFB_SCTP_DST =>
      v ← of_oxm_value_get OFPXMT_OFB_SCTP_DST 2 oxm;
      Ok (action_set_field_u16 act (set_field_value SET_SCTP_DST) (be_val v))
  | OFPXMT_OFB_ICMPV4_TYPE =>
      v ← of_oxm_value_get OFPXMT_OFB_ICMPV4_TYPE 1 oxm;
      Ok (action_set_field_u8 act (set_field_value SET_ICMPV4_TYPE) (be_val v))
  | OFPXMT_OFB_ICMPV4_CODE =>
      v ← of_oxm_value_get OFPXMT_OFB_ICMPV4_CODE 1 oxm;
      Ok (action_set_field_u8 act (set_field_value SET_ICMPV4_CODE) (be_val v))
  | OFPXMT_OFB_ARP_OP =>
      v ← of_oxm_value_get OFPXMT_OFB_ARP_OP 2 oxm;
      Ok (action_set_field_u16 act (set_field_value SET_ARP_OP) (be_val v))
  | OFPXMT_OFB_ARP_SPA =>
      v ← of_oxm_value_get OFPXMT_OFB_ARP_SPA 4 oxm;
      Ok (action_set_field_u32 act (set_field_value SET_ARP_SPA) (be_val v))
  | OFPXMT_OFB_ARP_TPA =>
      v ← of_oxm_value_get OFPXMT_OFB_ARP_TPA 4 oxm;
      Ok (action_set_field_u32 act (set_field_value SET_ARP_TPA) (be_val v))
  | OFPXMT_OFB_ARP_SHA =>
      v ← of_oxm_value_get OFPXMT_OFB_ARP_SHA 6 oxm;
      Ok (action_set_field_eth_addr act (set_field_value SET_ARP_SHA) v)
  | OFPXMT_OFB_ARP_THA =>
      v ← of_oxm_value_get OFPXMT_OFB_ARP_THA 6 oxm;
      Ok (action_set_field_eth_addr act (set_field_value SET_ARP_THA) v)
  | _ => parse_set_upper oxm type act
  end.

(** The [unpack_actions] macro, for [action_list_add] and [action_set_add].  The
    set-field case fills [gen_act] and does not add it. *)
Fixpoint unpack_actions {D} (add : D → action → D) (wire : list of_action)
    (gen_act : action) (actions : D) : outcome D :=
  match wire with
  | [] => Ok actions
  | act :: wire =>
      r ← match act with
          | OF_ACTION_OUTPUT port _ =>
              let gen_act := action_output gen_act port in
              Ok (gen_act, add actions gen_act)
          | OF_ACTION_SET_FIELD field =>
              oxm ← match field with Some oxm => Ok oxm | None => Fault Aborted end;
              gen_act ← parse_set_field oxm (oxm_field oxm) gen_act;
              Ok (gen_act, actions)
          | OF_ACTION_GROUP group_id =>
              let gen_act := action_group gen_act group_id in
              Ok (gen_act, add actions gen_act)
          | OF_ACTION_PUSH_VLAN eth_type =>
              let gen_act := action_push_vlan gen_act eth_type in
              Ok (gen_act, add actions gen_act)
          | OF_ACTION_PUSH_MPLS eth_type =>
              let gen_act := action_push_mpls gen_act eth_type in
              Ok (gen_act, add actions gen_act)
          | OF_ACTION_POP_VLAN =>
              let gen_act := action_pop_vlan gen_act in
              Ok (gen_act, add actions gen_act)
          | OF_ACTION_POP_MPLS eth_type =>
              let gen_act := action_pop_mpls gen_act eth_type in
              Ok (gen_act, add actions gen_act)
          | OF_ACTION_COPY_TTL_OUT =>
              let gen_act := action_copy_ttl_out gen_act in
              Ok (gen_act, add actions gen_act)
          | OF_ACTION_COPY_TTL_IN =>
              let gen_act := action_copy_ttl_in gen_act in
              Ok (gen_act, add actions gen_act)
          | OF_ACTION_DEC_MPLS_TTL =>
              let gen_act := action_dec_mpls_ttl gen_act in
              Ok (gen_act, add actions gen_act)
          | OF_ACTION_SET_MPLS_TTL mpls_ttl =>
              let gen_act := action_mpls_ttl gen_act mpls_ttl in
              Ok (gen_act, add actions gen_act)
          | OF_ACTION_OTHER _ => Ok (gen_act, actions)
          end;
      let '(gen_act, actions) := r in
      unpack_actions add wire gen_act actions
  end.

(** One round of the loop.  [inst_type] is read at offset 0 of the buffer the
    whole list shares: it is the type of the first instruction, whatever [inst]
    is. *)
Definition unpack_instruction (gen_act : action) (inst_type : Z) (inst : of_instruction)
    (iset : instruction_set) : outcome instruction_set :=
  if inst_type =? OFPIT_GOTO_TABLE then
    table_id ← of_instruction_goto_table_table_id_get inst;
    Ok (add_goto_table iset (inst_goto_table table_id))
  else if inst_type =? OFPIT_WRITE_METADATA then
    r ← of_instruction_write_metadata_get inst;
    let '(metadata, metadata_mask) := r in
    Ok (add_write_metadata iset (inst_write_metadata metadata metadata_mask))
  else if inst_type =? OFPIT_WRITE_ACTIONS then
    action_list ← of_instruction_apply_actions_actions_get inst;
    s ← unpack_actions action_set_add action_list gen_act action_set_init;
    Ok (add_write_actions iset (inst_write_actions s))
  else if inst_type =? OFPIT_APPLY_ACTIONS then
    action_list ← of_instruction_apply_actions_actions_get inst;
    al ← unpack_actions action_list_add action_list gen_act action_list_init;
    Ok (add_apply_actions iset (inst_apply_actions al))
  else if inst_type =? OFPIT_CLEAR_ACTIONS then
    Ok (add_clear_actions iset inst_clear_actions)
  else Ok iset.

Fixpoint unpack_instruction_loop (gen_act : action) (inst_type : Z)
    (insts : list of_instruction) (iset : instruction_set) : outcome instruction_set :=
  match insts with
  | [] => Ok iset
  | inst :: insts =>
      iset ← unpack_instruction gen_act inst_type inst iset;
      unpack_instruction_loop gen_act inst_type insts iset
  end.

Definition unpack_instructions (gen_act : action) (insts : list of_instruction)
    (iset : instruction_set) : outcome instruction_set :=
  let iset := instruction_set_init iset in
  match insts with
  | [] => Ok iset
  | inst :: _ => unpack_instruction_loop gen_act (of_instruction_type inst) insts iset
  end.

(** The flow and whether 0 was returned; an error leaves the flow half filled. *)
Definition unpack_flow_mod (gen_act : action) (fm : of_flow_mod) (f : flow)
  : outcome (flow * bool) :=
  let f := f <| f_table_id := fm_table_id fm |>
             <| f_idle_timeout := fm_idle_timeout fm |>
             <| f_hard_timeout := fm_hard_timeout fm |>
             <| f_flags := fm_flags fm |>
             <| f_cookie := fm_cookie fm |>
             <| f_priority := fm_priority fm |> in
  match fm_match fm with
  | None => Ok (f, false)
  | Some m =>
      let f := f <| f_key := unpack_match_fields (om_fields m) |>
                 <| f_mask := unpack_match_fields (om_masks m) |> in
      match fm_instructions fm with
      | None => Ok (f, false)
      | Some insts =>
          iset ← unpack_instructions gen_act insts (f_insts f);
          Ok (f <| f_insts := iset |>, true)
      end
  end.

Definition unpack_flow_stats_request (m : of_flow_stats_request)
    (req : ofl_flow_stats_req) : ofl_flow_stats_req * bool :=
  match fsr_match m with
  | None => (StatsReq (fsr_table_id m) (fsr_out_port m) (fsr_out_group m) (fsr_cookie m)
               (fsr_cookie_mask m) (req_match req) (req_mask req), false)
  | Some mt => (StatsReq (fsr_table_id m) (fsr_out_port m) (fsr_out_group m) (fsr_cookie m)
               (fsr_cookie_mask m) (unpack_match_fields (om_fields mt))
               (unpack_match_fields (om_masks mt)), true)
  end.

Definition unpack_aggregate_stats_request (m : of_flow_stats_request)
    (req : ofl_flow_stats_req) : ofl_flow_stats_req * bool :=
  match fsr_match m with
  | None => (StatsReq (fsr_table_id m) (fsr_out_port m) (fsr_out_group m) (fsr_cookie m)
               (fsr_cookie_mask m) (req_match req) (req_mask req), false)
  | Some mt => (StatsReq (fsr_table_id m) (fsr_out_port m) (fsr_out_group m) (fsr_cookie m)
               (fsr_cookie_mask m) (unpack_match_fields (om_fields mt))
               (unpack_match_fields (om_masks mt)), true)
  end.

Definition unpack_packet_out (gen_act : action) (m : of_packet_out) (f : netflow)
    (al : action_list) : outcome (netflow * action_list) :=
  let f := f <| nf_metadata; dm_buffer_id := po_buffer_id m |>
             <| nf_match; in_port := po_in_port m |> in
  al ← unpack_actions action_list_add (po_actions m) gen_act al;
  match po_data m with
  | None => Ok (f, al)
  | Some pkt =>
      f ← pkt_to_netflow pkt f (Z.of_nat (length pkt));
      Ok (f <| nf_pkt_cnt := 1 |> <| nf_byte_cnt := Z.of_nat (length pkt) |>, al)
  end.

(** ** What an action means *)

(** The operand bytes the datapath reads for an action of each type. *)
Definition act_operand (a : action) : list Z :=
  if bool_decide (act_type a ∈ [ACT_METER; ACT_GROUP; ACT_OUTPUT]) then union_read 0 4 a
  else if bool_decide (act_type a ∈ [ACT_POP_MPLS; ACT_PUSH_MPLS; ACT_PUSH_VLAN])
  then union_read 0 2 a
  else if act_type a =? ACT_SET_MPLS_TTL then union_read 0 1 a
  else if act_type a =? ACT_SET_FIELD then union_read 0 1 a ++ union_read SET_FIELD_OFF 16 a
  else [].
Definition act_view (a : action) : Z * list Z := (act_type a, act_operand a).

(** The action a wire action is decoded to, if any: set-field actions are
    dropped, and push-MPLS becomes the pop-MPLS that [action_push_mpls] builds. *)
Definition wire_view (act : of_action) : option (Z * list Z) :=
  match act with
  | OF_ACTION_OUTPUT port _ => Some (ACT_OUTPUT, le_bytes 4 port)
  | OF_ACTION_SET_FIELD _ => None
  | OF_ACTION_GROUP group_id => Some (ACT_GROUP, le_bytes 4 group_id)
  | OF_ACTION_PUSH_VLAN eth_type => Some (ACT_PUSH_VLAN, le_bytes 2 eth_type)
  | OF_ACTION_PUSH_MPLS eth_type => Some (ACT_POP_MPLS, le_bytes 2 eth_type)
  | OF_ACTION_POP_VLAN => Some (ACT_POP_VLAN, [])
  | OF_ACTION_POP_MPLS eth_type => Some (ACT_POP_MPLS, le_bytes 2 eth_type)
  | OF_ACTION_COPY_TTL_OUT => Some (ACT_COPY_TTL_OUTWARDS, [])
  | OF_ACTION_COPY_TTL_IN => Some (ACT_COPY_TTL_INWARDS, [])
  | OF_ACTION_DEC_MPLS_TTL => Some (ACT_DECREMENT_MPLS_TTL, [])
  | OF_ACTION_SET_MPLS_TTL mpls_ttl => Some (ACT_SET_MPLS_TTL, le_bytes 1 mpls_ttl)
  | OF_ACTION_OTHER _ => None
  end.

(** Whether decoding goes through: a set-field action must have a field, and the
    field must not be [IPV6_DST], which is read with the [ipv6_src] accessor. *)
Definition decodable (act : of_action) : bool :=
  match act with
  | OF_ACTION_SET_FIELD None => false
  | OF_ACTION_SET_FIELD (Some oxm) => bool_decide (oxm_field oxm ≠ OFPXMT_OFB_IPV6_DST)
  | _ => true
  end.

Definition wire_action_wf (act : of_action) : Prop :=
  match act with OF_ACTION_SET_FIELD (Some oxm) => Forall byte_wf (oxm_value oxm) | _ => True end.

(** ** Decoding actions *)

(** An operand stored at the start of the union. *)
Lemma store_wf ty bs a :
  in_width 16 ty → Forall byte_wf bs → (length bs ≤ 4)%nat → action_wf a →
  action_wf (mk_action ty (patch 0 bs (act_union a))).
Proof.
  intros Ht Hb Hl [_ Hu]. split; [done|]. apply patch_wf; [done|done|].
  unfold UNION_SIZE. lia.
Qed.

Lemma store_bytes_wf ty n v a :
  in_width 16 ty → (n ≤ 4)%nat → action_wf a →
  action_wf (mk_action ty (patch 0 (le_bytes n v) (act_union a))).
Proof.
  intros Ht Hn Ha. apply store_wf; [done|apply le_bytes_wf| |done].
  by rewrite length_le_bytes.
Qed.

Lemma store_read n v ty a :
  action_wf a → (n ≤ 4)%nat →
  union_read 0 n (mk_action ty (patch 0 (le_bytes n v) (act_union a))) = le_bytes n v.
Proof.
  intros [_ [Hl _]] Hn. apply read_back; [done|apply length_le_bytes|].
  unfold UNION_SIZE. lia.
Qed.

Lemma set_field_bytes_wf a field bs :
  action_wf a → Forall byte_wf bs → (length bs ≤ 16)%nat →
  action_wf (set_field_bytes a field bs).
Proof.
  intros Ha Hb Hl. unfold set_field_bytes, set_field.
  destruct (store_bytes_wf ACT_SET_FIELD 1 field a) as [Ht Hu]; [done|lia|done|].
  split; [done|]. apply patch_wf; [exact Hu|done|]. unfold SET_FIELD_OFF, UNION_SIZE. lia.
Qed.

Lemma set_field_le_wf a field n v :
  action_wf a → (n ≤ 16)%nat → action_wf (set_field_bytes a field (le_bytes n v)).
Proof.
  intros. apply set_field_bytes_wf; [done|apply le_bytes_wf|]. by rewrite length_le_bytes.
Qed.

Lemma set_field_take_wf a field n m l :
  action_wf a → (n ≤ 16)%nat → Forall byte_wf l →
  action_wf (set_field_bytes a field (take n (take m l))).
Proof.
  intros. apply set_field_bytes_wf; [done|by do 2 apply Forall_take|].
  rewrite length_take. lia.
Qed.
#[export] Hint Resolve set_field_le_wf set_field_take_wf : horse.

Lemma parse_set_field_cases oxm act :
  action_wf act → Forall byte_wf (oxm_value oxm) →
  if decide (oxm_field oxm = OFPXMT_OFB_IPV6_DST)
  then parse_set_field oxm (oxm_field oxm) act = Fault Aborted
  else ∃ act', parse_set_field oxm (oxm_field oxm) act = Ok act' ∧ action_wf act'.
Proof.
  intros Ha Hv. destruct oxm as [field v]. cbn [oxm_field oxm_value] in *.
  destruct field; cbn -[take le_bytes set_field_value]; try done.
  all: eexists; split; [reflexivity|].
  all: first [exact Ha | apply set_field_le_wf; [done|lia]
             | apply set_field_take_wf; [done|unfold ETH_LEN, IPV6_LEN; lia|done]].
Qed.

(** Decoding into any container is decoding into a list and adding its elements
    in order. *)
Lemma unpack_actions_fold {D} (add : D → action → D) wire gen_act d al :
  unpack_actions action_list_add wire gen_act al =
    (l ← unpack_actions action_list_add wire gen_act []; Ok (al ++ l)) ∧
  unpack_actions add wire gen_act d =
    (l ← unpack_actions action_list_add wire gen_act []; Ok (foldl add d l)).
Proof.
  revert gen_act d al. induction wire as [|act wire IH]; intros g d al.
  { cbn. by rewrite app_nil_r. }
  assert (∀ g' x, (unpack_actions action_list_add wire g' (al ++ [x]) =
      l ← unpack_actions action_list_add wire g' [x]; Ok (al ++ l)) ∧
    unpack_actions add wire g' (add d x) =
      (l ← unpack_actions action_list_add wire g' [x]; Ok (foldl add d l))) as Hadd.
  { intros g' x. rewrite (proj1 (IH g' d (al ++ [x]))), (proj1 (IH g' d [x])).
    rewrite (proj2 (IH g' (add d x) [])).
    destruct (unpack_actions action_list_add wire g' []); [|done].
    cbn [mbind outcome_bind foldl app]. by rewrite <- app_assoc. }
  destruct act; cbn [unpack_actions mbind outcome_bind];
    first [exact (Hadd _ _)|apply IH|idtac].
  destruct field as [oxm|]; [|done]. cbn [mbind outcome_bind].
  destruct (parse_set_field oxm (oxm_field oxm) g); [|done]. cbn [mbind outcome_bind].
  apply IH.
Qed.

(** Adding one decoded action in front of the rest. *)
Definition decodes (gen_act : action) (wire : list of_action) : Prop :=
  if forallb decodable wire then
    ∃ al, unpack_actions action_list_add wire gen_act [] = Ok al ∧
      act_view <$> al = omap wire_view wire ∧ Forall action_wf al
  else unpack_actions action_list_add wire gen_act [] = Fault Aborted.

Lemma decodes_added act g g' wire :
  (unpack_actions action_list_add (act :: wire) g [] =
    unpack_actions action_list_add wire g' [g']) →
  decodable act = true → wire_view act = Some (act_view g') → action_wf g' →
  decodes g' wire → decodes g (act :: wire).
Proof.
  intros He Hd Hv Hw Hrest. unfold decodes in *. cbn [forallb]. rewrite Hd, He. cbn [andb].
  rewrite (proj1 (unpack_actions_fold action_list_add wire g' [] [g'])).
  destruct (forallb decodable wire).
  - destruct Hrest as (al & -> & Hal & Hwf). exists (g' :: al). split; [done|].
    split; [|by constructor]. cbn. by rewrite Hv, Hal.
  - by rewrite Hrest.
Qed.

Lemma unpack_actions_decodes wire gen_act :
  action_wf gen_act → Forall wire_action_wf wire → decodes gen_act wire.
Proof.
  intros Hg Hw. revert gen_act Hg. induction Hw as [|act wire Ha _ IH]; intros g Hg.
  { exists []. by repeat split. }
  destruct act as [p ?|field|gid|e|e| |e| | | |ttl|ty].
  2: { destruct field as [oxm|]; [|done].
    cbn [wire_action_wf] in Ha. pose proof (parse_set_field_cases oxm g Hg Ha) as Hp.
    unfold decodes. cbn [forallb decodable unpack_actions omap list_omap wire_view].
    cbn [mbind outcome_bind].
    destruct (decide (oxm_field oxm = OFPXMT_OFB_IPV6_DST)) as [He|He].
    - rewrite Hp, bool_decide_false by tauto. done.
    - destruct Hp as (g' & -> & Hg'). rewrite bool_decide_true by done. by apply IH. }
  11: by apply IH.
  all: eapply decodes_added; [reflexivity|reflexivity| | |apply IH].
  all: try (apply store_bytes_wf; [done|lia|done]); try (split; [done|apply Hg]).
  all: cbn [wire_view]; unfold act_view, act_operand; cbn [act_type setf].
  all: first [reflexivity | rewrite (store_read 4 _ _ g Hg) by lia; reflexivity
    | rewrite (store_read 2 _ _ g Hg) by lia; reflexivity
    | rewrite (store_read 1 _ _ g Hg) by lia; reflexivity].
Qed.

(** Decoding an action list never depends on what the uninitialised scratch
    action holds: the result has one action per output, group, push, pop and TTL
    action of the message, in order, with the operand of the message.  Set-field
    actions are dropped, push-MPLS actions arrive as pop-MPLS, and a list with a
    set-field of the IPv6 destination (or without a field) aborts. *)
Theorem unpack_actions_meaning gen_act wire :
  action_wf gen_act → Forall wire_action_wf wire →
  if forallb decodable wire then
    ∃ al, unpack_actions action_list_add wire gen_act action_list_init = Ok al ∧
      act_view <$> al = omap wire_view wire
  else unpack_actions action_list_add wire gen_act action_list_init = Fault Aborted.
Proof.
  intros Hg Hw. pose proof (unpack_actions_decodes wire gen_act Hg Hw) as H.
  unfold decodes in H. destruct (forallb decodable wire); [|done].
  destruct H as (al & H1 & H2 & _). by exists al.
Qed.

Lemma unpack_actions_meaning_witness :
  ∃ al, unpack_actions action_list_add
      [OF_ACTION_PUSH_VLAN 0x8100; OF_ACTION_SET_FIELD (Some (Oxm OFPXMT_OFB_VLAN_VID [16; 5]));
       OF_ACTION_OUTPUT 3 0] blank_action action_list_init = Ok al ∧
    act_view <$> al = [(ACT_PUSH_VLAN, [0; 129]); (ACT_OUTPUT, [3; 0; 0; 0])].
Proof.
  apply (unpack_actions_meaning blank_action
    [OF_ACTION_PUSH_VLAN 0x8100; OF_ACTION_SET_FIELD (Some (Oxm OFPXMT_OFB_VLAN_VID [16; 5]));
     OF_ACTION_OUTPUT 3 0]).
  - by split; apply (bool_decide_unpack _); vm_compute.
  - apply Forall_cons; split; [exact I|].
    apply Forall_cons; split; [by apply (bool_decide_unpack _); vm_compute|].
    apply Forall_cons; split; [exact I|apply Forall_nil_2].
Defined.

(** ** Decoding instructions *)

(** What one instruction of the right class does. *)
Definition decode_instruction (gen_act : action) (i : of_instruction)
    (iset : instruction_set) : outcome instruction_set :=
  unpack_instruction gen_act (of_instruction_type i) i iset.

(** The instruction loop dispatches on the type of the first instruction of
    the list (of_unpack.c:363 reads offset 0 of the shared buffer): a list of one
    instruction is decoded as that instruction, write-actions aborts (the
    apply-actions accessor is used on it), and a second instruction of another
    class aborts too, or is taken for another clear-actions. *)
Theorem unpack_instructions_first_type gen_act i j rest iset :
  unpack_instructions gen_act [] iset = Ok (instruction_set_init iset) ∧
  unpack_instructions gen_act [i] iset =
    decode_instruction gen_act i (instruction_set_init iset) ∧
  (∀ acts, i = OF_INSTRUCTION_WRITE_ACTIONS acts →
    unpack_instructions gen_act (i :: rest) iset = Fault Aborted) ∧
  (of_instruction_type i ∈ [OFPIT_GOTO_TABLE; OFPIT_WRITE_METADATA] →
    (∀ ty, i ≠ OF_INSTRUCTION_OTHER ty) →
    of_instruction_type j ≠ of_instruction_type i →
    unpack_instructions gen_act (i :: j :: rest) iset = Fault Aborted) ∧
  (∀ acts al, i = OF_INSTRUCTION_APPLY_ACTIONS acts →
    unpack_actions action_list_add acts gen_act action_list_init = Ok al →
    of_instruction_type j ≠ OFPIT_APPLY_ACTIONS →
    unpack_instructions gen_act (i :: j :: rest) iset = Fault Aborted) ∧
  (i = OF_INSTRUCTION_CLEAR_ACTIONS →
    unpack_instructions gen_act (i :: j :: rest) iset =
    unpack_instructions gen_act (i :: rest) iset).
Proof.
  split; [done|]. split; [|split; [|split; [|split]]].
  - cbn [unpack_instructions unpack_instruction_loop]. unfold decode_instruction.
    by destruct (unpack_instruction _ _ _ _).
  - by intros acts ->.
  - intros Hi Ho Hj. destruct i; try (by destruct j); try (by vm_compute in Hi; set_solver).
  - intros acts al -> Hal Hj. unfold unpack_instructions.
    cbn [unpack_instruction_loop of_instruction_type].
    unfold unpack_instruction. cbn [of_instruction_apply_actions_actions_get mbind outcome_bind].
    cbn [Z.eqb Pos.eqb OFPIT_APPLY_ACTIONS OFPIT_GOTO_TABLE OFPIT_WRITE_METADATA
      OFPIT_WRITE_ACTIONS]. rewrite Hal. by destruct j.
  - by intros ->.
Qed.

Lemma unpack_instructions_first_type_witness :
  unpack_instructions blank_action
    [OF_INSTRUCTION_APPLY_ACTIONS [OF_ACTION_OUTPUT 2 0]; OF_INSTRUCTION_GOTO_TABLE 1]
    instruction_set_zero = Fault Aborted ∧
  gt_table_id (gt_table (add_goto_table instruction_set_zero (inst_goto_table 1))) = 1.
Proof.
  destruct (unpack_instructions_first_type blank_action
    (OF_INSTRUCTION_APPLY_ACTIONS [OF_ACTION_OUTPUT 2 0]) (OF_INSTRUCTION_GOTO_TABLE 1) []
    instruction_set_zero) as (_ & _ & _ & _ & H & _).
  split; [|reflexivity]. eapply H; [reflexivity|vm_compute; reflexivity|discriminate].
Defined.
