(* ===== verification/OfPack.v ===== *)
(** * OfPack: from the switch's own data to OpenFlow objects

    Models [lib/of_pack.c]: match fields, actions, instructions, packet-in
    messages and statistics replies.  loci's setters fail only when they run out
    of memory, which is not modelled.  The 16-byte IPv6 value of a set-field is
    filled with 6 bytes only; the other 10, [stack], are what the stack held. *)

From stdpp Require Import prelude.
From S2P Require Import Prelude Uthash Action Instruction FlowKey Flow.
From S2P Require Import Netflow Packet OfMsg OfUnpack.

Definition MAX_PACKET_IN_DATA : nat := 1492.

(** [OF_MATCH_MASK_IN_PORT_EXACT_SET] writes the all-ones mask. *)
Definition netflow_to_match (flow : netflow) : of_match :=
  OfMatch (match_fields_zero <| mf_in_port := in_port (nf_match flow) |>)
          (match_fields_zero <| mf_in_port := 0xffffffff |>).

(** [icmpv6_code] is assigned to itself. *)
Definition pack_match_fields (key : ofl_flow_key) (fields : of_match_fields) : of_match_fields :=
  MatchFields
    (in_port key) (in_phy_port key) (metadata key) (tunnel_id key) (eth_dst key)
    (eth_src key) (eth_type key) (vlan_id key) (vlan_pcp key) (ip_dscp key)
    (ip_ecn key) (ip_proto key) (ipv4_src key) (ipv4_dst key) (tcp_src key)
    (tcp_dst key) (udp_src key) (udp_dst key) (sctp_src key) (sctp_dst key)
    (icmpv4_type key) (icmpv4_code key) (arp_op key) (arp_spa key) (arp_tpa key)
    (arp_sha key) (arp_tha key) (ipv6_src key) (ipv6_dst key) (ipv6_flabel key)
    (icmpv6_type key) (mf_icmpv6_code fields) (ipv6_nd_target key) (ipv6_nd_sll key)
    (ipv6_nd_tll key) (mpls_label key) (mpls_tc key) (mpls_bos key).

(** The cases of the [switch] of [pack_set_field]: metadata, Ethernet, VLAN, MPLS and
    IPv4. *)
Definition pack_set_lower (act : action) (f : set_field_type) : option of_oxm :=
  match f with
  | SET_METADATA => Some (of_oxm_new OFPXMT_OFB_METADATA (be_bytes 8 (act_u64_field act)))
  | SET_TUNNEL_ID => Some (of_oxm_new OFPXMT_OFB_TUNNEL_ID (be_bytes 8 (act_u64_field act)))
  | SET_ETH_TYPE => Some (of_oxm_new OFPXMT_OFB_ETH_TYPE (be_bytes 2 (act_u16_field act)))
  | SET_ETH_DST => Some (of_oxm_new OFPXMT_OFB_ETH_DST (act_eth_addr act))
  | SET_ETH_SRC => Some (of_oxm_new OFPXMT_OFB_ETH_SRC (act_eth_addr act))
  | SET_VLAN_ID => Some (of_oxm_new OFPXMT_OFB_VLAN_VID (be_bytes 2 (act_u16_field act)))
  | SET_VLAN_PCP => Some (of_oxm_new OFPXMT_OFB_VLAN_PCP (be_bytes 1 (act_u8_field act)))
  | SET_MPLS_LABEL => Some (of_oxm_new OFPXMT_OFB_MPLS_LABEL (be_bytes 4 (act_u32_field act)))
  | SET_MPLS_TC => Some (of_oxm_new OFPXMT_OFB_MPLS_TC (be_bytes 1 (act_u8_field act)))
  | SET_MPLS_BOS => Some (of_oxm_new OFPXMT_OFB_MPLS_BOS (be_bytes 1 (act_u8_field act)))
  | SET_IP_DSCP => Some (of_oxm_new OFPXMT_OFB_IP_DSCP (be_bytes 1 (act_u8_field act)))
  | SET_IP_ECN => Some (of_oxm_new OFPXMT_OFB_IP_ECN (be_bytes 1 (act_u8_field act)))
  | SET_IP_PROTO => Some (of_oxm_new OFPXMT_OFB_IP_PROTO (be_bytes 1 (act_u8_field act)))
  | SET_IPV4_DST => Some (of_oxm_new OFPXMT_OFB_IPV4_DST (be_bytes 4 (act_u32_field act)))
  | SET_IPV4_SRC => Some (of_oxm_new OFPXMT_OFB_IPV4_SRC (be_bytes 4 (act_u32_field act)))
  | _ => None
  end.

(** ICMP, ports and ARP. *)
Definition pack_set_middle (act : action) (f : set_field_type) : option of_oxm :=
  match f with
  | SET_ICMPV4_TYPE => Some (of_oxm_new OFPXMT_OFB_ICMPV4_TYPE (be_bytes 1 (act_u8_field act)))
  | SET_ICMPV4_CODE => Some (of_oxm_new OFPXMT_OFB_ICMPV4_CODE (be_bytes 1 (act_u8_field act)))
  | SET_TCP_DST => Some (of_oxm_new OFPXMT_OFB_TCP_DST (be_bytes 2 (act_u16_field act)))
  | SET_TCP_SRC => Some (of_oxm_new OFPXMT_OFB_TCP_SRC (be_bytes 2 (act_u16_field act)))
  | SET_UDP_DST => Some (of_oxm_new OFPXMT_OFB_UDP_DST (be_bytes 2 (act_u16_field act)))
  | SET_UDP_SRC => Some (of_oxm_new OFPXMT_OFB_UDP_SRC (be_bytes 2 (act_u16_field act)))
  | SET_SCTP_DST => Some (of_oxm_new OFPXMT_OFB_SCTP_DST (be_bytes 2 (act_u16_field act)))
  | SET_SCTP_SRC => Some (of_oxm_new OFPXMT_OFB_SCTP_SRC (be_bytes 2 (act_u16_field act)))
  | SET_ARP_OP => Some (of_oxm_new OFPXMT_OFB_ARP_OP (be_bytes 2 (act_u16_field act)))
  | SET_ARP_SPA => Some (of_oxm_new OFPXMT_OFB_ARP_SPA (be_bytes 4 (act_u32_field act)))
  | SET_ARP_TPA => Some (of_oxm_new OFPXMT_OFB_ARP_TPA (be_bytes 4 (act_u32_field act)))
  | SET_ARP_SHA => Some (of_oxm_new OFPXMT_OFB_ARP_SHA (act_eth_addr act))
  | SET_ARP_THA => Some (of_oxm_new OFPXMT_OFB_ARP_THA (act_eth_addr act))
  | _ => None
  end.

(** IPv6. *)
Definition pack_set_upper (stack : list Z) (act : action) (f : set_field_type) : option of_oxm :=
  match f with
  | SET_IPV6_DST => Some (of_oxm_new OFPXMT_OFB_IPV6_DST (take ETH_LEN (act_ipv6_addr act) ++ stack))
  | SET_IPV6_SRC => Some (of_oxm_new OFPXMT_OFB_IPV6_SRC (take ETH_LEN (act_ipv6_addr act) ++ stack))
  | SET_IPV6_FLABEL => Some (of_oxm_new OFPXMT_OFB_IPV6_FLABEL (be_bytes 4 (act_u32_field act)))
  | SET_ICMPV6_TYPE => Some (of_oxm_new OFPXMT_OFB_ICMPV6_TYPE (be_bytes 1 (act_u8_field act)))
  | SET_ICMPV6_CODE => Some (of_oxm_new OFPXMT_OFB_ICMPV6_CODE (be_bytes 1 (act_u8_field act)))
  | SET_IPV6_ND_TARGET => Some (of_oxm_new OFPXMT_OFB_IPV6_ND_TARGET (take ETH_LEN (act_ipv6_addr act) ++ stack))
  | SET_IPV6_ND_SLL => Some (of_oxm_new OFPXMT_OFB_IPV6_ND_SLL (act_eth_addr act))
  | SET_IPV6_ND_TLL => Some (of_oxm_new OFPXMT_OFB_IPV6_ND_TLL (act_eth_addr act))
  | _ => None
  end.

Definition pack_set_field (stack : list Z) (act : action) : of_action :=
  OF_ACTION_SET_FIELD
    (f ← set_field_of_value (act_field act);
     match pack_set_lower act f with
     | Some oxm => Some oxm
     | None => match pack_set_middle act f with
               | Some oxm => Some oxm
               | None => pack_set_upper stack act f
               end
     end).

Definition pack_action (stack : list Z) (act : action) : option of_action :=
  if act_type act =? ACT_OUTPUT then Some (OF_ACTION_OUTPUT (act_out_port act) 0)
  else if act_type act =? ACT_SET_FIELD then Some (pack_set_field stack act)
  else if act_type act =? ACT_POP_VLAN then Some OF_ACTION_POP_VLAN
  else if act_type act =? ACT_POP_MPLS then Some (OF_ACTION_POP_MPLS (act_eth_type act))
  else if act_type act =? ACT_PUSH_MPLS then Some (OF_ACTION_PUSH_MPLS (act_eth_type act))
  else if act_type act =? ACT_PUSH_VLAN then Some (OF_ACTION_PUSH_VLAN (act_eth_type act))
  else if act_type act =? ACT_GROUP then Some (OF_ACTION_GROUP (act_group_id act))
  else None.

Fixpoint pack_action_list (stack : list Z) (al : action_list) (acts : list of_action)
  : list of_action :=
  match al with
  | [] => acts
  | act :: al =>
      pack_action_list stack al
        match pack_action stack act with Some a => acts ++ [a] | None => acts end
  end.

(** From [ACT_METER] to [ACT_OUTPUT]. *)
Definition pack_action_set (stack : list Z) (s : action_set) (acts : list of_action)
  : list of_action :=
  foldl (λ acts type,
    match action_set_action s type ≫= pack_action stack with
    | Some a => acts ++ [a]
    | None => acts
    end) acts (Z.of_nat <$> seq 0 14).

Definition pack_instructions (stack : list Z) (iset : instruction_set)
    (insts : list of_instruction) : list of_instruction :=
  let insts := if instruction_is_active iset INSTRUCTION_APPLY_ACTIONS
    then insts ++ [OF_INSTRUCTION_APPLY_ACTIONS
                     (pack_action_list stack (aa_actions (apply_act iset)) [])]
    else insts in
  let insts := if instruction_is_active iset INSTRUCTION_CLEAR_ACTIONS
    then insts ++ [OF_INSTRUCTION_CLEAR_ACTIONS] else insts in
  let insts := if instruction_is_active iset INSTRUCTION_WRITE_ACTIONS
    then insts ++ [OF_INSTRUCTION_WRITE_ACTIONS
                     (pack_action_set stack (wa_actions (write_act iset)) [])]
    else insts in
  let insts := if instruction_is_active iset INSTRUCTION_WRITE_METADATA
    then insts ++ [OF_INSTRUCTION_WRITE_METADATA (wm_metadata (write_meta iset))
                     (wm_metadata_mask (write_meta iset))]
    else insts in
  if instruction_is_active iset INSTRUCTION_GOTO_TABLE
  then insts ++ [OF_INSTRUCTION_GOTO_TABLE (gt_table_id (gt_table iset))]
  else insts.

(** [buf] is the allocated data buffer. *)
Definition pack_packet_in (buf : list Z) (f : netflow) : outcome of_packet_in :=
  r ← netflow_to_pkt f buf;
  let '(data, pkt_len) := r in
  Ok (PacketIn (dm_buffer_id (nf_metadata f)) (dm_reason (nf_metadata f))
        (dm_table_id (nf_metadata f)) (dm_cookie (nf_metadata f)) (netflow_to_match f)
        (take pkt_len data) (u16 (Z.of_nat pkt_len))).

Definition flow_stats_entry (stack : list Z) (f : flow) : of_flow_stats_entry :=
  FlowStatsEntry (f_table_id f) 0 0 (f_priority f) (f_idle_timeout f) (f_hard_timeout f)
    (f_cookie f) (f_pkt_cnt f) (f_byte_cnt f)
    (OfMatch (pack_match_fields (f_key f) match_fields_zero)
             (pack_match_fields (f_mask f) match_fields_zero))
    (pack_instructions stack (f_insts f) []).

Definition pack_flow_stats_reply (stack : list Z) (flows : list flow) (xid : Z) : of_reply :=
  OF_FLOW_STATS_REPLY xid (flow_stats_entry stack <$> flows).

(** The packet count is set a second time, to the bytes; the byte count of the
    new message stays 0. *)
Definition pack_aggregate_stats_reply (flows : list flow) (xid : Z) : of_reply :=
  let '(pkt_cnt, byte_cnt) :=
    foldl (λ c f, (u64 (c.1 + f_pkt_cnt f), u64 (c.2 + f_byte_cnt f))) (0, 0) flows in
  let packet_count := pkt_cnt in
  let packet_count := byte_cnt in
  OF_AGGREGATE_STATS_REPLY xid (u32 (Z.of_nat (length flows))) packet_count 0.

(** ** Round trips *)

(** Match fields survive the way to the controller and back except
    [icmpv6_code], which [pack_match_fields] assigns to itself: packing and
    unpacking a key keeps every other field, and unpacking and packing the fields
    of a message gives them back unchanged. *)
Theorem match_fields_round_trip key fields :
  unpack_match_fields (pack_match_fields key fields)
    = key <| icmpv6_code := mf_icmpv6_code fields |> ∧
  pack_match_fields (unpack_match_fields fields) fields = fields.
Proof. by destruct key, fields. Qed.

(** The types that packing and unpacking keep. *)
Definition portable (ty : Z) : bool :=
  bool_decide (ty ∈ [ACT_POP_VLAN; ACT_POP_MPLS; ACT_PUSH_VLAN; ACT_GROUP; ACT_OUTPUT]).

Lemma pack_action_list_omap stack al acts :
  pack_action_list stack al acts = acts ++ omap (pack_action stack) al.
Proof.
  revert acts. induction al as [|act al IH]; intros acts; cbn; [by rewrite app_nil_r|].
  rewrite IH. destruct (pack_action stack act); [|done]. by rewrite <- app_assoc.
Qed.

Lemma pack_portable stack act :
  action_wf act → portable (act_type act) = true →
  ∃ w, pack_action stack act = Some w ∧ wire_view w = Some (act_view act) ∧
       decodable w = true ∧ wire_action_wf w.
Proof.
  intros Ha Hp. unfold portable in Hp. apply bool_decide_eq_true in Hp.
  assert (∀ n, (n ≤ UNION_SIZE)%nat →
    le_bytes n (le_val (union_read 0 n act)) = union_read 0 n act) as Hval.
  { intros n Hn. destruct Ha as [_ [Hl Hf]].
    assert (length (union_read 0 n act) = n) as Hlen
      by (unfold union_read; rewrite length_take, length_drop; lia).
    rewrite <- Hlen at 1. apply le_bytes_val. unfold union_read.
    by apply Forall_take, Forall_drop. }
  rewrite !elem_of_cons, elem_of_nil in Hp.
  destruct Hp as [E|[E|[E|[E|[E|[]]]]]]; unfold pack_action; rewrite E; eexists;
    (split; [reflexivity|]); (split; [|done]); cbn [wire_view]; f_equal;
    unfold act_view, act_operand; rewrite E; try done; f_equal;
    first [exact (Hval 2%nat ltac:(unfold UNION_SIZE; lia))
          |exact (Hval 4%nat ltac:(unfold UNION_SIZE; lia))].
Qed.

Lemma pack_unpack_views stack al gen_act :
  Forall action_wf al → Forall (λ a, portable (act_type a) = true) al → action_wf gen_act →
  ∃ al', unpack_actions action_list_add (pack_action_list stack al []) gen_act
           action_list_init = Ok al' ∧
         act_view <$> al' = act_view <$> al ∧ Forall action_wf al'.
Proof.
  intros Ha Hp Hg. rewrite pack_action_list_omap. cbn [app].
  assert (Forall wire_action_wf (omap (pack_action stack) al) ∧
          forallb decodable (omap (pack_action stack) al) = true ∧
          omap wire_view (omap (pack_action stack) al) = act_view <$> al) as (Hw & Hd & Hv).
  { clear Hg. induction Ha as [|act al Ha1 _ IH]; [done|]. inversion Hp; subst.
    destruct (pack_portable stack act) as (w & Hw & Hv & Hd & Hwf); [done|done|].
    destruct IH as (IH1 & IH2 & IH3); [done|]. cbn [omap list_omap]. rewrite Hw.
    split; [by constructor|]. split; [cbn [forallb]; by rewrite Hd, IH2|].
    cbn [omap list_omap fmap list_fmap]. rewrite Hv. by f_equal. }
  pose proof (unpack_actions_decodes _ gen_act Hg Hw) as H. unfold decodes in H.
  rewrite Hd in H. destruct H as (al' & H1 & H2 & H3). exists al'.
  split; [done|]. split; [|done]. by rewrite H2.
Qed.

(** The aggregate statistics reply counts the flows, but reports the bytes
    as the number of packets and no bytes at all: [packet_count] is set twice
    (of_pack.c:613-614). *)
Theorem aggregate_reply_swaps_counts flows xid :
  (Z.of_nat (length flows) < 2 ^ 32) →
  pack_aggregate_stats_reply flows xid =
  OF_AGGREGATE_STATS_REPLY xid (Z.of_nat (length flows))
    (u64 (foldr (λ f s, f_byte_cnt f + s) 0 flows)) 0.
Proof.
  intros Hl. unfold pack_aggregate_stats_reply.
  assert (∀ l p b, in_width 64 b →
    (foldl (λ c f, (u64 (c.1 + f_pkt_cnt f), u64 (c.2 + f_byte_cnt f))) (p, b) l).2
    = u64 (b + foldr (λ f s, f_byte_cnt f + s) 0 l)) as Hsum.
  { induction l as [|f l IH]; intros p b Hb; cbn [foldl foldr].
    - rewrite Z.add_0_r. symmetry. by apply wrap_small.
    - rewrite IH by by apply wrap_in_width. cbn [fst snd].
      unfold wrap. rewrite Zplus_mod_idemp_l. f_equal. lia. }
  specialize (Hsum flows 0 0 ltac:(done)).
  destruct (foldl _ _ _) as [p b]. cbn [snd] in Hsum. rewrite Hsum, Z.add_0_l.
  f_equal. apply wrap_small. split; [lia|done].
Qed.

Lemma aggregate_reply_swaps_counts_witness :
  pack_aggregate_stats_reply
    [(flow_new 0) <| f_pkt_cnt := 3 |> <| f_byte_cnt := 300 |>;
     (flow_new 0) <| f_pkt_cnt := 1 |> <| f_byte_cnt := 60 |>] 9 =
  OF_AGGREGATE_STATS_REPLY 9 2 360 0.
Proof.
  rewrite (aggregate_reply_swaps_counts
    [(flow_new 0) <| f_pkt_cnt := 3 |> <| f_byte_cnt := 300 |>;
     (flow_new 0) <| f_pkt_cnt := 1 |> <| f_byte_cnt := 60 |>] 9); [|cbn; lia].
  vm_compute. reflexivity.
Defined.
