(* ===== verification/Datapath.v ===== *)
(** * Datapath: the OpenFlow pipeline of a switch

    Models [net/datapath.c]: the switch with its ports and 128 flow tables, the
    execution of action lists, action sets and instructions, the pipeline
    ([dp_recv_netflow]), flooding, transmission accounting, and the handlers of
    control messages from the point where the message has been unpacked.

    The pipeline is written against the interface [LookupSpec], which states
    what a flow table promises: the best live flow or nothing, and no change to
    the flows it keeps but the time stamp.  [lib/flow_table.c] discharges it.

    The theorems: from a well-formed switch and netflow the pipeline terminates
    without a fault and keeps both well formed; its result is the one the
    abstract OpenFlow pipeline allows; a flow that jumps past the table array
    makes it read out of bounds. *)

From stdpp Require Import prelude gmap.
From S2P Require Import Prelude Util Uthash Action Instruction FlowKey Flow FlowTable Ownership.
From S2P Require Import Netflow Node DpActions OfMsg.

Definition MAX_TABLES : nat := 128.
Definition OFP_NO_BUFFER : Z := 0xffffffff.
Definition OFPP_ANY : Z := 0xffffffff.
Definition OFPTT_ALL : Z := 0xff.

(** [dp_settings] belongs to the controller connection library. *)
Record datapath := mk_datapath {
  dp_base : node;
  dp_dp_id : Z;
  dp_tables : list flow_table
}.
#[export] Instance eta_datapath : Eta datapath := λ d,
  mk_datapath (dp_base d) (dp_dp_id d) (dp_tables d).

Definition dp_new (current_uuid dp_id : Z) : Z * datapath :=
  let '(uuid, base) := node_init current_uuid DATAPATH in
  (uuid, mk_datapath base dp_id ((λ i, flow_table_new (Z.of_nat i)) <$> seq 0 MAX_TABLES)).

(** The freed flows and ports. *)
Definition dp_destroy (dp : datapath) : list addr * list addr :=
  (mjoin (flow_table_destroy <$> dp_tables dp), (node_destroy_ports (dp_base dp)).2).

Definition dp_add_port (dp : datapath) (a : addr) (port_id : Z) (eth_addr : list Z)
    (speed curr_speed : Z) : outcome datapath :=
  base ← node_add_port (dp_base dp) a port_id eth_addr speed curr_speed;
  Ok (dp <| dp_base := base |>).

Definition dp_port (dp : datapath) (port_id : Z) : option (addr * port) :=
  node_port (dp_base dp) port_id.
Definition dp_ports (dp : datapath) : uthash port := n_ports (dp_base dp).

(** ** Executing actions and instructions *)

Fixpoint execute_action_list (al : action_list) (flow : netflow) : outcome netflow :=
  match al with
  | [] => Ok flow
  | act :: al => flow ← execute_action act flow; execute_action_list al flow
  end.

(** From [ACT_METER] to [ACT_OUTPUT]. *)
Definition action_types : list Z := Z.of_nat <$> seq 0 14.

Fixpoint execute_types (s : action_set) (types : list Z) (flow : netflow)
  : outcome netflow :=
  match types with
  | [] => Ok flow
  | ty :: types =>
      flow ← match action_set_action s ty with
             | Some act => execute_action act flow
             | None => Ok flow
             end;
      execute_types s types flow
  end.
Definition execute_action_set (s : action_set) (flow : netflow) : outcome netflow :=
  execute_types s action_types flow.

(** Returns the next table, the netflow and the action set. *)
Definition execute_instructions (insts : instruction_set) (table_id : Z)
    (flow : netflow) (acts : action_set) : outcome (Z * netflow * action_set) :=
  flow ← (if instruction_is_active insts INSTRUCTION_APPLY_ACTIONS
          then execute_action_list (aa_actions (apply_act insts)) flow else Ok flow);
  let acts := if instruction_is_active insts INSTRUCTION_CLEAR_ACTIONS
              then action_set_clean acts else acts in
  let acts := if instruction_is_active insts INSTRUCTION_WRITE_ACTIONS
              then action_set_merge acts (wa_actions (write_act insts)) else acts in
  let flow := if instruction_is_active insts INSTRUCTION_WRITE_METADATA
              then flow <| nf_match; metadata := wm_metadata (write_meta insts) |>
              else flow in
  let table_id := if instruction_is_active insts INSTRUCTION_GOTO_TABLE
                  then gt_table_id (gt_table insts) else table_id in
  Ok (table_id, flow, acts).

(** ** The pipeline *)

Abbreviation lookup_fun :=
  (flow_table → ofl_flow_key → Z → flow_table * option (addr * flow)).

Definition count_flow (nf : netflow) (f : flow) : flow :=
  f <| f_pkt_cnt ::= λ c, u64 (c + nf_pkt_cnt nf) |>
    <| f_byte_cnt ::= λ c, u64 (c + nf_byte_cnt nf) |>.

Section pipeline.
Context (lookup : lookup_fun).

(** The [while (table)] loop; the flag says that the netflow is returned.  Every
    round moves to a table of greater number, so [MAX_TABLES + 1] rounds are
    enough. *)
Fixpoint run_tables (fuel : nat) (tables : list flow_table) (table_id : Z)
    (nf : netflow) (acts : action_set) : outcome (list flow_table * netflow * bool) :=
  match fuel with
  | O => Fault OutOfFuel
  | S fuel =>
      table ← array_get tables table_id;
      let '(table, found) := lookup table (nf_match nf) (nf_start_time nf) in
      match found with
      | None =>
          tables ← array_set tables table_id table;
          Ok (tables, nf, false)
      | Some (a, f) =>
          tables ← array_set tables table_id (ft_update a (count_flow nf) table);
          let nf := nf <| nf_metadata; dm_cookie := f_cookie f |> in
          r ← execute_instructions (f_insts f) 0 nf acts;
          let '(next_table_id, nf, acts) := r in
          if table_id <? next_table_id then
            run_tables fuel tables next_table_id
              (nf <| nf_metadata; dm_table_id := next_table_id |>) acts
          else
            nf ← execute_action_set acts nf;
            Ok (tables, nf, negb (bool_decide (nf_out_ports nf = [])))
      end
  end.
End pipeline.

(** Receive counters of the input port. *)
Definition count_rx (nf : netflow) (p : port) : port :=
  p <| p_stats; rx_bytes ::= λ c, u64 (c + nf_byte_cnt nf) |>
    <| p_stats; rx_packets ::= λ c, u64 (c + nf_pkt_cnt nf) |>.

(** The netflow is modified through its pointer also when [NULL] is returned. *)
Definition dp_recv_netflow (dp : datapath) (nf : netflow)
  : outcome (datapath * netflow * bool) :=
  let nf := nf <| nf_metadata; dm_buffer_id := OFP_NO_BUFFER |> in
  match dp_port dp (in_port (nf_match nf)) with
  | None => Ok (dp, nf, false)
  | Some (a, _) =>
      let base := port_update a (count_rx nf) (dp_base dp) in
      let nf := nf <| nf_match; metadata := 0 |> <| nf_metadata; dm_table_id := 0 |> in
      r ← run_tables flow_table_lookup (S MAX_TABLES) (dp_tables dp) 0 nf action_set_init;
      let '(tables, nf, forwarded) := r in
      Ok (dp <| dp_base := base |> <| dp_tables := tables |>, nf, forwarded)
  end.

Definition dp_send_netflow (dp : datapath) (flow : netflow) (out_port : Z) : datapath :=
  dp <| dp_base ::= λ n, node_update_port_stats n flow out_port |>.

Definition dp_create_flood (dp : datapath) (nf : netflow) : netflow :=
  foldl (λ nf ap,
    if negb (p_port_id ap.2 =? in_port (nf_match nf))
    then netflow_add_out_port nf (p_port_id ap.2) else nf)
    nf (ht_elems (dp_ports dp)).

(** ** Control messages *)

(** After [unpack_flow_mod] has filled [f], at the fresh address [a]. *)
Definition dp_handle_flow_mod (dp : datapath) (command : flow_mod_command) (a : addr)
    (f : flow) (time : Z) : outcome datapath :=
  ft ← array_get (dp_tables dp) (f_table_id f);
  let ft := match command with
            | OF_FLOW_ADD => add_flow ft a f time
            | OF_FLOW_MODIFY => modify_flow ft f false time
            | OF_FLOW_MODIFY_STRICT => modify_flow ft f true time
            | OF_FLOW_DELETE => delete_flow ft f time false
            | OF_FLOW_DELETE_STRICT => delete_flow ft f time true
            end in
  tables ← array_set (dp_tables dp) (f_table_id f) ft;
  Ok (dp <| dp_tables := tables |>).

Definition port_entry (p : port) : port_stats_entry :=
  PortStatsEntry (p_port_id p) (rx_packets (p_stats p)) (tx_packets (p_stats p))
    (rx_bytes (p_stats p)) (tx_bytes (p_stats p)).

Definition dp_handle_port_stats_req (dp : datapath) (xid port_id : Z)
  : outcome (Z * list port_stats_entry) :=
  if port_id =? OFPP_ANY then
    Ok (xid, (λ ap, port_entry ap.2) <$> ht_elems (dp_ports dp))
  else
    ap ← deref (dp_port dp port_id);
    Ok (xid, [port_entry ap.2]).

(** All tables in turn, or one.  [allocated] restarts at 1 in every table. *)
Fixpoint all_stats_flows (fuel : nat) (i : Z) (tables : list flow_table)
    (req : ofl_flow_stats_req) (capacity : Z) (flows : list addr) (time : Z)
  : outcome (list flow_table * Z * list addr) :=
  match fuel with
  | O => Ok (tables, capacity, flows)
  | S fuel =>
      ft ← array_get tables i;
      r ← flow_table_stats ft req capacity flows time;
      let '(ft, s) := r in
      tables ← array_set tables i ft;
      all_stats_flows fuel (i + 1) tables req (st_capacity s) (st_flows s) time
  end.

Definition dp_get_stats_flows (dp : datapath) (req : ofl_flow_stats_req) (capacity : Z)
    (flows : list addr) (time : Z) : outcome (datapath * list addr) :=
  if req_table_id req =? OFPTT_ALL then
    r ← all_stats_flows MAX_TABLES 0 (dp_tables dp) req capacity flows time;
    let '(tables, _, flows) := r in Ok (dp <| dp_tables := tables |>, flows)
  else
    ft ← array_get (dp_tables dp) (req_table_id req);
    r ← flow_table_stats ft req capacity flows time;
    let '(ft, s) := r in
    tables ← array_set (dp_tables dp) (req_table_id req) ft;
    Ok (dp <| dp_tables := tables |>, st_flows s).

(** [memset(&req, 0x0, sizeof req)] *)
Definition zero_req : ofl_flow_stats_req := StatsReq 0 0 0 0 0 key_zero key_zero.

(** The request is unpacked and then cleared before it is used.  Returns the flows
    that the reply is packed from; an empty list is no reply. *)
Definition dp_handle_flow_stats_req (dp : datapath) (req : ofl_flow_stats_req) (time : Z)
  : outcome (datapath * list addr) :=
  let req := zero_req in
  dp_get_stats_flows dp req 1 [] time.

Definition dp_handle_aggregate_stats_req (dp : datapath) (req : ofl_flow_stats_req)
    (time : Z) : outcome (datapath * list addr) :=
  let req := zero_req in
  dp_get_stats_flows dp req 1 [] time.

Definition dp_handle_port_desc (dp : datapath) (xid : Z) : Z * list port_desc :=
  (xid, (λ ap, let p := ap.2 in
     PortDesc (p_port_id p) (p_eth_address p) (p_name p) (p_config p) (p_state p)
       (p_curr p) (p_advertised p) (p_supported p) (p_peer p) (p_curr_speed p)
       (p_max_speed p)) <$> ht_elems (dp_ports dp)).

(** After [unpack_packet_out] has filled the netflow and the action list. *)
Definition dp_handle_pkt_out (dp : datapath) (nf : netflow) (al : action_list)
    (time : Z) : outcome netflow :=
  execute_action_list al (nf <| nf_start_time := time |>).

Definition dp_set_name (dp : datapath) (name : option (list Z)) : outcome (datapath * bool) :=
  r ← node_set_name (dp_base dp) name;
  let '(base, ok) := r in Ok (dp <| dp_base := base |>, ok).
Definition dp_name (dp : datapath) : list Z := n_name (dp_base dp).
Definition dp_uuid (dp : datapath) : Z := n_uuid (dp_base dp).
Definition dp_id (dp : datapath) : Z := dp_dp_id dp.
Definition dp_flow_table (dp : datapath) (table_id : Z) : outcome flow_table :=
  array_get (dp_tables dp) table_id.

(** ** What a flow table promises to the pipeline *)

(** [f'] is the flow [f] as a lookup or the pipeline may leave it: only its
    counters and its time stamp differ. *)
Definition same_rule (f f' : flow) : Prop :=
  f_key f' = f_key f ∧ f_mask f' = f_mask f ∧ f_priority f' = f_priority f ∧
  f_cookie f' = f_cookie f ∧ f_insts f' = f_insts f.

(** The best live flow of a table for a packet. *)
Definition best_flow (ft : flow_table) (key : ofl_flow_key) (time : Z) (f : flow) : Prop :=
  ∃ a, (a, f) ∈ ft_elems ft ∧ candidate key time (a, f) ∧
  ∀ av, av ∈ ft_elems ft → candidate key time av → f_priority av.2 ≤ f_priority f.
Definition no_flow (ft : flow_table) (key : ofl_flow_key) (time : Z) : Prop :=
  ∀ av, av ∈ ft_elems ft → ¬ candidate key time av.

Definition table_ok (ft : flow_table) : Prop := ft_wf ft ∧ ft_unique ft.

(** Every flow of [ft'] is one of [ft] up to counters and time stamp. *)
Definition derived (ft ft' : flow_table) : Prop :=
  ∀ a f', (a, f') ∈ ft_elems ft' → ∃ f, (a, f) ∈ ft_elems ft ∧ same_rule f f'.

Class LookupSpec (lookup : lookup_fun) : Prop := {
  lookup_found ft key time ft' a f' :
    table_ok ft → key_wf key → lookup ft key time = (ft', Some (a, f')) →
    ∃ f, best_flow ft key time f ∧ (a, f) ∈ ft_elems ft ∧ same_rule f f';
  lookup_missed ft key time ft' :
    table_ok ft → key_wf key → lookup ft key time = (ft', None) → no_flow ft key time;
  lookup_keeps ft key time :
    table_ok ft → key_wf key →
    table_ok (lookup ft key time).1 ∧ derived ft (lookup ft key time).1
}.

Lemma same_rule_refl f : same_rule f f.
Proof. by repeat split. Qed.
Lemma same_rule_trans f g h : same_rule f g → same_rule g h → same_rule f h.
Proof. intros (?&?&?&?&?) (?&?&?&?&?). repeat split; congruence. Qed.
#[export] Hint Resolve same_rule_refl : horse.

Lemma derived_refl ft : derived ft ft.
Proof. intros a f H. exists f. split; [done|apply same_rule_refl]. Qed.

(** [lib/flow_table.c] keeps the promise. *)
#[export] Instance flow_table_lookup_spec : LookupSpec flow_table_lookup.
Proof.
  split.
  - intros ft key time ft' a f' [Hwf Hu] Hk E.
    destruct (flow_table_lookup_result ft key time ft' _ Hwf Hu Hk E)
      as (f & -> & Hin & Hc & Hmax).
    exists f. split; [by exists a|]. split; [done|]. by repeat split.
  - intros ft key time ft' [Hwf Hu] Hk E.
    exact (flow_table_lookup_result ft key time ft' _ Hwf Hu Hk E).
  - intros ft key time [Hwf Hu] Hk.
    destruct (flow_table_lookup ft key time) as [ft' ret] eqn:E. cbn [fst].
    destruct (flow_table_lookup_effect ft key time ft' ret Hwf Hu Hk E) as (Hwf' & Hu' & He).
    split; [done|]. intros a f' Hin. rewrite He in Hin.
    apply list_elem_of_fmap in Hin as ([b f] & Ef & Hin%list_elem_of_filter).
    destruct Hin as [_ Hin]. destruct ret as [[x y]|].
    + unfold elem_update in Ef. cbn [fst snd] in Ef.
      destruct (decide (b = x)) as [-> |Hne]; injection Ef as -> ->;
        exists f; (split; [done|]); by repeat split.
    + injection Ef as -> ->. exists f. split; [done|apply same_rule_refl].
Qed.

(** ** Well-formed rules and switches *)

Definition act_ok (act : action) : Prop :=
  action_wf act ∧ supported (act_type act) = true.

Record acts_ok (s : action_set) : Prop := {
  ao_set : action_set_wf s;
  ao_acts : ∀ x act, (x, act) ∈ ht_elems s → act_ok act
}.

Record insts_ok (insts : instruction_set) : Prop := {
  io_apply : Forall act_ok (aa_actions (apply_act insts));
  io_write : acts_ok (wa_actions (write_act insts));
  io_meta : in_width 64 (wm_metadata (write_meta insts));
  io_goto : 0 ≤ gt_table_id (gt_table insts) < Z.of_nat MAX_TABLES
}.

Record pipeline_wf (tables : list flow_table) : Prop := {
  pw_length : length tables = MAX_TABLES;
  pw_tables : Forall table_ok tables;
  pw_insts : ∀ ft a f, ft ∈ tables → (a, f) ∈ ft_elems ft → insts_ok (f_insts f)
}.

Record dp_wf (dp : datapath) : Prop := {
  dw_base : node_wf (dp_base dp);
  dw_tables : pipeline_wf (dp_tables dp)
}.

(** ** Executing well-formed rules *)

Lemma execute_action_list_ok al nf :
  Forall act_ok al → nf_wf nf → ∃ nf', execute_action_list al nf = Ok nf' ∧ nf_wf nf'.
Proof.
  intros Hal. revert nf. induction Hal as [|act al [Ha Hs] _ IH]; intros nf Hn; [by exists nf|].
  cbn [execute_action_list].
  destruct (execute_supported act nf Ha Hn Hs) as (nf1 & -> & Hn1). cbn [mbind outcome_bind].
  by apply IH.
Qed.

Lemma execute_types_ok s types nf :
  acts_ok s → Forall (in_width 16) types → nf_wf nf →
  ∃ nf', execute_types s types nf = Ok nf' ∧ nf_wf nf'.
Proof.
  intros Hs Ht. revert nf. induction Ht as [|ty types Hty _ IH]; intros nf Hn; [by exists nf|].
  cbn [execute_types]. destruct (action_set_action s ty) as [act|] eqn:E.
  - apply action_set_action_Some in E as (x & Hin & _); [|apply Hs|done].
    destruct (ao_acts s Hs x act Hin) as [Ha Hsup].
    destruct (execute_supported act nf Ha Hn Hsup) as (nf1 & -> & Hn1).
    cbn [mbind outcome_bind]. by apply IH.
  - cbn [mbind outcome_bind]. by apply IH.
Qed.

Lemma execute_action_set_ok s nf :
  acts_ok s → nf_wf nf → ∃ nf', execute_action_set s nf = Ok nf' ∧ nf_wf nf'.
Proof.
  intros Hs Hn. apply execute_types_ok; [done| |done].
  by apply (bool_decide_unpack _); vm_compute.
Qed.

(** Deleting elements one by one, as [HASH_ITER] loops do. *)
Lemma delete_all_spec {V} `{Keyed V} (l : list (addr * V)) (h : uthash V) :
  ht_wf h →
  let h' := foldl (λ h av, HASH_DELETE av.1 h) h l in
  ht_wf h' ∧ ht_elems h' = filter (λ av, av.1 ∉ l.*1) (ht_elems h).
Proof.
  revert h. induction l as [|[a v] l IH]; intros h Hh; cbn [foldl].
  - split; [done|]. symmetry. apply filter_all, Forall_forall.
    intros ? _. apply not_elem_of_nil.
  - cbn [fst]. destruct (HASH_DELETE_spec a h Hh) as [Hw He].
    destruct (IH (HASH_DELETE a h) Hw) as [Hw' He']. split; [done|].
    rewrite He', He, list_filter_filter. apply list_filter_iff. intros [x w].
    cbn [fst fmap list_fmap]. rewrite not_elem_of_cons. tauto.
Qed.

Lemma action_set_clean_empty s : action_set_wf s → action_set_clean s = None.
Proof.
  intros Hs. destruct (delete_all_spec (ht_elems s) s (asw_table s Hs)) as [Hw He].
  apply ht_elems_nil; [done|]. unfold action_set_clean. rewrite He.
  apply elem_of_nil_inv. intros [x v] [Hni Hin]%list_elem_of_filter. apply Hni.
  apply list_elem_of_fmap. by exists (x, v).
Qed.

Lemma acts_ok_empty : acts_ok None.
Proof.
  split; [apply action_set_init_wf|]. intros x act Hx. by apply not_elem_of_nil in Hx.
Qed.

Lemma acts_ok_add s act : acts_ok s → act_ok act → acts_ok (action_set_add s act).
Proof.
  intros Hs Ha. split; [apply action_set_add_wf; [apply Hs|apply Ha]|].
  intros x act'. rewrite (proj2 (action_set_elems_add s act (ao_set s Hs))).
  rewrite elem_of_app, list_elem_of_filter, list_elem_of_singleton.
  intros [[_ Hin]|[= -> ->]]; [by eapply ao_acts|done].
Qed.

Lemma acts_ok_merge s s' : acts_ok s → acts_ok s' → acts_ok (action_set_merge s s').
Proof.
  intros Hs Hs'. unfold action_set_merge.
  assert (Forall (λ av, act_ok av.2) (ht_elems s')) as Hall.
  { apply Forall_forall. intros [x act] Hin. by eapply ao_acts. }
  revert s Hs. induction Hall as [|[x act] l Ha _ IH]; intros s Hs; [done|].
  cbn [foldl]. apply IH. by apply acts_ok_add.
Qed.

Lemma execute_instructions_ok insts nf acts :
  insts_ok insts → nf_wf nf → acts_ok acts →
  ∃ next nf' acts', execute_instructions insts 0 nf acts = Ok (next, nf', acts') ∧
    nf_wf nf' ∧ acts_ok acts' ∧ 0 ≤ next < Z.of_nat MAX_TABLES.
Proof.
  intros Hi Hn Ha. unfold execute_instructions.
  assert (∃ nf1, (if instruction_is_active insts INSTRUCTION_APPLY_ACTIONS
    then execute_action_list (aa_actions (apply_act insts)) nf else Ok nf) = Ok nf1 ∧ nf_wf nf1)
    as (nf1 & -> & Hn1).
  { destruct (instruction_is_active insts INSTRUCTION_APPLY_ACTIONS); [|by exists nf].
    apply execute_action_list_ok; [apply Hi|done]. }
  cbn [mbind outcome_bind]. eexists _, _, _. split; [reflexivity|]. split; [|split].
  - destruct (instruction_is_active insts INSTRUCTION_WRITE_METADATA); [|done].
    destruct Hn1 as [Hk Ht]. split; [|done]. cbn [nf_match setf].
    pose proof (io_meta insts Hi). key_field.
  - set (acts1 := if instruction_is_active insts INSTRUCTION_CLEAR_ACTIONS then _ else _).
    assert (acts_ok acts1) as H1.
    { unfold acts1. destruct (instruction_is_active insts INSTRUCTION_CLEAR_ACTIONS); [|done].
      rewrite action_set_clean_empty by apply Ha. apply acts_ok_empty. }
    destruct (instruction_is_active insts INSTRUCTION_WRITE_ACTIONS); [|done].
    apply acts_ok_merge; [done|apply Hi].
  - destruct (instruction_is_active insts INSTRUCTION_GOTO_TABLE); [apply Hi|].
    unfold MAX_TABLES. lia.
Qed.

(** ** The pipeline refines the OpenFlow pipeline *)

(** The abstract pipeline over the contents of the tables before the packet:
    no live flow in the table drops the packet; the best flow's instructions run,
    and the packet goes on to a later table or leaves with its action set. *)
Inductive pipeline_spec (tables : list flow_table)
  : nat → netflow → action_set → netflow → bool → Prop :=
| ps_miss t ft nf acts :
    tables !! t = Some ft → no_flow ft (nf_match nf) (nf_start_time nf) →
    pipeline_spec tables t nf acts nf false
| ps_goto t t' ft f nf acts nf' acts' nf'' b :
    tables !! t = Some ft → best_flow ft (nf_match nf) (nf_start_time nf) f →
    execute_instructions (f_insts f) 0 (nf <| nf_metadata; dm_cookie := f_cookie f |>) acts
      = Ok (Z.of_nat t', nf', acts') → (t < t')%nat →
    pipeline_spec tables t' (nf' <| nf_metadata; dm_table_id := Z.of_nat t' |>) acts' nf'' b →
    pipeline_spec tables t nf acts nf'' b
| ps_done t t' ft f nf acts nf' acts' nf'' :
    tables !! t = Some ft → best_flow ft (nf_match nf) (nf_start_time nf) f →
    execute_instructions (f_insts f) 0 (nf <| nf_metadata; dm_cookie := f_cookie f |>) acts
      = Ok (Z.of_nat t', nf', acts') → (t' ≤ t)%nat →
    execute_action_set acts' nf' = Ok nf'' →
    pipeline_spec tables t nf acts nf'' (negb (bool_decide (nf_out_ports nf'' = []))).

Lemma count_flow_update ft a nf :
  table_ok ft →
  table_ok (ft_update a (count_flow nf) ft) ∧ derived ft (ft_update a (count_flow nf) ft).
Proof.
  intros [Hwf Hu]. assert (keeps_match (count_flow nf)) as Hg by by intros f.
  destruct (mfts_update_spec a (count_flow nf) (ft_flows ft) (fw_mfts _ Hwf) Hg) as [Hs He].
  split; [split|].
  - by eapply shrinks_wf.
  - unfold ft_unique. change (ft_elems (ft_update _ _ _)) with
      (mfts_elems (mft_update a (count_flow nf) <$> ft_flows ft)).
    rewrite He. by apply elems_unique_update.
  - intros x f' Hin. change (ft_elems (ft_update _ _ _)) with
      (mfts_elems (mft_update a (count_flow nf) <$> ft_flows ft)) in Hin.
    rewrite He in Hin. apply list_elem_of_fmap in Hin as ([y f] & E & Hin).
    unfold elem_update in E. cbn [fst snd] in E.
    destruct (decide (y = a)) as [-> |]; injection E as -> ->;
      exists f; (split; [exact Hin|]); by repeat split.
Qed.

Lemma pipeline_wf_set tables t ft ft' :
  pipeline_wf tables → tables !! t = Some ft → table_ok ft' → derived ft ft' →
  pipeline_wf (<[t := ft']> tables).
Proof.
  intros [Hl Ht Hi] Hft Hok Hd. split.
  - by rewrite length_insert.
  - by apply Forall_insert.
  - intros ft0 a f Hin Hf. apply list_elem_of_lookup_1 in Hin as [i Hlk].
    destruct (decide (i = t)) as [-> |Hne].
    + rewrite list_lookup_insert_eq in Hlk by by eapply lookup_lt_Some.
      injection Hlk as <-. destruct (Hd a f Hf) as (f0 & Hin0 & (_ & _ & _ & _ & ->)).
      eapply Hi; [|exact Hin0]. by eapply list_elem_of_lookup_2.
    + rewrite list_lookup_insert_ne in Hlk by done.
      eapply Hi; [|exact Hf]. by eapply list_elem_of_lookup_2.
Qed.

Lemma derived_trans ft1 ft2 ft3 : derived ft1 ft2 → derived ft2 ft3 → derived ft1 ft3.
Proof.
  intros H1 H2 a f Hin. destruct (H2 a f Hin) as (g & Hg & Hs).
  destruct (H1 a g Hg) as (h & Hh & Hs'). exists h. split; [done|].
  by eapply same_rule_trans.
Qed.

Section pipeline_proofs.
Context (lookup : lookup_fun) `{!LookupSpec lookup}.

(** One round of the loop at a table of the pipeline. *)
Lemma run_tables_unfold fuel tables t ft nf acts :
  tables !! t = Some ft →
  run_tables lookup (S fuel) tables (Z.of_nat t) nf acts =
  let '(table, found) := lookup ft (nf_match nf) (nf_start_time nf) in
  match found with
  | None => Ok (<[t := table]> tables, nf, false)
  | Some (a, f) =>
      r ← execute_instructions (f_insts f) 0 (nf <| nf_metadata; dm_cookie := f_cookie f |>) acts;
      let '(next, nf', acts) := r in
      let tables := <[t := ft_update a (count_flow nf) table]> tables in
      if Z.of_nat t <? next then
        run_tables lookup fuel tables next (nf' <| nf_metadata; dm_table_id := next |>) acts
      else nf' ← execute_action_set acts nf';
           Ok (tables, nf', negb (bool_decide (nf_out_ports nf' = [])))
  end.
Proof.
  intros Hft. pose proof (lookup_lt_Some _ _ _ Hft) as Hlt. cbn [run_tables].
  rewrite (proj2 (array_get_Ok tables _ ft)) by (split; [lia|by rewrite Nat2Z.id]).
  cbn [mbind outcome_bind]. destruct (lookup ft _ _) as [table [[a f]|]];
    (rewrite array_set_in_range by lia); by rewrite Nat2Z.id.
Qed.

Lemma run_tables_ok fuel tables0 tables t nf acts :
  pipeline_wf tables0 → pipeline_wf tables →
  (∀ i, (t ≤ i)%nat → tables !! i = tables0 !! i) →
  (t < MAX_TABLES)%nat → (MAX_TABLES ≤ t + fuel)%nat → nf_wf nf → acts_ok acts →
  ∃ tables' nf' b, run_tables lookup fuel tables (Z.of_nat t) nf acts = Ok (tables', nf', b) ∧
    pipeline_wf tables' ∧ nf_wf nf' ∧ pipeline_spec tables0 t nf acts nf' b.
Proof.
  intros H0. revert tables t nf acts.
  induction fuel as [|fuel IH]; intros tables t nf acts Hw Heq Ht Hf Hn Ha; [lia|].
  destruct (lookup_lt_is_Some_2 tables t) as [ft Hft]; [by rewrite (pw_length _ Hw)|].
  assert (table_ok ft) as Hok by (eapply Forall_lookup_1; [apply Hw|done]).
  rewrite (run_tables_unfold fuel tables t ft nf acts Hft).
  rewrite Heq in Hft by done. pose proof Hft as Hft0.
  destruct (lookup_keeps ft (nf_match nf) (nf_start_time nf) Hok (nfw_match _ Hn)) as [Hok' Hd].
  destruct (lookup ft (nf_match nf) (nf_start_time nf)) as [table [[a f']|]] eqn:E; cbn [fst] in *.
  2: { eexists _, _, _. split; [done|]. split; [|split; [done|]].
       - eapply pipeline_wf_set; [done| |done|done]. by rewrite Heq.
       - eapply ps_miss; [done|]. eapply lookup_missed; [done|apply Hn|done]. }
  destruct (lookup_found ft _ _ table a f' Hok (nfw_match _ Hn) E)
    as (f & Hbest & Hin & (_ & _ & _ & Hck & Hins)).
  assert (insts_ok (f_insts f)) as Hio.
  { eapply (pw_insts _ H0); [|exact Hin]. by eapply list_elem_of_lookup_2. }
  rewrite Hck, Hins. set (nf1 := nf <| nf_metadata; dm_cookie := f_cookie f |>).
  assert (nf_wf nf1) as Hn1 by (destruct Hn; by split).
  destruct (execute_instructions_ok (f_insts f) nf1 acts Hio Hn1 Ha)
    as (next & nf2 & acts2 & He & Hn2 & Ha2 & Hnext).
  rewrite He. cbn [mbind outcome_bind].
  destruct (count_flow_update table a nf Hok') as [Hok2 Hd2].
  assert (pipeline_wf (<[t := ft_update a (count_flow nf) table]> tables)) as Hw2.
  { eapply pipeline_wf_set; [done|by rewrite Heq|done|by eapply derived_trans]. }
  assert (∃ t', next = Z.of_nat t') as [t' ->] by (exists (Z.to_nat next); lia).
  destruct (Z.ltb_spec (Z.of_nat t) (Z.of_nat t')) as [Hlt|Hge].
  - set (nf3 := nf2 <| nf_metadata; dm_table_id := Z.of_nat t' |>).
    assert (nf_wf nf3) as Hn3 by (destruct Hn2; by split).
    destruct (IH _ t' nf3 acts2 Hw2) as (tables' & nf' & b & Hr & Hw' & Hn' & Hs); try done; try lia.
    { intros i Hi. rewrite list_lookup_insert_ne by lia. apply Heq. lia. }
    exists tables', nf', b. split; [done|]. split; [done|]. split; [done|].
    eapply ps_goto; [done|done|exact He|lia|exact Hs].
  - destruct (execute_action_set_ok acts2 nf2 Ha2 Hn2) as (nf' & Hes & Hn').
    rewrite Hes. cbn [mbind outcome_bind]. eexists _, _, _. split; [done|].
    split; [done|]. split; [done|]. eapply ps_done; [done|done|exact He|lia|done].
Qed.
End pipeline_proofs.

Lemma dp_recv_ok dp nf :
  dp_wf dp → nf_wf nf →
  ∃ dp' nf' b, dp_recv_netflow dp nf = Ok (dp', nf', b) ∧ dp_wf dp' ∧ nf_wf nf' ∧
  match dp_port dp (in_port (nf_match nf)) with
  | None => dp' = dp ∧ b = false ∧ nf_out_ports nf' = nf_out_ports nf
  | Some (a, p) =>
      dp_base dp' = port_update a (count_rx nf) (dp_base dp) ∧
      pipeline_spec (dp_tables dp) 0
        (nf <| nf_metadata; dm_buffer_id := OFP_NO_BUFFER |>
            <| nf_match; metadata := 0 |> <| nf_metadata; dm_table_id := 0 |>)
        action_set_init nf' b
  end.
Proof.
  intros [Hb Ht] Hn. unfold dp_recv_netflow. cbv zeta.
  change (in_port (nf_match (nf <| nf_metadata; dm_buffer_id := OFP_NO_BUFFER |>)))
    with (in_port (nf_match nf)).
  destruct (dp_port dp (in_port (nf_match nf))) as [[a p]|] eqn:E.
  2: { eexists _, _, _. split; [done|]. split; [done|]. split; [|done].
       by destruct Hn; split. }
  set (nf0 := nf <| nf_metadata; dm_buffer_id := OFP_NO_BUFFER |>
                 <| nf_match; metadata := 0 |> <| nf_metadata; dm_table_id := 0 |>).
  assert (nf_wf nf0) as Hn0.
  { destruct Hn as [Hk Hs]. split; [|done]. unfold nf0. cbn [nf_match setf]. by key_field. }
  destruct (run_tables_ok flow_table_lookup (S MAX_TABLES) (dp_tables dp) (dp_tables dp) 0 nf0
    action_set_init Ht Ht) as (tables & nf' & b & Hr & Hw & Hn' & Hs);
    try done; [unfold MAX_TABLES; lia..|apply acts_ok_empty|].
  change (Z.of_nat 0) with 0 in Hr. rewrite Hr. cbn [mbind outcome_bind].
  eexists _, nf', b. split; [done|]. split; [|done].
  split; [|done]. cbn [dp_base setf]. by apply port_update_wf.
Qed.

(** C1. The switch implements the OpenFlow pipeline: on a well-formed switch and
    netflow, [dp_recv_netflow] terminates without a fault, keeps both well formed,
    counts the traffic on the input port, and produces the netflow (and the
    decision to forward it) that the abstract pipeline produces from the tables as
    they were: in each table the best live flow applies, its instructions run in
    order, and the packet moves to a later table or leaves with its action set.  An
    unknown input port drops the netflow and changes nothing. *)
Theorem dp_recv_netflow_refines dp nf :
  dp_wf dp → nf_wf nf →
  ∃ dp' nf' b, dp_recv_netflow dp nf = Ok (dp', nf', b) ∧ dp_wf dp' ∧ nf_wf nf' ∧
  match dp_port dp (in_port (nf_match nf)) with
  | None => dp' = dp ∧ b = false ∧ nf_out_ports nf' = nf_out_ports nf
  | Some (a, p) =>
      dp_base dp' = port_update a (count_rx nf) (dp_base dp) ∧
      pipeline_spec (dp_tables dp) 0
        (nf <| nf_metadata; dm_buffer_id := OFP_NO_BUFFER |>
            <| nf_match; metadata := 0 |> <| nf_metadata; dm_table_id := 0 |>)
        action_set_init nf' b
  end.
Proof. apply dp_recv_ok. Qed.

(** ** Flow modifications *)

Lemma pipeline_wf_insert tables t ft :
  pipeline_wf tables → table_ok ft →
  (∀ a f, (a, f) ∈ ft_elems ft → insts_ok (f_insts f)) →
  pipeline_wf (<[t := ft]> tables).
Proof.
  intros [Hl Ht Hi] Hok Hins. split.
  - by rewrite length_insert.
  - by apply Forall_insert.
  - intros ft0 a f Hin Hf. apply list_elem_of_lookup_1 in Hin as [i Hlk].
    apply list_lookup_insert_Some in Hlk as [(-> & -> & _)|[_ Hlk]]; [by eapply Hins|].
    eapply Hi; [|exact Hf]. by eapply list_elem_of_lookup_2.
Qed.

Lemma edit_elem P E u k a f :
  (a, f) ∈ edit P E u k → ∃ g, (a, g) ∈ k ∧ (f = g ∨ f = u g).
Proof.
  unfold edit. intros ([b g] & Ef & [_ Hin]%list_elem_of_filter)%list_elem_of_fmap.
  exists g. cbn [fst snd] in Ef. destruct (P g); injection Ef as -> ->; auto.
Qed.

(** Flow modifications keep the table in order. *)
Definition flow_mod (command : flow_mod_command) (ft : flow_table) (a : addr) (f : flow)
    (time : Z) : flow_table :=
  match command with
  | OF_FLOW_ADD => add_flow ft a f time
  | OF_FLOW_MODIFY => modify_flow ft f false time
  | OF_FLOW_MODIFY_STRICT => modify_flow ft f true time
  | OF_FLOW_DELETE => delete_flow ft f time false
  | OF_FLOW_DELETE_STRICT => delete_flow ft f time true
  end.

(** What an addition requires: a fresh object and a match that is not installed. *)
Definition addable (command : flow_mod_command) (ft : flow_table) (a : addr) (f : flow) : Prop :=
  command = OF_FLOW_ADD →
  a ∉ (ft_elems ft).*1 ∧
  ∀ a' g, (a', g) ∈ ft_elems ft → f_mask g = f_mask f → f_key g ≠ f_key f.

Lemma flow_mod_ok command ft a f time :
  table_ok ft → (∀ a' g, (a', g) ∈ ft_elems ft → insts_ok (f_insts g)) →
  flow_wf f → insts_ok (f_insts f) → addable command ft a f →
  table_ok (flow_mod command ft a f time) ∧
  ∀ a' g, (a', g) ∈ ft_elems (flow_mod command ft a f time) → insts_ok (f_insts g).
Proof.
  intros [Hwf Hu] Hins Hf Hi Hadd. split.
  - apply (ft_step_wf ft); [done|done|].
    destruct command; cbn [flow_mod];
      [destruct (Hadd eq_refl); by apply step_add|by apply step_modify..|by apply step_delete|].
    by apply step_delete.
  - intros a' g Hin. destruct command; cbn [flow_mod] in Hin.
    1: { destruct (Hadd eq_refl) as [Hfr _].
         destruct (add_flow_spec ft a f time Hwf Hf Hfr) as [_ Hp]. rewrite Hp in Hin.
         apply elem_of_cons in Hin as [[= -> ->]|Hin]; [done|by eapply Hins]. }
    1-2: rewrite (proj2 (modify_flow_edit _ _ _ _ Hwf Hu Hf)) in Hin;
         apply edit_elem in Hin as (g' & Hin & [-> | ->]); [by eapply Hins|done].
    all: rewrite (proj2 (delete_flow_edit _ _ _ _ Hwf Hu Hf)) in Hin;
         apply edit_elem in Hin as (g' & Hin & [-> | ->]); by eapply Hins.
Qed.

Lemma dp_flow_mod_ok dp command a f time ft :
  dp_wf dp → flow_wf f → insts_ok (f_insts f) → 0 ≤ f_table_id f →
  dp_tables dp !! Z.to_nat (f_table_id f) = Some ft → addable command ft a f →
  ∃ dp', dp_handle_flow_mod dp command a f time = Ok dp' ∧ dp_wf dp' ∧
    dp_base dp' = dp_base dp ∧
    dp_tables dp' = <[Z.to_nat (f_table_id f) := flow_mod command ft a f time]> (dp_tables dp).
Proof.
  intros [Hb Ht] Hf Hi H0 Hft Hadd. pose proof (lookup_lt_Some _ _ _ Hft) as Hlt.
  unfold dp_handle_flow_mod. rewrite (proj2 (array_get_Ok _ _ ft)) by done.
  cbn [mbind outcome_bind]. fold (flow_mod command ft a f time).
  rewrite array_set_in_range by lia. cbn [mbind outcome_bind].
  eexists. split; [done|]. split; [|done]. split; [done|]. cbn [dp_tables setf].
  assert (table_ok ft) as Hok by (eapply Forall_lookup_1; [apply Ht|done]).
  destruct (flow_mod_ok command ft a f time Hok) as [Hok' Hins'];
    [|done|done|done|by apply pipeline_wf_insert].
  intros a' g Hin. eapply (pw_insts _ Ht); [|exact Hin]. by eapply list_elem_of_lookup_2.
Qed.

(** A flow modification edits the table it names and no other, and keeps the
    switch well formed (for an addition: if the match is not installed yet); a table
    number past the array, such as [OFPTT_ALL], reads outside the array. *)
Theorem dp_flow_mod_one_table dp command a f time :
  dp_wf dp → flow_wf f → insts_ok (f_insts f) → 0 ≤ f_table_id f →
  match dp_tables dp !! Z.to_nat (f_table_id f) with
  | None => dp_handle_flow_mod dp command a f time = Fault OutOfBounds
  | Some ft =>
      addable command ft a f →
      ∃ dp', dp_handle_flow_mod dp command a f time = Ok dp' ∧ dp_wf dp' ∧
        dp_base dp' = dp_base dp ∧
        dp_tables dp' !! Z.to_nat (f_table_id f) = Some (flow_mod command ft a f time) ∧
        ∀ i, i ≠ Z.to_nat (f_table_id f) → dp_tables dp' !! i = dp_tables dp !! i
  end.
Proof.
  intros Hd Hf Hi H0.
  destruct (dp_tables dp !! Z.to_nat (f_table_id f)) as [ft|] eqn:Hft.
  - intros Hadd. destruct (dp_flow_mod_ok dp command a f time ft) as (dp' & -> & Hw & Hb & E);
      try done. exists dp'. rewrite E. do 3 (split; [done|]). split.
    + apply list_lookup_insert_eq. by eapply lookup_lt_Some.
    + intros i Hne. by apply list_lookup_insert_ne.
  - unfold dp_handle_flow_mod, array_get. rewrite decide_True by done. by rewrite Hft.
Qed.

(** ** Statistics *)

Lemma zero_key_matches_all f g : flow_wf g → non_strict_match
  (f <| f_key := key_zero |> <| f_mask := key_zero |>) g = true.
Proof.
  intros Hg. unfold non_strict_match, match_non_strict. cbn [f_key f_mask setf].
  rewrite !apply_all_mask_zero by apply Hg. by rewrite (proj2 (flow_key_cmp_spec key_zero key_zero) eq_refl).
Qed.

Lemma ft_flow_wf ft a f : ft_wf ft → (a, f) ∈ ft_elems ft → flow_wf f.
Proof.
  intros Hwf Hin. unfold ft_elems, mfts_elems in Hin.
  apply elem_of_concat in Hin as (l & Hin & Hl).
  apply list_elem_of_fmap in Hl as (m & -> & Hm).
  eapply mw_flow; [|exact Hin]. eapply Forall_forall; [apply Hwf|exact Hm].
Qed.

(** The flow statistics reply of the switch: its handlers clear the request. *)
Lemma dp_stats_ok dp req time :
  dp_wf dp → ∃ dp' ft, dp_tables dp !! 0%nat = Some ft ∧
    dp_handle_flow_stats_req dp req time =
    Ok (dp', (filter (λ av, flow_expired av.2 time = false) (ft_elems ft)).*1) ∧
    dp_wf dp' ∧ dp_base dp' = dp_base dp.
Proof.
  intros [Hb Ht]. destruct (lookup_lt_is_Some_2 (dp_tables dp) 0) as [ft Hft].
  { rewrite (pw_length _ Ht). unfold MAX_TABLES. lia. }
  assert (table_ok ft) as Hok by (eapply Forall_lookup_1; [apply Ht|done]).
  destruct (flow_table_stats_ok ft zero_req time (proj1 Hok)) as (ft' & s & Hs & Hsh & He & Hf).
  unfold dp_handle_flow_stats_req, dp_get_stats_flows.
  change (req_table_id zero_req =? OFPTT_ALL) with false. cbv iota.
  change (req_table_id zero_req) with 0.
  rewrite (proj2 (array_get_Ok (dp_tables dp) 0 ft)) by done. cbn [mbind outcome_bind].
  rewrite Hs. cbn [mbind outcome_bind].
  rewrite array_set_in_range by (rewrite (pw_length _ Ht); unfold MAX_TABLES; lia).
  cbn [mbind outcome_bind]. eexists _, ft. split; [done|]. split; [|split].
  - do 2 f_equal. rewrite Hf. unfold reported. f_equal. apply filter_ext_in.
    intros [a f] Hin. cbn [snd]. split; [by intros [_ ?]|]. intros Hx. split; [|done].
    apply zero_key_matches_all. eapply ft_flow_wf; [apply Hok|exact Hin].
  - split; [done|]. cbn [dp_tables setf]. apply pipeline_wf_insert; [done| |].
    + split; [by eapply shrinks_wf; [apply Hok|]|]. unfold ft_unique. rewrite He.
      apply edit_unique; [apply keeps_id|apply Hok].
    + intros a f Hin. rewrite He in Hin. apply edit_elem in Hin as (g & Hin & [-> | ->]);
        (eapply (pw_insts _ Ht); [by eapply list_elem_of_lookup_2|exact Hin]).
  - done.
Qed.

(** The flow and aggregate statistics handlers ignore the request (they clear it
    after unpacking it): whatever table and match it asks for, the reply lists the
    live flows of table 0. *)
Theorem dp_flow_stats_ignore_request dp req req' time :
  dp_wf dp →
  dp_handle_flow_stats_req dp req time = dp_handle_flow_stats_req dp req' time ∧
  dp_handle_aggregate_stats_req dp req time = dp_handle_flow_stats_req dp req time ∧
  ∃ dp' ft, dp_tables dp !! 0%nat = Some ft ∧ dp_wf dp' ∧
    dp_handle_flow_stats_req dp req time =
    Ok (dp', (filter (λ av, flow_expired av.2 time = false) (ft_elems ft)).*1).
Proof.
  intros Hd. do 2 (split; [done|]).
  destruct (dp_stats_ok dp req time Hd) as (dp' & ft & H1 & H2 & H3 & _). by exists dp', ft.
Qed.

(** ** Flooding *)

Lemma flood_loop (l : list (addr * port)) nf :
  let nf' := foldl (λ nf ap,
    if negb (p_port_id ap.2 =? in_port (nf_match nf))
    then netflow_add_out_port nf (p_port_id ap.2) else nf) nf l in
  nf_match nf' = nf_match nf ∧ nf_tags nf' = nf_tags nf ∧
  nf_out_ports nf' = nf_out_ports nf ++
    filter (λ i, i ≠ in_port (nf_match nf)) (p_port_id ∘ snd <$> l).
Proof.
  revert nf. induction l as [|[a p] l IH]; intros nf; cbn [foldl fmap list_fmap].
  { by rewrite filter_nil, app_nil_r. }
  unfold compose at 2. cbn [snd]. rewrite filter_cons.
  destruct (Z.eqb_spec (p_port_id p) (in_port (nf_match nf))) as [E|E]; cbn [negb].
  - rewrite decide_False by tauto. apply IH.
  - rewrite decide_True by done.
    destruct (IH (netflow_add_out_port nf (p_port_id p))) as (-> & -> & ->).
    split; [done|]. split; [done|]. cbn [netflow_add_out_port nf_out_ports setf].
    by rewrite <- app_assoc.
Qed.

(** Flooding outputs the netflow once on every port of the switch but the one
    it came from, in the order of the port table, and changes nothing else of it
    that matching sees. *)
Theorem dp_create_flood_all_others dp nf :
  dp_wf dp →
  let nf' := dp_create_flood dp nf in
  nf_match nf' = nf_match nf ∧ nf_tags nf' = nf_tags nf ∧
  ∃ flooded, nf_out_ports nf' = nf_out_ports nf ++ flooded ∧ NoDup flooded ∧
    ∀ i, in_width 32 i →
      (i ∈ flooded ↔ i ≠ in_port (nf_match nf) ∧ dp_port dp i ≠ None).
Proof.
  intros [Hb _]. unfold dp_create_flood. cbv zeta.
  destruct (flood_loop (ht_elems (dp_ports dp)) nf) as (-> & -> & ->).
  do 2 (split; [done|]). eexists. split; [done|]. split.
  - apply NoDup_filter, NoDup_fmap_2_strong; [|].
    + intros [a p] [a' p'] H1 H2 E. unfold compose in E. cbn [snd] in E.
      destruct (nw_ids _ Hb a p a' p' H1 H2) as [-> ->]; [|done].
      unfold key_image, port_keyed. by rewrite E.
    + eapply NoDup_fmap_1. apply (ht_addrs_NoDup _ (nw_table _ Hb)).
  - intros i Hi. rewrite list_elem_of_filter, list_elem_of_fmap. unfold compose, dp_port.
    split; intros [Hne H]; (split; [done|]).
    + destruct H as ([a p] & E & Hin). cbn [snd] in E. intros Hnone.
      by apply (proj1 (node_port_None _ i Hb Hi) Hnone a p).
    + destruct (node_port (dp_base dp) i) as [[a p]|] eqn:E; [|done].
      apply node_port_Some in E as [Hin <-]; [|done|done]. by exists (a, p).
Qed.

(** ** Reachable switches *)

Lemma flow_table_new_ok i : table_ok (flow_table_new i).
Proof.
  split; [apply flow_table_new_wf|]. intros ? ? ? ? Hx. by apply not_elem_of_nil in Hx.
Qed.

Lemma dp_new_wf uuid dpid : dp_wf (dp_new uuid dpid).2.
Proof.
  split; [apply (node_init_wf uuid DATAPATH)|].
  assert (dp_tables (dp_new uuid dpid).2 =
    (λ i, flow_table_new (Z.of_nat i)) <$> seq 0 MAX_TABLES) as -> by done. split.
  - by rewrite length_fmap, length_seq.
  - apply Forall_fmap, Forall_forall. intros i _. apply flow_table_new_ok.
  - intros ft a f (i & -> & _)%list_elem_of_fmap Hx. by apply not_elem_of_nil in Hx.
Qed.

(** What happens to a switch during a simulation.  A non-strict modification that gives a
    list of actions to several rules is left out: the rules share the list
    afterwards, and the first one that is removed frees it
    ([Ownership.shared_actions_dangle]). *)
Inductive dp_step : datapath → datapath → Prop :=
| dstep_add_port dp a i eth speed curr dp' :
    a ∉ ht_addrs (dp_ports dp) → in_width 32 i → dp_port dp i = None →
    dp_add_port dp a i eth speed curr = Ok dp' → dp_step dp dp'
| dstep_recv dp nf dp' nf' b :
    nf_wf nf → dp_recv_netflow dp nf = Ok (dp', nf', b) → dp_step dp dp'
| dstep_send dp nf out_port : dp_step dp (dp_send_netflow dp nf out_port)
| dstep_flow_mod dp command a f time ft dp' :
    flow_wf f → insts_ok (f_insts f) → 0 ≤ f_table_id f →
    dp_tables dp !! Z.to_nat (f_table_id f) = Some ft → addable command ft a f →
    (command = OF_FLOW_MODIFY → shares ft f time = false) →
    dp_handle_flow_mod dp command a f time = Ok dp' → dp_step dp dp'
| dstep_stats dp req time dp' flows :
    dp_handle_flow_stats_req dp req time = Ok (dp', flows) → dp_step dp dp'.

Inductive dp_reachable (uuid dpid : Z) : datapath → Prop :=
| dreach_new : dp_reachable uuid dpid (dp_new uuid dpid).2
| dreach_step dp dp' : dp_reachable uuid dpid dp → dp_step dp dp' → dp_reachable uuid dpid dp'.

Lemma dp_send_wf dp nf out_port : dp_wf dp → dp_wf (dp_send_netflow dp nf out_port).
Proof.
  intros [Hb Ht]. split; [|done]. cbn [dp_send_netflow dp_base setf].
  unfold node_update_port_stats. destruct (node_port _ _) as [[a p]|]; [|done].
  destruct (upnlive p); [|done]. by apply port_update_wf.
Qed.

Lemma dp_recv_wf dp nf dp' nf' b :
  dp_wf dp → nf_wf nf → dp_recv_netflow dp nf = Ok (dp', nf', b) → dp_wf dp'.
Proof.
  intros Hd Hn H. destruct (dp_recv_ok dp nf Hd Hn) as (dp1 & nf1 & b1 & E & Hw & _).
  rewrite E in H. by simplify_eq.
Qed.

Lemma dp_step_wf dp dp' : dp_wf dp → dp_step dp dp' → dp_wf dp'.
Proof.
  intros Hd Hs. destruct Hs as [dp a i eth speed curr dp' Ha Hi Hno H|dp nf dp' nf' b Hn H
    |dp nf out_port|dp command a f time ft dp' Hf Hio H0 Hft Hadd _ H|dp req time dp' flows H].
  - unfold dp_add_port in H. destruct Hd as [Hb Ht].
    destruct (node_add_port_spec _ a i eth speed curr Hb Ha Hi Hno) as (n' & E & Hn & _).
    rewrite E in H. cbn in H. injection H as <-. by split.
  - by eapply dp_recv_wf.
  - by apply dp_send_wf.
  - destruct (dp_flow_mod_ok dp command a f time ft) as (dp1 & E & Hw & _); try done.
    rewrite E in H. by injection H as <-.
  - destruct (dp_stats_ok dp req time Hd) as (dp1 & ft & _ & E & Hw & _).
    rewrite E in H. by injection H as <- _.
Qed.

(** C13. The switch invariant: every switch that adding ports, receiving and sending
    netflows, flow modifications and statistics requests can produce from a new one
    has a consistent port table, 128 well-formed flow tables without duplicate
    matches, and only executable rules.  The controller is assumed to install rules with
    supported actions and tables in range, to add no match twice, and to send no
    non-strict modification with actions that applies to more than one rule of the table: such a
    modification makes the rules share one list of actions, which the removal of the
    first rule frees. *)
Theorem dp_reachable_wf uuid dpid dp : dp_reachable uuid dpid dp → dp_wf dp.
Proof. induction 1 as [|dp dp' _ IH Hs]; [apply dp_new_wf|by eapply dp_step_wf]. Qed.

(** ** Concrete switches *)

(** A rule that outputs on a port, one that jumps to a table. *)
Definition output_rule (port : Z) : flow :=
  (set_eth_type (flow_new 0) 0x800) <| f_priority := 10 |>
  <| f_insts := add_apply_actions instruction_set_zero
       (inst_apply_actions [action_output blank_action port]) |>.
Definition goto_rule (table : Z) : flow :=
  (set_eth_type (flow_new 0) 0x800) <| f_priority := 10 |>
  <| f_insts := add_goto_table instruction_set_zero (inst_goto_table table) |>.

Definition sample_dp (f : flow) : outcome datapath :=
  dp ← dp_add_port (dp_new 0 1).2 1 1 (replicate 6 1) 100000 100000;
  dp ← dp_add_port dp 2 2 (replicate 6 2) 100000 100000;
  dp_handle_flow_mod dp OF_FLOW_ADD 5 f 0.

Definition sample_nf : netflow :=
  netflow_init <| nf_match; in_port := 1 |> <| nf_match; eth_type := 0x800 |>
    <| nf_byte_cnt := 1500 |> <| nf_pkt_cnt := 1 |>.

(** A rule whose goto-table instruction names a table past the array of 128
    makes the pipeline read outside the array (nothing checks the number, neither
    when the rule is installed nor when it is followed). *)
Theorem goto_past_tables_faults :
  (dp ← sample_dp (goto_rule 200); dp_recv_netflow dp sample_nf) = Fault OutOfBounds.
Proof. vm_compute. reflexivity. Qed.

Lemma zero_insts_ok : insts_ok instruction_set_zero.
Proof. split; [constructor|apply acts_ok_empty|done|cbn; unfold MAX_TABLES; lia]. Qed.

Lemma output_rule_ok port :
  in_width 32 port → flow_wf (output_rule port) ∧ insts_ok (f_insts (output_rule port)).
Proof.
  intros Hp. split; [by apply flow_wf_check; vm_compute|].
  destruct zero_insts_ok as [_ Hw Hm Hg]. split; [|exact Hw|exact Hm|exact Hg].
  cbn [f_insts output_rule setf apply_act add_apply_actions inst_apply_actions aa_actions].
  constructor; [|constructor]. split; [|by vm_compute]. split; [done|].
  cbn [act_union action_output]. apply patch_wf.
  - by apply (bool_decide_unpack _); vm_compute.
  - apply le_bytes_wf.
  - rewrite length_le_bytes. unfold UNION_SIZE. lia.
Qed.

Lemma two_port_dp :
  ∃ dp, (dp ← dp_add_port (dp_new 0 1).2 1 1 (replicate 6 1) 100000 100000;
         dp_add_port dp 2 2 (replicate 6 2) 100000 100000) = Ok dp ∧ dp_wf dp.
Proof.
  pose proof (dp_new_wf 0 1) as [Hb Ht]. destruct sample_node_wf as (n & E & Hn).
  exists (mk_datapath n 1 (dp_tables (dp_new 0 1).2)). split; [|by split].
  unfold sample_node in E. unfold dp_add_port.
  change (dp_base (dp_new 0 1).2) with (node_init 0 DATAPATH).2.
  apply outcome_bind_Ok in E as (n1 & E1 & E2). rewrite E1. cbn [mbind outcome_bind dp_base setf].
  by rewrite E2.
Qed.

Lemma sample_dp_wf port :
  in_width 32 port → ∃ dp, sample_dp (output_rule port) = Ok dp ∧ dp_wf dp.
Proof.
  intros Hp. destruct two_port_dp as (dp & E & Hd). destruct (output_rule_ok port Hp) as [Hf Hi].
  apply outcome_bind_Ok in E as (dp1 & E1 & E2). unfold sample_dp.
  rewrite E1. cbn [mbind outcome_bind]. rewrite E2. cbn [mbind outcome_bind].
  assert (dp_tables dp !! Z.to_nat (f_table_id (output_rule port)) = Some (flow_table_new 0)) as Hft.
  { unfold dp_add_port in E1, E2. inv_ok. reflexivity. }
  destruct (dp_flow_mod_ok dp OF_FLOW_ADD 5 (output_rule port) 0 (flow_table_new 0))
    as (dp' & -> & Hw & _); try done; [|by exists dp'].
  intros _. split; [apply not_elem_of_nil|]. intros a g Hx. by apply not_elem_of_nil in Hx.
Qed.

Lemma sample_nf_wf : nf_wf sample_nf.
Proof. split; [by apply key_wf_check; vm_compute|exact netflow_init_stack]. Qed.

Lemma dp_recv_netflow_refines_witness :
  ∃ dp dp' nf', sample_dp (output_rule 2) = Ok dp ∧
    dp_recv_netflow dp sample_nf = Ok (dp', nf', true) ∧ nf_out_ports nf' = [2] ∧ dp_wf dp'.
Proof.
  destruct (sample_dp_wf 2) as (dp & E & Hd); [done|].
  destruct (dp_recv_netflow_refines dp sample_nf Hd sample_nf_wf) as (dp' & nf' & b & H & Hw & _).
  assert ((dp ← sample_dp (output_rule 2); r ← dp_recv_netflow dp sample_nf;
           Ok (r.2, nf_out_ports r.1.2)) = Ok (true, [2])) as C by (vm_compute; reflexivity).
  rewrite E in C. cbn [mbind outcome_bind] in C. rewrite H in C.
  cbn [mbind outcome_bind fst snd] in C. injection C as -> C. by exists dp, dp', nf'.
Defined.

Lemma dp_flow_mod_one_table_witness :
  ∃ dp', dp_handle_flow_mod (dp_new 0 1).2 OF_FLOW_ADD 5 (output_rule 2) 0 = Ok dp' ∧ dp_wf dp'.
Proof.
  destruct (output_rule_ok 2) as [Hf Hi]; [done|].
  pose proof (dp_flow_mod_one_table (dp_new 0 1).2 OF_FLOW_ADD 5 (output_rule 2) 0
    (dp_new_wf 0 1) Hf Hi ltac:(done)) as H.
  change (dp_tables (dp_new 0 1).2 !! Z.to_nat (f_table_id (output_rule 2)))
    with (Some (flow_table_new 0)) in H. cbv iota in H.
  destruct H as (dp' & H & Hw & _); [|by exists dp'].
  intros _. split; [apply not_elem_of_nil|]. intros a g Hx. by apply not_elem_of_nil in Hx.
Defined.

Lemma dp_flow_stats_ignore_request_witness :
  ∃ dp dp', sample_dp (output_rule 2) = Ok dp ∧
    dp_handle_flow_stats_req dp (StatsReq 7 0 0 0 0 key_zero key_zero) 0 = Ok (dp', [5%nat]).
Proof.
  destruct (sample_dp_wf 2) as (dp & E & Hd); [done|].
  destruct (dp_flow_stats_ignore_request dp (StatsReq 7 0 0 0 0 key_zero key_zero) zero_req 0 Hd)
    as (_ & _ & dp' & ft & Hft & _ & H).
  exists dp, dp'. split; [exact E|].
  assert ((dp ← sample_dp (output_rule 2);
           r ← dp_handle_flow_stats_req dp (StatsReq 7 0 0 0 0 key_zero key_zero) 0; Ok (r.2))
          = Ok [5%nat]) as C by (vm_compute; reflexivity).
  rewrite E in C. cbn [mbind outcome_bind] in C. rewrite H in C |- *.
  cbn [mbind outcome_bind snd] in C. by injection C as ->.
Defined.

Lemma dp_create_flood_all_others_witness :
  ∃ dp, sample_dp (output_rule 2) = Ok dp ∧
    nf_out_ports (dp_create_flood dp sample_nf) = [2] ∧
    nf_match (dp_create_flood dp sample_nf) = nf_match sample_nf.
Proof.
  destruct (sample_dp_wf 2) as (dp & E & Hd); [done|].
  destruct (dp_create_flood_all_others dp sample_nf Hd) as [Hm _].
  exists dp. split; [exact E|]. split; [|exact Hm].
  assert ((dp ← sample_dp (output_rule 2); Ok (nf_out_ports (dp_create_flood dp sample_nf)))
          = Ok [2]) as C by (vm_compute; reflexivity).
  rewrite E in C. cbn [mbind outcome_bind] in C. by injection C.
Defined.

Lemma dp_reachable_wf_witness :
  ∃ dp' nf', dp_recv_netflow (dp_new 0 1).2 sample_nf = Ok (dp', nf', false) ∧ dp_wf dp'.
Proof.
  assert ((r ← dp_recv_netflow (dp_new 0 1).2 sample_nf; Ok r.2) = Ok false) as C
    by (vm_compute; reflexivity).
  destruct (dp_recv_netflow (dp_new 0 1).2 sample_nf) as [[[dp' nf'] b]|] eqn:E; [|done].
  cbn [mbind outcome_bind snd] in C. injection C as ->.
  exists dp', nf'. split.
  - done.
  - apply (dp_reachable_wf 0 1). eapply dreach_step; [apply dreach_new|].
    eapply dstep_recv; [exact sample_nf_wf|exact E].
Defined.
