(* ===== verification/DpControl.v ===== *)
(** * DpControl: control messages from the wire to the switch

    Models [net/dp_control.c] and completes the handlers of [net/datapath.c] with
    the unpacking of their message and the packing of their reply.  loci, which
    turns bytes into objects and back, is the parameter [Loci]; what the
    allocator and the stack hand to a handler (the address and the flags of a new
    flow, the bytes of uninitialised locals) is the record [scratch].

    The theorems: a well-formed flow-mod message is installed as the rule it
    describes and keeps the switch well formed; a flow-mod whose match cannot be
    decoded is applied to every flow; the actions the switch reports execute as
    the installed ones; an ARP packet survives packet-in and packet-out; the
    requests that abort the process. *)

From stdpp Require Import prelude gmap.
From S2P Require Import Prelude Util Uthash Action Instruction FlowKey Flow FlowTable.
From S2P Require Import Netflow Packet Node DpActions OfMsg OfUnpack OfPack Datapath.

Definition INT_MAX : Z := 2147483647.

(** Decoding a message buffer, and the wire buffers of the messages sent. *)
Class Loci := {
  of_object_new_from_message : list Z → Z → option of_request;
  of_packet_in_wire : of_packet_in → list Z;
  of_reply_wire : of_reply → list Z
}.

Record scratch := Scratch {
  sc_addr : addr;
  sc_flags : Z;
  sc_act : action;
  sc_stack : list Z
}.

(** ** The handlers, from the decoded object *)

Definition handle_flow_mod (sc : scratch) (dp : datapath) (command : flow_mod_command)
    (m : of_flow_mod) (time : Z) : outcome datapath :=
  r ← unpack_flow_mod (sc_act sc) m (flow_new (sc_flags sc));
  dp_handle_flow_mod dp command (sc_addr sc) r.1 time.

(** The flow a pointer of the result array points to. *)
Definition flow_at (tables : list flow_table) (a : addr) : option flow :=
  snd <$> first (λ av, bool_decide (av.1 = a)) (mjoin (ft_elems <$> tables)).

(** The contents of the request struct are cleared again before they are used. *)
Definition handle_flow_stats_req (sc : scratch) (dp : datapath) (m : of_flow_stats_request)
    (time : Z) : outcome (datapath * option of_reply) :=
  r ← dp_handle_flow_stats_req dp (unpack_flow_stats_request m zero_req).1 time;
  let '(dp, flows) := r in
  flows ← deref (mapM (flow_at (dp_tables dp)) flows);
  Ok (dp, if decide (flows = []) then None
          else Some (pack_flow_stats_reply (sc_stack sc) flows (fsr_xid m))).

Definition handle_aggregate_stats_req (dp : datapath) (m : of_flow_stats_request)
    (time : Z) : outcome (datapath * option of_reply) :=
  r ← dp_handle_aggregate_stats_req dp (unpack_aggregate_stats_request m zero_req).1 time;
  let '(dp, flows) := r in
  flows ← deref (mapM (flow_at (dp_tables dp)) flows);
  Ok (dp, if decide (flows = []) then None
          else Some (pack_aggregate_stats_reply flows (fsr_xid m))).

Definition handle_pkt_out (sc : scratch) (dp : datapath) (m : of_packet_out)
    (nf : netflow) (time : Z) : outcome netflow :=
  let nf := nf <| nf_start_time := time |> in
  r ← unpack_packet_out (sc_act sc) m nf action_list_init;
  execute_action_list r.2 r.1.

(** [dp_handle_port_desc] reads the transaction id with the accessor of port
    description requests, whose assertion the other three messages fail. *)
Definition dispatch (sc : scratch) (dp : datapath) (obj : of_request) (nf : netflow)
    (time : Z) : outcome (datapath * netflow * option of_reply) :=
  match obj with
  | OF_PACKET_OUT m =>
      nf ← handle_pkt_out sc dp m nf time; Ok (dp, nf, None)
  | OF_FLOW_MOD command m =>
      dp ← handle_flow_mod sc dp command m time; Ok (dp, nf, None)
  | OF_PORT_STATS_REQUEST xid port_no =>
      r ← dp_handle_port_stats_req dp xid port_no;
      Ok (dp, nf, Some (OF_PORT_STATS_REPLY r.1 r.2))
  | OF_FLOW_STATS_REQUEST m =>
      r ← handle_flow_stats_req sc dp m time; Ok (r.1, nf, r.2)
  | OF_AGGREGATE_STATS_REQUEST m =>
      r ← handle_aggregate_stats_req dp m time; Ok (r.1, nf, r.2)
  | OF_FEATURES_REQUEST _ | OF_PORT_MOD _ | OF_DESC_STATS_REQUEST _ => Fault Aborted
  | OF_PORT_DESC_STATS_REQUEST xid =>
      let r := dp_handle_port_desc dp xid in
      Ok (dp, nf, Some (OF_PORT_DESC_STATS_REPLY r.1 r.2))
  | OF_OTHER_MESSAGE => Ok (dp, nf, None)
  end.

(** The switch, the netflow and the reply. *)
Definition dp_control_handle_control_msg `{Loci} (sc : scratch) (dp : datapath)
    (msg : list Z) (nf : netflow) (len time : Z)
  : outcome (datapath * netflow * option of_reply) :=
  if INT_MAX <? len then Ok (dp, nf, None)
  else match of_object_new_from_message msg len with
       | None => Ok (dp, nf, None)
       | Some obj => dispatch sc dp obj nf time
       end.

(** ** Actions with the same meaning *)

(** Two actions are equivalent when type and operand agree; the other bytes of
    the union do not matter. *)
Definition act_equiv (a b : action) : Prop := act_view a = act_view b.
#[export] Instance act_equiv_equivalence : Equivalence act_equiv.
Proof.
  split; [intros a; reflexivity|intros a b H; by symmetry|].
  intros a b c H1 H2. by transitivity (act_view b).
Qed.

Lemma union_read_prefix off k n a :
  (k ≤ n)%nat → union_read off k a = take k (union_read off n a).
Proof. intros. unfold union_read. rewrite take_take. f_equal. lia. Qed.

Lemma set_field_view a b nf :
  union_read 0 1 a = union_read 0 1 b →
  union_read SET_FIELD_OFF 16 a = union_read SET_FIELD_OFF 16 b →
  set_field a nf = set_field b nf.
Proof.
  intros H0 H16.
  assert (∀ k, (k ≤ 16)%nat → union_read SET_FIELD_OFF k a = union_read SET_FIELD_OFF k b)
    as Hk by (intros k Hk; by rewrite !(union_read_prefix _ k 16), H16).
  unfold set_field, act_field, act_u8_field, act_u16_field, act_u32_field, act_u64_field,
    act_eth_addr, act_ipv6_addr, ETH_LEN, IPV6_LEN.
  by rewrite H0, !(Hk 1%nat), !(Hk 2%nat), !(Hk 4%nat), !(Hk 6%nat), ?(Hk 8%nat), !(Hk 16%nat) by lia.
Qed.

Lemma union_read_length off n a :
  action_wf a → (off + n ≤ UNION_SIZE)%nat → length (union_read off n a) = n.
Proof. intros Ha Hn. by apply bytes_wf_length, union_read_bytes. Qed.

Lemma execute_action_equiv a b nf :
  action_wf a → action_wf b → act_equiv a b → execute_action a nf = execute_action b nf.
Proof.
  intros Ha Hb [= Hty Hop]. unfold execute_action. rewrite <- Hty.
  destruct (array_get handle_action (act_type a)) as [[h|]|] eqn:Hh; [|done..].
  cbn [mbind outcome_bind deref]. unfold act_operand in Hop. rewrite <- Hty in Hop.
  apply array_get_Ok in Hh as [H0 Hh].
  assert (Z.to_nat (act_type a) < 14)%nat as Hlt by (apply lookup_lt_Some in Hh; exact Hh).
  assert (act_type a = Z.of_nat (Z.to_nat (act_type a))) as Hz by lia.
  rewrite Hz in Hop. clear Hz H0. revert Hop Hh.
  generalize (Z.to_nat (act_type a)) Hlt. clear Hlt Hty. intros t Hlt Hop Hh.
  destruct t as [|[|[|[|[|[|[|[|[|[|[|[|[|[|t]]]]]]]]]]]]]];
    [discriminate Hh|discriminate Hh|..|lia]; try discriminate Hh;
    injection Hh as <-; cbn [Z.of_nat] in Hop.
  - done.
  - change (union_read 0 2 a = union_read 0 2 b) in Hop.
    unfold pop_mpls, act_eth_type. by rewrite Hop.
  - change (union_read 0 2 a = union_read 0 2 b) in Hop.
    unfold push_vlan, act_eth_type. by rewrite Hop.
  - change (union_read 0 2 a = union_read 0 2 b) in Hop.
    unfold push_mpls, act_eth_type. by rewrite Hop.
  - change (union_read 0 1 a ++ union_read SET_FIELD_OFF 16 a =
            union_read 0 1 b ++ union_read SET_FIELD_OFF 16 b) in Hop.
    apply app_inj_1 in Hop as [H0 H16]; [by apply set_field_view|].
    by rewrite !union_read_length by (done || unfold UNION_SIZE; lia).
  - done.
  - change (union_read 0 4 a = union_read 0 4 b) in Hop.
    unfold output, act_out_port. by rewrite Hop.
Qed.

Lemma execute_action_list_equiv al al' nf :
  Forall action_wf al → Forall action_wf al' → act_view <$> al' = act_view <$> al →
  execute_action_list al' nf = execute_action_list al nf.
Proof.
  intros Ha Ha' Hv. revert al' nf Ha' Hv. induction Ha as [|a al Ha _ IH]; intros al' nf Ha' Hv.
  - by apply fmap_nil_inv in Hv as ->.
  - destruct al' as [|b al']; [done|]. injection Hv as H1 H2 Hv. inversion Ha'; subst.
    cbn [execute_action_list]. rewrite (execute_action_equiv b a); [|done|done|].
    + destruct (execute_action a nf) as [nf'|]; [|done]. cbn [mbind outcome_bind]. by apply IH.
    + unfold act_equiv, act_view. by rewrite H1, H2.
Qed.

(** C30. What the switch reports is what it does: the action list that a flow
    statistics reply carries for a list of output, group, VLAN and pop-MPLS
    actions, decoded as a flow-mod would decode it, executes on every netflow
    exactly as the installed list. *)
Theorem reported_actions_execute_alike stack al gen_act nf :
  Forall action_wf al → Forall (λ a, portable (act_type a) = true) al → action_wf gen_act →
  (al' ← unpack_actions action_list_add (pack_action_list stack al []) gen_act
           action_list_init;
   execute_action_list al' nf) = execute_action_list al nf.
Proof.
  intros Ha Hp Hg. destruct (pack_unpack_views stack al gen_act Ha Hp Hg)
    as (al' & -> & Hv & Ha'). by apply execute_action_list_equiv.
Qed.

Definition sample_actions : action_list :=
  [action_push_vlan blank_action 0x8100; action_output blank_action 2].
Lemma reported_actions_execute_alike_witness :
  (al' ← unpack_actions action_list_add (pack_action_list [] sample_actions []) blank_action
           action_list_init;
   execute_action_list al' sample_nf) = execute_action_list sample_actions sample_nf ∧
  (nf ← execute_action_list sample_actions sample_nf; Ok (nf_out_ports nf)) = Ok [2].
Proof.
  split; [|vm_compute; reflexivity].
  apply (reported_actions_execute_alike [] sample_actions blank_action sample_nf);
    repeat constructor; by apply (bool_decide_unpack _); vm_compute.
Defined.

(** ** Flow modifications from the controller *)

Definition scratch_wf (sc : scratch) : Prop := action_wf (sc_act sc).

(** The instruction lists the decoder takes: at most one instruction, and not
    write-actions. *)
Definition wire_instructions_wf (insts : list of_instruction) : Prop :=
  match insts with
  | [] => True
  | [OF_INSTRUCTION_GOTO_TABLE t] => 0 ≤ t < Z.of_nat MAX_TABLES
  | [OF_INSTRUCTION_WRITE_METADATA v _] => in_width 64 v
  | [OF_INSTRUCTION_APPLY_ACTIONS acts] =>
      Forall wire_action_wf acts ∧ forallb decodable acts = true ∧
      Forall (λ v : Z * list Z, supported v.1 = true) (omap wire_view acts)
  | [OF_INSTRUCTION_CLEAR_ACTIONS] => True
  | _ => False
  end.

Record flow_mod_wf (m : of_flow_mod) (mt : of_match) (insts : list of_instruction) : Prop := {
  fmw_match : fm_match m = Some mt;
  fmw_instructions : fm_instructions m = Some insts;
  fmw_key : key_wf (unpack_match_fields (om_fields mt));
  fmw_mask : key_wf (unpack_match_fields (om_masks mt));
  fmw_priority : in_width 16 (fm_priority m);
  fmw_table : 0 ≤ fm_table_id m;
  fmw_insts : wire_instructions_wf insts
}.

(** A key holds the fields of a message, each under its own name. *)
Definition holds_fields (k : ofl_flow_key) (m : of_match_fields) : Prop :=
  in_port k = mf_in_port m ∧ in_phy_port k = mf_in_phy_port m ∧ metadata k = mf_metadata m ∧
  tunnel_id k = mf_tunnel_id m ∧ eth_dst k = mf_eth_dst m ∧ eth_src k = mf_eth_src m ∧
  eth_type k = mf_eth_type m ∧ vlan_id k = mf_vlan_vid m ∧ vlan_pcp k = mf_vlan_pcp m ∧
  ip_dscp k = mf_ip_dscp m ∧ ip_ecn k = mf_ip_ecn m ∧ ip_proto k = mf_ip_proto m ∧
  ipv4_src k = mf_ipv4_src m ∧ ipv4_dst k = mf_ipv4_dst m ∧ tcp_src k = mf_tcp_src m ∧
  tcp_dst k = mf_tcp_dst m ∧ udp_src k = mf_udp_src m ∧ udp_dst k = mf_udp_dst m ∧
  sctp_src k = mf_sctp_src m ∧ sctp_dst k = mf_sctp_dst m ∧ icmpv4_type k = mf_icmpv4_type m ∧
  icmpv4_code k = mf_icmpv4_code m ∧ arp_op k = mf_arp_op m ∧ arp_spa k = mf_arp_spa m ∧
  arp_tpa k = mf_arp_tpa m ∧ arp_sha k = mf_arp_sha m ∧ arp_tha k = mf_arp_tha m ∧
  ipv6_src k = mf_ipv6_src m ∧ ipv6_dst k = mf_ipv6_dst m ∧ ipv6_flabel k = mf_ipv6_flabel m ∧
  icmpv6_type k = mf_icmpv6_type m ∧ icmpv6_code k = mf_icmpv6_code m ∧
  ipv6_nd_target k = mf_ipv6_nd_target m ∧ ipv6_nd_sll k = mf_ipv6_nd_sll m ∧
  ipv6_nd_tll k = mf_ipv6_nd_tll m ∧ mpls_label k = mf_mpls_label m ∧ mpls_tc k = mf_mpls_tc m ∧
  mpls_bos k = mf_mpls_bos m.
(** What an instruction set does is what the instruction of the message says; an action is
    seen as its type and operand. *)
Definition does_instruction (insts : list of_instruction) (s : instruction_set) : Prop :=
  match insts with
  | [] => active s = 0
  | [OF_INSTRUCTION_GOTO_TABLE t] =>
      active s = INSTRUCTION_GOTO_TABLE ∧ gt_table_id (gt_table s) = t
  | [OF_INSTRUCTION_WRITE_METADATA v mask] =>
      active s = INSTRUCTION_WRITE_METADATA ∧ wm_metadata (write_meta s) = v ∧
      wm_metadata_mask (write_meta s) = mask
  | [OF_INSTRUCTION_APPLY_ACTIONS acts] =>
      active s = INSTRUCTION_APPLY_ACTIONS ∧
      act_view <$> aa_actions (apply_act s) = omap wire_view acts
  | [OF_INSTRUCTION_CLEAR_ACTIONS] => active s = INSTRUCTION_CLEAR_ACTIONS
  | _ => False
  end.

Lemma insts_ok_init iset :
  insts_ok iset → insts_ok (instruction_set_init iset).
Proof. intros [_ _ Hm Hg]. split; [constructor|apply acts_ok_empty|exact Hm|exact Hg]. Qed.

Lemma unpack_instructions_ok gen_act insts iset :
  action_wf gen_act → insts_ok iset → wire_instructions_wf insts →
  ∃ iset', unpack_instructions gen_act insts iset = Ok iset' ∧ does_instruction insts iset' ∧ insts_ok iset'.
Proof.
  intros Hg Hi Hw. pose proof (insts_ok_init iset Hi) as [Ha Hs Hm Ht].
  destruct insts as [|i [|? ?]]; [by eexists; split; [reflexivity|]; split; [|split]| |by destruct i].
  destruct i as [t|v mask|acts|acts| |ty]; try done.
  - eexists. split; [reflexivity|]. split; [done|]. split; [exact Ha|exact Hs|exact Hm|exact Hw].
  - eexists. split; [reflexivity|]. split; [done|]. split; [exact Ha|exact Hs|exact Hw|exact Ht].
  - destruct Hw as (Hwf & Hd & Hsup).
    pose proof (unpack_actions_decodes acts gen_act Hg Hwf) as H. unfold decodes in H.
    rewrite Hd in H. destruct H as (al & Hal & Hv & Hok).
    unfold unpack_instructions. cbn [unpack_instruction_loop of_instruction_type].
    unfold unpack_instruction. cbn [of_instruction_apply_actions_actions_get mbind outcome_bind].
    change (unpack_actions action_list_add acts gen_act action_list_init = Ok al) in Hal.
    rewrite Hal. eexists. split; [reflexivity|]. split; [by split|].
    split; [|exact Hs|exact Hm|exact Ht]. cbn [apply_act add_apply_actions setf aa_actions].
    rewrite <- Hv in Hsup. rewrite Forall_fmap in Hsup.
    apply Forall_and. split; [exact Hok|exact Hsup].
  - eexists. split; [reflexivity|]. split; [done|]. split; [exact Ha|exact Hs|exact Hm|exact Ht].
Qed.

Lemma unpack_flow_mod_ok gen_act m mt insts flags :
  action_wf gen_act → flow_mod_wf m mt insts →
  ∃ f, unpack_flow_mod gen_act m (flow_new flags) = Ok (f, true) ∧
    flow_wf f ∧ insts_ok (f_insts f) ∧ f_table_id f = fm_table_id m ∧
    holds_fields (f_key f) (om_fields mt) ∧ holds_fields (f_mask f) (om_masks mt) ∧
    f_priority f = fm_priority m ∧ f_cookie f = fm_cookie m ∧ f_flags f = fm_flags m ∧
    f_idle_timeout f = fm_idle_timeout m ∧ f_hard_timeout f = fm_hard_timeout m ∧
    f_pkt_cnt f = 0 ∧ f_byte_cnt f = 0 ∧ does_instruction insts (f_insts f).
Proof.
  intros Hg [Hm Hi Hk Hma Hp Ht Hin]. unfold unpack_flow_mod. rewrite Hm, Hi.
  destruct (unpack_instructions_ok gen_act insts instruction_set_zero Hg zero_insts_ok Hin)
    as (iset & E & Hdo & Hok).
  match goal with |- context [unpack_instructions gen_act insts ?x] =>
    change x with instruction_set_zero end.
  rewrite E. eexists. split; [reflexivity|].
  split; [split; [exact Hk|exact Hma|exact Hp]|]. split; [exact Hok|]. split; [reflexivity|].
  split; [by repeat split|]. split; [by repeat split|]. do 7 (split; [reflexivity|]). exact Hdo.
Qed.


(** A controller that forwards IPv4 out of port 2. *)
Definition sample_flow_mod : of_flow_mod :=
  FlowMod 0 0 0 0 77 10
    (Some (OfMatch (match_fields_zero <| mf_eth_type := 0x800 |>)
                   (match_fields_zero <| mf_eth_type := 0xffff |>)))
    (Some [OF_INSTRUCTION_APPLY_ACTIONS [OF_ACTION_OUTPUT 2 0]]).
Definition sample_loci (r : of_request) : Loci :=
  Build_Loci (λ _ _, Some r) (λ _, []) (λ _, []).
Definition sample_scratch : scratch := Scratch 5 0 blank_action [].

Lemma sample_action_wf : action_wf blank_action.
Proof. by split; apply (bool_decide_unpack _); vm_compute. Qed.

Lemma sample_flow_mod_wf :
  flow_mod_wf sample_flow_mod (OfMatch (match_fields_zero <| mf_eth_type := 0x800 |>)
    (match_fields_zero <| mf_eth_type := 0xffff |>))
    [OF_INSTRUCTION_APPLY_ACTIONS [OF_ACTION_OUTPUT 2 0]].
Proof.
  split; [reflexivity|reflexivity|by apply key_wf_check; vm_compute|
          by apply key_wf_check; vm_compute|done|done|].
  split; [|split; [reflexivity|]].
  - apply Forall_cons; split; [exact I|apply Forall_nil_2].
  - apply Forall_cons; split; [reflexivity|apply Forall_nil_2].
Qed.


(** ** Error paths *)

(** The result of [unpack_flow_mod] is ignored: a flow-mod whose match loci
    cannot decode still takes effect, as a rule that matches every packet and has
    no instruction; as a delete it empties the table of a well-formed switch. *)
Theorem undecodable_match_deletes_all sc dp m time ft :
  dp_wf dp → 0 ≤ fm_table_id m → fm_match m = None → in_width 16 (fm_priority m) →
  dp_tables dp !! Z.to_nat (fm_table_id m) = Some ft →
  ∃ dp' ft', handle_flow_mod sc dp OF_FLOW_DELETE m time = Ok dp' ∧
    dp_tables dp' = <[Z.to_nat (fm_table_id m) := ft']> (dp_tables dp) ∧ ft_elems ft' = [].
Proof.
  intros Hd H0 Hm Hp Hft. unfold handle_flow_mod, unpack_flow_mod. rewrite Hm.
  cbn [mbind outcome_bind fst]. set (f := _ <| f_priority := _ |>).
  assert (flow_wf f) as Hf by (split; [exact key_zero_wf|exact key_zero_wf|exact Hp]).
  destruct (dp_flow_mod_ok dp OF_FLOW_DELETE (sc_addr sc) f time ft Hd Hf zero_insts_ok H0 Hft)
    as (dp' & -> & _ & _ & Ht); [done|].
  exists dp', (flow_mod OF_FLOW_DELETE ft (sc_addr sc) f time). split; [done|].
  split; [exact Ht|].
  assert (table_ok ft) as [Hwf Hu] by (eapply Forall_lookup_1; [apply Hd|exact Hft]).
  cbn [flow_mod]. rewrite (proj2 (delete_flow_edit _ _ _ _ Hwf Hu Hf)), edit_drop.
  apply elem_of_nil_inv. intros [a g] [Hn Hin]%list_elem_of_filter. cbn [snd] in Hn.
  assert (non_strict_match f g = true) as Hy
    by exact (zero_key_matches_all f g (ft_flow_wf ft a g Hwf Hin)).
  by rewrite Hy in Hn.
Qed.

Lemma undecodable_match_deletes_all_witness :
  ∃ dp dp' ft', sample_dp (output_rule 2) = Ok dp ∧
    handle_flow_mod sample_scratch dp OF_FLOW_DELETE (FlowMod 0 0 0 0 0 0 None None) 0 = Ok dp' ∧
    dp_tables dp' = <[0%nat := ft']> (dp_tables dp) ∧ ft_elems ft' = [].
Proof.
  destruct (sample_dp_wf 2) as (dp & E & Hd); [done|]. exists dp.
  destruct (lookup_lt_is_Some_2 (dp_tables dp) 0) as [ft Hft].
  { rewrite (pw_length _ (dw_tables _ Hd)). unfold MAX_TABLES. lia. }
  destruct (undecodable_match_deletes_all sample_scratch dp (FlowMod 0 0 0 0 0 0 None None) 0 ft)
    as (dp' & ft' & H1 & H2 & H3); [exact Hd|done|reflexivity|done|exact Hft|].
  exists dp', ft'. split; [exact E|]. split; [exact H1|]. split; [exact H2|exact H3].
Defined.

(** Messages that do not reach a handler change nothing and get no reply
    (longer than [INT_MAX], not decodable, of another type); feature, port-mod
    and description requests abort the process, because they are answered with the
    accessor of port description requests; port statistics of a port the switch
    does not have dereference a null pointer. *)
Theorem control_message_errors `{Loci} sc dp msg nf len time :
  (INT_MAX < len ∨ of_object_new_from_message msg len = None ∨
   of_object_new_from_message msg len = Some OF_OTHER_MESSAGE →
   dp_control_handle_control_msg sc dp msg nf len time = Ok (dp, nf, None)) ∧
  (∀ r xid, len ≤ INT_MAX → of_object_new_from_message msg len = Some r →
   r ∈ [OF_FEATURES_REQUEST xid; OF_PORT_MOD xid; OF_DESC_STATS_REQUEST xid] →
   dp_control_handle_control_msg sc dp msg nf len time = Fault Aborted) ∧
  (∀ xid port_no, len ≤ INT_MAX →
   of_object_new_from_message msg len = Some (OF_PORT_STATS_REQUEST xid port_no) →
   port_no ≠ OFPP_ANY → dp_port dp port_no = None →
   dp_control_handle_control_msg sc dp msg nf len time = Fault NullDeref).
Proof.
  unfold dp_control_handle_control_msg. split; [|split].
  - destruct (Z.ltb_spec INT_MAX len); [done|]. intros [?|[-> | ->]]; [lia|done|done].
  - intros r xid Hl -> Hr. rewrite (proj2 (Z.ltb_ge _ _) Hl).
    rewrite !elem_of_cons, elem_of_nil in Hr. by destruct Hr as [-> |[-> |[-> |[]]]].
  - intros xid p Hl -> Hp Hn. rewrite (proj2 (Z.ltb_ge _ _) Hl).
    cbn [dispatch]. unfold dp_handle_port_stats_req.
    by rewrite (proj2 (Z.eqb_neq _ _) Hp), Hn.
Qed.

Lemma control_message_errors_witness :
  @dp_control_handle_control_msg (sample_loci (OF_PORT_STATS_REQUEST 1 9)) sample_scratch
    (dp_new 0 1).2 [] netflow_init 24 0 = Fault NullDeref ∧
  @dp_control_handle_control_msg (sample_loci (OF_FEATURES_REQUEST 1)) sample_scratch
    (dp_new 0 1).2 [] netflow_init 8 0 = Fault Aborted.
Proof.
  split.
  - destruct (@control_message_errors (sample_loci (OF_PORT_STATS_REQUEST 1 9)) sample_scratch
      (dp_new 0 1).2 [] netflow_init 24 0) as (_ & _ & H).
    apply (H 1 9); [unfold INT_MAX; lia|reflexivity|discriminate|reflexivity].
  - destruct (@control_message_errors (sample_loci (OF_FEATURES_REQUEST 1)) sample_scratch
      (dp_new 0 1).2 [] netflow_init 8 0) as (_ & H & _).
    apply (H (OF_FEATURES_REQUEST 1) 1); [unfold INT_MAX; lia|reflexivity|].
    apply elem_of_cons. left. reflexivity.
Defined.

(** ** Through the controller and back *)

(** The packet-out by which a controller returns the packet of a packet-in. *)
Definition packet_out_of (p : of_packet_in) (out : Z) : of_packet_out :=
  PacketOut (pi_buffer_id p) (mf_in_port (om_fields (pi_match p)))
    [OF_ACTION_OUTPUT out 0] (Some (pi_data p)).

(** C31. An ARP request or reply that the switch sends to the controller and the
    controller sends back to a port comes out of the switch with every Ethernet
    and ARP field and the input port it had, on that port, as one packet of 42
    bytes stamped with the current time. *)
Theorem packet_in_out_round_trip sc dp n buf out time :
  scratch_wf sc → key_wf (nf_match n) → untagged n → eth_type (nf_match n) = ETH_TYPE_ARP →
  arp_op (nf_match n) = ARP_OP_REQUEST ∨ arp_op (nf_match n) = ARP_OP_REPLY →
  in_width 32 out → (MAX_PACKET_IN_DATA ≤ length buf)%nat →
  ∃ p nf', pack_packet_in buf n = Ok p ∧ pi_total_len p = 42 ∧
    handle_pkt_out sc dp (packet_out_of p out) netflow_init time = Ok nf' ∧
    nf_match nf' = arp_fields (nf_match n) (key_zero <| in_port := in_port (nf_match n) |>) ∧
    nf_out_ports nf' = [out] ∧ nf_byte_cnt nf' = 42 ∧ nf_pkt_cnt nf' = 1 ∧
    nf_start_time nf' = time.
Proof.
  intros Hsc Hk Hu Hty Hop Hout Hb.
  destruct (arp_print n buf Hk Hu Hty Hop) as [r Hr]; [unfold MAX_PACKET_IN_DATA in Hb; lia|].
  pose proof (length_arp_frame _ Hk Hop) as Hlen.
  unfold pack_packet_in. rewrite Hr. cbn [mbind outcome_bind]. rewrite take_app_length' by done.
  eexists _, _. split; [reflexivity|]. split; [reflexivity|].
  unfold handle_pkt_out, unpack_packet_out, packet_out_of.
  cbn [po_buffer_id po_in_port po_actions po_data pi_data pi_buffer_id pi_match
    unpack_actions mbind outcome_bind].
  rewrite Hlen. change (Z.of_nat 42) with 42.
  set (n0 := _ <| nf_match; in_port := _ |>).
  pose proof (arp_parse (nf_match n) n0 [] Hk Hty Hop) as Hparse. rewrite app_nil_r in Hparse.
  rewrite Hparse. cbn [mbind outcome_bind fst snd].
  unfold action_list_add, action_list_init. cbn [app execute_action_list].
  rewrite (execute_action_eq (action_output (sc_act sc) out) _ 13 output eq_refl eq_refl).
  cbn [mbind outcome_bind].
  unfold output. split; [reflexivity|]. split; [reflexivity|]. split; [|done].
  unfold netflow_add_out_port. change (nf_out_ports _) with [act_out_port (action_output (sc_act sc) out)].
  f_equal. unfold act_out_port, action_output.
  rewrite (store_read 4 out ACT_OUTPUT (sc_act sc) Hsc) by lia.
  rewrite le_val_bytes. by apply wrap_small.
Qed.

Lemma packet_in_out_round_trip_witness :
  ∃ p nf', pack_packet_in (replicate 1492 0) sample_arp = Ok p ∧
    handle_pkt_out sample_scratch (dp_new 0 1).2 (packet_out_of p 3) netflow_init 10 = Ok nf' ∧
    nf_out_ports nf' = [3] ∧ nf_byte_cnt nf' = 42.
Proof.
  destruct (packet_in_out_round_trip sample_scratch (dp_new 0 1).2 sample_arp
    (replicate 1492 0) 3 10) as (p & nf' & H1 & _ & H2 & _ & H3 & H4 & _).
  - exact sample_action_wf.
  - by apply key_wf_check; vm_compute.
  - apply untagged_init.
  - reflexivity.
  - left; reflexivity.
  - done.
  - rewrite length_replicate. unfold MAX_PACKET_IN_DATA. lia.
  - exists p, nf'. split; [exact H1|]. split; [exact H2|]. split; [exact H3|exact H4].
Defined.
