(* ===== verification/Scheduler.v ===== *)
(** * Scheduler: simulation events and the event queue

    Models [lib/sim_event.c], [lib/sim_event.h] and [sim/scheduler.c].  An event
    is a heap object: the queue is the list its [next] links make, of addresses
    with their events.  Insertion is [LL_INSERT_INORDER] of
    [vendor/uthash/utlist.h] with [priocmp], deletion is by address.

    The theorems: the queue is a priority queue (sorted by time, nothing lost or
    duplicated, the first event is the earliest); events of equal time leave in
    the reverse of the order they came in; the empty queue is dereferenced; an event is
    released as one block. *)

From stdpp Require Import prelude sorting.
From S2P Require Import Prelude Util Uthash.

(** ** Events *)

Definition EVENTS_NUM : Z := 6.
Definition FTI_EVENTS_NUM : Z := 5.

(** [enum fti_events] with the fields of the structs. *)
Inductive fti_event :=
| FtiOf (subtype : Z) (data : list Z) (len dp_id : Z)
| FtiRouter (subtype : Z) (data : list Z) (len router_id conn_id : Z)
| FtiRouterConfig (router_id : Z) (cmd : list Z) (proto : Z).

Definition EVENT_OF_MSG_IN : Z := 0.
Definition EVENT_OF_MSG_OUT : Z := 1.
Definition EVENT_ROUTER_IN : Z := 2.
Definition EVENT_ROUTER_OUT : Z := 3.
Definition EVENT_ROUTER_CONFIG : Z := 4.

(** [enum events] with the fields of the structs; [None] is a field that the
    constructor function leaves uninitialised. *)
Inductive event_body :=
| BodyNone
| BodyFlowRecv (node_id : Z) (flow_id : option Z) (rate : Z) (flow : option addr)
| BodyFlowSend (node_id : Z) (flow_id : option Z) (out_port : Z) (flow : option addr)
| BodyFti (fti : fti_event)
| BodyAppStart (node_id : Z) (exec : addr).

Definition EVENT_FLOW_RECV : Z := 0.
Definition EVENT_FLOW_SEND : Z := 1.
Definition EVENT_PACKET : Z := 2.
Definition EVENT_PORT : Z := 3.
Definition EVENT_FTI : Z := 4.
Definition EVENT_APP_START : Z := 5.
Definition EVENT_END : Z := 255.

Record sim_event := SimEvent {
  ev_type : option Z; ev_time : Z; ev_body : event_body }.
#[export] Instance eta_sim_event : Eta sim_event := λ e,
  SimEvent (ev_type e) (ev_time e) (ev_body e).

(** The type is left uninitialised. *)
Definition sim_event_new (time : Z) : sim_event := SimEvent None time BodyNone.
Definition init_event_hdr (time type : Z) (body : event_body) : sim_event :=
  SimEvent (Some type) time body.

Definition sim_event_flow_recv_new (time node_id rate : Z) : sim_event :=
  init_event_hdr time EVENT_FLOW_RECV (BodyFlowRecv node_id None rate None).
Definition sim_event_flow_send_new (time node_id out_port : Z) : sim_event :=
  init_event_hdr time EVENT_FLOW_SEND (BodyFlowSend node_id None out_port None).

Definition of_msg_new (time dp_id : Z) (data : list Z) (len type : Z) : sim_event :=
  init_event_hdr time EVENT_FTI (BodyFti (FtiOf type data len dp_id)).
Definition router_msg_new (time router_id conn_id : Z) (data : list Z) (len type : Z)
  : sim_event :=
  init_event_hdr time EVENT_FTI (BodyFti (FtiRouter type data len router_id conn_id)).
Definition sim_event_of_msg_in_new (time dp_id : Z) (data : list Z) (len : Z) : sim_event :=
  of_msg_new time dp_id data len EVENT_OF_MSG_IN.
Definition sim_event_of_msg_out_new (time dp_id : Z) (data : list Z) (len : Z) : sim_event :=
  of_msg_new time dp_id data len EVENT_OF_MSG_OUT.
Definition sim_event_router_in_new (time router_id conn_id : Z) (data : list Z) (len : Z)
  : sim_event := router_msg_new time router_id conn_id data len EVENT_ROUTER_IN.
Definition sim_event_router_out_new (time router_id conn_id : Z) (data : list Z) (len : Z)
  : sim_event := router_msg_new time router_id conn_id data len EVENT_ROUTER_OUT.
Definition sim_event_router_config_new (time router_id : Z) (cmd : list Z) (proto : Z)
  : sim_event :=
  init_event_hdr time EVENT_FTI (BodyFti (FtiRouterConfig router_id cmd proto)).
Definition sim_event_app_start_new (time node_id : Z) (exec : addr) : sim_event :=
  init_event_hdr time EVENT_APP_START (BodyAppStart node_id exec).

(** The subtype is read from the object. *)
Definition fti_subtype (ev : fti_event) : Z :=
  match ev with
  | FtiOf subtype _ _ _ | FtiRouter subtype _ _ _ _ => subtype
  | FtiRouterConfig _ _ _ => EVENT_ROUTER_CONFIG
  end.
(** The blocks that are released and whether the event is reported as unknown; what the
    event points to is not released with it. *)
Definition fti_event_free (a : addr) (ev : fti_event) : list addr * bool :=
  let subtype := fti_subtype ev in
  if (subtype =? EVENT_OF_MSG_IN) || (subtype =? EVENT_OF_MSG_OUT) then ([a], false)
  else if (subtype =? EVENT_ROUTER_IN) || (subtype =? EVENT_ROUTER_OUT) then ([a], false)
  else ([a], true).
Definition sim_event_free (a : addr) (ev : sim_event) : outcome (list addr * bool) :=
  match ev_type ev with
  | None => Fault Indeterminate
  | Some type =>
      if type =? EVENT_FLOW_RECV then Ok ([a], false)
      else if type =? EVENT_FLOW_SEND then Ok ([a], false)
      else if type =? EVENT_FTI then
        match ev_body ev with
        | BodyFti fti => Ok (fti_event_free a fti)
        | _ => Fault Indeterminate
        end
      else if type =? EVENT_APP_START then Ok ([a], false)
      else if type =? EVENT_END then Ok ([a], false)
      else Ok ([a], true)
  end.

(** ** The scheduler *)

(** [enum scheduler_mode] *)
Inductive scheduler_mode := DES | FTI.

Record scheduler := Scheduler {
  sch_clock : Z; sch_ev_queue : list (addr * sim_event); sch_mode : scheduler_mode }.
#[export] Instance eta_scheduler : Eta scheduler := λ s,
  Scheduler (sch_clock s) (sch_ev_queue s) (sch_mode s).

Definition scheduler_new : scheduler := Scheduler 0 [] FTI.

Definition priocmp (a b : sim_event) : Z :=
  if ev_time a <? ev_time b then -1 else if ev_time b <? ev_time a then 1 else 0.

Definition scheduler_is_empty (sch : scheduler) : bool :=
  match sch_ev_queue sch with [] => true | _ => false end.

(** [LL_INSERT_INORDER]: before the first element that does not precede. *)
Fixpoint insert_inorder (add : addr * sim_event) (l : list (addr * sim_event))
  : list (addr * sim_event) :=
  match l with
  | [] => [add]
  | e :: l' => if 0 <=? priocmp e.2 add.2 then add :: e :: l' else e :: insert_inorder add l'
  end.

Definition scheduler_insert (sch : scheduler) (a : addr) (ev : sim_event) : scheduler :=
  sch <| sch_ev_queue ::= insert_inorder (a, ev) |>.

(** [LL_DELETE] of the object at [del]; the head is dereferenced without a test. *)
Fixpoint unlink_next (del : addr) (l : list (addr * sim_event)) : list (addr * sim_event) :=
  match l with
  | [] => []
  | e :: l' => if decide (e.1 = del) then l' else e :: unlink_next del l'
  end.
Definition ll_delete (del : option addr) (l : list (addr * sim_event))
  : outcome (list (addr * sim_event)) :=
  match l, del with
  | [], _ => Fault NullDeref
  | e :: l', Some a => if decide (e.1 = a) then Ok l' else Ok (e :: unlink_next a l')
  | _, None => Ok l
  end.

Definition scheduler_delete (sch : scheduler) (ev : addr) : outcome scheduler :=
  q ← ll_delete (Some ev) (sch_ev_queue sch);
  Ok (sch <| sch_ev_queue := q |>).

Definition scheduler_retrieve (sch : scheduler) : option (addr * sim_event) :=
  head (sch_ev_queue sch).

Definition scheduler_dispatch (sch : scheduler)
  : outcome (scheduler * option (addr * sim_event)) :=
  let ev := head (sch_ev_queue sch) in
  q ← ll_delete (fst <$> ev) (sch_ev_queue sch);
  Ok (sch <| sch_ev_queue := q |>, ev).

(** ** The queue is sorted *)

Definition earlier (e e' : addr * sim_event) : Prop := ev_time e.2 ≤ ev_time e'.2.

Record sch_wf (sch : scheduler) : Prop := {
  sw_sorted : StronglySorted earlier (sch_ev_queue sch);
  sw_nodup : NoDup (sch_ev_queue sch).*1
}.

Lemma priocmp_le a b : (0 <=? priocmp a b) = (ev_time b <=? ev_time a).
Proof.
  unfold priocmp. destruct (Z.ltb_spec (ev_time a) (ev_time b)).
  - symmetry. by apply Z.leb_gt.
  - symmetry. destruct (Z.ltb_spec (ev_time b) (ev_time a)); by apply Z.leb_le.
Qed.

Lemma insert_inorder_perm e l : insert_inorder e l ≡ₚ e :: l.
Proof.
  induction l as [|x l IH]; [done|]. cbn [insert_inorder].
  destruct (0 <=? _); [done|]. rewrite IH. apply Permutation_swap.
Qed.

Lemma insert_inorder_sorted e l :
  StronglySorted earlier l → StronglySorted earlier (insert_inorder e l).
Proof.
  induction 1 as [|x l Hl IH Hx]; cbn [insert_inorder]; [by repeat constructor|].
  rewrite priocmp_le. destruct (Z.leb_spec (ev_time e.2) (ev_time x.2)) as [Hle|Hlt].
  - constructor; [by constructor|]. constructor; [done|].
    eapply Forall_impl; [exact Hx|]. unfold earlier. intros y Hy. lia.
  - constructor; [done|]. rewrite insert_inorder_perm. constructor; [|done].
    unfold earlier. lia.
Qed.

(** The events of a given time come out last in, first out. *)
Lemma insert_inorder_ties e l t :
  StronglySorted earlier l →
  filter (λ x, ev_time x.2 = t) (insert_inorder e l) =
  (if decide (ev_time e.2 = t) then [e] else []) ++ filter (λ x, ev_time x.2 = t) l.
Proof.
  induction 1 as [|x l Hl IH Hx]; cbn [insert_inorder].
  { rewrite filter_cons, filter_nil, app_nil_r. by destruct (decide _). }
  rewrite priocmp_le. destruct (Z.leb_spec (ev_time e.2) (ev_time x.2)) as [Hle|Hlt].
  { rewrite (filter_cons _ e). by destruct (decide (ev_time e.2 = t)). }
  rewrite !(filter_cons _ x), IH. destruct (decide (ev_time x.2 = t)) as [E|E]; [|done].
  rewrite decide_False by lia. done.
Qed.

Lemma unlink_next_perm a e l :
  (a, e) ∈ l → NoDup l.*1 → l ≡ₚ (a, e) :: unlink_next a l ∧
  (∀ x, x ∈ unlink_next a l ↔ x ∈ l ∧ x.1 ≠ a).
Proof.
  induction l as [|[b f] l IH]; intros Hin Hnd; [by apply not_elem_of_nil in Hin|].
  cbn [fmap list_fmap fst] in Hnd. apply NoDup_cons in Hnd as [Hb Hnd].
  cbn [unlink_next fst]. destruct (decide (b = a)) as [-> |Hne].
  - apply elem_of_cons in Hin as [[= <-]|Hin].
    2: { destruct Hb. apply list_elem_of_fmap. by exists (a, e). }
    split; [done|]. intros [c g]. rewrite elem_of_cons. cbn [fst]. split.
    + intros Hx. split; [by right|]. intros ->. destruct Hb. apply list_elem_of_fmap.
      by exists (a, g).
    + intros [[[= -> ->]|Hx] Hc]; [done|done].
  - apply elem_of_cons in Hin as [[= -> ->]|Hin]; [done|].
    destruct (IH Hin Hnd) as [Hp Hx]. split.
    + rewrite Hp at 1. apply Permutation_swap.
    + intros y. rewrite !elem_of_cons, Hx. naive_solver.
Qed.

Lemma unlink_next_sorted a l :
  StronglySorted earlier l → StronglySorted earlier (unlink_next a l).
Proof.
  induction 1 as [|x l Hl IH Hx]; cbn [unlink_next]; [constructor|].
  case_decide; [done|]. constructor; [done|].
  apply Forall_forall. intros y Hy. eapply Forall_forall; [exact Hx|].
  clear -Hy. induction l as [|z l IH]; [done|]. cbn [unlink_next] in Hy.
  case_decide; [by right|]. apply elem_of_cons in Hy as [-> |Hy]; [by left|right; auto].
Qed.

(** ** The scheduler as a priority queue *)

Lemma scheduler_new_wf : sch_wf scheduler_new.
Proof. split; constructor. Qed.

Lemma scheduler_insert_wf sch a ev :
  sch_wf sch → a ∉ (sch_ev_queue sch).*1 → sch_wf (scheduler_insert sch a ev).
Proof.
  intros [Hs Hn] Ha. split; cbn [scheduler_insert sch_ev_queue setf].
  - by apply insert_inorder_sorted.
  - rewrite insert_inorder_perm. by constructor.
Qed.

Lemma scheduler_delete_ok sch a ev :
  sch_wf sch → (a, ev) ∈ sch_ev_queue sch →
  ∃ sch', scheduler_delete sch a = Ok sch' ∧ sch_wf sch' ∧
    sch_ev_queue sch ≡ₚ (a, ev) :: sch_ev_queue sch' ∧
    sch_clock sch' = sch_clock sch ∧ sch_mode sch' = sch_mode sch.
Proof.
  intros [Hs Hn] Hin. unfold scheduler_delete.
  assert (ll_delete (Some a) (sch_ev_queue sch) = Ok (unlink_next a (sch_ev_queue sch))) as ->.
  { destruct (sch_ev_queue sch) as [|e q]; [by apply not_elem_of_nil in Hin|].
    cbn [ll_delete unlink_next]. by destruct (decide (e.1 = a)). }
  cbn [mbind outcome_bind]. eexists. split; [done|]. cbn [sch_ev_queue setf].
  destruct (unlink_next_perm a ev _ Hin Hn) as [Hp _]. split; [|done]. split.
  - by apply unlink_next_sorted.
  - cbn [sch_ev_queue setf]. rewrite Hp in Hn. by apply NoDup_cons in Hn as [_ ?].
Qed.

Lemma scheduler_dispatch_eq sch :
  scheduler_dispatch sch =
  match sch_ev_queue sch with
  | [] => Fault NullDeref
  | e :: q => Ok (sch <| sch_ev_queue := q |>, Some e)
  end.
Proof.
  unfold scheduler_dispatch. destruct (sch_ev_queue sch) as [|e q]; [done|].
  cbn [head fmap option_fmap option_map ll_delete]. by rewrite decide_True.
Qed.

(** C4. The event queue implements a priority queue on event times: insertion and
    deletion (by address) keep it sorted and add or remove exactly that event, and
    dispatching removes the earliest event; on an empty queue dispatching and
    deleting dereference a null pointer. *)
Theorem scheduler_is_priority_queue sch :
  sch_wf sch →
  (∀ a ev, a ∉ (sch_ev_queue sch).*1 →
     sch_wf (scheduler_insert sch a ev) ∧
     sch_ev_queue (scheduler_insert sch a ev) ≡ₚ (a, ev) :: sch_ev_queue sch) ∧
  (∀ a ev, (a, ev) ∈ sch_ev_queue sch →
     ∃ sch', scheduler_delete sch a = Ok sch' ∧ sch_wf sch' ∧
       sch_ev_queue sch ≡ₚ (a, ev) :: sch_ev_queue sch') ∧
  (scheduler_is_empty sch = true →
     scheduler_dispatch sch = Fault NullDeref ∧ ∀ a, scheduler_delete sch a = Fault NullDeref) ∧
  (scheduler_is_empty sch = false →
     ∃ sch' e, scheduler_dispatch sch = Ok (sch', Some e) ∧ scheduler_retrieve sch = Some e ∧
       sch_wf sch' ∧ sch_ev_queue sch ≡ₚ e :: sch_ev_queue sch' ∧
       ∀ e', e' ∈ sch_ev_queue sch → ev_time e.2 ≤ ev_time e'.2).
Proof.
  intros Hw. split; [|split; [|split]].
  - intros a ev Ha. split; [by apply scheduler_insert_wf|apply insert_inorder_perm].
  - intros a ev Hin. destruct (scheduler_delete_ok sch a ev Hw Hin) as (sch' & ? & ? & ? & _).
    by exists sch'.
  - intros He. rewrite scheduler_dispatch_eq. unfold scheduler_is_empty, scheduler_delete in *.
    by destruct (sch_ev_queue sch).
  - intros He. rewrite scheduler_dispatch_eq. unfold scheduler_is_empty, scheduler_retrieve in *.
    destruct Hw as [Hs Hn]. destruct (sch_ev_queue sch) as [|e q]; [done|].
    apply StronglySorted_inv in Hs as [Hs Hall]. cbn [fmap list_fmap] in Hn.
    apply NoDup_cons in Hn as [_ Hn].
    exists (sch <| sch_ev_queue := q |>), e. repeat (split; [done|]).
    intros e' [-> |Hin]%elem_of_cons; [lia|]. eapply Forall_forall in Hall; [exact Hall|done].
Qed.

(** Events of equal time are dispatched in the reverse of the order in which they
    were inserted, before those of that time that were already queued. *)
Theorem equal_times_last_in_first_out sch evs t :
  sch_wf sch →
  filter (λ e, ev_time e.2 = t)
    (sch_ev_queue (foldl (λ s e, scheduler_insert s e.1 e.2) sch evs)) =
  reverse (filter (λ e, ev_time e.2 = t) evs) ++
  filter (λ e, ev_time e.2 = t) (sch_ev_queue sch).
Proof.
  intros [Hs _]. revert sch Hs. induction evs as [|[a ev] evs IH]; intros sch Hs; [done|].
  cbn [foldl fst snd]. rewrite IH by (by apply insert_inorder_sorted).
  cbn [scheduler_insert sch_ev_queue setf]. rewrite insert_inorder_ties by done.
  rewrite filter_cons. cbn [snd]. destruct (decide (ev_time ev = t)); [|done].
  by rewrite reverse_cons, <- app_assoc.
Qed.

(** An executed event is released as one block, whatever its type; of the events that
    the constructors make only a new configuration of a router is reported as unknown,
    although it has been executed. *)
Theorem event_is_one_block a ev type :
  ev_type ev = Some type → (type = EVENT_FTI → ∃ fti, ev_body ev = BodyFti fti) →
  (∃ unknown, sim_event_free a ev = Ok ([a], unknown)) ∧
  ∀ time router_id cmd proto,
    sim_event_free a (sim_event_router_config_new time router_id cmd proto) = Ok ([a], true).
Proof.
  intros Ht Hf. split; [|done]. unfold sim_event_free. rewrite Ht.
  destruct (type =? EVENT_FLOW_RECV); [by eexists|]. destruct (type =? EVENT_FLOW_SEND); [by eexists|].
  destruct (Z.eqb_spec type EVENT_FTI) as [->|].
  { destruct Hf as [fti ->]; [done|]. unfold fti_event_free.
    destruct (_ || _); [by eexists|]. destruct (_ || _); by eexists. }
  destruct (type =? EVENT_APP_START), (type =? EVENT_END); by eexists.
Qed.

(** A queue with three events. *)
Definition sample_queue : scheduler :=
  scheduler_insert (scheduler_insert (scheduler_insert scheduler_new 1
    (sim_event_flow_send_new 20 1 1)) 2 (sim_event_flow_send_new 10 1 1)) 3
    (sim_event_of_msg_in_new 20 1 [] 0).

Lemma sample_queue_wf : sch_wf sample_queue.
Proof.
  unfold sample_queue.
  do 3 (apply scheduler_insert_wf; [|by apply (bool_decide_unpack _); vm_compute]).
  apply scheduler_new_wf.
Qed.

Lemma scheduler_is_priority_queue_witness :
  ∃ sch' e, scheduler_dispatch sample_queue = Ok (sch', Some e) ∧ e.1 = 2%nat.
Proof.
  destruct (scheduler_is_priority_queue sample_queue sample_queue_wf) as (_ & _ & _ & H).
  destruct (H eq_refl) as (sch' & e & H1 & H2 & _). exists sch', e. split; [exact H1|].
  vm_compute in H2. by injection H2 as <-.
Defined.

Lemma equal_times_last_in_first_out_witness :
  (sch_ev_queue sample_queue).*1 = [2; 3; 1]%nat ∧
  filter (λ e, ev_time e.2 = 20)
    (sch_ev_queue (foldl (λ s e, scheduler_insert s e.1 e.2) sample_queue
      [(7%nat, sim_event_flow_send_new 20 1 1)])) =
  [(7%nat, sim_event_flow_send_new 20 1 1)] ++
  filter (λ e, ev_time e.2 = 20) (sch_ev_queue sample_queue).
Proof.
  split; [reflexivity|].
  rewrite (equal_times_last_in_first_out sample_queue _ 20 sample_queue_wf). reflexivity.
Defined.
