(* ===== verification/RoutingMsg.v ===== *)
(** * RoutingMsg: messages between the simulator and emulated routers

    Models [routing_msg/routing_msg.c]: constructors, packing and unpacking of
    the three kinds of messages over byte buffers with checked accesses; integers
    are in network byte order on the wire.  Theorems: the state message round
    trips and fills its block exactly; the announce message packs but its
    unpacker stores through a pointer that was never set. *)

From stdpp Require Import prelude.
From S2P Require Import Prelude.

Definition HEADER_LEN : Z := 8.
Definition ROUTER_ACTIVITY : Z := 0.
Definition ROUTER_FIB : Z := 1.
Definition BGP_STATE : Z := 2.
Definition BGP_ANNOUNCE : Z := 3.
Definition BGP_STATE_DOWN : Z := 0.
Definition BGP_STATE_CONNECTED : Z := 1.
Definition BGP_STATE_UP : Z := 2.
Definition BGP_STATE_LEN : Z := HEADER_LEN + 8.
Definition BGP_ANNOUNCE_LEN : Z := HEADER_LEN + 8.

(** What follows the header in the object a [struct routing_msg *] points to. *)
Inductive routing_body :=
| NoBody
| BgpState (peer_rid state : Z)
| BgpAnnounce (peer_rid : Z).

Record routing_msg := RoutingMsg {
  rm_type : Z; rm_size : Z; rm_router_id : Z; rm_body : routing_body }.

Definition routing_msg_bgp_state_new (router_id peer_rid state : Z) : routing_msg :=
  RoutingMsg BGP_STATE BGP_STATE_LEN router_id (BgpState peer_rid state).
Definition routing_msg_bgp_announce_new (router_id peer_rid : Z) : routing_msg :=
  RoutingMsg BGP_ANNOUNCE BGP_ANNOUNCE_LEN router_id (BgpAnnounce peer_rid).

(** ** Packing *)

(** [block] is the memory [xmalloc(msg->size)] returns. *)
Definition pack_msg_hdr (msg : routing_msg) (block : list Z) : outcome (list Z) :=
  mem_write block 0 (be_bytes 2 (rm_type msg) ++ be_bytes 2 (rm_size msg) ++
                     be_bytes 4 (rm_router_id msg)).

Definition pack_bgp_state (msg : routing_msg) (data : list Z) : outcome (list Z) :=
  match rm_body msg with
  | BgpState peer_rid state => mem_write data 8 (be_bytes 4 peer_rid ++ [state] ++ [0; 0; 0])
  | _ => Fault OutOfBounds
  end.

Definition pack_bgp_announce (msg : routing_msg) (data : list Z) : outcome (list Z) :=
  match rm_body msg with
  | BgpAnnounce peer_rid => mem_write data 8 (be_bytes 4 peer_rid ++ [0; 0; 0; 0])
  | _ => Fault OutOfBounds
  end.

(** [None] is the [NULL] of an unknown type. *)
Definition routing_msg_pack (msg : routing_msg) (block : list Z) : outcome (option (list Z)) :=
  data ← pack_msg_hdr msg block;
  if rm_type msg =? BGP_STATE then data ← pack_bgp_state msg data; Ok (Some data)
  else if rm_type msg =? BGP_ANNOUNCE then data ← pack_bgp_announce msg data; Ok (Some data)
  else if rm_type msg =? ROUTER_ACTIVITY then Ok (Some data)
  else Ok None.

(** ** Unpacking *)

Definition unpack_bgp_state (data : list Z) : outcome routing_body :=
  peer ← mem_read data 8 4;
  state ← mem_read data 12 1;
  Ok (BgpState (be_val peer) (be_val state)).

(** Only some types allocate the message; the header is then stored through the
    pointer, which the caller has not initialised. *)
Definition routing_msg_unpack (data : list Z) : outcome routing_msg :=
  type ← mem_read data 0 2;
  let type := be_val type in
  body ← (if type =? BGP_STATE then b ← unpack_bgp_state data; Ok (Some b)
          else if type =? BGP_ANNOUNCE then Ok None
          else if (type =? ROUTER_ACTIVITY) || (type =? ROUTER_FIB) then Ok (Some NoBody)
          else Ok None);
  match body with
  | None => Fault Indeterminate
  | Some body =>
      size ← mem_read data 2 2;
      router_id ← mem_read data 4 4;
      Ok (RoutingMsg type (be_val size) (be_val router_id) body)
  end.

(** ** Round trips *)

Lemma be_bytes_app_read (a b r : list Z) off k :
  length a = off → length b = k → mem_read (a ++ b ++ r) off k = Ok b.
Proof.
  intros <- <-. unfold mem_read. rewrite decide_True by (rewrite !length_app; lia).
  by rewrite drop_app_length, take_app_length.
Qed.

Lemma be_bytes_length k z : length (be_bytes k z) = k.
Proof. apply be_bytes_wf. Qed.

Lemma be_val_in_width k z : in_width (8 * Z.of_nat k) z → be_val (be_bytes k z) = z.
Proof. intros. rewrite be_val_bytes. by apply wrap_small. Qed.

Definition hdr_bytes (msg : routing_msg) : list Z :=
  be_bytes 2 (rm_type msg) ++ be_bytes 2 (rm_size msg) ++ be_bytes 4 (rm_router_id msg).

Lemma hdr_bytes_length msg : length (hdr_bytes msg) = 8%nat.
Proof. unfold hdr_bytes. rewrite !length_app, !be_bytes_length. done. Qed.

Lemma pack_msg_hdr_eq msg block :
  (8 ≤ length block)%nat → pack_msg_hdr msg block = Ok (hdr_bytes msg ++ drop 8 block).
Proof.
  intros Hl. unfold pack_msg_hdr. fold (hdr_bytes msg). unfold mem_write.
  rewrite decide_True by (rewrite hdr_bytes_length; lia). by rewrite hdr_bytes_length.
Qed.

(** Eight more bytes fill the block. *)
Lemma pack_rest msg block bs :
  length block = 16%nat → length bs = 8%nat →
  mem_write (hdr_bytes msg ++ drop 8 block) 8 bs = Ok (hdr_bytes msg ++ bs).
Proof.
  intros Hl Hb. unfold mem_write.
  rewrite decide_True by (rewrite length_app, hdr_bytes_length, length_drop; lia).
  rewrite <- (hdr_bytes_length msg) at 1. rewrite take_app_length.
  rewrite (drop_ge _ (8 + length bs)), app_nil_r; [done|].
  rewrite length_app, hdr_bytes_length, length_drop. lia.
Qed.

(** Reading the header back. *)
Lemma unpack_hdr msg rest :
  in_width 16 (rm_type msg) → in_width 16 (rm_size msg) → in_width 32 (rm_router_id msg) →
  ∃ t s i, mem_read (hdr_bytes msg ++ rest) 0 2 = Ok t ∧ be_val t = rm_type msg ∧
    mem_read (hdr_bytes msg ++ rest) 2 2 = Ok s ∧ be_val s = rm_size msg ∧
    mem_read (hdr_bytes msg ++ rest) 4 4 = Ok i ∧ be_val i = rm_router_id msg.
Proof.
  intros Ht Hs Hi. unfold hdr_bytes. rewrite <- !app_assoc.
  exists (be_bytes 2 (rm_type msg)), (be_bytes 2 (rm_size msg)), (be_bytes 4 (rm_router_id msg)).
  rewrite !be_val_in_width by done. split; [|split; [done|split; [|split; [done|split; [|done]]]]].
  - apply (be_bytes_app_read []); [done|apply be_bytes_length].
  - apply be_bytes_app_read; apply be_bytes_length.
  - rewrite app_assoc. apply be_bytes_app_read; [|apply be_bytes_length].
    by rewrite length_app, !be_bytes_length.
Qed.

(** The BGP state message round trips: packing writes exactly the 16 bytes of its
    block, and unpacking them gives the message back. *)
Theorem bgp_state_round_trip router_id peer_rid state block :
  in_width 32 router_id → in_width 32 peer_rid → in_width 8 state →
  length block = Z.to_nat BGP_STATE_LEN →
  let msg := routing_msg_bgp_state_new router_id peer_rid state in
  ∃ data, routing_msg_pack msg block = Ok (Some data) ∧
    length data = Z.to_nat (rm_size msg) ∧ routing_msg_unpack data = Ok msg.
Proof.
  intros Hr Hp Hs Hb msg. change (Z.to_nat BGP_STATE_LEN) with 16%nat in *.
  set (bs := be_bytes 4 peer_rid ++ [state] ++ [0; 0; 0]).
  exists (hdr_bytes msg ++ bs). split; [|split].
  - unfold routing_msg_pack. rewrite pack_msg_hdr_eq by lia. cbn [mbind outcome_bind].
    change (rm_type msg =? BGP_STATE) with true. cbv iota.
    unfold pack_bgp_state. cbn [rm_body msg routing_msg_bgp_state_new].
    fold bs. by rewrite pack_rest.
  - rewrite length_app, hdr_bytes_length. done.
  - destruct (unpack_hdr msg bs) as (t & s & i & E1 & V1 & E2 & V2 & E3 & V3); try done.
    unfold routing_msg_unpack. rewrite E1. cbn [mbind outcome_bind]. rewrite V1.
    change (rm_type msg =? BGP_STATE) with true. cbv iota. unfold unpack_bgp_state, bs.
    rewrite (be_bytes_app_read (hdr_bytes msg) (be_bytes 4 peer_rid) _ 8 4)
      by (apply hdr_bytes_length || apply be_bytes_length). cbn [mbind outcome_bind].
    rewrite (app_assoc (hdr_bytes msg)). rewrite (be_bytes_app_read _ [state] _ 12 1)
      by (done || by rewrite length_app, hdr_bytes_length, be_bytes_length).
    cbn [mbind outcome_bind]. rewrite <- app_assoc. fold bs.
    rewrite E2. cbn [mbind outcome_bind]. rewrite E3. cbn [mbind outcome_bind].
    rewrite V2, V3, be_val_in_width by done.
    assert (be_val [state] = state) as -> by (unfold be_val; cbn; lia). done.
Qed.

Lemma bgp_state_round_trip_witness :
  ∃ data, routing_msg_pack (routing_msg_bgp_state_new 16777226 33554442 BGP_STATE_UP)
            (replicate 16 0xaa) = Ok (Some data) ∧
    routing_msg_unpack data = Ok (routing_msg_bgp_state_new 16777226 33554442 BGP_STATE_UP).
Proof.
  destruct (bgp_state_round_trip 16777226 33554442 BGP_STATE_UP (replicate 16 0xaa))
    as (data & H1 & _ & H2); [by apply (bool_decide_unpack _); vm_compute..|].
  by exists data.
Defined.

(** The BGP announce message does not round trip: it packs into its 16 bytes, but
    unpacking those bytes stores the header through a pointer nothing has set; the
    same happens on every message of unknown type. *)
Theorem bgp_announce_unpack_faults router_id peer_rid block :
  length block = Z.to_nat BGP_ANNOUNCE_LEN →
  (∃ data, routing_msg_pack (routing_msg_bgp_announce_new router_id peer_rid) block
             = Ok (Some data) ∧ routing_msg_unpack data = Fault Indeterminate) ∧
  (∀ t1 t2 rest, 3 < be_val [t1; t2] → routing_msg_unpack (t1 :: t2 :: rest) = Fault Indeterminate).
Proof.
  intros Hb. change (Z.to_nat BGP_ANNOUNCE_LEN) with 16%nat in *. split.
  - set (msg := routing_msg_bgp_announce_new router_id peer_rid).
    exists (hdr_bytes msg ++ be_bytes 4 peer_rid ++ [0; 0; 0; 0]). split.
    + unfold routing_msg_pack. rewrite pack_msg_hdr_eq by lia. cbn [mbind outcome_bind].
      change (rm_type msg =? BGP_STATE) with false.
      change (rm_type msg =? BGP_ANNOUNCE) with true. cbv iota.
      unfold pack_bgp_announce. cbn [rm_body msg routing_msg_bgp_announce_new].
      by rewrite pack_rest.
    + done.
  - intros t1 t2 rest Ht. unfold routing_msg_unpack.
    change (mem_read (t1 :: t2 :: rest) 0 2) with (Ok [t1; t2] : outcome (list Z)).
    cbn [mbind outcome_bind]. unfold BGP_STATE, BGP_ANNOUNCE, ROUTER_ACTIVITY, ROUTER_FIB.
    rewrite !(proj2 (Z.eqb_neq _ _)) by lia. done.
Qed.

Lemma bgp_announce_unpack_faults_witness :
  ∃ data, routing_msg_pack (routing_msg_bgp_announce_new 1 2) (replicate 16 0) = Ok (Some data) ∧
          routing_msg_unpack data = Fault Indeterminate.
Proof.
  exact (proj1 (bgp_announce_unpack_faults 1 2 (replicate 16 0) eq_refl)).
Defined.
