(* ===== verification/Heap.v ===== *)
(** * Heap: the binary heap of [lib/heap.c]

    The heap is an array of node pointers indexed from 1, with the children of
    position [i] at [2*i] and [2*i + 1].  The model keeps the array with its
    uninitialised slots, the two counters and the memory of the nodes, so that
    the back-pointers ([idx]) and the calls on an empty heap are visible.

    Theorems: insertion and deletion succeed, keep the heap ordered and add or
    remove exactly one node, and deletion returns a node of least priority;
    deletion leaves a wrong [idx] in the node it moves to the root. *)

From Stdlib Require Import ZifyNat.
From stdpp Require Import prelude.
From S2P Require Import Prelude Uthash.

#[local] Open Scope nat_scope.

Record heap_node := HeapNode { hn_priority : Z; hn_idx : nat }.
#[export] Instance eta_heap_node : Eta heap_node := λ n,
  HeapNode (hn_priority n) (hn_idx n).

(** [h_array] is empty for [NULL]; a slot never stored to is [None]. *)
Record heap := Heap { h_array : list (option addr); h_size : nat; h_allocated : nat }.
#[export] Instance eta_heap : Eta heap := λ h,
  Heap (h_array h) (h_size h) (h_allocated h).

(** The memory of the nodes. *)
Definition node_mem : Type := addr → heap_node.
Definition heap_st : Type := heap * node_mem.
Definition store (m : node_mem) (a : addr) (n : heap_node) : node_mem :=
  λ b, if decide (b = a) then n else m b.

Definition heap_init : heap := Heap [] 0 0.

Definition heap_parent (idx : nat) : nat := idx / 2.
Definition heap_right_child (idx : nat) : nat := 2 * idx.
Definition heap_left_child (idx : nat) : nat := 2 * idx + 1.

(** [h->array[idx]] *)
Definition slot (h : heap) (idx : nat) : outcome addr :=
  a ← array_get (h_array h) (Z.of_nat idx);
  match a with Some a => Ok a | None => Fault Indeterminate end.

Definition add_node (st : heap_st) (node : addr) (idx : nat) : outcome heap_st :=
  let '(h, m) := st in
  arr ← array_set (h_array h) (Z.of_nat idx) (Some node);
  Ok (h <| h_array := arr |>, store m node ((m node) <| hn_idx := idx |>)).

Definition heap_swap (st : heap_st) (i j : nat) : outcome heap_st :=
  tmp ← slot st.1 i;
  aj ← slot st.1 j;
  st ← add_node st aj i;
  add_node st tmp j.

(** The loop of [heap_insert]; [idx] halves in every round. *)
Fixpoint bubble_up (fuel : nat) (st : heap_st) (node : addr) (idx : nat) : outcome heap_st :=
  if decide (1 < idx) then
    match fuel with
    | O => Fault OutOfFuel
    | S fuel =>
        let parent := heap_parent idx in
        pa ← slot st.1 parent;
        if (hn_priority (st.2 pa) <=? hn_priority (st.2 node))%Z then Ok st
        else st ← heap_swap st idx parent; bubble_up fuel st node parent
    end
  else Ok st.

Definition heap_insert (st : heap_st) (node : addr) (priority : Z) : outcome heap_st :=
  let '(h, m) := st in
  let h :=
    if decide (h_allocated h ≤ h_size h) then
      let n := if decide (h_size h = 0) then 1 else 2 * h_size h in
      Heap (h_array h ++ replicate (n + 1 - length (h_array h)) None) (h_size h) n
    else h in
  let idx := h_size h + 1 in
  st ← add_node (h <| h_size := idx |>, m) node idx;
  let '(h, m) := st in
  bubble_up idx (h, store m node ((m node) <| hn_priority := priority |>)) node idx.

(** [arr[child]->priority < arr[min]->priority], evaluated when the child exists. *)
Definition smaller (st : heap_st) (size child min : nat) : outcome bool :=
  if decide (child ≤ size) then
    c ← slot st.1 child;
    x ← slot st.1 min;
    Ok (hn_priority (st.2 c) <? hn_priority (st.2 x))%Z
  else Ok false.

(** The loop of [min_heapify]; [idx] at least doubles in every round. *)
Fixpoint min_heapify (fuel : nat) (st : heap_st) (min idx size : nat) : outcome heap_st :=
  if decide (min < h_size st.1) then
    match fuel with
    | O => Fault OutOfFuel
    | S fuel =>
        let left := heap_left_child idx in
        let right := heap_right_child idx in
        l ← smaller st size left idx;
        let min := if l : bool then left else idx in
        r ← smaller st size right min;
        let min := if r : bool then right else min in
        if decide (min = idx) then Ok st
        else st ← heap_swap st idx min; min_heapify fuel st min min size
    end
  else Ok st.

(** The root slot is assigned directly: [idx] of the moved node is not updated. *)
Definition heap_delete (st : heap_st) : outcome (heap_st * addr) :=
  let '(h, m) := st in
  temp ← slot h (h_size h);
  let h := h <| h_size := h_size h - 1 |> in
  removed ← slot h 1;
  arr ← array_set (h_array h) 1 (Some temp);
  st ← min_heapify (h_size h + 1) (h <| h_array := arr |>, m) 0 1 (h_size h);
  Ok (st, removed).

Definition heap_retrieve (st : heap_st) : outcome addr := slot st.1 1.

(** ** Heap order on positions

    [p i] is the priority at position [i], [1 <= i <= n]. *)

#[local] Notation "x ≼ y" := (Z.le x%nat y%nat) (at level 70).
#[local] Notation "x ≺ y" := (Z.lt x%nat y%nat) (at level 70).
#[local] Notation "x ≺? y" := (Z.ltb x%nat y%nat) (at level 70).
#[local] Ltac Zify.zify_post_hook ::= Z.to_euclidean_division_equations.

Implicit Types p : nat → Z.

Definition ordered (n : nat) p : Prop := ∀ i, 2 ≤ i ≤ n → p (i / 2) ≼ p i.

(** Ordered but for position [k] and its parent. *)
Definition ordered_above (n k : nat) p : Prop :=
  (∀ i, 2 ≤ i ≤ n → i ≠ k → p (i / 2) ≼ p i) ∧
  (∀ c, 2 ≤ c ≤ n → c / 2 = k → 2 ≤ k → p (k / 2) ≼ p c).

(** Ordered but for position [k] and its children. *)
Definition ordered_below (n k : nat) p : Prop :=
  (∀ i, 2 ≤ i ≤ n → i / 2 ≠ k → p (i / 2) ≼ p i) ∧
  (∀ c, 2 ≤ c ≤ n → c / 2 = k → 2 ≤ k → p (k / 2) ≼ p c).

Definition swapped p (i j : nat) : nat → Z := λ k,
  if decide (k = i) then p j else if decide (k = j) then p i else p k.

Lemma swapped_l p i j : swapped p i j i = p j.
Proof. unfold swapped. by rewrite decide_True. Qed.
Lemma swapped_r p i j : swapped p i j j = p i.
Proof. unfold swapped. case_decide; [by subst|]. by rewrite decide_True. Qed.
Lemma swapped_ne p i j k : k ≠ i → k ≠ j → swapped p i j k = p k.
Proof. intros. unfold swapped. by rewrite !decide_False. Qed.

Lemma ordered_root n p i : ordered n p → 1 ≤ i ≤ n → p 1 ≼ p i.
Proof.
  intros Ho. induction (lt_wf i) as [i _ IH]. intros Hi.
  destruct (decide (i = 1)) as [-> |Hne]; [lia|].
  specialize (IH (i / 2) ltac:(lia) ltac:(lia)). specialize (Ho i ltac:(lia)). lia.
Qed.

Lemma bubble_step n k p :
  2 ≤ k ≤ n → ordered_above n k p → p k ≺ p (k / 2) →
  ordered_above n (k / 2) (swapped p k (k / 2)).
Proof.
  intros Hk [H1 H2] Hlt. remember (k / 2) as m eqn:Hm. assert (m < k) by lia. split.
  - intros i Hi Hne. destruct (decide (i = k)) as [-> |Hik].
    { rewrite <- Hm, swapped_l, swapped_r. lia. }
    rewrite (swapped_ne p k m i) by done. specialize (H1 i Hi Hik).
    destruct (decide (i / 2 = k)) as [E|E].
    { rewrite E, swapped_l. apply H2; [done|done|lia]. }
    destruct (decide (i / 2 = m)) as [E'|E'].
    { rewrite E', swapped_r. rewrite E' in H1. lia. }
    by rewrite swapped_ne.
  - intros c Hc Hc2 Hm2. rewrite (swapped_ne p k m (m / 2)) by lia.
    pose proof (H1 m ltac:(lia) ltac:(lia)) as A.
    destruct (decide (c = k)) as [-> |Hck]; [by rewrite swapped_l|].
    rewrite swapped_ne by lia. specialize (H1 c Hc Hck). rewrite Hc2 in H1. lia.
Qed.

Lemma bubble_stop n k p :
  ordered_above n k p → (2 ≤ k → p (k / 2) ≼ p k) → ordered n p.
Proof.
  intros [H1 _] Hk i Hi. destruct (decide (i = k)) as [-> |Hne]; [apply Hk; lia|by apply H1].
Qed.

Lemma sift_step n k m p :
  1 ≤ k → 2 ≤ m ≤ n → m / 2 = k → ordered_below n k p → p m ≺ p k →
  (∀ c, 2 ≤ c ≤ n → c / 2 = k → p m ≼ p c) →
  ordered_below n m (swapped p k m).
Proof.
  intros Hk Hm Hmk [H1 H2] Hlt Hmin. split.
  - intros i Hi Hne. destruct (decide (i = k)) as [-> |Hik].
    { rewrite swapped_l, swapped_ne by lia. apply H2; [done|done|lia]. }
    destruct (decide (i = m)) as [-> |Him].
    { rewrite Hmk, swapped_l, swapped_r. lia. }
    rewrite (swapped_ne p k m i) by done. destruct (decide (i / 2 = k)) as [E|E].
    { rewrite E, swapped_l. by apply Hmin. }
    rewrite swapped_ne by done. by apply H1.
  - intros c Hc Hcm _. rewrite Hmk, swapped_l, swapped_ne by lia.
    rewrite <- Hcm. apply H1; [done|lia].
Qed.

Lemma sift_stop n k p :
  ordered_below n k p → (∀ c, 2 ≤ c ≤ n → c / 2 = k → p k ≼ p c) → ordered n p.
Proof.
  intros [H1 _] Hk i Hi. destruct (decide (i / 2 = k)) as [E|E]; [|by apply H1].
  rewrite E. by apply Hk.
Qed.

(** ** Representation *)

Record heap_wf (h : heap) : Prop := {
  hw_size : h_size h ≤ h_allocated h;
  hw_array : length (h_array h) = if decide (h_allocated h = 0) then 0 else h_allocated h + 1;
  hw_zero : ∀ x, h_array h !! 0 ≠ Some (Some x)
}.

(** The nodes of the heap, from position 1; slot 0 is never stored to. *)
Record repr (h : heap) (l : list addr) : Prop := {
  r_size : h_size h = length l;
  r_slots : ∀ i x, l !! i = Some x → h_array h !! S i = Some (Some x)
}.

Definition same_priorities (m m' : node_mem) : Prop :=
  ∀ a, hn_priority (m' a) = hn_priority (m a).

(** The priority at a position. *)
Definition prio_at (m : node_mem) (l : list addr) (i : nat) : Z :=
  match l !! (i - 1) with Some a => hn_priority (m a) | None => 0 end.

Lemma prio_at_eq m l i a : l !! i = Some a → prio_at m l (S i) = hn_priority (m a).
Proof. intros H. unfold prio_at. replace (S i - 1) with i by lia. by rewrite H. Qed.

Lemma prio_at_ext m m' l i : same_priorities m m' → prio_at m' l i = prio_at m l i.
Proof. intros H. unfold prio_at. by destruct (l !! (i - 1)). Qed.

Lemma slot_ok h l i x : repr h l → l !! i = Some x → slot h (S i) = Ok x.
Proof.
  intros [_ Hs] Hx. unfold slot.
  rewrite (proj2 (array_get_Ok (h_array h) _ (Some x))); [done|].
  split; [lia|]. rewrite Nat2Z.id. by apply Hs.
Qed.

Lemma array_room h l i : heap_wf h → repr h l → i ≤ length l → 1 ≤ i →
  (0 ≤ Z.of_nat i < Z.of_nat (length (h_array h)))%Z.
Proof.
  intros [Hs Ha _] [Hl _] Hi H1. rewrite Ha. rewrite Hl in Hs.
  destruct (decide (h_allocated h = 0)); lia.
Qed.

(** Storing a node at a position of the heap. *)
Lemma add_node_ok h m l i x :
  heap_wf h → repr h l → i < length l →
  ∃ h' m', add_node (h, m) x (S i) = Ok (h', m') ∧ heap_wf h' ∧ repr h' (<[i := x]> l) ∧
    same_priorities m m'.
Proof.
  intros Hw Hr Hi. unfold add_node.
  pose proof (array_room h l (S i) Hw Hr ltac:(lia) ltac:(lia)) as Hroom.
  rewrite array_set_in_range by done. rewrite Nat2Z.id. cbn [mbind outcome_bind].
  eexists _, _. split; [done|]. destruct Hw as [Hs Ha H0], Hr as [Hl Hsl]. split; [|split].
  - split; [done| |]; cbn [h_array setf h_allocated]; [by rewrite length_insert|].
    intros y. rewrite list_lookup_insert_ne by lia. apply H0.
  - split; cbn [h_array setf h_size]; [by rewrite length_insert|].
    intros j y Hy. destruct (decide (i = j)) as [-> |Hne].
    + rewrite list_lookup_insert_eq in Hy by done. injection Hy as ->.
      apply list_lookup_insert_eq. lia.
    + rewrite list_lookup_insert_ne in Hy by done.
      rewrite list_lookup_insert_ne by lia. by apply Hsl.
  - intros a. unfold store. by destruct (decide (a = x)) as [-> |].
Qed.

Lemma heap_swap_ok h m l i j x y :
  heap_wf h → repr h l → l !! i = Some x → l !! j = Some y →
  ∃ h' m', heap_swap (h, m) (S i) (S j) = Ok (h', m') ∧ heap_wf h' ∧
    repr h' (<[j := x]> (<[i := y]> l)) ∧ same_priorities m m'.
Proof.
  intros Hw Hr Hx Hy. unfold heap_swap. cbn [fst].
  rewrite (slot_ok h l i x Hr Hx). cbn [mbind outcome_bind].
  rewrite (slot_ok h l j y Hr Hy). cbn [mbind outcome_bind].
  pose proof (lookup_lt_Some _ _ _ Hx). pose proof (lookup_lt_Some _ _ _ Hy).
  destruct (add_node_ok h m l i y Hw Hr) as (h1 & m1 & -> & Hw1 & Hr1 & Hm1); [done|].
  cbn [mbind outcome_bind].
  destruct (add_node_ok h1 m1 _ j x Hw1 Hr1) as (h2 & m2 & -> & Hw2 & Hr2 & Hm2);
    [by rewrite length_insert|].
  exists h2, m2. do 3 (split; [done|]). intros a. by rewrite Hm2, Hm1.
Qed.

(** Swapping two slots swaps the priorities of two positions. *)
Lemma prio_at_swap m l i j x y k :
  l !! i = Some x → l !! j = Some y → 1 ≤ k →
  prio_at m (<[j := x]> (<[i := y]> l)) k = swapped (prio_at m l) (S i) (S j) k.
Proof.
  intros Hx Hy Hk. pose proof (lookup_lt_Some _ _ _ Hx). pose proof (lookup_lt_Some _ _ _ Hy).
  destruct (decide (k = S i)) as [-> |Hi].
  - rewrite swapped_l, (prio_at_eq m l j y Hy). unfold prio_at.
    replace (S i - 1) with i by lia. destruct (decide (i = j)) as [-> |Hne].
    + rewrite list_lookup_insert_eq by by rewrite length_insert. congruence.
    + by rewrite list_lookup_insert_ne, list_lookup_insert_eq by done.
  - destruct (decide (k = S j)) as [-> |Hj].
    + rewrite swapped_r, (prio_at_eq m l i x Hx). unfold prio_at.
      replace (S j - 1) with j by lia.
      by rewrite list_lookup_insert_eq by by rewrite length_insert.
    + rewrite swapped_ne by done. unfold prio_at. by rewrite !list_lookup_insert_ne by lia.
Qed.

(** Order depends on the positions from 1 on. *)
Lemma ordered_ext n p p' : (∀ i, 1 ≤ i → p' i = p i) → ordered n p → ordered n p'.
Proof. intros He Ho i Hi. rewrite !He by lia. by apply Ho. Qed.
Lemma ordered_above_ext n k p p' :
  (∀ i, 1 ≤ i → p' i = p i) → ordered_above n k p → ordered_above n k p'.
Proof.
  intros He [H1 H2]. split.
  - intros i Hi Hne. rewrite !He by lia. by apply H1.
  - intros c Hc Hk H. rewrite !He by lia. by apply H2.
Qed.
Lemma ordered_below_ext n k p p' :
  (∀ i, 1 ≤ i → p' i = p i) → ordered_below n k p → ordered_below n k p'.
Proof.
  intros He [H1 H2]. split.
  - intros i Hi Hne. rewrite !He by lia. by apply H1.
  - intros c Hc Hk H. rewrite !He by lia. by apply H2.
Qed.

(** What a heap operation leaves. *)
Definition heap_of (st : heap_st) (m : node_mem) (l : list addr) : Prop :=
  heap_wf st.1 ∧ same_priorities m st.2 ∧
  ∃ l', repr st.1 l' ∧ l' ≡ₚ l ∧ ordered (length l') (prio_at st.2 l').

Lemma heap_of_perm st m m' l l' :
  same_priorities m m' → l ≡ₚ l' → heap_of st m' l → heap_of st m l'.
Proof.
  intros Hm Hl (Hw & Hp & k & Hr & Hk & Ho). split; [done|]. split.
  - intros a. by rewrite Hp, Hm.
  - exists k. split; [done|]. split; [by rewrite Hk|done].
Qed.

Lemma swap_state m m' l i j x y p :
  l !! i = Some x → l !! j = Some y → same_priorities m m' →
  (∀ k, 1 ≤ k → p k = swapped (prio_at m l) (S i) (S j) k) →
  ∀ k, 1 ≤ k → prio_at m' (<[j := x]> (<[i := y]> l)) k = p k.
Proof.
  intros Hx Hy Hm Hp k Hk. rewrite (prio_at_ext m m') by done.
  by rewrite (prio_at_swap m l i j x y k Hx Hy Hk), Hp.
Qed.

Lemma bubble_up_ok fuel h m l i node :
  heap_wf h → repr h l → l !! i = Some node → i < fuel →
  ordered_above (length l) (S i) (prio_at m l) →
  ∃ st, bubble_up fuel (h, m) node (S i) = Ok st ∧ heap_of st m l.
Proof.
  revert h m l i. induction fuel as [|fuel IH]; intros h m l i Hw Hr Hi Hf Ho; [lia|].
  cbn [bubble_up fst snd]. pose proof (lookup_lt_Some _ _ _ Hi) as Hlt.
  assert (∀ st', ordered (length l) (prio_at m l) → st' = (h, m) → heap_of st' m l) as Hdone.
  { intros st' Hord ->. split; [done|]. split; [done|]. by exists l. }
  destruct (decide (1 < S i)) as [Hgt|Hle].
  2: { eexists. split; [done|]. apply Hdone; [|done].
       apply (bubble_stop _ (S i)); [done|lia]. }
  assert (∃ j, heap_parent (S i) = S j ∧ j < i) as (j & Hj & Hji).
  { unfold heap_parent. exists (S i / 2 - 1). lia. }
  rewrite Hj. destruct (lookup_lt_is_Some_2 l j) as [pa Hpa]; [lia|].
  rewrite (slot_ok h l j pa Hr Hpa). cbn [mbind outcome_bind].
  pose proof (prio_at_eq m l i node Hi) as P1. pose proof (prio_at_eq m l j pa Hpa) as P2.
  unfold heap_parent in Hj.
  destruct (Z.leb_spec (hn_priority (m pa)) (hn_priority (m node))) as [Hge|Hsw].
  - eexists. split; [done|]. apply Hdone; [|done].
    apply (bubble_stop _ (S i)); [done|]. intros _. rewrite Hj. lia.
  - destruct (heap_swap_ok h m l i j node pa Hw Hr Hi Hpa) as (h1 & m1 & -> & Hw1 & Hr1 & Hm1).
    cbn [mbind outcome_bind]. set (l1 := <[j := node]> (<[i := pa]> l)) in *.
    assert (length l1 = length l) as Hl1 by (unfold l1; by rewrite !length_insert).
    destruct (IH h1 m1 l1 j Hw1 Hr1) as (st & Hst & Hof).
    + unfold l1. apply list_lookup_insert_eq. rewrite length_insert. lia.
    + lia.
    + rewrite Hl1. eapply ordered_above_ext.
      { apply (swap_state m m1 l i j node pa _ Hi Hpa Hm1). done. }
      rewrite <- Hj. apply bubble_step; [lia|done|]. rewrite Hj. lia.
    + exists st. split; [done|]. eapply heap_of_perm; [exact Hm1| |exact Hof].
      unfold l1. by apply Permutation_insert_swap.
Qed.

(** A heap with its nodes, in heap order. *)
Definition is_heap (st : heap_st) (l : list addr) : Prop := heap_of st st.2 l.

Lemma heap_init_is_heap m : is_heap (heap_init, m) [].
Proof.
  split; [by split; cbn; [lia| |]|]. split; [done|]. exists []. split; [by split|].
  split; [done|]. intros i Hi. cbn in Hi. lia.
Qed.

(** [xrealloc] to twice the size when the array is full. *)
Definition grow (h : heap) : heap :=
  if decide (h_allocated h ≤ h_size h) then
    let n := if decide (h_size h = 0) then 1 else 2 * h_size h in
    Heap (h_array h ++ replicate (n + 1 - length (h_array h)) None) (h_size h) n
  else h.

Lemma grow_ok h l :
  heap_wf h → repr h l →
  h_size (grow h) = length l ∧ length l < h_allocated (grow h) ∧
  length (h_array (grow h)) = h_allocated (grow h) + 1 ∧
  (∀ x, h_array (grow h) !! 0 ≠ Some (Some x)) ∧ repr (grow h) l.
Proof.
  intros [Hs Ha H0] [Hl Hsl]. unfold grow.
  destruct (decide (h_allocated h ≤ h_size h)) as [Hfull|Hroom].
  - cbn [h_size h_array h_allocated]. rewrite length_app, length_replicate, Ha.
    split; [done|]. split; [destruct (decide (h_size h = 0)); lia|]. split.
    + destruct (decide (h_size h = 0)), (decide (h_allocated h = 0)); lia.
    + split; [|split; [done|]].
      { intros x [Hx|[_ Hx]]%lookup_app_Some; [by destruct (H0 x)|].
        by apply lookup_replicate in Hx as [? _]. }
      intros i x Hx. cbn [h_array]. apply lookup_app_l_Some. by apply Hsl.
  - rewrite decide_False in Ha by lia. split; [done|]. split; [lia|]. by repeat split.
Qed.

(** Appending a node to the array. *)
Lemma append_ok h m l x :
  heap_wf h → repr h l →
  ∃ h' m', add_node ((grow h) <| h_size := h_size (grow h) + 1 |>, m) x (h_size (grow h) + 1)
      = Ok (h', m') ∧ heap_wf h' ∧ repr h' (l ++ [x]) ∧ same_priorities m m'.
Proof.
  intros Hw Hr. destruct (grow_ok h l Hw Hr) as (Hs & Hlt & Hlen & H0 & [Hl Hsl]).
  unfold add_node. cbn [h_array setf]. rewrite array_set_in_range by lia.
  cbn [mbind outcome_bind]. eexists _, _. split; [done|].
  replace (Z.to_nat (Z.of_nat (h_size (grow h) + 1))) with (S (length l)) by lia.
  split; [|split].
  - split; cbn [h_size h_array h_allocated setf]; [lia| |].
    + rewrite length_insert, decide_False by lia. done.
    + intros y. rewrite list_lookup_insert_ne by lia. apply H0.
  - split; cbn [h_size h_array setf].
    + rewrite length_app. cbn [length]. lia.
    + intros i y Hy. destruct (decide (i = length l)) as [-> |Hne].
      * rewrite lookup_app_r, Nat.sub_diag in Hy by done. injection Hy as ->.
        apply list_lookup_insert_eq. lia.
      * assert (i < length l).
        { apply lookup_lt_Some in Hy. rewrite length_app in Hy. cbn [length] in Hy. lia. }
        rewrite lookup_app_l in Hy by done. rewrite list_lookup_insert_ne by lia. by apply Hsl.
  - intros a. unfold store. by destruct (decide (a = x)) as [-> |].
Qed.

(** Appending a node with any priority leaves order but for the last position. *)
Lemma append_ordered m m' l x :
  ordered (length l) (prio_at m l) → (∀ a, a ∈ l → hn_priority (m' a) = hn_priority (m a)) →
  ordered_above (length (l ++ [x])) (S (length l)) (prio_at m' (l ++ [x])).
Proof.
  intros Ho Hm. rewrite length_app. cbn [length].
  assert (∀ i, 1 ≤ i ≤ length l → prio_at m' (l ++ [x]) i = prio_at m l i) as He.
  { intros i Hi. unfold prio_at. rewrite lookup_app_l by lia.
    destruct (l !! (i - 1)) as [a|] eqn:E; [|done].
    apply Hm. by eapply list_elem_of_lookup_2. }
  split.
  - intros i Hi Hne. rewrite !He by lia. apply Ho. lia.
  - intros c Hc Hk. lia.
Qed.

Lemma heap_insert_ok st l node priority :
  is_heap st l → node ∉ l →
  ∃ st', heap_insert st node priority = Ok st' ∧ is_heap st' (node :: l) ∧
    hn_priority (st'.2 node) = priority ∧
    ∀ a, a ≠ node → hn_priority (st'.2 a) = hn_priority (st.2 a).
Proof.
  destruct st as [h m]. intros (Hw & _ & k & Hr & Hk & Ho) Hn. cbn [fst snd] in *.
  assert (node ∉ k) as Hnk by by rewrite Hk.
  unfold heap_insert. fold (grow h). cbv zeta.
  destruct (append_ok h m k node Hw Hr) as (h1 & m1 & -> & Hw1 & Hr1 & Hm1).
  cbn [mbind outcome_bind]. set (m2 := store m1 node _).
  assert (∀ a, a ≠ node → hn_priority (m2 a) = hn_priority (m a)) as Hother.
  { intros a Ha. unfold m2, store. rewrite decide_False by done. apply Hm1. }
  rewrite (proj1 (grow_ok h k Hw Hr)), Nat.add_1_r.
  destruct (bubble_up_ok (S (length k)) h1 m2 (k ++ [node]) (length k) node Hw1 Hr1)
    as ([h3 m3] & -> & Hw3 & Hp3 & k3 & Hr3 & Hk3 & Ho3).
  - by rewrite lookup_app_r, Nat.sub_diag.
  - lia.
  - eapply append_ordered; [exact Ho|]. intros a Ha. apply Hother. by intros ->.
  - eexists. split; [done|]. cbn [fst snd] in *. split; [|split].
    + split; [done|]. split; [done|]. exists k3. split; [done|]. split; [|done].
      by rewrite Hk3, <- Hk, Permutation_app_comm.
    + rewrite Hp3. unfold m2, store. by rewrite decide_True.
    + intros a Ha. rewrite Hp3. by apply Hother.
Qed.

(** [heap_insert] on a heap that does not hold the node succeeds (growing the
    array when it is full), gives the node the priority, keeps the heap order and
    holds exactly one node more. *)
Theorem heap_insert_correct st l node priority :
  is_heap st l → node ∉ l →
  ∃ st', heap_insert st node priority = Ok st' ∧ is_heap st' (node :: l) ∧
    hn_priority (st'.2 node) = priority ∧
    ∀ a, a ≠ node → hn_priority (st'.2 a) = hn_priority (st.2 a).
Proof. apply heap_insert_ok. Qed.

(** ** Deletion *)

Lemma smaller_ok h m l child min :
  repr h l → 1 ≤ child → 1 ≤ min ≤ length l →
  smaller (h, m) (length l) child min =
  Ok (bool_decide (child ≤ length l) && (prio_at m l child ≺? prio_at m l min)).
Proof.
  intros Hr Hc Hm. unfold smaller. case_bool_decide as Hle.
  - rewrite decide_True by done. destruct child as [|c]; [lia|]. destruct min as [|k]; [lia|].
    destruct (lookup_lt_is_Some_2 l c) as [x Hx]; [lia|].
    destruct (lookup_lt_is_Some_2 l k) as [y Hy]; [lia|]. cbn [fst snd].
    rewrite (slot_ok h l c x Hr Hx). cbn [mbind outcome_bind].
    rewrite (slot_ok h l k y Hr Hy). cbn [mbind outcome_bind].
    by rewrite (prio_at_eq m l c x Hx), (prio_at_eq m l k y Hy).
  - by rewrite decide_False.
Qed.

(** The position [min_heapify] picks: the least of [k] and its children. *)
Definition least_child (n : nat) p (k : nat) : nat :=
  let min := if bool_decide (2 * k + 1 ≤ n) && (p (2 * k + 1) ≺? p k) then 2 * k + 1 else k in
  if bool_decide (2 * k ≤ n) && (p (2 * k) ≺? p min) then 2 * k else min.

Lemma least_child_spec n p k :
  1 ≤ k ≤ n →
  let c := least_child n p k in
  (c = k ∨ 2 ≤ c ≤ n ∧ c / 2 = k ∧ p c ≺ p k) ∧
  (∀ d, 2 ≤ d ≤ n → d / 2 = k → p c ≼ p d).
Proof.
  intros Hk. unfold least_child.
  assert (∀ d, d / 2 = k → d = 2 * k ∨ d = 2 * k + 1) as Hd by lia.
  destruct (Z.ltb_spec (p (2 * k + 1)) (p k)), (bool_decide_reflect (2 * k + 1 ≤ n)); cbn [andb];
    match goal with |- context [p (2 * k) ≺? ?x] => destruct (Z.ltb_spec (p (2 * k)) x) end;
    destruct (bool_decide_reflect (2 * k ≤ n)); cbn [andb]; cbv zeta;
    (split; [first [by left|right; split; [lia|split; [lia|lia]]]|]);
    intros d Hdn [-> | ->]%Hd; lia.
Qed.

Lemma min_heapify_step fuel h m l min i :
  repr h l → i < length l → min < length l →
  min_heapify (S fuel) (h, m) min (S i) (length l) =
  let c := least_child (length l) (prio_at m l) (S i) in
  if decide (c = S i) then Ok (h, m)
  else st ← heap_swap (h, m) (S i) c; min_heapify fuel st c c (length l).
Proof.
  intros Hr Hi Hm. cbn [min_heapify fst]. rewrite decide_True by by rewrite (r_size _ _ Hr).
  unfold heap_left_child, heap_right_child, least_child.
  rewrite (smaller_ok h m l) by (done || lia). cbn [mbind outcome_bind].
  destruct (bool_decide (2 * S i + 1 ≤ length l)) eqn:E; cbn [andb].
  - apply bool_decide_eq_true in E. destruct (_ ≺? _);
      (rewrite (smaller_ok h m l) by (done || lia)); done.
  - rewrite (smaller_ok h m l) by (done || lia). done.
Qed.

Lemma min_heapify_ok fuel h m l min i :
  heap_wf h → repr h l → (min = 0 ∨ min = S i) → length l < i + fuel →
  (l ≠ [] → i < length l) → ordered_below (length l) (S i) (prio_at m l) →
  ∃ st, min_heapify fuel (h, m) min (S i) (length l) = Ok st ∧ heap_of st m l.
Proof.
  revert h m l min i. induction fuel as [|fuel IH]; intros h m l min i Hw Hr Hmin Hf Hi Ho.
  { assert (l = []) as ->; [destruct l; [done|]; specialize (Hi ltac:(done)); lia|].
    cbn in Hf. cbn [min_heapify fst]. rewrite decide_False by (rewrite (r_size _ _ Hr); cbn; lia).
    eexists. split; [done|]. split; [done|]. split; [done|]. exists []. split; [done|].
    split; [done|]. intros j Hj. cbn in Hj. lia. }
  destruct (decide (min < length l)) as [Hlt|Hge].
  2: { cbn [min_heapify fst]. rewrite decide_False by by rewrite (r_size _ _ Hr).
       eexists. split; [done|]. split; [done|]. split; [done|]. exists l. split; [done|].
       split; [done|]. apply (sift_stop _ (S i)); [done|]. intros c Hc Hc2. lia. }
  assert (i < length l) as Hil by (apply Hi; intros ->; cbn in Hlt; lia).
  rewrite min_heapify_step by done.
  destruct (least_child_spec (length l) (prio_at m l) (S i)) as [Hc Hleast]; [lia|].
  set (c := least_child _ _ _) in *. cbv zeta.
  destruct (decide (c = S i)) as [Eq|Hne].
  - eexists. split; [done|]. split; [done|]. split; [done|]. exists l. split; [done|].
    split; [done|]. apply (sift_stop _ (S i)); [done|]. rewrite Eq in Hleast. exact Hleast.
  - destruct Hc as [?|(Hc & Hc2 & Hlt2)]; [done|]. destruct c as [|j] eqn:Ej; [lia|].
    destruct (lookup_lt_is_Some_2 l i) as [x Hx]; [done|].
    destruct (lookup_lt_is_Some_2 l j) as [y Hy]; [lia|].
    destruct (heap_swap_ok h m l i j x y Hw Hr Hx Hy) as (h1 & m1 & -> & Hw1 & Hr1 & Hm1).
    cbn [mbind outcome_bind]. set (l1 := <[j := x]> (<[i := y]> l)) in *.
    assert (length l1 = length l) as Hl1 by (unfold l1; by rewrite !length_insert).
    rewrite <- Hl1. destruct (IH h1 m1 l1 (S j) j Hw1 Hr1) as (st & Hst & Hof).
    + by right.
    + lia.
    + lia.
    + rewrite Hl1. eapply ordered_below_ext.
      { apply (swap_state m m1 l i j x y _ Hx Hy Hm1). done. }
      apply sift_step; try done; lia.
    + exists st. split; [done|]. eapply heap_of_perm; [exact Hm1| |exact Hof].
      unfold l1. by apply Permutation_insert_swap.
Qed.

(** The nodes that are left when the last one takes the root slot. *)
Definition cut (l : list addr) (y : addr) : list addr := take (length l - 1) (<[0 := y]> l).

Lemma cut_lookup l y i z :
  cut l y !! i = Some z → i < length l - 1 ∧ ((i = 0 ∧ z = y) ∨ (1 ≤ i ∧ l !! i = Some z)).
Proof.
  unfold cut. intros [Hz Hi]%lookup_take_Some. split; [done|].
  apply list_lookup_insert_Some in Hz as [(<- & -> & _)|[Hne Hz]]; [by left|].
  right. split; [lia|done].
Qed.

Lemma length_cut l y : length (cut l y) = length l - 1.
Proof. unfold cut. rewrite length_take, length_insert. lia. Qed.

Lemma cut_perm x k y : last (x :: k) = Some y → x :: k ≡ₚ x :: cut (x :: k) y.
Proof.
  intros Hy. unfold cut. cbn [length]. rewrite Nat.sub_1_r. cbn [Nat.pred].
  change (<[0 := y]> (x :: k)) with (y :: k).
  destruct k as [|z k _] using rev_ind; [done|].
  rewrite app_comm_cons, last_snoc in Hy. injection Hy as ->.
  rewrite length_app. cbn [length]. rewrite Nat.add_1_r. cbn [take].
  rewrite take_app_length. constructor. by rewrite Permutation_app_comm.
Qed.

Lemma cut_ordered m l y :
  ordered (length l) (prio_at m l) → ordered_below (length (cut l y)) 1 (prio_at m (cut l y)).
Proof.
  intros Ho. rewrite length_cut. split; [|lia]. intros i Hi Hne.
  assert (∀ j, 2 ≤ j ≤ length l - 1 → prio_at m (cut l y) j = prio_at m l j) as E.
  { intros j Hj. unfold prio_at. destruct (cut l y !! (j - 1)) as [z|] eqn:Ez.
    - apply cut_lookup in Ez as [_ [[? ?]|[_ ->]]]; [lia|done].
    - apply lookup_ge_None_1 in Ez. rewrite length_cut in Ez. lia. }
  rewrite !E by lia. apply Ho. lia.
Qed.

Lemma cut_repr h l y :
  heap_wf h → repr h l → l ≠ [] →
  ∃ arr, array_set (h_array h) 1 (Some y) = Ok arr ∧
    let h' := h <| h_size := h_size h - 1 |> <| h_array := arr |> in
    heap_wf h' ∧ repr h' (cut l y).
Proof.
  intros Hw Hr Hne. assert (1 ≤ length l) as Hl by (destruct l; [done|cbn; lia]).
  pose proof (array_room h l 1 Hw Hr Hl ltac:(lia)) as Hroom.
  destruct Hw as [Hs Ha H0], Hr as [Hz Hsl].
  exists (<[1 := Some y]> (h_array h)). split; [by rewrite array_set_in_range|]. split.
  - split; cbn [h_size h_array h_allocated setf]; [lia|by rewrite length_insert|].
    intros z. rewrite list_lookup_insert_ne by lia. apply H0.
  - split; cbn [h_size h_array setf]; [by rewrite length_cut, Hz|].
    intros i z [Hi [[-> ->]|[H1 Hlk]]]%cut_lookup.
    + apply list_lookup_insert_eq. lia.
    + rewrite list_lookup_insert_ne by lia. by apply Hsl.
Qed.

Lemma r_size_nil h k : repr h k → k ≡ₚ [] → h_size h = 0.
Proof. intros [Hs _] ->%Permutation_nil_r. exact Hs. Qed.

(** The slot that the deletion from an empty heap reads. *)
Lemma empty_delete h m : heap_wf h → h_size h = 0 →
  heap_delete (h, m) = Fault (if decide (h_allocated h = 0) then OutOfBounds else Indeterminate).
Proof.
  intros [_ Ha H0] Hs. unfold heap_delete, slot, array_get. rewrite Hs.
  destruct (decide (h_allocated h = 0)) as [E|E]; destruct (h_array h) as [|[x|] arr] eqn:Earr;
    cbn [length] in Ha; try lia; try done; by destruct (H0 x).
Qed.

(** C35. [heap_delete] on a non-empty heap succeeds, returns a node whose priority is
    least, keeps the heap order and all priorities, and leaves exactly the other
    nodes; on an empty heap it reads outside the array when nothing was ever inserted,
    and otherwise, when deletions have emptied it, the slot 0 that no
    operation stores to. *)
Theorem heap_delete_correct st l :
  is_heap st l →
  (l ≠ [] → ∃ st' x l', heap_delete st = Ok (st', x) ∧ l ≡ₚ x :: l' ∧ is_heap st' l' ∧
     same_priorities st.2 st'.2 ∧ heap_retrieve st = Ok x ∧
     ∀ a, a ∈ l → (hn_priority (st.2 x) ≤ hn_priority (st.2 a))%Z) ∧
  (l = [] → heap_delete st =
     Fault (if decide (h_allocated st.1 = 0) then OutOfBounds else Indeterminate)).
Proof.
  destruct st as [h m]. intros (Hw & _ & k & Hr & Hk & Ho). cbn [fst snd] in *.
  split; [|by intros ->; apply (empty_delete h m Hw), (r_size_nil h k Hr)]. intros Hne.
  destruct k as [|x k]; [by apply Permutation_nil_l in Hk|].
  assert (∀ a, a ∈ l → (hn_priority (m x) ≤ hn_priority (m a))%Z) as Hleast.
  { intros a Ha. rewrite <- Hk in Ha. apply list_elem_of_lookup_1 in Ha as [i Hi].
    pose proof (ordered_root _ _ (S i) Ho) as H. rewrite (prio_at_eq m _ i a Hi) in H.
    apply H. apply lookup_lt_Some in Hi. lia. }
  destruct (last (x :: k)) as [y|] eqn:Hy; [|by apply last_None in Hy].
  destruct (cut_repr h (x :: k) y Hw Hr ltac:(done)) as (arr & Harr & Hw' & Hr').
  assert (length (cut (x :: k) y) = h_size h - 1) as Hlen.
  { by rewrite length_cut, (r_size _ _ Hr). }
  destruct (min_heapify_ok (h_size h - 1 + 1) _ m (cut (x :: k) y) 0 0 Hw' Hr')
    as ([h2 m2] & Hst & Hw2 & Hm2 & k2 & Hr2 & Hk2 & Ho2).
  { by left. } { lia. } { intros Hc. destruct (cut (x :: k) y); [done|cbn; lia]. }
  { by apply cut_ordered. }
  assert (slot h 1 = Ok x) as Hx by by apply (slot_ok h (x :: k) 0).
  exists (h2, m2), x, (cut (x :: k) y). split; [|split; [|split; [|done]]].
  - unfold heap_delete. rewrite (r_size _ _ Hr) at 1. cbn [length].
    rewrite (slot_ok h (x :: k) (length k) y Hr) by by rewrite last_lookup in Hy.
    cbn [mbind outcome_bind]. change (slot (h <| h_size := h_size h - 1 |>) 1) with (slot h 1).
    rewrite Hx. cbn [mbind outcome_bind].
    change (h_array (h <| h_size := h_size h - 1 |>)) with (h_array h).
    rewrite Harr. rewrite Hlen in Hst. cbn [mbind outcome_bind].
    transitivity (st ← (Ok (h2, m2) : outcome heap_st); Ok (st, x)); [|done].
    f_equal. exact Hst.
  - rewrite <- Hk. by apply cut_perm.
  - split; [done|]. split; [done|]. by exists k2.
Qed.

(** Two insertions and a deletion. *)
Definition sample_heap : outcome heap_st :=
  st ← heap_insert (heap_init, λ _, HeapNode 0 0) 1 20;
  st ← heap_insert st 2 10;
  heap_insert st 3 30.

Lemma heap_insert_correct_witness :
  ∃ st, heap_insert (heap_init, λ _, HeapNode 0 0) 1 20 = Ok st ∧ is_heap st [1].
Proof.
  destruct (heap_insert_correct (heap_init, λ _, HeapNode 0 0) [] 1 20)
    as (st & H1 & H2 & _); [apply heap_init_is_heap|apply not_elem_of_nil|].
  by exists st.
Defined.

Lemma sample_heap_is_heap : ∃ st, sample_heap = Ok st ∧ is_heap st [3; 2; 1].
Proof.
  unfold sample_heap.
  destruct (heap_insert_ok (heap_init, λ _, HeapNode 0 0) [] 1 20)
    as (s1 & -> & H1 & _); [apply heap_init_is_heap|apply not_elem_of_nil|].
  cbn [mbind outcome_bind].
  destruct (heap_insert_ok s1 [1] 2 10) as (s2 & -> & H2 & _); [done|set_solver|].
  cbn [mbind outcome_bind].
  destruct (heap_insert_ok s2 [2; 1] 3 30) as (s3 & -> & H3 & _); [done|set_solver|].
  by exists s3.
Qed.

Lemma heap_delete_correct_witness :
  ∃ st st' l', sample_heap = Ok st ∧ heap_delete st = Ok (st', 2) ∧ is_heap st' l'.
Proof.
  destruct sample_heap_is_heap as (st & E & Hh).
  destruct (heap_delete_correct st [3; 2; 1] Hh) as [H _].
  destruct (H ltac:(done)) as (st' & x & l' & Hd & _ & Hh' & _).
  exists st, st', l'. split; [exact E|]. split; [|exact Hh'].
  assert ((st ← sample_heap; r ← heap_delete st; Ok r.2) = Ok 2) as C by reflexivity.
  rewrite E in C. cbn [mbind outcome_bind] in C. rewrite Hd in C |- *.
  cbn [mbind outcome_bind snd] in C. by injection C as ->.
Defined.

(** After a deletion the node moved to the root may keep its old [idx]: with
    priorities 10, 20 and 30, after two deletions the node of priority 30 is at
    position 1 and still says that it is at position 2. *)
Theorem heap_delete_stale_idx :
  (st ← sample_heap; r ← heap_delete st; x ← heap_retrieve r.1;
   r' ← heap_delete r.1; y ← heap_retrieve r'.1;
   Ok (x, hn_idx (r.1.2 x), y, hn_idx (r'.1.2 y))) = Ok (1, 1, 3, 2).
Proof. reflexivity. Qed.
