(* ===== verification/Patricia.v ===== *)
(** * Patricia: the longest-prefix-match tree of the routing tables

    Models the operations of [vendor/patricia/patricia.c] that
    [net/route_table.c] calls: [New_Patricia], [New_Prefix],
    [patricia_lookup] (find or insert), [patricia_search_exact] and
    [patricia_search_best].  A node keeps the index of the bit it tests, an
    optional prefix (a node without one is glue), a data pointer and two
    children.  The [parent] pointers are the inverse of the child pointers: a
    node reached by descending from the head is the pair of the subtree and the
    list of its ancestors ([frame]s, innermost first), and following [parent]
    pops that list.  A node pointer handed to the caller is the path of
    left/right steps to the node.  Reference counts of prefixes are memory
    management and are not modelled.

    The theorems: insertion keeps the tree well formed, never fails an
    assertion and adds exactly the prefix; the search finds the longest prefix
    that contains an address, and its stack never overflows. *)

From stdpp Require Import prelude sorting.
From Stdlib Require Import ZifyNat.
From S2P Require Import Prelude.

#[local] Ltac Zify.zify_post_hook ::= Z.to_euclidean_division_equations.

(** ** Prefixes *)

Definition PATRICIA_MAXBITS : nat := 128.

Record prefix_t := Prefix { px_bitlen : nat; px_add : list Z }.
#[export] Instance prefix_eq_dec : EqDecision prefix_t.
Proof. solve_decision. Defined.

Definition INET_BYTES : nat := 4.
(** [New_Prefix (AF_INET, dest, bitlen)] with [bitlen >= 0]: four bytes are
    copied from [dest]. *)
Definition New_Prefix (dest : list Z) (bitlen : nat) : prefix_t :=
  Prefix bitlen (take INET_BYTES dest).

(** [BIT_TEST (addr[bit >> 3], 0x80 >> (bit & 0x07))]; callers keep [bit]
    below the length of the address. *)
Definition bit_test (addr : list Z) (bit : nat) : bool :=
  negb (Z.land (default 0 (addr !! (bit / 8)%nat))
               (Z.shiftr 0x80 (Z.of_nat (bit mod 8))) =? 0).

(** [memcmp] of the whole bytes, then the remaining bits under a mask. *)
Definition comp_with_mask (addr dest : list Z) (mask : nat) : bool :=
  bool_decide (take (mask / 8) addr = take (mask / 8) dest) &&
  let m := Z.shiftl (-1) (8 - Z.of_nat (mask mod 8)) in
  ((mask mod 8 =? 0)%nat ||
   (Z.land (default 0 (addr !! (mask / 8)%nat)) m
    =? Z.land (default 0 (dest !! (mask / 8)%nat)) m)).

(** ** Trees *)

Inductive ptree (V : Type) :=
  | PNull
  | PNode (bit : nat) (prefix : option prefix_t) (data : option V) (l r : ptree V).
Arguments PNull {V}.
Arguments PNode {V} _ _ _ _ _.

Record patricia_tree (V : Type) := Patricia {
  pt_head : ptree V; pt_maxbits : nat; pt_num_active_node : Z }.
Arguments Patricia {V} _ _ _.
Arguments pt_head {V} _.
Arguments pt_maxbits {V} _.
Arguments pt_num_active_node {V} _.
#[export] Instance eta_patricia_tree V : Eta (patricia_tree V) := λ p,
  Patricia (pt_head p) (pt_maxbits p) (pt_num_active_node p).

(** An ancestor, without the child the walk went to ([fr_right] says which). *)
Record frame (V : Type) := Frame {
  fr_right : bool; fr_bit : nat; fr_prefix : option prefix_t;
  fr_data : option V; fr_other : ptree V }.
Arguments Frame {V} _ _ _ _ _.
Arguments fr_right {V} _.
Arguments fr_bit {V} _.
Arguments fr_prefix {V} _.
Arguments fr_data {V} _.
Arguments fr_other {V} _.

Section operations.
Context {V : Type}.
Implicit Types (t l r node : ptree V) (ctx : list (frame V)) (p : patricia_tree V).

(** [New_Patricia]: an assertion bounds [maxbits]. *)
Definition New_Patricia (maxbits : nat) : outcome (patricia_tree V) :=
  if decide (maxbits ≤ PATRICIA_MAXBITS)%nat then Ok (Patricia PNull maxbits 0)
  else Fault Aborted.

Definition fill (f : frame V) t : ptree V :=
  if fr_right f then PNode (fr_bit f) (fr_prefix f) (fr_data f) (fr_other f) t
  else PNode (fr_bit f) (fr_prefix f) (fr_data f) t (fr_other f).
Definition plug ctx t : ptree V := foldl (λ t f, fill f t) t ctx.

Definition leaf (prefix : prefix_t) : ptree V :=
  PNode (px_bitlen prefix) (Some prefix) None PNull PNull.

Definition go_right (maxbits : nat) (addr : list Z) (bit : nat) : bool :=
  (bit <? maxbits)%nat && bit_test addr bit.

(** The first loop of [patricia_lookup]. *)
Fixpoint descend (maxbits : nat) (addr : list Z) (bitlen : nat) ctx t
  : list (frame V) * ptree V :=
  match t with
  | PNull => (ctx, t)
  | PNode bit prefix data l r =>
      if (bit <? bitlen)%nat || bool_decide (prefix = None) then
        if go_right maxbits addr bit then
          match r with
          | PNull => (ctx, t)
          | _ => descend maxbits addr bitlen (Frame true bit prefix data l :: ctx) r
          end
        else
          match l with
          | PNull => (ctx, t)
          | _ => descend maxbits addr bitlen (Frame false bit prefix data r :: ctx) l
          end
      else (ctx, t)
  end.

(** The inner loop over the bits of a byte; 8 when none is set. *)
Fixpoint first_bit (fuel : nat) (x : Z) (j : nat) : nat :=
  match fuel with
  | O => j
  | S fuel => if negb (Z.land x (Z.shiftr 0x80 (Z.of_nat j)) =? 0) then j
              else first_bit fuel x (S j)
  end.

(** "find the first bit different", byte by byte. *)
Fixpoint differ_loop (addr test_addr : list Z) (i check_bit differ_bit : nat)
  : outcome nat :=
  if (i * 8 <? check_bit)%nat then
    match addr, test_addr with
    | a :: addr, b :: test_addr =>
        let x := Z.lxor a b in
        if x =? 0 then differ_loop addr test_addr (S i) check_bit ((i + 1) * 8)
        else let j := first_bit 8 x 0 in
             if (j <? 8)%nat then Ok (i * 8 + j)%nat else Fault Aborted
    | _, _ => Fault OutOfBounds
    end
  else Ok differ_bit.

(** [while (parent && parent->bit >= differ_bit)]. *)
Fixpoint up (differ_bit : nat) ctx t : list (frame V) * ptree V :=
  match ctx with
  | f :: ctx' => if (differ_bit <=? fr_bit f)%nat then up differ_bit ctx' (fill f t)
                 else (ctx, t)
  | [] => (ctx, t)
  end.

Definition path_of ctx : list bool := reverse (fr_right <$> ctx).

(** From the node the upward walk stopped at: the new head, the path of the
    node for the prefix and how many nodes were allocated. *)
Definition insert_at (maxbits : nat) (prefix : prefix_t) (test_addr : list Z)
    (differ_bit : nat) ctx node : outcome (ptree V * list bool * Z) :=
  let bitlen := px_bitlen prefix in
  let addr := px_add prefix in
  let here := path_of ctx in
  match node with
  | PNull => Fault NullDeref
  | PNode bit nprefix data l r =>
      if (differ_bit =? bitlen)%nat && (bit =? bitlen)%nat then
        match nprefix, data with
        | Some _, _ => Ok (plug ctx node, here, 0)
        | None, None => Ok (plug ctx (PNode bit (Some prefix) data l r), here, 0)
        | None, Some _ => Fault Aborted
        end
      else if (bit =? differ_bit)%nat then
        if go_right maxbits addr bit then
          match r with
          | PNull => Ok (plug ctx (PNode bit nprefix data l (leaf prefix)), here ++ [true], 1)
          | _ => Fault Aborted
          end
        else
          match l with
          | PNull => Ok (plug ctx (PNode bit nprefix data (leaf prefix) r), here ++ [false], 1)
          | _ => Fault Aborted
          end
      else if (bitlen =? differ_bit)%nat then
        Ok (plug ctx (if go_right maxbits test_addr bitlen
                      then PNode bitlen (Some prefix) None PNull node
                      else PNode bitlen (Some prefix) None node PNull), here, 1)
      else if go_right maxbits addr differ_bit then
        Ok (plug ctx (PNode differ_bit None None node (leaf prefix)), here ++ [true], 2)
      else
        Ok (plug ctx (PNode differ_bit None None (leaf prefix) node), here ++ [false], 2)
  end.

(** Returns the tree and the node that has the prefix, which is created when
    there is none. *)
Definition patricia_lookup p (prefix : prefix_t)
  : outcome (patricia_tree V * list bool) :=
  let bitlen := px_bitlen prefix in
  let addr := px_add prefix in
  if decide (bitlen ≤ pt_maxbits p)%nat then
    match pt_head p with
    | PNull => Ok (p <| pt_head := leaf prefix |> <| pt_num_active_node ::= Z.add 1 |>, [])
    | head =>
        let '(ctx, node) := descend (pt_maxbits p) addr bitlen [] head in
        match node with
        | PNode bit (Some test) _ _ _ =>
            let check_bit := if (bit <? bitlen)%nat then bit else bitlen in
            differ ← differ_loop addr (px_add test) 0 check_bit 0;
            let differ_bit := if (check_bit <? differ)%nat then check_bit else differ in
            let '(ctx, node) := up differ_bit ctx node in
            r ← insert_at (pt_maxbits p) prefix (px_add test) differ_bit ctx node;
            let '(head, path, n) := r in
            Ok (p <| pt_head := head |> <| pt_num_active_node ::= Z.add n |>, path)
        | PNode _ None _ _ _ => Fault Aborted
        | PNull => Fault NullDeref
        end
    end
  else Fault Aborted.

(** [node->data] through a node pointer. *)
Fixpoint node_at t (path : list bool) : option (nat * option prefix_t * option V) :=
  match t, path with
  | PNull, _ => None
  | PNode bit prefix data _ _, [] => Some (bit, prefix, data)
  | PNode _ _ _ l r, b :: path => node_at (if b : bool then r else l) path
  end.
Fixpoint set_data (path : list bool) (v : V) t : ptree V :=
  match t, path with
  | PNull, _ => PNull
  | PNode bit prefix _ l r, [] => PNode bit prefix (Some v) l r
  | PNode bit prefix data l r, true :: path => PNode bit prefix data l (set_data path v r)
  | PNode bit prefix data l r, false :: path => PNode bit prefix data (set_data path v l) r
  end.

Fixpoint exact_walk (prefix : prefix_t) t : outcome (option (prefix_t * option V)) :=
  match t with
  | PNull => Ok None
  | PNode bit nprefix data l r =>
      if (bit <? px_bitlen prefix)%nat then
        exact_walk prefix (if bit_test (px_add prefix) bit then r else l)
      else
        match nprefix with
        | None => Ok None
        | Some q =>
            if (px_bitlen prefix <? bit)%nat then Ok None
            else if (bit =? px_bitlen q)%nat then
              Ok (if comp_with_mask (px_add q) (px_add prefix) (px_bitlen prefix)
                  then Some (q, data) else None)
            else Fault Aborted
        end
  end.

Definition patricia_search_exact p (prefix : prefix_t)
  : outcome (option (prefix_t * option V)) :=
  if decide (px_bitlen prefix ≤ pt_maxbits p)%nat then exact_walk prefix (pt_head p)
  else Fault Aborted.

(** [stack[cnt++] = node] in an array of [PATRICIA_MAXBITS + 1]. *)
Definition push (stack : list (prefix_t * option V)) (q : option prefix_t) (data : option V)
  : outcome (list (prefix_t * option V)) :=
  match q with
  | None => Ok stack
  | Some q => if decide (length stack ≤ PATRICIA_MAXBITS)%nat then Ok ((q, data) :: stack)
              else Fault OutOfBounds
  end.

Fixpoint best_walk (prefix : prefix_t) (stack : list (prefix_t * option V)) t
  : outcome (list (prefix_t * option V)) :=
  match t with
  | PNull => Ok stack
  | PNode bit nprefix data l r =>
      stack ← push stack nprefix data;
      if (bit <? px_bitlen prefix)%nat then
        best_walk prefix stack (if bit_test (px_add prefix) bit then r else l)
      else Ok stack
  end.

(** The nodes are tried from the last pushed to the first. *)
Definition patricia_search_best p (prefix : prefix_t)
  : outcome (option (prefix_t * option V)) :=
  if decide (px_bitlen prefix ≤ pt_maxbits p)%nat then
    stack ← best_walk prefix [] (pt_head p);
    Ok (first (λ e, comp_with_mask (px_add e.1) (px_add prefix) (px_bitlen e.1)) stack)
  else Fault Aborted.
End operations.

(** ** Bits *)

(** The first [n] bits of two addresses are equal. *)
Definition agree (n : nat) (a b : list Z) : Prop :=
  ∀ i, (i < n)%nat → bit_test a i = bit_test b i.

Lemma agree_le n m a b : (n ≤ m)%nat → agree m a b → agree n a b.
Proof. intros ? H i ?. apply H. lia. Qed.
Lemma agree_sym n a b : agree n a b → agree n b a.
Proof. intros H i ?. by rewrite H. Qed.
Lemma agree_trans n a b c : agree n a b → agree n b c → agree n a c.
Proof. intros H H' i ?. by rewrite H, H'. Qed.
Lemma agree_refl n a : agree n a a.
Proof. done. Qed.
#[export] Hint Resolve agree_refl agree_sym agree_trans : horse.

Lemma land_pow2 x n : 0 ≤ n → Z.land x (2 ^ n) = if Z.testbit x n then 2 ^ n else 0.
Proof.
  intros Hn. apply Z.bits_inj'. intros i Hi. rewrite Z.land_spec, Z.pow2_bits_eqb by done.
  destruct (Z.eqb_spec n i) as [->|Hne].
  - destruct (Z.testbit x i) eqn:E; [by rewrite Z.pow2_bits_true|by rewrite Z.bits_0].
  - rewrite andb_false_r. destruct (Z.testbit x n); [by rewrite Z.pow2_bits_false|].
    by rewrite Z.bits_0.
Qed.

Lemma bit_mask_testbit x k : (k < 8)%nat →
  negb (Z.land x (Z.shiftr 0x80 (Z.of_nat k)) =? 0) = Z.testbit x (7 - Z.of_nat k).
Proof.
  intros Hk. replace (Z.shiftr 0x80 (Z.of_nat k)) with (2 ^ (7 - Z.of_nat k)).
  2: { do 8 (destruct k as [|k]; [done|]). lia. }
  rewrite land_pow2 by lia. destruct (Z.testbit _ _); [|done].
  destruct (Z.eqb_spec (2 ^ (7 - Z.of_nat k)) 0); [|done].
  pose proof (Z.pow_pos_nonneg 2 (7 - Z.of_nat k)). lia.
Qed.

Lemma bit_test_testbit a i :
  bit_test a i = Z.testbit (default 0 (a !! (i / 8)%nat)) (7 - Z.of_nat (i mod 8)).
Proof. apply bit_mask_testbit. lia. Qed.

Lemma bit_test_here x a i : (i < 8)%nat →
  bit_test (x :: a) i = Z.testbit x (7 - Z.of_nat i).
Proof.
  intros Hi. rewrite bit_test_testbit. replace (i / 8)%nat with 0%nat by lia.
  by replace (i mod 8)%nat with i by lia.
Qed.

Lemma bit_test_skip x a i : bit_test (x :: a) (8 + i) = bit_test a i.
Proof.
  rewrite !bit_test_testbit. replace ((8 + i) / 8)%nat with (S (i / 8)) by lia.
  by replace ((8 + i) mod 8)%nat with (i mod 8)%nat by lia.
Qed.

Lemma byte_bits x y : byte_wf x → byte_wf y →
  x = y ↔ ∀ i, (i < 8)%nat → Z.testbit x (7 - Z.of_nat i) = Z.testbit y (7 - Z.of_nat i).
Proof.
  intros Hx Hy. split; [by intros ->|]. intros H. apply Z.bits_inj'. intros n Hn.
  destruct (decide (n < 8)) as [Hlt|Hge].
  - specialize (H (Z.to_nat (7 - n)) ltac:(lia)).
    by replace (7 - Z.of_nat (Z.to_nat (7 - n))) with n in H by lia.
  - apply in_width_bits in Hx as [_ Hx]; [|lia]. apply in_width_bits in Hy as [_ Hy]; [|lia].
    rewrite Hx, Hy by lia. done.
Qed.

Lemma masked_bits x y m : byte_wf x → byte_wf y → (m ≤ 8)%nat →
  Z.land x (Z.shiftl (-1) (8 - Z.of_nat m)) = Z.land y (Z.shiftl (-1) (8 - Z.of_nat m)) ↔
  ∀ i, (i < m)%nat → Z.testbit x (7 - Z.of_nat i) = Z.testbit y (7 - Z.of_nat i).
Proof.
  intros Hx Hy Hm. split.
  - intros H i Hi. apply (f_equal (λ z, Z.testbit z (7 - Z.of_nat i))) in H.
    rewrite !Z.land_spec, !Z.shiftl_spec, Z.bits_m1, !andb_true_r in H by lia. done.
  - intros H. apply Z.bits_inj'. intros n Hn. rewrite !Z.land_spec.
    destruct (decide (n < 8 - Z.of_nat m)) as [Hlt|Hge].
    { rewrite Z.shiftl_spec, (Z.testbit_neg_r (-1)), !andb_false_r by lia. done. }
    f_equal. destruct (decide (n < 8)) as [Hlt'|Hge'].
    + specialize (H (Z.to_nat (7 - n)) ltac:(lia)).
      by replace (7 - Z.of_nat (Z.to_nat (7 - n))) with n in H by lia.
    + apply in_width_bits in Hx as [_ Hx]; [|lia]. apply in_width_bits in Hy as [_ Hy]; [|lia].
      rewrite Hx, Hy by lia. done.
Qed.

Lemma comp_with_mask_spec a b n :
  Forall byte_wf a → Forall byte_wf b →
  (n ≤ 8 * length a)%nat → (n ≤ 8 * length b)%nat →
  comp_with_mask a b n = true ↔ agree n a b.
Proof.
  unfold comp_with_mask. revert n b. induction a as [|x a IH]; intros n [|y b] Ha Hb Hla Hlb;
    simpl in Hla, Hlb; try (replace n with 0%nat by lia; split; [intros _ i Hi; lia|done]).
  inversion_clear Ha as [|?? Hx Ha']. inversion_clear Hb as [|?? Hy Hb'].
  destruct (decide (8 ≤ n)%nat) as [Hge|Hlt].
  - replace n with (8 + (n - 8))%nat by lia. set (m := (n - 8)%nat).
    replace ((8 + m) / 8)%nat with (S (m / 8)) by lia.
    replace ((8 + m) mod 8)%nat with (m mod 8)%nat by lia. cbn [take lookup list_lookup].
    specialize (IH m b Ha' Hb' ltac:(lia) ltac:(lia)). rewrite andb_true_iff in IH |- *.
    rewrite !bool_decide_eq_true in *. split.
    + intros [[= -> Ht] Hm] i Hi. destruct (decide (i < 8)%nat).
      { by rewrite !bit_test_here. }
      replace i with (8 + (i - 8))%nat by lia. rewrite !bit_test_skip.
      apply IH; [done|lia].
    + intros H. assert (x = y) as ->.
      { apply byte_bits; [done..|]. intros i Hi. rewrite <-!bit_test_here with (a := a) by done.
        rewrite H by lia. by rewrite !bit_test_here. }
      destruct IH as [_ IH]. destruct IH as [-> Hm]; [|done].
      intros i Hi. rewrite <-(bit_test_skip y a), <-(bit_test_skip y b). apply H. lia.
  - replace (n / 8)%nat with 0%nat by lia. replace (n mod 8)%nat with n by lia.
    rewrite bool_decide_true by done. cbn [take lookup list_lookup default].
    rewrite andb_true_l, orb_true_iff, Nat.eqb_eq, Z.eqb_eq.
    assert (agree n (x :: a) (y :: b) ↔
            ∀ i, (i < n)%nat → Z.testbit x (7 - Z.of_nat i) = Z.testbit y (7 - Z.of_nat i)) as ->.
    { split; intros H i Hi; specialize (H i Hi); by rewrite !bit_test_here in * by lia. }
    rewrite <-(masked_bits x y n) by (done || lia). split; [|by right].
    intros [->|H]; [|done]. change (Z.shiftl (-1) (8 - Z.of_nat 0)) with (-256).
    apply (masked_bits x y 0); [done..|lia|]. intros i Hi. lia.
Qed.

(** The position of the first set bit of a byte. *)
Lemma first_bit_spec x : byte_wf x → x ≠ 0 →
  let j := first_bit 8 x 0 in
  (j < 8)%nat ∧ Z.testbit x (7 - Z.of_nat j) = true ∧
  ∀ k, (k < j)%nat → Z.testbit x (7 - Z.of_nat k) = false.
Proof.
  intros Hx Hne.
  assert (forallb (λ x, let j := first_bit 8 (Z.of_nat x) 0 in
    (j <? 8)%nat && Z.testbit (Z.of_nat x) (7 - Z.of_nat j) &&
    forallb (λ k, negb (Z.testbit (Z.of_nat x) (7 - Z.of_nat k))) (seq 0 j)) (seq 1 255) = true)
    as H by (vm_compute; reflexivity).
  rewrite forallb_forall in H. specialize (H (Z.to_nat x)).
  destruct Hx as [Hx Hx']. change (2 ^ 8) with 256 in Hx'. rewrite Z2Nat.id in H by lia.
  specialize (H ltac:(apply in_seq; lia)). cbv zeta in *.
  rewrite !andb_true_iff, forallb_forall, Nat.ltb_lt in H. destruct H as [[Hj Hb] Hk].
  split_and!; [done..|]. intros k Hlt. apply negb_true_iff, Hk, in_seq. lia.
Qed.

Lemma differ_loop_spec a b i check :
  Forall byte_wf a → Forall byte_wf b →
  (check ≤ 8 * (i + length a))%nat → (check ≤ 8 * (i + length b))%nat →
  ∃ y, differ_loop a b i check (i * 8) = Ok (i * 8 + y)%nat ∧ agree y a b ∧
       (i * 8 + y < check → bit_test a y ≠ bit_test b y)%nat.
Proof.
  revert b i. induction a as [|x a IH]; intros b i Ha Hb Hla Hlb; cbn [differ_loop].
  { rewrite (proj2 (Nat.ltb_ge _ _)) by (simpl in *; lia). exists 0%nat.
    rewrite Nat.add_0_r. split_and!; [done| |simpl in *; lia]. intros k Hk. lia. }
  destruct (Nat.ltb_spec (i * 8) check) as [Hlt|Hge].
  2: { exists 0%nat. rewrite Nat.add_0_r. split_and!; [done| |lia]. intros k Hk. lia. }
  destruct b as [|y b]; [simpl in *; lia|].
  inversion_clear Ha as [|?? Hx Ha']. inversion_clear Hb as [|?? Hy Hb'].
  destruct (Z.eqb_spec (Z.lxor x y) 0) as [Heq|Hne].
  - apply Z.lxor_eq in Heq as ->.
    destruct (IH b (S i) Ha' Hb') as (z & Hz & Hag & Hd); [simpl in *; lia..|].
    exists (8 + z)%nat. replace ((i + 1) * 8)%nat with (S i * 8)%nat by lia.
    rewrite Hz. split_and!; [f_equal; lia| |].
    + intros k Hk. destruct (decide (k < 8)%nat); [by rewrite !bit_test_here|].
      replace k with (8 + (k - 8))%nat by lia. rewrite !bit_test_skip. apply Hag. lia.
    + intros Hlt'. rewrite !bit_test_skip. apply Hd. lia.
  - assert (byte_wf (Z.lxor x y)) as Hb8.
    { apply in_width_bits; [lia|]. apply in_width_bits in Hx as [? Hx]; [|lia].
      apply in_width_bits in Hy as [? Hy]; [|lia]. split; [by apply Z.lxor_nonneg|].
      intros k Hk. by rewrite Z.lxor_spec, Hx, Hy by done. }
    destruct (first_bit_spec _ Hb8 Hne) as (Hj & Hbit & Hbefore).
    rewrite (proj2 (Nat.ltb_lt _ _) Hj). eexists; split; [done|]. split.
    + intros k Hk. rewrite !bit_test_here by lia. specialize (Hbefore k Hk).
      rewrite Z.lxor_spec in Hbefore. by apply xorb_eq.
    + intros _. rewrite !bit_test_here by done. rewrite Z.lxor_spec in Hbit.
      intros Heq. by rewrite Heq, xorb_nilpotent in Hbit.
Qed.

(** ** Well-formed trees *)

Section wf.
Context {V : Type}.
Implicit Types (t l r node : ptree V) (ctx : list (frame V)) (p : patricia_tree V).
Implicit Types (q : prefix_t) (e : prefix_t * option V).

(** The prefixes of a tree with their data, in preorder. *)
Fixpoint pelems t : list (prefix_t * option V) :=
  match t with
  | PNull => []
  | PNode _ prefix data l r =>
      option_list ((λ q, (q, data)) <$> prefix) ++ pelems l ++ pelems r
  end.
Definition pfx t : list prefix_t := (pelems t).*1.
Definition root_bit t : nat := match t with PNull => 0 | PNode bit _ _ _ _ => bit end.

(** A child under a node that tests bit [b]: it tests a later bit and its
    prefixes have [d] at [b]. *)
Definition side (b : nat) (d : bool) t : Prop :=
  t ≠ PNull → (b < root_bit t)%nat ∧ ∀ q, q ∈ pfx t → bit_test (px_add q) b = d.

(** A glue node has two children and no data, the prefix of any other node has
    the length of its bit, the children are on the side of their bit, and all
    prefixes below a node share the bits before the one it tests. *)
Fixpoint pwf (maxbits : nat) t : Prop :=
  match t with
  | PNull => True
  | PNode b prefix data l r =>
      (b ≤ maxbits)%nat ∧
      match prefix with
      | Some q => px_bitlen q = b
      | None => l ≠ PNull ∧ r ≠ PNull ∧ data = None
      end ∧
      side b false l ∧ side b true r ∧
      (∀ q q', q ∈ pfx t → q' ∈ pfx t → agree b (px_add q) (px_add q')) ∧
      pwf maxbits l ∧ pwf maxbits r
  end.

Definition prefix_wf (maxbits : nat) q : Prop :=
  (px_bitlen q ≤ maxbits)%nat ∧ Forall byte_wf (px_add q) ∧
  (maxbits ≤ 8 * length (px_add q))%nat.

Record patricia_wf p : Prop := {
  patricia_bits : (pt_maxbits p ≤ PATRICIA_MAXBITS)%nat;
  patricia_tree_ok : pwf (pt_maxbits p) (pt_head p);
  patricia_prefixes : ∀ q, q ∈ pfx (pt_head p) → prefix_wf (pt_maxbits p) q }.

(** Two prefixes denote the same set of addresses. *)
Definition same_prefix q q' : Prop :=
  px_bitlen q = px_bitlen q' ∧ agree (px_bitlen q) (px_add q) (px_add q').

(** [q] contains the address [addr]. *)
Definition contains q (addr : list Z) : Prop := agree (px_bitlen q) (px_add q) addr.

Lemma elem_of_pfx t q : q ∈ pfx t ↔ ∃ d, (q, d) ∈ pelems t.
Proof.
  unfold pfx. rewrite list_elem_of_fmap. split.
  - intros ([q' d] & -> & ?). eauto.
  - intros [d ?]. by exists (q, d).
Qed.

Lemma pfx_node b prefix data l r q :
  q ∈ pfx (PNode b prefix data l r) ↔ prefix = Some q ∨ q ∈ pfx l ∨ q ∈ pfx r.
Proof.
  unfold pfx. simpl. rewrite !fmap_app, !elem_of_app. apply or_iff_compat_r.
  destruct prefix as [q'|]; simpl; [|set_solver].
  rewrite list_elem_of_singleton. split; [by intros ->|by intros [= ->]].
Qed.

Lemma pwf_bitlen m t q : pwf m t → q ∈ pfx t → (root_bit t ≤ px_bitlen q)%nat.
Proof.
  induction t as [|b prefix data l IHl r IHr]; [intros _ H; by apply elem_of_nil in H|].
  intros (Hb & Hp & Hl & Hr & _ & Wl & Wr) Hq. simpl.
  apply pfx_node in Hq as [->|[Hq|Hq]]; [lia| |].
  - specialize (IHl Wl Hq). destruct Hl as [? _]; [|lia]. intros ->. by apply elem_of_nil in Hq.
  - specialize (IHr Wr Hq). destruct Hr as [? _]; [|lia]. intros ->. by apply elem_of_nil in Hq.
Qed.

Lemma pwf_inhabited m t : pwf m t → t ≠ PNull → ∃ q, q ∈ pfx t.
Proof.
  induction t as [|b prefix data l IHl r IHr]; [done|].
  intros (Hb & Hp & Hl & Hr & _ & Wl & Wr) _. setoid_rewrite pfx_node.
  destruct prefix as [q|]; [eauto|]. destruct Hp as (? & _ & _).
  destruct IHl as [q ?]; eauto.
Qed.

Lemma pwf_agree m t q q' : pwf m t → q ∈ pfx t → q' ∈ pfx t →
  agree (root_bit t) (px_add q) (px_add q').
Proof.
  destruct t; [intros _ H; by apply elem_of_nil in H|].
  intros (_ & _ & _ & _ & H & _). apply H.
Qed.

(** ** Searching *)

(** A prefix that contains [addr] is on the side of the bit of [addr]. *)
Lemma off_side m b d t e (addr : list Z) :
  pwf m t → side b (negb d) t → bit_test addr b = d →
  e ∈ pelems t → contains e.1 addr → False.
Proof.
  intros Wt Hs Hd He Hcont. destruct Hs as [Hbt Hbit].
  { intros ->. by apply elem_of_nil in He. }
  assert (e.1 ∈ pfx t) as Hp by (by apply list_elem_of_fmap_2).
  specialize (Hbit _ Hp). rewrite Hcont in Hbit.
  - by destruct d; simpl in Hbit; congruence.
  - apply pwf_bitlen with (m := m) in Hp; [|done]. lia.
Qed.

(** There is nothing below a node that tests the last bit. *)
Lemma below_last m b d t : pwf m t → side b d t → (m ≤ b)%nat → t = PNull.
Proof.
  intros Wt Hs Hb. destruct t as [|b']; [done|]. destruct Hs as [Hs _]; [done|].
  destruct Wt as (? & _). simpl in Hs. lia.
Qed.

Lemma best_walk_spec m prefix stack t :
  pwf m t → (m ≤ PATRICIA_MAXBITS)%nat → px_bitlen prefix = m →
  (t ≠ PNull → length stack ≤ root_bit t)%nat →
  ∃ found, best_walk prefix stack t = Ok (found ++ stack) ∧
    (∀ e, e ∈ found → e ∈ pelems t) ∧
    (∀ e, e ∈ pelems t → contains e.1 (px_add prefix) → e ∈ found) ∧
    StronglySorted (λ e e', (px_bitlen e'.1 < px_bitlen e.1)%nat) found.
Proof.
  intros Wt Hm Hlen. revert stack. induction t as [|b nprefix data l IHl r IHr]; intros stack Hst.
  { exists []. split_and!; [done| |done|constructor]. intros e He. by apply elem_of_nil in He. }
  pose proof Wt as (Hb & Hp & Hl & Hr & Hag & Wl & Wr).
  specialize (Hst ltac:(done)). simpl in Hst.
  set (self := option_list ((λ q, (q, data)) <$> nprefix)).
  assert (push stack nprefix data = Ok (self ++ stack)) as Hpush.
  { unfold push, self. destruct nprefix; [|done]. rewrite decide_True by lia. done. }
  assert (∀ e, e ∈ self → px_bitlen e.1 = b) as Hself.
  { intros e He. unfold self in He. destruct nprefix as [q|]; simpl in *.
    - by apply list_elem_of_singleton in He as ->.
    - by apply elem_of_nil in He. }
  cbn [best_walk]. rewrite Hpush. cbn [mbind outcome_bind].
  destruct (Nat.ltb_spec b (px_bitlen prefix)) as [Hlt|Hge].
  - set (d := bit_test (px_add prefix) b). set (c := if d then r else l).
    assert (pwf m c ∧ side b d c ∧ ∀ stack, (c ≠ PNull → length stack ≤ root_bit c)%nat →
      ∃ found, best_walk prefix stack c = Ok (found ++ stack) ∧
      (∀ e, e ∈ found → e ∈ pelems c) ∧
      (∀ e, e ∈ pelems c → contains e.1 (px_add prefix) → e ∈ found) ∧
      StronglySorted (λ e e', (px_bitlen e'.1 < px_bitlen e.1)%nat) found)
      as (Wc & Hc & IH) by (unfold c; destruct d; auto).
    destruct (IH (self ++ stack)) as (found & Hw & Hin & Hall & Hsort).
    { intros Hne. specialize (Hc Hne) as [Hc _]. rewrite length_app.
      unfold self. destruct nprefix; simpl; lia. }
    exists (found ++ self). rewrite Hw, <-app_assoc. split_and!; [done| | |].
    + intros e He. simpl. rewrite elem_of_app in He. rewrite !elem_of_app.
      destruct He as [He|He]; [|by left]. apply Hin in He. unfold c in He.
      destruct d; auto.
    + intros e He Hcont. simpl in He. rewrite !elem_of_app in He. rewrite elem_of_app.
      destruct He as [He|He]; [by right|left]. apply Hall; [|done].
      unfold c. destruct He as [He|He], d eqn:Hd; try done; exfalso.
      * by apply (off_side m b true l e (px_add prefix)).
      * by apply (off_side m b false r e (px_add prefix)).
    + apply StronglySorted_app. split_and!; [|done|unfold self; destruct nprefix; repeat constructor].
      intros e e' He He'. rewrite (Hself e') by done. apply Hin in He.
      assert (e.1 ∈ pfx c) as Hp' by (by apply list_elem_of_fmap_2).
      assert (c ≠ PNull) as Hne by (intros Hn; rewrite Hn in He; by apply elem_of_nil in He).
      apply pwf_bitlen with (m := m) in Hp'; [|done]. destruct (Hc Hne). lia.
  - exists self. split_and!; [done| | |].
    + intros e He. simpl. rewrite elem_of_app. by left.
    + intros e He Hcont. simpl in He. rewrite !elem_of_app in He. destruct He as [He|He]; [done|].
      rewrite (below_last m b false l), (below_last m b true r) in He by (done || lia).
      set_solver.
    + unfold self. destruct nprefix; repeat constructor.
Qed.

(** The node found last on a sorted stack is the best. *)
Lemma first_sorted {A} (R : A → A → Prop) (P : A → bool) (xs : list A) x :
  StronglySorted R xs → first P xs = Some x →
  x ∈ xs ∧ P x = true ∧ ∀ y, y ∈ xs → P y = true → y = x ∨ R x y.
Proof.
  induction 1 as [|z xs Hs IH Hz]; [done|]. simpl. destruct (P z) eqn:E.
  - intros [= ->]. split_and!; [by left|done|]. intros y Hy _.
    apply elem_of_cons in Hy as [->|Hy]; [by left|right]. rewrite Forall_forall in Hz. auto.
  - intros H. destruct (IH H) as (Hx & HP & Hmax). split_and!; [by right|done|].
    intros y Hy HPy. apply elem_of_cons in Hy as [->|Hy]; [congruence|auto].
Qed.

(** The search is a longest-prefix match. *)
Lemma search_best_longest p prefix :
  patricia_wf p → prefix_wf (pt_maxbits p) prefix → px_bitlen prefix = pt_maxbits p →
  ∃ res, patricia_search_best p prefix = Ok res ∧
  match res with
  | None => ∀ q, q ∈ pfx (pt_head p) → ¬ contains q (px_add prefix)
  | Some e => e ∈ pelems (pt_head p) ∧ contains e.1 (px_add prefix) ∧
      ∀ q, q ∈ pfx (pt_head p) → contains q (px_add prefix) →
        (px_bitlen q ≤ px_bitlen e.1)%nat
  end.
Proof.
  intros [Hm Wt Wq] (_ & Hpb & Hpl) Hlen. unfold patricia_search_best.
  rewrite decide_True by lia.
  destruct (best_walk_spec _ prefix [] _ Wt Hm Hlen) as (found & -> & Hin & Hall & Hs).
  { simpl. lia. }
  rewrite app_nil_r. cbn [mbind outcome_bind]. eexists; split; [done|].
  assert (∀ q, q ∈ pfx (pt_head p) →
    comp_with_mask (px_add q) (px_add prefix) (px_bitlen q) = true ↔ contains q (px_add prefix))
    as Hcomp.
  { intros q Hq. destruct (Wq q Hq) as (? & ? & ?). apply comp_with_mask_spec; [done..|lia|lia]. }
  assert (∀ e, e ∈ found → e.1 ∈ pfx (pt_head p)) as Hfound.
  { intros e He. apply list_elem_of_fmap_2. auto. }
  destruct (first _ found) as [e|] eqn:E.
  - destruct (first_sorted _ _ _ _ Hs E) as (He & Hc & Hmax).
    split_and!; [auto|by apply Hcomp; auto|]. intros q Hq Hcont.
    apply elem_of_pfx in Hq as Hd. destruct Hd as [d Hd].
    destruct (Hmax (q, d)) as [<-|Hlt]; [by apply Hall|by apply Hcomp|done|simpl in *; lia].
  - intros q Hq Hcont. apply elem_of_pfx in Hq as Hd. destruct Hd as [d Hd].
    pose proof (proj1 (first_None _ _) E) as Hnone.
    specialize (Hnone (q, d) (Hall _ Hd Hcont)). simpl in Hnone.
    apply Hcomp in Hcont; [congruence|done].
Qed.

(** ** Contexts *)

Lemma elem_of_pfx_fill f t q :
  q ∈ pfx (fill f t) ↔ q ∈ pfx t ∨ fr_prefix f = Some q ∨ q ∈ pfx (fr_other f).
Proof. unfold fill. destruct (fr_right f); rewrite pfx_node; tauto. Qed.

Lemma pfx_plug ctx t q : q ∈ pfx t → q ∈ pfx (plug ctx t).
Proof.
  revert t. induction ctx as [|f ctx IH]; intros t Hq; [done|].
  apply IH, elem_of_pfx_fill. by left.
Qed.

Lemma plug_app ctx ctx' t : plug (ctx ++ ctx') t = plug ctx' (plug ctx t).
Proof. apply foldl_app. Qed.

Lemma fill_not_null f t : fill f t ≠ PNull.
Proof. unfold fill. by destruct (fr_right f). Qed.
Lemma root_bit_fill f t : root_bit (fill f t) = fr_bit f.
Proof. unfold fill. by destruct (fr_right f). Qed.

Lemma fill_wf_sub m f t : pwf m (fill f t) → pwf m t ∧ side (fr_bit f) (fr_right f) t.
Proof. unfold fill. destruct (fr_right f); intros (?&?&?&?&?&?&?); done. Qed.

Lemma plug_wf_sub m ctx t : pwf m (plug ctx t) → pwf m t.
Proof.
  revert t. induction ctx as [|f ctx IH]; intros t H; [done|].
  exact (proj1 (fill_wf_sub _ _ _ (IH _ H))).
Qed.

(** Bits grow downwards. *)
Lemma plug_bits m ctx t : pwf m (plug ctx t) → t ≠ PNull →
  ∀ f, f ∈ ctx → (fr_bit f < root_bit t)%nat.
Proof.
  revert t. induction ctx as [|f ctx IH]; intros t H Hne g Hg; [by apply elem_of_nil in Hg|].
  pose proof (plug_wf_sub m ctx (fill f t) H) as Hf. apply fill_wf_sub in Hf as [_ Hs].
  destruct (Hs Hne) as [Hlt _]. apply elem_of_cons in Hg as [->|Hg]; [done|].
  specialize (IH (fill f t) H (fill_not_null _ _) g Hg). rewrite root_bit_fill in IH. lia.
Qed.

(** One level of replacing a subtree: the new prefixes agree with one of the
    old subtree on more bits than the ancestors test. *)
Lemma fill_replace m f t t' q0 D :
  pwf m (fill f t) → pwf m t' → t ≠ PNull → t' ≠ PNull → q0 ∈ pfx t →
  (fr_bit f < D)%nat → (fr_bit f < root_bit t')%nat →
  (∀ q, q ∈ pfx t' → q ∈ pfx t ∨ agree D (px_add q) (px_add q0)) →
  pwf m (fill f t').
Proof.
  intros Wf Wt' Hne Hne' Hq0 HD Hroot Hq.
  assert (side (fr_bit f) (fr_right f) t') as Hside.
  { apply fill_wf_sub in Wf as [_ Hs]. destruct (Hs Hne) as [_ Hbit]. intros _.
    split; [done|]. intros q [Hin|Hag]%Hq; [auto|]. rewrite Hag by done. auto. }
  assert (∀ q, q ∈ pfx (fill f t') → agree (fr_bit f) (px_add q) (px_add q0)) as Hall.
  { assert (∀ q, q ∈ pfx (fill f t) → agree (fr_bit f) (px_add q) (px_add q0)) as Hold.
    { intros q Hin. rewrite <-(root_bit_fill f t). apply (pwf_agree m); [done..|].
      apply elem_of_pfx_fill. by left. }
    intros q [Hin|Hin]%elem_of_pfx_fill.
    - apply Hq in Hin as [Hin|Hag]; [|by apply agree_le with D; [lia|]].
      apply Hold, elem_of_pfx_fill. by left.
    - apply Hold, elem_of_pfx_fill. by right. }
  assert (∀ q q', q ∈ pfx (fill f t') → q' ∈ pfx (fill f t') →
    agree (fr_bit f) (px_add q) (px_add q')) as Hpair by eauto with horse.
  revert Wf Hside Hpair. unfold fill. destruct (fr_right f);
    intros (H1 & H2 & H3 & H4 & _ & H6 & H7) Hside Hpair;
    (split_and!; [done| |done..]); destruct (fr_prefix f); naive_solver.
Qed.

Lemma plug_replace m ctx t t' q0 D :
  pwf m (plug ctx t) → pwf m t' → t ≠ PNull → t' ≠ PNull → q0 ∈ pfx t →
  (∀ f, f ∈ ctx → fr_bit f < D ∧ fr_bit f < root_bit t')%nat →
  (∀ q, q ∈ pfx t' → q ∈ pfx t ∨ agree D (px_add q) (px_add q0)) →
  pwf m (plug ctx t').
Proof.
  revert t t'. induction ctx as [|f ctx IH]; intros t t' W W' Hne Hne' Hq0 Hbits Hq; [done|].
  pose proof (Hbits f ltac:(by left)) as [??]. apply (IH (fill f t) (fill f t')).
  - done.
  - apply (fill_replace m f t t' q0 D); [exact (plug_wf_sub m ctx (fill f t) W)|done..].
  - apply fill_not_null.
  - apply fill_not_null.
  - apply elem_of_pfx_fill. by left.
  - intros g Hg. split; [apply Hbits; by right|]. rewrite root_bit_fill, <-(root_bit_fill f t).
    apply (plug_bits m ctx); [done|apply fill_not_null|done].
  - intros q. rewrite !elem_of_pfx_fill. intros [Hin|Hin]; [|tauto].
    destruct (Hq _ Hin); tauto.
Qed.

Lemma pelems_fill f t :
  pelems (fill f t) ≡ₚ pelems t ++
    option_list ((λ q, (q, fr_data f)) <$> fr_prefix f) ++ pelems (fr_other f).
Proof.
  unfold fill. destruct (fr_right f); simpl; solve_Permutation.
Qed.

Lemma pelems_plug ctx t : ∃ rest, ∀ t', pelems (plug ctx t') ≡ₚ pelems t' ++ rest.
Proof.
  induction ctx as [|f ctx IH] using rev_ind; [exists []; intros; by rewrite app_nil_r|].
  destruct IH as [rest Hrest].
  eexists (rest ++ _). intros t'. rewrite plug_app. cbn [plug foldl].
  rewrite pelems_fill, Hrest, <-app_assoc. done.
Qed.

Lemma node_at_plug ctx t path : node_at (plug ctx t) (path_of ctx ++ path) = node_at t path.
Proof.
  revert t path. induction ctx as [|f ctx IH]; intros t path; [done|].
  unfold path_of. rewrite fmap_cons, reverse_cons, <-app_assoc.
  change (plug (f :: ctx) t) with (plug ctx (fill f t)). fold (path_of ctx). rewrite IH.
  unfold fill. by destruct (fr_right f).
Qed.

(** ** Insertion *)

(** Where the descent stops: at a node with a prefix, on the path of the
    address, and it could not go on towards the prefix. *)
Definition stops_at (m : nat) (prefix : prefix_t) node (test : prefix_t) : Prop :=
  ∃ b data l r, node = PNode b (Some test) data l r ∧
    ((px_bitlen prefix ≤ b)%nat ∨ (if go_right m (px_add prefix) b then r else l) = PNull).

Lemma descend_spec m prefix ctx t ctx' node :
  pwf m t → t ≠ PNull →
  descend m (px_add prefix) (px_bitlen prefix) ctx t = (ctx', node) →
  plug ctx' node = plug ctx t ∧ (∃ test, stops_at m prefix node test) ∧
  ∃ new, ctx' = new ++ ctx ∧
    ∀ f, f ∈ new → fr_right f = go_right m (px_add prefix) (fr_bit f).
Proof.
  revert ctx. induction t as [|b nprefix data l IHl r IHr]; [done|]. intros ctx Wt _.
  assert (∀ child, (child = l ∨ child = r) → child = PNull → nprefix ≠ None) as Hglue.
  { intros c Hc -> ->. destruct Wt as (_ & (? & ? & _) & _). naive_solver. }
  assert (∀ test, nprefix = Some test →
    ((px_bitlen prefix ≤ b)%nat ∨ (if go_right m (px_add prefix) b then r else l) = PNull) →
    ∃ test, stops_at m prefix (PNode b nprefix data l r) test) as Hstop.
  { intros test -> ?. exists test. by exists b, data, l, r. }
  destruct Wt as (_ & _ & _ & _ & _ & Wl & Wr). cbn [descend].
  destruct ((b <? px_bitlen prefix)%nat || bool_decide (nprefix = None)) eqn:Econd.
  - destruct (go_right m (px_add prefix) b) eqn:Edir.
    + destruct r as [|rb rp rd rl rr]; intros Hd.
      * simplify_eq. split_and!; [done| |exists []; split; [done|set_solver]].
        destruct nprefix as [q|]; [|by destruct (Hglue PNull (or_intror eq_refl) eq_refl)].
        apply (Hstop q); [done|by right].
      * destruct (IHr (Frame true b nprefix data l :: ctx) Wr ltac:(done) Hd)
          as (Hp & Ht & new & -> & Hnew).
        split_and!; [done|done|]. exists (new ++ [Frame true b nprefix data l]).
        rewrite <-app_assoc. split; [done|]. intros f [Hf|Hf]%elem_of_app; [auto|].
        by apply list_elem_of_singleton in Hf as ->.
    + destruct l as [|lb lp ld ll lr]; intros Hd.
      * simplify_eq. split_and!; [done| |exists []; split; [done|set_solver]].
        destruct nprefix as [q|]; [|by destruct (Hglue PNull (or_introl eq_refl) eq_refl)].
        apply (Hstop q); [done|by right].
      * destruct (IHl (Frame false b nprefix data r :: ctx) Wl ltac:(done) Hd)
          as (Hp & Ht & new & -> & Hnew).
        split_and!; [done|done|]. exists (new ++ [Frame false b nprefix data r]).
        rewrite <-app_assoc. split; [done|]. intros f [Hf|Hf]%elem_of_app; [auto|].
        by apply list_elem_of_singleton in Hf as ->.
  - intros [= <- <-]. split_and!; [done| |exists []; split; [done|set_solver]].
    apply orb_false_iff in Econd as [Hlt Hnone]. apply Nat.ltb_ge in Hlt.
    apply bool_decide_eq_false in Hnone. destruct nprefix as [q|]; [|done].
    apply (Hstop q); [done|by left].
Qed.

Lemma up_spec D ctx t ctx' node :
  up D ctx t = (ctx', node) →
  ∃ mid, ctx = mid ++ ctx' ∧ node = plug mid t ∧
    (∀ f, f ∈ mid → (D ≤ fr_bit f)%nat) ∧
    match ctx' with f :: _ => (fr_bit f < D)%nat | [] => True end.
Proof.
  revert t. induction ctx as [|f ctx IH]; intros t; simpl.
  { intros [= <- <-]. exists []. split_and!; [done|done|set_solver|done]. }
  destruct (Nat.leb_spec D (fr_bit f)) as [Hle|Hlt].
  - intros (mid & -> & -> & Hmid & Hend)%IH. exists (f :: mid). split_and!; [done..| |done].
    intros g [->|Hg]%elem_of_cons; auto.
  - intros [= <- <-]. exists []. split_and!; [done|done|set_solver|done].
Qed.

(** What inserting a prefix in [old] gives: a tree with a node for the prefix,
    which was there or is the only change. *)
Definition inserted (m : nat) old prefix new (path : list bool) : Prop :=
  pwf m new ∧ ∃ q d, node_at new path = Some (px_bitlen prefix, Some q, d) ∧
    same_prefix prefix q ∧
    (new = old ∨
     q = prefix ∧ d = None ∧ pelems new ≡ₚ (prefix, None) :: pelems old).

Lemma node_wf m b prefix data l r (addr : list Z) :
  (b ≤ m)%nat →
  match prefix with
  | Some q => px_bitlen q = b
  | None => l ≠ PNull ∧ r ≠ PNull ∧ data = None
  end →
  side b false l → side b true r → pwf m l → pwf m r →
  (∀ q, prefix = Some q ∨ q ∈ pfx l ∨ q ∈ pfx r → agree b (px_add q) addr) →
  pwf m (PNode b prefix data l r).
Proof.
  intros Hb Hp Hl Hr Wl Wr Hag. split_and!; try done.
  intros q q' ?%pfx_node%Hag ?%pfx_node%Hag. eauto with horse.
Qed.

Lemma leaf_wf m prefix : (px_bitlen prefix ≤ m)%nat → pwf m (leaf prefix).
Proof.
  intros Hb. apply node_wf with (px_add prefix); try done.
  intros q [[= ->]|[Hq|Hq]]; [done|set_solver..].
Qed.
Lemma pfx_leaf prefix q : q ∈ pfx (leaf prefix) ↔ q = prefix.
Proof. unfold leaf. rewrite pfx_node. split; [|by intros ->; left]. set_solver. Qed.

Lemma side_leaf b prefix : (b < px_bitlen prefix)%nat →
  side b (bit_test (px_add prefix) b) (leaf prefix).
Proof. intros Hb _. split; [done|]. by intros q ->%pfx_leaf. Qed.

Lemma side_sub m b t q : pwf m t → (b < root_bit t)%nat → q ∈ pfx t →
  side b (bit_test (px_add q) b) t.
Proof.
  intros Wt Hb Hq _. split; [done|]. intros q' Hq'.
  by apply (pwf_agree m t q' q Wt Hq' Hq).
Qed.

Lemma go_right_bit m (addr : list Z) b : (b < m)%nat → go_right m addr b = bit_test addr b.
Proof. intros Hb. unfold go_right. by rewrite (proj2 (Nat.ltb_lt _ _) Hb). Qed.

(** Where the upward walk stops: below ancestors that test a bit before the
    first difference [D] with the prefix [test] of the subtree. *)
Record insertion_point (m : nat) prefix test (D : nat) ctx b np nd l r : Prop := {
  ip_wf : pwf m (plug ctx (PNode b np nd l r));
  ip_bits : (px_bitlen prefix ≤ m)%nat;
  ip_test : test ∈ pfx (PNode b np nd l r);
  ip_ctx : ∀ f, f ∈ ctx → (fr_bit f < D)%nat;
  ip_below : (D ≤ b)%nat;
  ip_len : (D ≤ px_bitlen prefix)%nat;
  ip_agree : agree D (px_add prefix) (px_add test);
  ip_differ : (D < b)%nat → (D < px_bitlen prefix)%nat →
    bit_test (px_add prefix) D ≠ bit_test (px_add test) D;
  ip_free : b = D → (D < px_bitlen prefix)%nat →
    (if go_right m (px_add prefix) b then r else l) = PNull }.

#[local] Arguments ip_wf {m prefix test D ctx b np nd l r} _.
#[local] Arguments ip_bits {m prefix test D ctx b np nd l r} _.
#[local] Arguments ip_test {m prefix test D ctx b np nd l r} _.
#[local] Arguments ip_below {m prefix test D ctx b np nd l r} _.
#[local] Arguments ip_len {m prefix test D ctx b np nd l r} _.
#[local] Arguments ip_agree {m prefix test D ctx b np nd l r} _.
#[local] Arguments ip_differ {m prefix test D ctx b np nd l r} _ _ _.
#[local] Arguments ip_free {m prefix test D ctx b np nd l r} _ _ _.

Lemma graft {m prefix test D ctx b np nd l r t' path'} :
  insertion_point m prefix test D ctx b np nd l r →
  pwf m t' → t' ≠ PNull → (D ≤ root_bit t')%nat →
  pelems t' ≡ₚ (prefix, None) :: pelems (PNode b np nd l r) →
  node_at t' path' = Some (px_bitlen prefix, Some prefix, None) →
  inserted m (plug ctx (PNode b np nd l r)) prefix (plug ctx t') (path_of ctx ++ path').
Proof.
  intros [Wn _ Htest Hctx _ _ Hag _ _] Wt' Hne Hroot Hel Hat. split.
  - apply (plug_replace m ctx (PNode b np nd l r) t' test D); [done..| |].
    + intros f Hf. specialize (Hctx f Hf). lia.
    + intros q [d Hd]%elem_of_pfx. rewrite Hel in Hd.
      apply elem_of_cons in Hd as [[= -> ->]|Hd]; [by right|left]. apply elem_of_pfx. eauto.
  - exists prefix, None. rewrite node_at_plug. split_and!; [done|by split|right].
    split_and!; [done..|]. destruct (pelems_plug ctx PNull) as [rest Hrest].
    by rewrite !Hrest, Hel.
Qed.

Lemma sub_agree {m prefix test D ctx b np nd l r} :
  insertion_point m prefix test D ctx b np nd l r → ∀ q,
  q ∈ pfx (PNode b np nd l r) → agree b (px_add q) (px_add test).
Proof.
  intros [Wn _ Htest _ _ _ _ _ _] q Hq.
  exact (pwf_agree m (PNode b np nd l r) q test (plug_wf_sub _ _ _ Wn) Hq Htest).
Qed.

(** A node of the prefix itself, with or without a prefix so far. *)
Lemma insert_here m prefix test ctx np nd l r :
  insertion_point m prefix test (px_bitlen prefix) ctx (px_bitlen prefix) np nd l r →
  ∃ new path k,
  insert_at m prefix (px_add test) (px_bitlen prefix) ctx
    (PNode (px_bitlen prefix) np nd l r) = Ok (new, path, k) ∧
  inserted m (plug ctx (PNode (px_bitlen prefix) np nd l r)) prefix new path.
Proof.
  intros Hip. pose proof (sub_agree Hip) as Hsub.
  pose proof (plug_wf_sub _ _ _ (ip_wf Hip)) as (Hb & Hp & Hl & Hr & _ & Wl & Wr).
  pose proof (ip_agree Hip) as Hag.
  unfold insert_at. rewrite !Nat.eqb_refl. cbn [andb]. destruct np as [q|].
  - do 3 eexists; split; [done|]. split; [by apply Hip|]. exists q, nd.
    rewrite <-(app_nil_r (path_of ctx)), node_at_plug. split_and!; [done| |by left].
    split; [done|]. eapply agree_trans; [done|]. apply agree_sym, Hsub, pfx_node. by left.
  - destruct Hp as (Hnl & Hnr & ->). do 3 eexists; split; [done|].
    rewrite <-(app_nil_r (path_of ctx)). apply (graft Hip); try done.
    apply node_wf with (px_add test); try done.
    intros q [[= <-]|Hq]; [done|]. apply Hsub, pfx_node. by right.
Qed.

(** A new child of the node. *)
Lemma insert_child m prefix test ctx b np nd l r :
  (b < px_bitlen prefix)%nat →
  insertion_point m prefix test b ctx b np nd l r →
  ∃ new path k,
  insert_at m prefix (px_add test) b ctx (PNode b np nd l r) = Ok (new, path, k) ∧
  inserted m (plug ctx (PNode b np nd l r)) prefix new path.
Proof.
  intros Hlt Hip. pose proof (sub_agree Hip) as Hsub.
  pose proof (plug_wf_sub _ _ _ (ip_wf Hip)) as (Hb & Hp & Hl & Hr & _ & Wl & Wr).
  pose proof (ip_free Hip eq_refl Hlt) as Hfree.
  pose proof (ip_agree Hip) as Hag.
  pose proof (ip_bits Hip) as Hm.
  pose proof (side_leaf b prefix Hlt) as Hside.
  assert (match np with Some q => px_bitlen q = b | None => False end) as Hp'.
  { destruct np; [done|]. destruct Hp as (? & ? & _). by destruct (go_right _ _ _). }
  unfold insert_at. rewrite (proj2 (Nat.eqb_neq b (px_bitlen prefix))) by lia.
  rewrite Nat.eqb_refl. cbn [andb]. rewrite go_right_bit in * by lia.
  destruct (bit_test (px_add prefix) b); rewrite Hfree in *; (do 3 eexists; split; [done|]);
    (apply (graft Hip); [|done|done| |done]).
  - apply node_wf with (px_add test); try done; [by destruct np|by apply leaf_wf|].
    intros q Hq. rewrite pfx_leaf in Hq. destruct Hq as [Hq|[Hq| ->]]; [..|done];
      apply Hsub, pfx_node; auto.
  - simpl. solve_Permutation.
  - apply node_wf with (px_add test); try done; [by destruct np|by apply leaf_wf|].
    intros q Hq. rewrite pfx_leaf in Hq. destruct Hq as [Hq|[-> |Hq]]; [|done|];
      apply Hsub, pfx_node; auto.
  - simpl. solve_Permutation.
Qed.

(** A new node between the node and its parent. *)
Lemma insert_above m prefix test ctx b np nd l r :
  (px_bitlen prefix < b)%nat →
  insertion_point m prefix test (px_bitlen prefix) ctx b np nd l r →
  ∃ new path k,
  insert_at m prefix (px_add test) (px_bitlen prefix) ctx (PNode b np nd l r)
    = Ok (new, path, k) ∧
  inserted m (plug ctx (PNode b np nd l r)) prefix new path.
Proof.
  intros Hlt Hip. pose proof (sub_agree Hip) as Hsub.
  pose proof (plug_wf_sub _ _ _ (ip_wf Hip)) as Wn.
  pose proof Wn as (Hb & _). pose proof (ip_agree Hip) as Hag.
  pose proof (side_sub m (px_bitlen prefix) _ _ Wn Hlt (ip_test Hip)) as Hside.
  unfold insert_at. rewrite Nat.eqb_refl.
  rewrite (proj2 (Nat.eqb_neq b (px_bitlen prefix))) by lia. cbn [andb].
  rewrite go_right_bit by lia. do 3 eexists; split; [done|].
  rewrite <-(app_nil_r (path_of ctx)). set (n := PNode b np nd l r) in *.
  assert (∀ q, Some prefix = Some q ∨ q ∈ pfx n → agree (px_bitlen prefix) (px_add q) (px_add test)) as Hall.
  { intros q [[= <-]|Hq]; [done|]. apply agree_le with b; [lia|by apply Hsub]. }
  destruct (bit_test (px_add test) (px_bitlen prefix));
    apply (graft Hip); try done.
  - apply node_wf with (px_add test); try done; [lia|].
    intros q [?|[Hq|?]]; auto. by apply elem_of_nil in Hq.
  - apply node_wf with (px_add test); try done; [lia|].
    intros q [?|[?|Hq]]; auto. by apply elem_of_nil in Hq.
  - cbn [pelems]. by rewrite app_nil_r.
Qed.

(** A glue node over the node and a new leaf. *)
Lemma insert_glue m prefix test D ctx b np nd l r :
  (D < b)%nat → (D < px_bitlen prefix)%nat →
  insertion_point m prefix test D ctx b np nd l r →
  ∃ new path k,
  insert_at m prefix (px_add test) D ctx (PNode b np nd l r) = Ok (new, path, k) ∧
  inserted m (plug ctx (PNode b np nd l r)) prefix new path.
Proof.
  intros Hlt Hlen Hip. pose proof (sub_agree Hip) as Hsub.
  pose proof (plug_wf_sub _ _ _ (ip_wf Hip)) as Wn.
  pose proof Wn as (Hb & _). pose proof (ip_agree Hip) as Hag.
  pose proof (side_sub m D _ _ Wn Hlt (ip_test Hip)) as Hside.
  pose proof (side_leaf D prefix Hlen) as Hside'.
  pose proof (ip_differ Hip Hlt Hlen) as Hdiff.
  pose proof (leaf_wf m prefix (ip_bits Hip)) as Wleaf.
  unfold insert_at. rewrite (proj2 (Nat.eqb_neq D (px_bitlen prefix))) by lia. cbn [andb].
  rewrite (proj2 (Nat.eqb_neq b D)), (proj2 (Nat.eqb_neq (px_bitlen prefix) D)) by lia.
  rewrite go_right_bit by lia. set (n := PNode b np nd l r) in *.
  assert (∀ q, q ∈ pfx n ∨ q ∈ pfx (leaf prefix) → agree D (px_add q) (px_add test)) as Hall.
  { intros q [Hq| ->%pfx_leaf]; [|done]. apply agree_le with b; [lia|by apply Hsub]. }
  destruct (bit_test (px_add prefix) D), (bit_test (px_add test) D); try done;
    (do 3 eexists; split; [done|]);
    (apply (graft Hip); [|done|done| |done]).
  - apply node_wf with (px_add test); try done; [lia|]. intros q [?|?]; [done|auto].
  - cbn [pelems]. rewrite (Permutation_app_comm (pelems n)). done.
  - apply node_wf with (px_add test); try done; [lia|]. intros q [?|[?|?]]; [done|auto..].
  - done.
Qed.

Lemma insert_at_ok m prefix test D ctx b np nd l r :
  insertion_point m prefix test D ctx b np nd l r →
  ∃ new path k,
  insert_at m prefix (px_add test) D ctx (PNode b np nd l r) = Ok (new, path, k) ∧
  inserted m (plug ctx (PNode b np nd l r)) prefix new path.
Proof.
  intros Hip. pose proof (ip_below Hip).
  pose proof (ip_len Hip).
  destruct (decide (D = px_bitlen prefix)) as [->|HD].
  - destruct (decide (b = px_bitlen prefix)) as [->|Hb]; [by apply insert_here|].
    apply insert_above; [lia|done].
  - destruct (decide (b = D)) as [<-|Hb]; [by apply insert_child; [lia|]|].
    apply insert_glue; [lia..|done].
Qed.

(** The computed difference of two prefixes, up to the bits both have. *)
Lemma first_difference m prefix test b :
  prefix_wf m prefix → prefix_wf m test → (b ≤ px_bitlen test)%nat →
  let check := if (b <? px_bitlen prefix)%nat then b else px_bitlen prefix in
  ∃ y, differ_loop (px_add prefix) (px_add test) 0 check 0 = Ok y ∧
  let D := if (check <? y)%nat then check else y in
  (D ≤ b)%nat ∧ (D ≤ px_bitlen prefix)%nat ∧ agree D (px_add prefix) (px_add test) ∧
  (D < b → D < px_bitlen prefix → bit_test (px_add prefix) D ≠ bit_test (px_add test) D)%nat.
Proof.
  intros (? & ? & ?) (? & ? & ?) Hb check.
  assert (check = b `min` px_bitlen prefix)%nat as Hcheck
    by (unfold check; destruct (Nat.ltb_spec b (px_bitlen prefix)); lia).
  destruct (differ_loop_spec (px_add prefix) (px_add test) 0 check) as (y & Hy & Hag & Hdiff);
    [done|done|lia|lia|].
  cbn [Nat.mul Nat.add] in Hy, Hdiff. exists y. split; [done|]. intros D.
  assert (D = check `min` y)%nat as HD
    by (unfold D; destruct (Nat.ltb_spec check y); lia).
  split_and!; [lia|lia|apply agree_le with y; [lia|done]|].
  intros ? ?. replace D with y by lia. apply Hdiff. lia.
Qed.

(** Where the two walks of [patricia_lookup] end is an insertion point. *)
Lemma walks_insertion_point m prefix test b data l r mid ctx b' np nd l' r' D :
  prefix_wf m prefix →
  (∀ f, f ∈ mid → fr_right f = go_right m (px_add prefix) (fr_bit f)) →
  pwf m (plug (mid ++ ctx) (PNode b (Some test) data l r)) →
  stops_at m prefix (PNode b (Some test) data l r) test →
  plug mid (PNode b (Some test) data l r) = PNode b' np nd l' r' →
  (∀ f, f ∈ mid → (D ≤ fr_bit f)%nat) →
  match ctx with f :: _ => (fr_bit f < D)%nat | [] => True end →
  (D ≤ b)%nat → (D ≤ px_bitlen prefix)%nat → agree D (px_add prefix) (px_add test) →
  (D < b → D < px_bitlen prefix → bit_test (px_add prefix) D ≠ bit_test (px_add test) D)%nat →
  insertion_point m prefix test D ctx b' np nd l' r'.
Proof.
  intros (Hm & _) Hdir W Hstop Hmid HD Hctx HDb HDl Hag Hdiff.
  rewrite plug_app in W. pose proof (plug_wf_sub _ _ _ W) as Wmid. rewrite Hmid in W.
  assert (test ∈ pfx (PNode b (Some test) data l r)) as Htest by (apply pfx_node; by left).
  assert (b' = root_bit (plug mid (PNode b (Some test) data l r))) as Hb' by (by rewrite Hmid).
  assert (D ≤ b' ≤ b)%nat as [HDb' Hb'b].
  { rewrite Hb'. destruct mid as [|f mid0 _] using rev_ind; [simpl; lia|].
    rewrite plug_app in *. cbn [plug foldl] in *. rewrite root_bit_fill.
    specialize (HD f ltac:(set_solver)).
    assert (pwf m (plug (mid0 ++ [f]) (PNode b (Some test) data l r))) as Wf
      by (by rewrite plug_app).
    pose proof (plug_bits m _ _ Wf ltac:(done) f ltac:(set_solver)). simpl in *. lia. }
  split; try done.
  - rewrite <-Hmid. by apply pfx_plug.
  - intros f Hf. destruct ctx as [|g ctx]; [by apply elem_of_nil in Hf|].
    apply elem_of_cons in Hf as [->|Hf]; [done|].
    pose proof (plug_bits m ctx (fill g _) W (fill_not_null _ _) f Hf) as Hlt.
    rewrite root_bit_fill in Hlt. lia.
  - intros ? ?. apply Hdiff; lia.
  - intros HbD Hlt. destruct mid as [|f mid0 _] using rev_ind.
    + cbn [plug foldl] in Hmid. injection Hmid as -> <- <- <- <-.
      destruct Hstop as (b0 & d0 & l0 & r0 & [= <- <- <- <-] & [Hle|Hnull]); [lia|done].
    + exfalso. pose proof (plug_bits m _ _ Wmid ltac:(done) f ltac:(set_solver)) as Hfb.
      rewrite plug_app in Wmid, Hb'. cbn [plug foldl] in Wmid, Hb'.
      rewrite root_bit_fill in Hb'. apply fill_wf_sub in Wmid as [_ Hside].
      specialize (Hdir f ltac:(set_solver)). specialize (HD f ltac:(set_solver)).
      assert (plug mid0 (PNode b (Some test) data l r) ≠ PNull) as Hne.
      { destruct mid0 as [|g mid1 _] using rev_ind; [done|]. rewrite plug_app. apply fill_not_null. }
      destruct (Hside Hne) as [_ Hbit]. specialize (Hbit test (pfx_plug _ _ _ Htest)).
      rewrite <-Hb', HbD in Hbit, Hdir. rewrite go_right_bit in Hdir by lia.
      apply (Hdiff ltac:(simpl in Hfb; lia) Hlt). congruence.
Qed.

Lemma inserted_pfx m old prefix new path q :
  inserted m old prefix new path → q ∈ pfx new → q = prefix ∨ q ∈ pfx old.
Proof.
  intros (_ & q' & d & _ & _ & [->|(_ & _ & Hel)]); [by right|].
  intros [d' Hd]%elem_of_pfx. rewrite Hel in Hd.
  apply elem_of_cons in Hd as [[= -> ->]|Hd]; [by left|right]. apply elem_of_pfx. eauto.
Qed.

(** [patricia_lookup] finds or inserts. *)
Lemma patricia_lookup_ok p prefix :
  patricia_wf p → prefix_wf (pt_maxbits p) prefix →
  ∃ p' path, patricia_lookup p prefix = Ok (p', path) ∧ patricia_wf p' ∧
    pt_maxbits p' = pt_maxbits p ∧
    inserted (pt_maxbits p) (pt_head p) prefix (pt_head p') path.
Proof.
  intros [Hm Wt Wq] Wp.
  assert (∀ head n path, inserted (pt_maxbits p) (pt_head p) prefix head path →
    let p' := Patricia head (pt_maxbits p) (n + pt_num_active_node p) in
    patricia_wf p' ∧ pt_maxbits p' = pt_maxbits p ∧
    inserted (pt_maxbits p) (pt_head p) prefix (pt_head p') path) as Hdone.
  { intros head n path Hin. split; [|done]. split; simpl; [done|by apply Hin|].
    intros q Hq. by destruct (inserted_pfx _ _ _ _ _ _ Hin Hq) as [->|?]; auto. }
  unfold patricia_lookup. rewrite decide_True by apply Wp.
  destruct (pt_head p) as [|hb hp hd hl hr] eqn:Ehead.
  { do 2 eexists; split; [done|]. apply Hdone. split; [apply leaf_wf, Wp|].
    exists prefix, None. split_and!; [done|done|]. right. split_and!; done. }
  assert (pt_head p ≠ PNull) as Hne by (by rewrite Ehead). rewrite <-Ehead in *.
  clear hb hp hd hl hr Ehead.
  destruct (descend _ _ _ _ _) as [ctx node] eqn:Ed.
  destruct (descend_spec _ _ _ _ _ _ Wt Hne Ed) as (Hplug & [test Hstop] & new & Hnew & Hdir).
  rewrite app_nil_r in Hnew. subst new. cbn [plug foldl] in Hplug. pose proof Hstop as Hstop'.
  destruct Hstop' as (b & data & l & r & -> & _).
  assert (prefix_wf (pt_maxbits p) test) as Wtest.
  { apply Wq. rewrite <-Hplug. apply pfx_plug, pfx_node. by left. }
  destruct (first_difference (pt_maxbits p) prefix test b) as (y & Hy & HDb & HDl & Hag & Hdiff);
    [done..| |].
  { rewrite <-Hplug in Wt. by apply plug_wf_sub in Wt as (_ & <- & _). }
  rewrite Hy. cbn [mbind outcome_bind].
  set (D := if (_ <? y)%nat then _ else y) in *.
  destruct (up D ctx _) as [ctx' node'] eqn:Eu.
  destruct (up_spec _ _ _ _ _ Eu) as (mid & -> & -> & Hmid & Hend).
  destruct (plug mid (PNode b (Some test) data l r)) as [|b' np nd l' r'] eqn:Emid.
  { exfalso. assert (test ∈ pfx (PNull (V := V))) as Hin; [|by apply elem_of_nil in Hin].
    rewrite <-Emid. apply pfx_plug, pfx_node. by left. }
  assert (insertion_point (pt_maxbits p) prefix test D ctx' b' np nd l' r') as Hip.
  { apply (walks_insertion_point _ _ _ b data l r mid); try done.
    - intros f Hf. apply Hdir. set_solver.
    - by rewrite Hplug. }
  destruct (insert_at_ok _ _ _ _ _ _ _ _ _ _ Hip) as (head & path & k & -> & Hins).
  cbn [mbind outcome_bind]. rewrite plug_app in Hplug. rewrite <-Emid, Hplug in Hins.
  do 2 eexists; split; [done|]. by apply Hdone.
Qed.

(** ** Prefixes are distinct, and found exactly *)

Definition pkey q : nat * list bool :=
  (px_bitlen q, bit_test (px_add q) <$> seq 0 (px_bitlen q)).

Lemma same_prefix_key q q' : same_prefix q q' ↔ pkey q = pkey q'.
Proof.
  unfold same_prefix, pkey, agree. split.
  - intros [Hl Ha]. rewrite <-Hl. f_equal. apply list_fmap_ext.
    intros i x [-> Hx]%lookup_seq. by apply Ha.
  - intros [= Hl Ha]. split; [done|]. intros i Hi. rewrite <-Hl in Ha.
    apply (f_equal (λ bits : list bool, bits !! i)) in Ha. rewrite !list_lookup_fmap, lookup_seq_lt in Ha by done.
    by injection Ha.
Qed.

Lemma pkey_NoDup m t : pwf m t → NoDup (pkey <$> pfx t).
Proof.
  induction t as [|b prefix data l IHl r IHr]; [constructor|].
  intros (_ & Hp & Hl & Hr & _ & Wl & Wr).
  assert (∀ c d q, pwf m c → side b d c → q ∈ pfx c →
    (b < px_bitlen q)%nat ∧ bit_test (px_add q) b = d) as Hsub.
  { intros c d q Wc Hs Hq. destruct Hs as [Hb Hbit].
    { intros ->. by apply elem_of_nil in Hq. }
    pose proof (pwf_bitlen _ _ _ Wc Hq). split; [lia|auto]. }
  unfold pfx. simpl. rewrite !fmap_app, NoDup_app, NoDup_app. fold (pfx l) (pfx r).
  split_and!; [destruct prefix; simpl; repeat constructor; set_solver| |by apply IHl| |by apply IHr].
  - intros k Hk Hk'. destruct prefix as [q|]; [|simpl in Hk; by apply elem_of_nil in Hk].
    apply list_elem_of_singleton in Hk as ->. rewrite <-fmap_app, list_elem_of_fmap in Hk'.
    destruct Hk' as (q' & [= Hlen _] & [Hq|Hq]%elem_of_app).
    + destruct (Hsub l false q' Wl Hl Hq). simpl in *. lia.
    + destruct (Hsub r true q' Wr Hr Hq). simpl in *. lia.
  - intros k (q & -> & Hq)%list_elem_of_fmap (q' & Hkey & Hq')%list_elem_of_fmap.
    apply same_prefix_key in Hkey as [_ Hag].
    destruct (Hsub l false q Wl Hl Hq) as [Hb Hbit].
    destruct (Hsub r true q' Wr Hr Hq') as [_ Hbit'].
    rewrite (Hag b Hb) in Hbit. congruence.
Qed.

Lemma inserted_fresh m old prefix new path :
  pwf m old → inserted m old prefix new path →
  (∃ q, q ∈ pfx old ∧ same_prefix prefix q) ∧ new = old ∨
  (∀ q, q ∈ pfx old → ¬ same_prefix prefix q) ∧ pelems new ≡ₚ (prefix, None) :: pelems old.
Proof.
  intros Wold (Wnew & q & d & Hat & Hsame & [->|(-> & -> & Hel)]).
  - left. split; [|done]. exists q. split; [|done].
    clear -Hat. revert path Hat. induction old as [|b np nd l IHl r IHr]; [done|].
    intros [|[] path]; simpl; intros Hat; apply pfx_node; [|eauto..]. left. congruence.
  - right. split; [|done]. intros q Hq Hs. pose proof (pkey_NoDup _ _ Wnew) as Hnd.
    unfold pfx in Hnd. rewrite Hel in Hnd. cbn [fmap list_fmap fst] in Hnd.
    apply NoDup_cons in Hnd as [Hnot _]. apply Hnot. apply same_prefix_key in Hs.
    rewrite Hs. apply list_elem_of_fmap_2. done.
Qed.

Lemma exact_walk_spec m prefix t :
  pwf m t → prefix_wf m prefix → (∀ q, q ∈ pfx t → prefix_wf m q) →
  ∃ res, exact_walk prefix t = Ok res ∧
  match res with
  | None => ∀ q, q ∈ pfx t → ¬ same_prefix prefix q
  | Some e => e ∈ pelems t ∧ same_prefix prefix e.1
  end.
Proof.
  intros Wt Wp. induction t as [|b np nd l IHl r IHr]; intros Wq.
  { exists None. split; [done|]. intros q Hq. by apply elem_of_nil in Hq. }
  assert (∀ q, q ∈ pfx l ∨ q ∈ pfx r → (b < px_bitlen q)%nat) as Hbelow.
  { destruct Wt as (_ & _ & Hl & Hr & _ & Wl & Wr). intros q [Hq|Hq].
    - pose proof (pwf_bitlen _ _ _ Wl Hq). destruct Hl; [|lia]. intros ->. by apply elem_of_nil in Hq.
    - pose proof (pwf_bitlen _ _ _ Wr Hq). destruct Hr; [|lia]. intros ->. by apply elem_of_nil in Hq. }
  destruct Wt as (Hb & Hp & Hl & Hr & _ & Wl & Wr). cbn [exact_walk].
  destruct (Nat.ltb_spec b (px_bitlen prefix)) as [Hlt|Hge].
  - set (d := bit_test (px_add prefix) b).
    assert (∀ q, np = Some q ∨ q ∈ pfx (if d then l else r) → ¬ same_prefix prefix q) as Hother.
    { intros q [->|Hq] [Hlen Hag]; [lia|]. specialize (Hag b Hlt). fold d in Hag.
      destruct d; [destruct Hl as [_ Hs]|destruct Hr as [_ Hs]];
        try (intros ->; by apply elem_of_nil in Hq); rewrite Hs in Hag; done. }
    assert (∃ res, exact_walk prefix (if d then r else l) = Ok res ∧
      match res with
      | None => ∀ q, q ∈ pfx (if d then r else l) → ¬ same_prefix prefix q
      | Some e => e ∈ pelems (if d then r else l) ∧ same_prefix prefix e.1
      end) as (res & -> & Hres).
    { destruct d; [apply IHr|apply IHl]; try done; intros q Hq; apply Wq, pfx_node; auto. }
    exists res. split; [done|]. destruct res as [e|].
    + destruct Hres as [He Hs]. split; [|done]. simpl. rewrite !elem_of_app. destruct d; auto.
    + intros q. rewrite pfx_node. destruct d; naive_solver.
  - assert (∀ q, q ∈ pfx l ∨ q ∈ pfx r → ¬ same_prefix prefix q) as Hno.
    { intros q Hq%Hbelow [Hlen _]. lia. }
    destruct np as [q|].
    2: { exists None. split; [done|]. intros q'. rewrite pfx_node. naive_solver. }
    destruct (Nat.ltb_spec (px_bitlen prefix) b) as [Hlt|Hge'].
    { exists None. split; [done|]. intros q'. rewrite pfx_node.
      intros [[= ->]|Hq'] Hs; [destruct Hs; lia|by apply (Hno q')]. }
    rewrite Hp, Nat.eqb_refl. eexists; split; [done|].
    destruct (Wq q) as (? & ? & ?); [apply pfx_node; by left|]. destruct Wp as (? & ? & ?).
    pose proof (comp_with_mask_spec (px_add q) (px_add prefix) (px_bitlen prefix)) as Hc.
    destruct (comp_with_mask _ _ _).
    + split; [simpl; by left|]. split; [simpl; lia|]. apply agree_sym, Hc; [done..|lia|lia|done].
    + intros q'. rewrite pfx_node. intros [[= ->]|Hq'] [Hs Hag]; [|by apply (Hno q')].
      apply agree_sym, Hc in Hag; [done..|lia|lia].
Qed.

(** Storing the data of a node with a prefix changes its element only. *)
Lemma set_data_shape path v t :
  pfx (set_data path v t) = pfx t ∧ root_bit (set_data path v t) = root_bit t ∧
  (set_data path v t = PNull ↔ t = PNull).
Proof.
  revert path. induction t as [|b np nd l IHl r IHr]; intros [|[] path]; try done.
  - split_and!; try done. unfold pfx. simpl. rewrite !fmap_app. by destruct np.
  - destruct (IHr path) as (Hr & _). split_and!; try done. unfold pfx in *. simpl.
    by rewrite !fmap_app, Hr.
  - destruct (IHl path) as (Hl & _). split_and!; try done. unfold pfx in *. simpl.
    by rewrite !fmap_app, Hl.
Qed.

Lemma set_data_wf m t path b q d v :
  pwf m t → node_at t path = Some (b, Some q, d) → pwf m (set_data path v t).
Proof.
  revert path. induction t as [|c np nd l IHl r IHr]; intros path Wt Hat; [done|].
  destruct (set_data_shape path v (PNode c np nd l r)) as (Hpfx & _).
  destruct Wt as (Hb & Hp & Hl & Hr & Hag & Wl & Wr).
  destruct path as [|[] path]; simpl in Hat |- *.
  - simplify_eq. split_and!; done.
  - destruct (set_data_shape path v r) as (Hpr & Hroot & Hnull).
    split_and!; try done; [destruct np; naive_solver| | |by eauto].
    + intros Hne. rewrite Hpr, Hroot. apply Hr. by rewrite <-Hnull.
    + intros q1 q2. simpl in Hpfx. rewrite Hpfx. apply Hag.
  - destruct (set_data_shape path v l) as (Hpl & Hroot & Hnull).
    split_and!; try done; [destruct np; naive_solver| | |by eauto].
    + intros Hne. rewrite Hpl, Hroot. apply Hl. by rewrite <-Hnull.
    + intros q1 q2. simpl in Hpfx. rewrite Hpfx. apply Hag.
Qed.

Lemma set_data_elems t path b q d v :
  node_at t path = Some (b, Some q, d) →
  ∃ rest, pelems t ≡ₚ (q, d) :: rest ∧ pelems (set_data path v t) ≡ₚ (q, Some v) :: rest.
Proof.
  revert path. induction t as [|c np nd l IHl r IHr]; intros [|[] path]; try done; simpl.
  - intros [= -> -> ->]. by exists (pelems l ++ pelems r).
  - intros (rest & H1 & H2)%IHr.
    exists (option_list ((λ q, (q, nd)) <$> np) ++ pelems l ++ rest).
    rewrite H1, H2. split; solve_Permutation.
  - intros (rest & H1 & H2)%IHl.
    exists (option_list ((λ q, (q, nd)) <$> np) ++ rest ++ pelems r).
    rewrite H1, H2. split; solve_Permutation.
Qed.
End wf.

(** ** Correctness *)

(** C24. Inserting a prefix: [patricia_lookup] never fails an assertion or reads
    outside an address, keeps the tree well formed (bits grow downwards, glue
    nodes have two children, prefixes below a node agree up to its bit), returns a
    node whose prefix is the given one, and changes the tree only when the prefix
    was not in it, by exactly that prefix without data. *)
Theorem patricia_lookup_inserts {V : Type} (p : patricia_tree V) prefix :
  patricia_wf p → prefix_wf (pt_maxbits p) prefix →
  ∃ p' path, patricia_lookup p prefix = Ok (p', path) ∧ patricia_wf p' ∧
    (∃ q d, node_at (pt_head p') path = Some (px_bitlen prefix, Some q, d) ∧
            same_prefix prefix q) ∧
    ((∃ q, q ∈ pfx (pt_head p) ∧ same_prefix prefix q) ∧ pt_head p' = pt_head p ∨
     (∀ q, q ∈ pfx (pt_head p) → ¬ same_prefix prefix q) ∧
     pelems (pt_head p') ≡ₚ (prefix, None) :: pelems (pt_head p)).
Proof.
  intros Hwf Hp. destruct (patricia_lookup_ok p prefix Hwf Hp) as (p' & path & Hl & Hwf' & _ & Hin).
  exists p', path. split_and!; [done|done| |].
  - destruct Hin as (_ & q & d & ? & ? & _). eauto.
  - apply (inserted_fresh (pt_maxbits p) _ _ _ path); [apply Hwf|done].
Qed.

(** Longest-prefix match: with an address of full length, the search returns
    an element whose prefix contains the address and is at least as long as every
    other prefix of the tree that does, and nothing only when no prefix contains
    it; its stack of [PATRICIA_MAXBITS + 1] entries is never overrun. *)
Theorem patricia_search_best_longest {V : Type} (p : patricia_tree V) prefix :
  patricia_wf p → prefix_wf (pt_maxbits p) prefix → px_bitlen prefix = pt_maxbits p →
  ∃ res, patricia_search_best p prefix = Ok res ∧
  match res with
  | None => ∀ q, q ∈ pfx (pt_head p) → ¬ contains q (px_add prefix)
  | Some e => e ∈ pelems (pt_head p) ∧ contains e.1 (px_add prefix) ∧
      ∀ q, q ∈ pfx (pt_head p) → contains q (px_add prefix) →
        (px_bitlen q ≤ px_bitlen e.1)%nat
  end.
Proof. apply search_best_longest. Qed.

(** *** Witnesses: 10.0.0.0/8, then 10.1.0.0/16 and the default route *)

Definition sample_net8 : prefix_t := New_Prefix [10; 0; 0; 0] 8.
Definition sample_net16 : prefix_t := New_Prefix [10; 1; 0; 0] 16.
Definition sample_default : prefix_t := New_Prefix [0; 0; 0; 0] 0.
Definition sample_tree : outcome (patricia_tree unit) :=
  p ← New_Patricia 32;
  r ← patricia_lookup p sample_net8;
  r ← patricia_lookup r.1 sample_net16;
  r ← patricia_lookup r.1 sample_default;
  Ok r.1.

Lemma new_patricia_wf {V} m : (m ≤ PATRICIA_MAXBITS)%nat →
  ∃ p : patricia_tree V, New_Patricia m = Ok p ∧ patricia_wf p ∧ pt_maxbits p = m ∧
    pelems (pt_head p) = [].
Proof.
  intros Hm. unfold New_Patricia. rewrite decide_True by done.
  eexists; split; [done|]. split_and!; [|done..]. split; simpl; [done..|].
  intros q Hq. by apply elem_of_nil in Hq.
Qed.

Lemma prefix_wf_inet dest n : bytes_wf 4 dest → (n ≤ 32)%nat → prefix_wf 32 (New_Prefix dest n).
Proof.
  intros [Hl Hb] Hn. split_and!; simpl; [done|by apply Forall_take|].
  rewrite length_take. unfold INET_BYTES. lia.
Qed.

Lemma sample_tree_wf : ∃ p, sample_tree = Ok p ∧ patricia_wf p ∧ pt_maxbits p = 32%nat.
Proof.
  destruct (new_patricia_wf (V := unit) 32) as (p0 & E0 & W0 & M0 & _); [vm_compute; lia|].
  destruct (patricia_lookup_ok p0 sample_net8) as (p1 & l1 & E1 & W1 & M1 & _); [done| |].
  { rewrite M0. apply prefix_wf_inet; [by vm_compute; repeat constructor|lia]. }
  destruct (patricia_lookup_ok p1 sample_net16) as (p2 & l2 & E2 & W2 & M2 & _); [done| |].
  { rewrite M1, M0. apply prefix_wf_inet; [by vm_compute; repeat constructor|lia]. }
  destruct (patricia_lookup_ok p2 sample_default) as (p3 & l3 & E3 & W3 & M3 & _); [done| |].
  { rewrite M2, M1, M0. apply prefix_wf_inet; [by vm_compute; repeat constructor|lia]. }
  exists p3. split_and!; [|done|congruence]. unfold sample_tree.
  rewrite E0. cbn [mbind outcome_bind]. rewrite E1. cbn [mbind outcome_bind fst].
  rewrite E2. cbn [mbind outcome_bind fst]. by rewrite E3.
Qed.

Lemma patricia_lookup_inserts_witness :
  ∃ p p' path, sample_tree = Ok p ∧
    patricia_lookup p (New_Prefix [10; 1; 2; 0] 24) = Ok (p', path) ∧ patricia_wf p' ∧
    (pt_num_active_node p, pt_num_active_node p', path) = (3, 4, [false; false; false]).
Proof.
  destruct sample_tree_wf as (p & E & W & M).
  destruct (patricia_lookup_inserts p (New_Prefix [10; 1; 2; 0] 24) W) as (p' & path & E' & W' & _).
  { rewrite M. apply prefix_wf_inet; [by vm_compute; repeat constructor|lia]. }
  exists p, p', path. split_and!; [done..|].
  assert ((p ← sample_tree; r ← patricia_lookup p (New_Prefix [10; 1; 2; 0] 24);
           Ok (pt_num_active_node p, pt_num_active_node r.1, r.2))
          = Ok (3, 4, [false; false; false])) as Hc by (vm_compute; reflexivity).
  rewrite E in Hc. cbn [mbind outcome_bind] in Hc. rewrite E' in Hc. by injection Hc as -> -> ->.
Defined.

Lemma patricia_search_best_longest_witness :
  ∃ p res, sample_tree = Ok p ∧
    patricia_search_best p (New_Prefix [10; 1; 2; 3] 32) = Ok res ∧
    res = Some (sample_net16, None) ∧
    ∀ q, q ∈ pfx (pt_head p) → contains q [10; 1; 2; 3] → (px_bitlen q ≤ 16)%nat.
Proof.
  destruct sample_tree_wf as (p & E & W & M).
  destruct (patricia_search_best_longest p (New_Prefix [10; 1; 2; 3] 32) W) as (res & E' & Hres).
  { rewrite M. apply prefix_wf_inet; [by vm_compute; repeat constructor|lia]. }
  { by rewrite M. }
  assert ((p ← sample_tree; patricia_search_best p (New_Prefix [10; 1; 2; 3] 32))
          = Ok (Some (sample_net16, None))) as Hc by (vm_compute; reflexivity).
  rewrite E in Hc. cbn [mbind outcome_bind] in Hc. rewrite E' in Hc. injection Hc as ->.
  destruct Hres as (_ & _ & Hmax). exists p, (Some (sample_net16, None)).
  split_and!; [done..|]. intros q Hq Hc'. exact (Hmax q Hq Hc').
Defined.
