(* ===== verification/RouteTable.v ===== *)
(** * RouteTable: IPv4 routes

    Models [net/route_table.c].  A table is a patricia tree whose nodes hold the
    array of the routes with that prefix (next hops of equal cost); the lookup
    chooses among them with the hash of the flow.  The IPv6 tree is created and
    destroyed and never filled.

    The theorems: adding a route adds exactly that route, and the lookup finds
    a route of the longest prefix that covers the address, chosen by the hash among
    all of them. *)

From stdpp Require Import prelude.
From S2P Require Import Prelude Util Patricia.

Record route_entry_v4 := RouteEntry {
  re_ip : Z; re_netmask : Z; re_gateway : Z; re_iface : Z; re_flags : Z; re_metric : Z }.
#[export] Instance eta_route_entry : Eta route_entry_v4 := λ e,
  RouteEntry (re_ip e) (re_netmask e) (re_gateway e) (re_iface e) (re_flags e) (re_metric e).
#[export] Instance route_entry_eq_dec : EqDecision route_entry_v4.
Proof. solve_decision. Defined.

Record route_entry_v6 := RouteEntry6 {
  re6_ip : list Z; re6_netmask : list Z; re6_next_hop : list Z; re6_iface : Z; re6_metric : Z }.

Record route_table := RouteTable {
  rt_ipv4 : patricia_tree (list route_entry_v4);
  rt_ipv6 : patricia_tree (list route_entry_v6) }.
#[export] Instance eta_route_table : Eta route_table := λ t, RouteTable (rt_ipv4 t) (rt_ipv6 t).

Definition route_table_init : outcome route_table :=
  t4 ← New_Patricia 32;
  t6 ← New_Patricia 128;
  Ok (RouteTable t4 t6).

(** The prefix of a route: the address in network byte order and
    [32 - ntz(netmask)] bits. *)
Definition entry_prefix (e : route_entry_v4) : prefix_t :=
  New_Prefix (be_bytes 4 (re_ip e)) (Z.to_nat (32 - ntz (re_netmask e))).

Definition add_ipv4_entry (rt : route_table) (e : route_entry_v4) : outcome route_table :=
  r ← patricia_lookup (rt_ipv4 rt) (entry_prefix e);
  let '(t, node) := r in
  n ← deref (node_at (pt_head t) node);
  let next_hops := match n.2 with None => [] | Some next_hops => next_hops end in
  Ok (rt <| rt_ipv4 := t <| pt_head ::= set_data node (next_hops ++ [e]) |> |>).

(** [ip] is taken as it is in memory. *)
Definition ipv4_search_exact (rt : route_table) (ip cidr : Z)
  : outcome (option route_entry_v4) :=
  node ← patricia_search_exact (rt_ipv4 rt) (New_Prefix (le_bytes 4 ip) (Z.to_nat cidr));
  match node with
  | None => Ok None
  | Some (_, data) => next_hops ← deref data; Ok (next_hops !! 0%nat)
  end.

Definition ipv4_lookup (rt : route_table) (ip hash : Z) : outcome (option route_entry_v4) :=
  node ← patricia_search_best (rt_ipv4 rt) (New_Prefix (be_bytes 4 ip) 32);
  match node with
  | None => Ok None
  | Some (_, data) =>
      next_hops ← deref data;
      let n := Z.of_nat (length next_hops) in
      if n =? 0 then Fault DivByZero
      else Ok (next_hops !! Z.to_nat (u32 (hash mod n)))
  end.

(** ** Prefixes as netmasks *)

(** A route as the code creates them: a contiguous netmask. *)
Definition entry_wf (e : route_entry_v4) : Prop :=
  in_width 32 (re_ip e) ∧ ∃ p, (p ≤ 32)%nat ∧ re_netmask e = prefix_mask p.

(** The route covers the address. *)
Definition covers (e : route_entry_v4) (ip : Z) : Prop :=
  Z.land ip (re_netmask e) = Z.land (re_ip e) (re_netmask e).

(** The length of the prefix of a route. *)
Definition prefix_length (e : route_entry_v4) : nat := px_bitlen (entry_prefix e).

Lemma ntz_mask p : (p ≤ 32)%nat → Z.to_nat (32 - ntz (prefix_mask p)) = p.
Proof.
  intros Hp.
  assert (forallb (λ q, (Z.to_nat (32 - ntz (prefix_mask q)) =? q)%nat) (seq 0 33) = true) as Hall
    by (vm_compute; reflexivity).
  rewrite forallb_forall in Hall. apply Nat.eqb_eq, Hall, in_seq. lia.
Qed.

Lemma entry_prefix_wf e : entry_wf e → prefix_wf 32 (entry_prefix e).
Proof.
  intros [_ (p & Hp & Hm)]. unfold entry_prefix. rewrite Hm, ntz_mask by done.
  apply prefix_wf_inet; [apply (be_bytes_wf 4)|done].
Qed.

Lemma shifted_bit z n k : 0 ≤ n → 0 ≤ k < 8 →
  Z.testbit ((z / 2 ^ n) mod 256) k = Z.testbit z (k + n).
Proof.
  intros Hn Hk. change 256 with (2 ^ 8).
  rewrite Z.mod_pow2_bits_low, Z.div_pow2_bits by lia. done.
Qed.

Lemma bit_test_be a i : (i < 32)%nat →
  bit_test (be_bytes 4 a) i = Z.testbit a (31 - Z.of_nat i).
Proof.
  intros Hi. rewrite bit_test_testbit.
  assert (be_bytes 4 a = [(a / 2 ^ 24) mod 256; (a / 2 ^ 16) mod 256;
                          (a / 2 ^ 8) mod 256; (a / 2 ^ 0) mod 256]) as ->.
  { unfold be_bytes. cbn [le_bytes]. rewrite !Z.div_div by lia. rewrite Z.div_1_r. done. }
  pose proof (Nat.div_mod i 8 ltac:(lia)) as Hdm. pose proof (Nat.mod_upper_bound i 8 ltac:(lia)).
  set (k := (i mod 8)%nat) in *. set (d := (i / 8)%nat) in *.
  assert (d = 0 ∨ d = 1 ∨ d = 2 ∨ d = 3)%nat as Hd by lia. rewrite Hdm.
  destruct Hd as [-> | [-> | [-> | ->]]]; cbn [lookup list_lookup from_option id];
    rewrite shifted_bit by lia; f_equal; lia.
Qed.

Lemma prefix_mask_bit p k : (p ≤ 32)%nat → 0 ≤ k →
  Z.testbit (prefix_mask p) k = bool_decide (32 - Z.of_nat p ≤ k < 32).
Proof.
  intros Hp Hk. unfold prefix_mask. rewrite Z.land_spec, Z.shiftl_spec by done.
  rewrite !Z.testbit_ones by lia.
  destruct (bool_decide_reflect (32 - Z.of_nat p ≤ k < 32)); lia.
Qed.

Lemma agree_mask p a b : (p ≤ 32)%nat →
  agree p (be_bytes 4 a) (be_bytes 4 b) ↔
  Z.land a (prefix_mask p) = Z.land b (prefix_mask p).
Proof.
  intros Hp. split.
  - intros H. apply Z.bits_inj'. intros k Hk. rewrite !Z.land_spec, prefix_mask_bit by done.
    destruct (bool_decide_reflect (32 - Z.of_nat p ≤ k < 32)) as [Hin|]; [|by rewrite !andb_false_r].
    specialize (H (Z.to_nat (31 - k)) ltac:(lia)). rewrite !bit_test_be in H by lia.
    replace (31 - Z.of_nat (Z.to_nat (31 - k))) with k in H by lia. by rewrite H.
  - intros H i Hi. rewrite !bit_test_be by lia.
    apply (f_equal (λ z, Z.testbit z (31 - Z.of_nat i))) in H.
    rewrite !Z.land_spec, prefix_mask_bit, bool_decide_true, !andb_true_r in H by lia. done.
Qed.

Lemma contains_covers e ip : entry_wf e →
  contains (entry_prefix e) (be_bytes 4 ip) ↔ covers e ip.
Proof.
  intros [_ (p & Hp & Hm)]. unfold contains, covers, entry_prefix, New_Prefix.
  cbn [px_bitlen px_add]. rewrite Hm, ntz_mask by done.
  change (take INET_BYTES (be_bytes 4 (re_ip e))) with (be_bytes 4 (re_ip e)).
  rewrite agree_mask by done. split; intros; congruence.
Qed.

(** ** The table *)

(** Every node with a prefix has its routes, at least one, all of that prefix. *)
Record rt_wf (rt : route_table) : Prop := {
  rt_tree : patricia_wf (rt_ipv4 rt);
  rt_bits : pt_maxbits (rt_ipv4 rt) = 32%nat;
  rt_hops : ∀ q d, (q, d) ∈ pelems (pt_head (rt_ipv4 rt)) →
    ∃ hops, d = Some hops ∧ hops ≠ [] ∧
      ∀ e, e ∈ hops → entry_wf e ∧ same_prefix (entry_prefix e) q }.

(** All routes of the table. *)
Definition elems_routes (l : list (prefix_t * option (list route_entry_v4)))
  : list route_entry_v4 := concat ((λ e, default [] e.2) <$> l).
Definition routes (rt : route_table) : list route_entry_v4 :=
  elems_routes (pelems (pt_head (rt_ipv4 rt))).

Lemma elem_of_routes rt e :
  e ∈ routes rt ↔ ∃ q hops, (q, Some hops) ∈ pelems (pt_head (rt_ipv4 rt)) ∧ e ∈ hops.
Proof.
  unfold routes, elems_routes. rewrite elem_of_concat. split.
  - intros (l & He & ([q d] & -> & Hin)%list_elem_of_fmap). destruct d as [hops|]; simpl in He;
      [eauto|by apply elem_of_nil in He].
  - intros (q & hops & Hin & He). exists hops. split; [done|]. apply list_elem_of_fmap.
    by exists (q, Some hops).
Qed.

Lemma route_table_init_ok :
  ∃ rt, route_table_init = Ok rt ∧ rt_wf rt ∧ routes rt = [].
Proof.
  destruct (new_patricia_wf (V := list route_entry_v4) 32) as (t4 & E4 & W4 & M4 & L4);
    [vm_compute; lia|].
  destruct (new_patricia_wf (V := list route_entry_v6) 128) as (t6 & E6 & _); [vm_compute; lia|].
  exists (RouteTable t4 t6). unfold route_table_init. rewrite E4, E6. cbn [mbind outcome_bind].
  split_and!; [done| |unfold routes; simpl; by rewrite L4].
  split; simpl; [done..|]. rewrite L4. intros q d Hin. by apply elem_of_nil in Hin.
Qed.

#[export] Instance elems_routes_perm : Proper ((≡ₚ) ==> (≡ₚ)) elems_routes.
Proof.
  intros l l' H. unfold elems_routes. induction H; simpl; [done|by f_equiv|solve_Permutation|].
  by etrans.
Qed.

Lemma add_ipv4_entry_ok rt e : rt_wf rt → entry_wf e →
  ∃ rt', add_ipv4_entry rt e = Ok rt' ∧ rt_wf rt' ∧ routes rt' ≡ₚ e :: routes rt.
Proof.
  intros [Wt Hm Hh] He. pose proof (entry_prefix_wf e He) as Wp.
  destruct (patricia_lookup_ok (rt_ipv4 rt) (entry_prefix e)) as (t & path & El & Wt' & Hm' & Hin);
    [done|by rewrite Hm|].
  destruct Hin as (Wh & q & d & Hat & Hsame & Hcase).
  unfold add_ipv4_entry. rewrite El. cbn [mbind outcome_bind]. rewrite Hat.
  cbn [deref mbind outcome_bind snd].
  set (hops := match d with None => [] | Some hops => hops end).
  destruct (set_data_elems _ _ _ _ _ (hops ++ [e]) Hat) as (rest & Hel & Hel').
  assert (pelems (pt_head (rt_ipv4 rt)) ≡ₚ (q, d) :: rest ∨
    d = None ∧ pelems (pt_head (rt_ipv4 rt)) ≡ₚ rest) as Hold.
  { destruct Hcase as [<-|(-> & -> & Hnew)]; [by left|right]. split; [done|].
    rewrite Hnew in Hel. by apply Permutation_cons_inv in Hel. }
  eexists; split; [done|]. split.
  - split; simpl; [|congruence|].
    + destruct Wt' as [W1 W2 W3]. destruct (set_data_shape path (hops ++ [e]) (pt_head t)) as (Hp & _).
      split; simpl; [done| |by rewrite Hp]. rewrite Hm'. by apply (set_data_wf _ _ _ _ _ _ _ Wh Hat).
    + intros q' d'. rewrite Hel'. intros [[= -> ->]|Hin]%elem_of_cons.
      * eexists; split; [done|]. split; [by destruct hops|]. intros e' [Hin|Hin]%elem_of_app.
        -- destruct Hold as [Hold|[-> _]]; [|by apply elem_of_nil in Hin].
           destruct (Hh q d) as (hops' & -> & _ & Hall); [rewrite Hold; by left|]. by apply Hall.
        -- by apply list_elem_of_singleton in Hin as ->.
      * apply Hh. destruct Hold as [-> | [_ ->]]; [by right|done].
  - unfold routes. simpl. rewrite Hel'.
    assert (elems_routes (pelems (pt_head (rt_ipv4 rt))) ≡ₚ hops ++ elems_routes rest) as ->.
    { unfold hops. destruct Hold as [-> | [-> ->]]; [|done]. by destruct d. }
    unfold elems_routes. simpl. solve_Permutation.
Qed.

(** [pkey] separates the nodes of the tree. *)
Lemma pelems_unique rt q d q' d' :
  patricia_wf (rt_ipv4 rt) →
  (q, d) ∈ pelems (pt_head (rt_ipv4 rt)) → (q', d') ∈ pelems (pt_head (rt_ipv4 rt)) →
  same_prefix q q' → (q, d) = (q', d').
Proof.
  intros Wt Hin Hin' Hs. pose proof (pkey_NoDup _ _ (patricia_tree_ok _ Wt)) as Hnd.
  unfold pfx in Hnd. rewrite <-list_fmap_compose in Hnd.
  apply list_elem_of_lookup in Hin as [i Hi]. apply list_elem_of_lookup in Hin' as [j Hj].
  assert (i = j) as ->; [|congruence].
  eapply (NoDup_lookup _ _ _ (pkey q)); [done|..]; rewrite list_lookup_fmap.
  - by rewrite Hi.
  - rewrite Hj. simpl. f_equal. symmetry. by apply same_prefix_key.
Qed.

(** A route and the node that has it. *)
Lemma route_node rt q hops e ip :
  rt_wf rt → (q, Some hops) ∈ pelems (pt_head (rt_ipv4 rt)) → e ∈ hops →
  (covers e ip ↔ contains q (be_bytes 4 ip)) ∧ prefix_length e = px_bitlen q.
Proof.
  intros [_ _ Hh] Hin He. destruct (Hh _ _ Hin) as (hops' & [= <-] & _ & Hall).
  destruct (Hall e He) as [We [Hlen Hag]]. split; [|done].
  rewrite <-contains_covers by done. unfold contains. rewrite <-Hlen.
  split; intros Hc; eauto using agree_trans, agree_sym.
Qed.

(** The lookup, with the routes it chooses from. *)
Lemma ipv4_lookup_ok rt ip : rt_wf rt → in_width 32 ip →
  (∀ hash, ipv4_lookup rt ip hash = Ok None) ∧ (∀ e, e ∈ routes rt → ¬ covers e ip) ∨
  ∃ hops, hops ≠ [] ∧
    (∀ hash, in_width 32 hash → ipv4_lookup rt ip hash =
       Ok (hops !! Z.to_nat (hash mod Z.of_nat (length hops)))) ∧
    ∀ e, e ∈ hops ↔ e ∈ routes rt ∧ covers e ip ∧
      ∀ e', e' ∈ routes rt → covers e' ip → (prefix_length e' ≤ prefix_length e)%nat.
Proof.
  intros [Wt Hm Hh] Hip.
  destruct (search_best_longest (rt_ipv4 rt) (New_Prefix (be_bytes 4 ip) 32)) as (res & E & Hres);
    [done|rewrite Hm; apply prefix_wf_inet; [apply (be_bytes_wf 4)|lia]|by rewrite Hm|].
  change (px_add (New_Prefix (be_bytes 4 ip) 32)) with (be_bytes 4 ip) in Hres.
  unfold ipv4_lookup. rewrite E. cbn [mbind outcome_bind].
  destruct res as [[q d]|].
  2: { left. split; [done|]. intros e (q & hops & Hin & He)%elem_of_routes Hc.
       apply (route_node rt q hops e ip) in Hc; [|done..]. apply (Hres q); [|done].
       apply elem_of_pfx. eauto. }
  right. destruct Hres as (Hin & Hcont & Hmax). simpl in Hcont, Hmax.
  destruct (Hh _ _ Hin) as (hops & -> & Hne & _). exists hops. split; [done|].
  assert (Z.of_nat (length hops) ≠ 0) as Hn by (destruct hops; simpl; [done|lia]).
  split.
  { intros hash Hhash. cbn [deref mbind outcome_bind].
    rewrite (proj2 (Z.eqb_neq _ _)) by done. rewrite wrap_small; [done|].
    split; [apply Z.mod_pos_bound; lia|].
    apply Z.le_lt_trans with hash; [apply Z.mod_le|apply Hhash]; [apply Hhash|lia]. }
  intros e. split.
  - intros He. destruct (route_node rt q hops e ip) as [Hcov Hlen]; [done..|].
    split_and!; [apply elem_of_routes; eauto|by apply Hcov|].
    intros e' (q' & hops' & Hin' & He')%elem_of_routes Hc'. rewrite Hlen.
    destruct (route_node rt q' hops' e' ip) as [Hcov' ->]; [done..|].
    apply Hmax; [apply elem_of_pfx; eauto|by apply Hcov'].
  - intros ((q' & hops' & Hin' & He')%elem_of_routes & Hc & Hbest).
    destruct (route_node rt q' hops' e ip) as [Hcov' Hlen']; [done..|].
    destruct hops as [|e0 hops0]; [done|].
    destruct (route_node rt q (e0 :: hops0) e0 ip) as [Hcov0 Hlen0]; [done|done|by left|].
    assert (prefix_length e0 ≤ prefix_length e)%nat as Hle.
    { apply Hbest; [apply elem_of_routes; exists q, (e0 :: hops0); split; [done|by left]|].
      by apply Hcov0. }
    assert (px_bitlen q' ≤ px_bitlen q)%nat as Hle'.
    { apply Hmax; [apply elem_of_pfx; eauto|by apply Hcov']. }
    assert ((q, Some (e0 :: hops0)) = (q', Some hops')) as [= -> ->]; [|done].
    apply (pelems_unique rt); [done..|]. split; [lia|].
    apply agree_trans with (be_bytes 4 ip); [done|]. apply agree_sym.
    apply Hcov' in Hc. replace (px_bitlen q) with (px_bitlen q') by lia. done.
Qed.

(** A route that covers an address with a longer prefix than every other is chosen,
    whatever the hash. *)
Lemma ipv4_lookup_best rt rs e ip hash :
  rt_wf rt → in_width 32 ip → in_width 32 hash → routes rt ≡ₚ e :: rs → covers e ip →
  (∀ e', e' ∈ rs → covers e' ip → (prefix_length e' < prefix_length e)%nat) →
  ipv4_lookup rt ip hash = Ok (Some e).
Proof.
  intros Hwf Hip Hh Hr Hc Hbest.
  assert (e ∈ routes rt) as Hin by (rewrite Hr; by left).
  destruct (ipv4_lookup_ok rt ip Hwf Hip) as [[_ Hno]|(hops & Hne & Hl & Hall)]; [by destruct (Hno e)|].
  rewrite Hl by done. f_equal.
  assert (0 < Z.of_nat (length hops)) by (destruct hops; simpl; [done|lia]).
  destruct (lookup_lt_is_Some_2 hops (Z.to_nat (hash mod Z.of_nat (length hops)))) as [x Hx].
  { pose proof (Z.mod_pos_bound hash (Z.of_nat (length hops))). lia. }
  rewrite Hx. f_equal. apply list_elem_of_lookup_2, Hall in Hx as (Hxr & Hxc & Hmax).
  rewrite Hr in Hxr. apply elem_of_cons in Hxr as [->|Hxr]; [done|].
  specialize (Hbest x Hxr Hxc). specialize (Hmax e Hin Hc). lia.
Qed.

(** ** Correctness *)

(** Adding a route to a well-formed table succeeds, keeps it well formed and
    adds exactly that route. *)
Theorem add_ipv4_entry_adds rt e : rt_wf rt → entry_wf e →
  ∃ rt', add_ipv4_entry rt e = Ok rt' ∧ rt_wf rt' ∧ routes rt' ≡ₚ e :: routes rt.
Proof. apply add_ipv4_entry_ok. Qed.

(** C5. Route lookup is longest-prefix match with equal-cost choice: the lookup
    never faults (no null data, no division by zero), returns nothing only when no
    route covers the address, and otherwise a route that covers it with the longest
    prefix: of all those routes, the one at the hash modulo their number. *)
Theorem ipv4_lookup_longest_prefix rt ip : rt_wf rt → in_width 32 ip →
  (∀ hash, ipv4_lookup rt ip hash = Ok None) ∧ (∀ e, e ∈ routes rt → ¬ covers e ip) ∨
  ∃ hops, hops ≠ [] ∧
    (∀ hash, in_width 32 hash → ∃ e, e ∈ hops ∧ ipv4_lookup rt ip hash = Ok (Some e) ∧
       hops !! Z.to_nat (hash mod Z.of_nat (length hops)) = Some e) ∧
    ∀ e, e ∈ hops ↔ e ∈ routes rt ∧ covers e ip ∧
      ∀ e', e' ∈ routes rt → covers e' ip → (prefix_length e' ≤ prefix_length e)%nat.
Proof.
  intros Hwf Hip. destruct (ipv4_lookup_ok rt ip Hwf Hip) as [H|(hops & Hne & Hl & Hall)];
    [by left|right]. exists hops. split_and!; [done| |done]. intros hash Hhash.
  rewrite Hl by done. destruct (lookup_lt_is_Some_2 hops (Z.to_nat (hash mod Z.of_nat (length hops))))
    as [e He].
  { assert (0 < Z.of_nat (length hops)) by (destruct hops; simpl; [done|lia]).
    pose proof (Z.mod_pos_bound hash (Z.of_nat (length hops))). lia. }
  exists e. rewrite He. split_and!; [by apply list_elem_of_lookup_2 in He|done..].
Qed.

(** *** Witnesses: a connected network, a default route, two equal-cost routes *)

Definition sample_connected : route_entry_v4 := RouteEntry 0x0a000000 (prefix_mask 24) 0 1 0 0.
Definition sample_gw : route_entry_v4 := RouteEntry 0 (prefix_mask 0) 0x0a000001 1 0 0.
Definition sample_hop (iface : Z) : route_entry_v4 :=
  RouteEntry 0x0a010000 (prefix_mask 16) 0x0a000002 iface 0 0.
Definition sample_rt : outcome route_table :=
  rt ← route_table_init;
  rt ← add_ipv4_entry rt sample_connected;
  rt ← add_ipv4_entry rt sample_gw;
  rt ← add_ipv4_entry rt (sample_hop 2);
  add_ipv4_entry rt (sample_hop 3).

Lemma entry_wf_mask ip p gw i fl me : in_width 32 ip → (p ≤ 32)%nat →
  entry_wf (RouteEntry ip (prefix_mask p) gw i fl me).
Proof. intros ? ?. split; [done|]. by exists p. Qed.

Lemma sample_entries_wf :
  entry_wf sample_connected ∧ entry_wf sample_gw ∧ ∀ i, entry_wf (sample_hop i).
Proof.
  split; [|split; [|intros i]]; (apply entry_wf_mask; [|lia]);
    by vm_compute; split; congruence.
Qed.

Lemma sample_rt_wf : ∃ rt, sample_rt = Ok rt ∧ rt_wf rt.
Proof.
  destruct sample_entries_wf as (Hc & Hg & Hh).
  destruct route_table_init_ok as (r0 & E0 & W0 & _).
  destruct (add_ipv4_entry_ok r0 _ W0 Hc) as (r1 & E1 & W1 & _).
  destruct (add_ipv4_entry_ok r1 _ W1 Hg) as (r2 & E2 & W2 & _).
  destruct (add_ipv4_entry_ok r2 _ W2 (Hh 2)) as (r3 & E3 & W3 & _).
  destruct (add_ipv4_entry_ok r3 _ W3 (Hh 3)) as (r4 & E4 & W4 & _).
  exists r4. split; [|done]. unfold sample_rt. rewrite E0. cbn [mbind outcome_bind].
  rewrite E1. cbn [mbind outcome_bind]. rewrite E2. cbn [mbind outcome_bind].
  rewrite E3. cbn [mbind outcome_bind]. done.
Qed.

Lemma add_ipv4_entry_adds_witness :
  ∃ rt rt', sample_rt = Ok rt ∧ add_ipv4_entry rt (sample_hop 4) = Ok rt' ∧ rt_wf rt' ∧
    routes rt' ≡ₚ sample_hop 4 :: routes rt.
Proof.
  destruct sample_rt_wf as (rt & E & W).
  destruct (add_ipv4_entry_adds rt (sample_hop 4) W) as (rt' & E' & H').
  { apply sample_entries_wf. }
  exists rt, rt'. exact (conj E (conj E' H')).
Defined.

Lemma ipv4_lookup_longest_prefix_witness :
  ∃ rt (hops : list route_entry_v4), sample_rt = Ok rt ∧
    (∀ hash, in_width 32 hash → ∃ e, e ∈ hops ∧ ipv4_lookup rt 0x0a010203 hash = Ok (Some e)) ∧
    (λ h, re_iface <$> (match ipv4_lookup rt 0x0a010203 h with Ok r => r | Fault _ => None end))
      <$> [4; 5; 6] = [Some 2; Some 3; Some 2].
Proof.
  destruct sample_rt_wf as (rt & E & W).
  assert ((rt ← sample_rt; Ok ((λ h, re_iface <$> (match ipv4_lookup rt 0x0a010203 h with
    Ok r => r | Fault _ => None end)) <$> [4; 5; 6])) = Ok [Some 2; Some 3; Some 2]) as Hc
    by (vm_compute; reflexivity).
  rewrite E in Hc. cbn [mbind outcome_bind] in Hc. apply (f_equal (λ o, match o with Ok x => x | Fault _ => [] end)) in Hc.
  destruct (ipv4_lookup_longest_prefix rt 0x0a010203 W) as [[Hno _]|(hops & _ & Hl & _)].
  - split; vm_compute; congruence.
  - exfalso. cbn [fmap list_fmap] in Hc. rewrite Hno in Hc. discriminate Hc.
  - exists rt, hops. split; [exact E|]. split; [|exact Hc].
    intros hash Hhash. destruct (Hl hash Hhash) as (e & He & Hl' & _). eauto.
Defined.
