(* ===== verification/LegacyNode.v ===== *)
(** * LegacyNode: address resolution and IP forwarding

    Models [net/arp_table.c] and [net/legacy_node.c], what hosts and routers
    share: a node with an ARP table and a routing table.  Netflows are heap
    objects here, because a netflow that waits for an address is kept by pointer
    in the node's buffer while an ARP request travels in its place: operations take
    and return the store of netflows.

    The theorems: a request for the address of a port is answered with its MAC
    address; forwarding to an unknown neighbour parks the netflow and sends a
    well-formed request instead; when the answer arrives, the parked netflow goes
    out with the answered MAC address. *)

From stdpp Require Import prelude gmap.
From S2P Require Import Prelude Util Uthash Action FlowKey Netflow Node Patricia RouteTable.

(** ** The store of netflows *)

Abbreviation nf_store := (gmap addr netflow).

(** Access to an object that does not exist (any more) faults. *)
Definition nf_load (s : nf_store) (a : addr) : outcome netflow := deref (s !! a).
Definition nf_new (s : nf_store) (n : netflow) : nf_store * addr :=
  let a := fresh (dom s) in (<[a := n]> s, a).
(** Update of the match of an object. *)
Definition set_key (g : ofl_flow_key → ofl_flow_key) (n : netflow) : netflow :=
  n <| nf_match ::= g |>.

(** ** arp_table.c *)

Definition ARP_REQUEST : Z := 1.
Definition ARP_REPLY : Z := 2.

Record arp_table_entry := ArpEntry { ae_ip : Z; ae_eth_addr : list Z; ae_iface : Z }.
#[export] Instance eta_arp_table_entry : Eta arp_table_entry := λ e,
  ArpEntry (ae_ip e) (ae_eth_addr e) (ae_iface e).
#[export] Instance arp_keyed : Keyed arp_table_entry := λ e, le_bytes 4 (ae_ip e).
Abbreviation arp_table := (uthash arp_table_entry).

Definition arp_table_init : arp_table := None.
Definition arp_table_entry_new (ip : Z) (eth_addr : list Z) (iface : Z) : arp_table_entry :=
  ArpEntry ip (take ETH_LEN eth_addr) iface.
(** The entry is a new heap object. *)
Definition arp_table_add_entry (t : arp_table) (e : arp_table_entry) : arp_table :=
  HASH_ADD (fresh_addr t) e t.
Definition arp_table_lookup (t : arp_table) (ip : Z) : option arp_table_entry :=
  snd <$> HASH_FIND (le_bytes 4 ip) t.
Definition arp_table_clean (t : arp_table) : arp_table :=
  foldl (λ t av, HASH_DELETE av.1 t) t (ht_elems t).

(** ** legacy_node.c *)

Record legacy_node := LegacyNode { ln_base : node; ln_at : arp_table; ln_rt : route_table }.
#[export] Instance eta_legacy_node : Eta legacy_node := λ n,
  LegacyNode (ln_base n) (ln_at n) (ln_rt n).

Definition legacy_node_init (current_uuid type : Z) : outcome (Z * legacy_node) :=
  let '(uuid, base) := node_init current_uuid type in
  rt ← route_table_init;
  Ok (uuid, LegacyNode base arp_table_init rt).

(** The process exits when there is no such port. *)
Definition legacy_node_set_intf_ipv4 (ln : legacy_node) (port_id addr netmask : Z)
  : outcome legacy_node :=
  match node_port (ln_base ln) port_id with
  | Some (a, _) =>
      let e := RouteEntry (Z.land addr netmask) netmask 0 port_id 0 0 in
      rt ← add_ipv4_entry (ln_rt ln) e;
      Ok (ln <| ln_base ::= port_update a (λ p, port_add_v4addr p addr netmask) |>
             <| ln_rt := rt |>)
  | None => Fault Aborted
  end.

(** The next hop (0: no route); the output port is added to the netflow. *)
Definition ip_lookup (ln : legacy_node) (s : nf_store) (flow : addr) (ecmp : bool)
  : outcome (nf_store * Z) :=
  n ← nf_load s flow;
  let ecmp_hash := if ecmp then netflow_calculate_hash n else 0 in
  re ← ipv4_lookup (ln_rt ln) (ipv4_dst (nf_match n)) ecmp_hash;
  match re with
  | Some re =>
      Ok (<[flow := netflow_add_out_port n (re_iface re)]> s,
          if re_gateway re =? 0 then ipv4_dst (nf_match n) else re_gateway re)
  | None => Ok (s, 0)
  end.

Definition BCAST_ETH : list Z := replicate ETH_LEN 0xff.

(** The loop over the output ports of the waiting netflow; the flag is false
    when a port does not exist.  A port that exists must have an address. *)
Fixpoint fill_request (ln : legacy_node) (ports : list Z) (req : netflow)
  : outcome (netflow * bool) :=
  match ports with
  | [] => Ok (req, true)
  | op :: ports =>
      match node_port (ln_base ln) op with
      | None => Ok (req, false)
      | Some (_, p) =>
          ip ← deref (p_ipv4_addr p);
          fill_request ln ports
            (netflow_add_out_port
              (set_key (λ m, m <| eth_src := p_eth_address p |>
                               <| arp_sha := p_eth_address p |>
                               <| arp_spa := v4_addr ip |>) req) op)
      end
  end.

(** The result of [node_flow_push] is discarded by the source: a netflow that
    does not fit in the buffer is lost. *)
Definition resolve_mac (ln : legacy_node) (s : nf_store) (flow : addr) (ip : Z)
  : outcome (legacy_node * nf_store * option addr) :=
  n ← nf_load s flow;
  match arp_table_lookup (ln_at ln) ip with
  | Some ae =>
      Ok (ln, <[flow := set_key (λ m, m <| eth_dst := ae_eth_addr ae |>) n]> s, Some flow)
  | None =>
      let arp_req := set_key (λ m, m <| eth_type := ETH_TYPE_ARP |>) netflow_init in
      r ← fill_request ln (nf_out_ports n) arp_req;
      let '(arp_req, found) := r in
      if found : bool then
        let arp_req :=
          (set_key (λ m, m <| eth_dst := BCAST_ETH |> <| arp_tpa := ip |>
                           <| arp_op := ARP_REQUEST |>) arp_req)
            <| nf_start_time := nf_start_time n |> <| nf_pkt_cnt := 1 |>
            <| nf_byte_cnt := 56 |> in
        let '(s, a) := nf_new s arp_req in
        r ← node_flow_push (ln_base ln) flow;
        Ok (ln <| ln_base := r.1 |>, s, Some a)
      else let '(s, _) := nf_new s arp_req in Ok (ln, s, None)
  end.

Definition find_forwarding_ports (ln : legacy_node) (s : nf_store) (flow : addr) (ecmp : bool)
  : outcome (legacy_node * nf_store * option addr) :=
  r ← ip_lookup ln s flow ecmp;
  let '(s, ip) := r in
  if ip =? 0 then Ok (ln, s, None) else resolve_mac ln s flow ip.

(** The request has reached its target: the requester is learnt and the netflow
    becomes the reply. *)
Definition recv_arp_request (ln : legacy_node) (p : port) (n : netflow)
  : legacy_node * netflow :=
  let m := nf_match n in
  let ln := match arp_table_lookup (ln_at ln) (arp_spa m) with
            | Some _ => ln
            | None => ln <| ln_at ::= λ t, arp_table_add_entry t
                              (arp_table_entry_new (arp_spa m) (eth_src m) (in_port m)) |>
            end in
  (ln, netflow_add_out_port
         (set_key (λ _, m <| arp_sha := p_eth_address p |> <| arp_tha := eth_src m |>
                          <| eth_dst := eth_src m |> <| eth_src := p_eth_address p |>
                          <| arp_spa := arp_tpa m |> <| arp_tpa := arp_spa m |>
                          <| arp_op := ARP_REPLY |>) n) (in_port m)).

Definition l2_recv_netflow (ln : legacy_node) (s : nf_store) (flow : addr)
  : outcome (legacy_node * nf_store * option addr) :=
  n ← nf_load s flow;
  let m := nf_match n in
  match node_port (ln_base ln) (in_port m) with
  | None => Ok (ln, s, None)
  | Some (_, p) =>
      if negb (bool_decide (p_eth_address p = eth_dst m)) &&
         negb (bool_decide (BCAST_ETH = eth_dst m)) then Ok (ln, s, None)
      else if eth_type m =? ETH_TYPE_ARP then
        if arp_op m =? ARP_REQUEST then
          match p_ipv4_addr p with
          | Some ip =>
              if negb (arp_tpa m =? v4_addr ip) then Ok (ln, s, None)
              else let '(ln, n) := recv_arp_request ln p n in
                   Ok (ln, <[flow := n]> s, Some flow)
          | None => let '(ln, n) := recv_arp_request ln p n in
                    Ok (ln, <[flow := n]> s, Some flow)
          end
        else if arp_op m =? ARP_REPLY then
          let e := arp_table_entry_new (arp_spa m) (arp_sha m) (in_port m) in
          let ln := ln <| ln_at ::= λ t, arp_table_add_entry t e |> in
          let s := <[flow := netflow_init]> s in
          if node_is_buffer_empty (ln_base ln) then Ok (ln, s, None)
          else
            r ← node_flow_pop (ln_base ln);
            let '(base, waiting) := r in
            w ← nf_load s waiting;
            Ok (ln <| ln_base := base |>,
                <[waiting := set_key (λ m, m <| eth_dst := ae_eth_addr e |>)
                               (w <| nf_start_time := nf_start_time n |>)]> s,
                Some waiting)
        else Ok (ln, s, Some flow)
      else Ok (ln, s, Some flow)
  end.

Definition is_l3_destination (ln : legacy_node) (n : netflow) : bool :=
  match node_port (ln_base ln) (in_port (nf_match n)) with
  | Some (_, p) =>
      match p_ipv4_addr p, p_ipv6_addr p with
      | Some ip, v6 =>
          if negb (ipv4_dst (nf_match n) =? 0) then v4_addr ip =? ipv4_dst (nf_match n)
          else match v6 with
               | Some ip6 => bool_decide (v6_addr ip6 = ipv6_dst (nf_match n))
               | None => false
               end
      | None, Some ip6 => bool_decide (v6_addr ip6 = ipv6_dst (nf_match n))
      | None, None => false
      end
  | None => false
  end.

(** ** ARP table *)

Lemma arp_lookup_None t ip : ht_wf t →
  arp_table_lookup t ip = None ↔ ∀ a e, (a, e) ∈ ht_elems t → le_bytes 4 (ae_ip e) ≠ le_bytes 4 ip.
Proof.
  intros Hwf. unfold arp_table_lookup.
  rewrite fmap_None. exact (HASH_FIND_None (le_bytes 4 ip) t Hwf).
Qed.

Lemma arp_lookup_Some t ip e : ht_wf t → arp_table_lookup t ip = Some e →
  (∃ a, (a, e) ∈ ht_elems t) ∧ le_bytes 4 (ae_ip e) = le_bytes 4 ip.
Proof.
  intros Hwf. unfold arp_table_lookup. intros ([a e'] & Hf & ->)%fmap_Some.
  apply (HASH_FIND_Some (V := arp_table_entry)) in Hf as [Hin Hk]; [|done]. eauto.
Qed.

(** A new address is found after it was added. *)
Lemma arp_add_ok t e : ht_wf t → arp_table_lookup t (ae_ip e) = None →
  ht_wf (arp_table_add_entry t e) ∧
  arp_table_lookup (arp_table_add_entry t e) (ae_ip e) = Some e.
Proof.
  intros Hwf Hnone. unfold arp_table_add_entry.
  destruct (HASH_ADD_spec (fresh_addr t) e t Hwf (fresh_addr_not_in t)) as [Hwf' Hel].
  split; [done|].
  destruct (arp_table_lookup (HASH_ADD (fresh_addr t) e t) (ae_ip e)) as [e'|] eqn:E.
  - apply arp_lookup_Some in E as [[a Hin] Hk]; [|done].
    rewrite Hel, elem_of_app, list_elem_of_singleton in Hin. destruct Hin as [Hin|[= _ ->]]; [|done].
    exfalso. by apply (proj1 (arp_lookup_None t (ae_ip e) Hwf) Hnone a e').
  - exfalso. apply (proj1 (arp_lookup_None _ _ Hwf') E (fresh_addr t) e); [|done].
    rewrite Hel, elem_of_app, list_elem_of_singleton. by right.
Qed.

(** ** Answering a request *)

(** A frame reaches the port: broadcast or its own address. *)
Definition for_port (p : port) (m : ofl_flow_key) : Prop :=
  eth_dst m = BCAST_ETH ∨ eth_dst m = p_eth_address p.

Lemma for_port_accepts p m : for_port p m →
  negb (bool_decide (p_eth_address p = eth_dst m)) &&
  negb (bool_decide (BCAST_ETH = eth_dst m)) = false.
Proof.
  intros [-> | ->]; [by rewrite (bool_decide_true (BCAST_ETH = _)), andb_false_r|].
  by rewrite bool_decide_true.
Qed.

Lemma l2_recv_request ln s flow n a p ip :
  s !! flow = Some n → node_port (ln_base ln) (in_port (nf_match n)) = Some (a, p) →
  for_port p (nf_match n) → eth_type (nf_match n) = ETH_TYPE_ARP →
  arp_op (nf_match n) = ARP_REQUEST → p_ipv4_addr p = Some ip →
  arp_tpa (nf_match n) = v4_addr ip →
  l2_recv_netflow ln s flow =
    Ok ((recv_arp_request ln p n).1, <[flow := (recv_arp_request ln p n).2]> s, Some flow).
Proof.
  intros Hs Hp Hf Ht Ho Hip Htpa. unfold l2_recv_netflow, nf_load. rewrite Hs.
  cbn [deref mbind outcome_bind]. rewrite Hp, (for_port_accepts p (nf_match n) Hf), Ht, Ho, Hip, Htpa.
  rewrite !Z.eqb_refl. by destruct (recv_arp_request ln p n).
Qed.

Lemma recv_request_learns ln p n : ht_wf (ln_at ln) →
  let ln' := (recv_arp_request ln p n).1 in
  ht_wf (ln_at ln') ∧ ln_base ln' = ln_base ln ∧ ln_rt ln' = ln_rt ln ∧
  ∃ e, arp_table_lookup (ln_at ln') (arp_spa (nf_match n)) = Some e ∧
    (arp_table_lookup (ln_at ln) (arp_spa (nf_match n)) = None →
     ae_eth_addr e = take ETH_LEN (eth_src (nf_match n))).
Proof.
  intros Hwf. unfold recv_arp_request. cbn [fst].
  destruct (arp_table_lookup (ln_at ln) (arp_spa (nf_match n))) as [e|] eqn:E.
  - split_and!; [done..|]. by exists e.
  - destruct (arp_add_ok (ln_at ln)
      (arp_table_entry_new (arp_spa (nf_match n)) (eth_src (nf_match n)) (in_port (nf_match n))))
      as [Hwf' Hl]; [done|done|].
    split_and!; [done..|]. eexists. split; [exact Hl|done].
Qed.

(** ** Waiting for an answer *)

(** The request that leaves in place of the netflow. *)
Definition request_key (p : port) (ia : ipv4_info) (ip : Z) : ofl_flow_key :=
  key_zero <| eth_type := ETH_TYPE_ARP |>
    <| eth_src := p_eth_address p |> <| arp_sha := p_eth_address p |>
    <| arp_spa := v4_addr ia |> <| eth_dst := BCAST_ETH |> <| arp_tpa := ip |>
    <| arp_op := ARP_REQUEST |>.

(** What the event handler does with a netflow between two nodes: its output
    ports are consumed, and it enters the next node at [port] at [time]. *)
Definition hop (port time : Z) (n : netflow) : netflow :=
  n <| nf_out_ports := [] |> <| nf_match; in_port := port |> <| nf_start_time := time |>.

(** The buffer after a push, whose result the code ignores: a full one stays as it is. *)
Definition parked (l : list addr) (flow : addr) : list addr :=
  if decide (length l < 2)%nat then l ++ [flow] else l.

Lemma push_parks n l flow : fb_repr n l →
  ∃ b ok, node_flow_push n flow = Ok (n <| n_flow_buff := b |>, ok) ∧
    fb_repr (n <| n_flow_buff := b |>) (parked l flow).
Proof.
  intros Hb. unfold parked. case_decide as Hlen.
  - destruct (fb_push _ _ flow Hb Hlen) as (b & ? & ?). by exists b, true.
  - exists (n_flow_buff n), false. pose proof (fr_cap _ _ Hb).
    assert (n <| n_flow_buff := n_flow_buff n |> = n) as -> by (by destruct n). split; [|done].
    unfold node_flow_push. rewrite (fr_tail _ _ Hb). by replace (length l) with 2%nat by lia.
Qed.

Lemma resolve_mac_parks ln s flow n ip op a p ia l :
  s !! flow = Some n → nf_out_ports n = [op] →
  arp_table_lookup (ln_at ln) ip = None →
  node_port (ln_base ln) op = Some (a, p) → p_ipv4_addr p = Some ia →
  fb_repr (ln_base ln) l →
  ∃ b (req : netflow), let q := fresh (dom s) in
    resolve_mac ln s flow ip = Ok (ln <| ln_base; n_flow_buff := b |>, <[q := req]> s, Some q) ∧
    fb_repr ((ln_base ln) <| n_flow_buff := b |>) (parked l flow) ∧
    nf_out_ports req = [op] ∧ nf_start_time req = nf_start_time n ∧
    nf_match req = request_key p ia ip.
Proof.
  intros Hs Hop Hnone Hp Hia Hb. unfold resolve_mac, nf_load. rewrite Hs.
  cbn [deref mbind outcome_bind]. rewrite Hnone, Hop. cbn [fill_request].
  rewrite Hp, Hia. cbn [deref mbind outcome_bind].
  destruct (push_parks _ _ flow Hb) as (b & ok & Hpush & Hb').
  unfold nf_new. rewrite Hpush. cbn [mbind outcome_bind fst].
  exists b. eexists. cbv zeta. split; [reflexivity|]. split; [done|]. split_and!; reflexivity.
Qed.

Lemma l2_recv_reply ln s flow n a p l waiting w :
  s !! flow = Some n → node_port (ln_base ln) (in_port (nf_match n)) = Some (a, p) →
  for_port p (nf_match n) → eth_type (nf_match n) = ETH_TYPE_ARP →
  arp_op (nf_match n) = ARP_REPLY → fb_repr (ln_base ln) (l ++ [waiting]) →
  waiting ≠ flow → s !! waiting = Some w →
  let e := arp_table_entry_new (arp_spa (nf_match n)) (arp_sha (nf_match n))
             (in_port (nf_match n)) in
  ∃ b, l2_recv_netflow ln s flow =
    Ok (ln <| ln_at ::= λ t, arp_table_add_entry t e |> <| ln_base; n_flow_buff := b |>,
        <[waiting := set_key (λ m, m <| eth_dst := ae_eth_addr e |>)
                       (w <| nf_start_time := nf_start_time n |>)]>
          (<[flow := netflow_init]> s), Some waiting) ∧
    fb_repr ((ln_base ln) <| n_flow_buff := b |>) l.
Proof.
  intros Hs Hp Hf Ht Ho Hb Hne Hw e. destruct (fb_pop _ _ _ Hb) as (b & Hpop & Hb').
  exists b. split; [|done]. unfold l2_recv_netflow, nf_load. rewrite Hs.
  cbn [deref mbind outcome_bind]. rewrite Hp, (for_port_accepts p (nf_match n) Hf), Ht, Ho.
  rewrite !Z.eqb_refl. change (ARP_REPLY =? ARP_REQUEST) with false. cbv iota zeta.
  change (ln_base (ln <| ln_at ::= _ |>)) with (ln_base ln).
  rewrite (fb_empty _ _ Hb), bool_decide_false by (by destruct l).
  rewrite Hpop. cbn [mbind outcome_bind]. rewrite lookup_insert_ne, Hw by done. done.
Qed.

(** ** Correctness *)

(** An ARP request for the address of a port is answered: the netflow becomes a
    reply to the requester that carries the MAC and IP address of the port and leaves
    by the port it came from, and the node knows the requester afterwards (with the
    MAC address of the request, if it did not know it before). *)
Theorem arp_request_answered ln s flow n a p ip :
  s !! flow = Some n → node_port (ln_base ln) (in_port (nf_match n)) = Some (a, p) →
  for_port p (nf_match n) → eth_type (nf_match n) = ETH_TYPE_ARP →
  arp_op (nf_match n) = ARP_REQUEST → p_ipv4_addr p = Some ip →
  arp_tpa (nf_match n) = v4_addr ip → ht_wf (ln_at ln) →
  ∃ ln' n', l2_recv_netflow ln s flow = Ok (ln', <[flow := n']> s, Some flow) ∧
    nf_out_ports n' = nf_out_ports n ++ [in_port (nf_match n)] ∧
    arp_op (nf_match n') = ARP_REPLY ∧ eth_dst (nf_match n') = eth_src (nf_match n) ∧
    eth_src (nf_match n') = p_eth_address p ∧ arp_sha (nf_match n') = p_eth_address p ∧
    arp_spa (nf_match n') = v4_addr ip ∧ arp_tha (nf_match n') = eth_src (nf_match n) ∧
    arp_tpa (nf_match n') = arp_spa (nf_match n) ∧ ht_wf (ln_at ln') ∧
    ∃ e, arp_table_lookup (ln_at ln') (arp_spa (nf_match n)) = Some e ∧
      (arp_table_lookup (ln_at ln) (arp_spa (nf_match n)) = None →
       ae_eth_addr e = take ETH_LEN (eth_src (nf_match n))).
Proof.
  intros Hs Hp Hf Ht Ho Hip Htpa Hwf.
  rewrite (l2_recv_request ln s flow n a p ip) by done.
  destruct (recv_request_learns ln p n Hwf) as (Hwf' & _ & _ & He).
  do 2 eexists. split; [reflexivity|]. split_and!; done.
Qed.

(** The answer as it arrives on port [iface]. *)
Definition reply_key (pa pb : port) (ia : ipv4_info) (ip iface : Z) : ofl_flow_key :=
  key_zero <| eth_type := ETH_TYPE_ARP |>
    <| arp_tha := p_eth_address pa |> <| eth_dst := p_eth_address pa |>
    <| eth_src := p_eth_address pb |> <| arp_sha := p_eth_address pb |>
    <| arp_spa := ip |> <| arp_tpa := v4_addr ia |> <| arp_op := ARP_REPLY |>
    <| in_port := iface |>.

Lemma forward_parks A s flow n ecmp re ip pa xa ia l :
  s !! flow = Some n → nf_out_ports n = [] →
  ipv4_lookup (ln_rt A) (ipv4_dst (nf_match n))
    (if ecmp : bool then netflow_calculate_hash n else 0) = Ok (Some re) →
  ip = (if re_gateway re =? 0 then ipv4_dst (nf_match n) else re_gateway re) → ip ≠ 0 →
  arp_table_lookup (ln_at A) ip = None →
  node_port (ln_base A) (re_iface re) = Some (xa, pa) → p_ipv4_addr pa = Some ia →
  fb_repr (ln_base A) l →
  ∃ b (req : netflow) q, let n1 := netflow_add_out_port n (re_iface re) in
    find_forwarding_ports A s flow ecmp =
      Ok (A <| ln_base; n_flow_buff := b |>, <[q := req]> (<[flow := n1]> s), Some q) ∧
    q ≠ flow ∧ fb_repr ((ln_base A) <| n_flow_buff := b |>) (parked l flow) ∧
    nf_match req = request_key pa ia ip.
Proof.
  intros Hs Hout Hre Hip Hne Hnone Hp Hi Hb. cbv zeta.
  set (n1 := netflow_add_out_port n (re_iface re)). set (s0 := <[flow := n1]> s).
  destruct (resolve_mac_parks A s0 flow n1 ip (re_iface re) xa pa ia l)
    as (b & req & Hres & Hb1 & _ & _ & Hrm);
    [by apply lookup_insert_eq|by unfold n1; simpl; rewrite Hout|done..|].
  exists b, req, (fresh (dom s0)). split; [|split; [|done]].
  - unfold find_forwarding_ports, ip_lookup, nf_load. rewrite Hs. cbn [deref mbind outcome_bind].
    rewrite Hre. cbn [mbind outcome_bind]. rewrite <- Hip, (proj2 (Z.eqb_neq _ _)) by done. exact Hres.
  - intros Heq. apply (is_fresh (dom s0)). rewrite Heq. apply elem_of_dom.
    exists n1. apply lookup_insert_eq.
Qed.

Lemma answer_key B pa pb ia ip req portB tB iface tA :
  nf_match req = request_key pa ia ip →
  nf_match (hop iface tA (recv_arp_request B pb (hop portB tB req)).2) =
  reply_key pa pb ia ip iface.
Proof.
  intros Hrm. set (n := (recv_arp_request _ _ _).2).
  change (nf_match (hop iface tA n)) with ((nf_match n) <| in_port := iface |>).
  unfold n, recv_arp_request. cbn [snd].
  change (nf_match (hop portB tB req)) with ((nf_match req) <| in_port := portB |>).
  by rewrite Hrm.
Qed.

(** C10. Address resolution round trip between two nodes.  Node [A] forwards a netflow,
    with or without a choice among equal routes, to a next hop [ip] it has no MAC address
    of: a request leaves instead.  If the flow buffer of [A] has room (it holds two), the
    netflow is parked there; node [B], which has [ip] on the port the request arrives at,
    answers; when the reply reaches [A], the parked netflow is released, addressed to the
    MAC address of [B] on the port the route names, with the time of the reply, the
    buffer is as before, and [A] knows the MAC address of [ip].  If the buffer is full
    the netflow is dropped without notice: no buffer holds it. *)
Theorem arp_resolution_round_trip A B s flow n ecmp re ip pa xa ia l pb xb ib portB tB tA :
  s !! flow = Some n → nf_out_ports n = [] →
  ipv4_lookup (ln_rt A) (ipv4_dst (nf_match n))
    (if ecmp : bool then netflow_calculate_hash n else 0) = Ok (Some re) →
  ip = (if re_gateway re =? 0 then ipv4_dst (nf_match n) else re_gateway re) → ip ≠ 0 →
  ht_wf (ln_at A) → arp_table_lookup (ln_at A) ip = None →
  node_port (ln_base A) (re_iface re) = Some (xa, pa) → p_ipv4_addr pa = Some ia →
  fb_repr (ln_base A) l →
  ht_wf (ln_at B) → node_port (ln_base B) portB = Some (xb, pb) → p_ipv4_addr pb = Some ib →
  v4_addr ib = ip → length (p_eth_address pb) = ETH_LEN →
  ∃ A1 s1 req, find_forwarding_ports A s flow ecmp = Ok (A1, s1, Some req) ∧ req ≠ flow ∧
    (if decide (length l = 2)%nat then fb_repr (ln_base A1) l
     else
       fb_repr (ln_base A1) (l ++ [flow]) ∧
       ∃ B1 s2 A2 s3 e,
         l2_recv_netflow B (alter (hop portB tB) req s1) req = Ok (B1, s2, Some req) ∧
         l2_recv_netflow A1 (alter (hop (re_iface re) tA) req s2) req = Ok (A2, s3, Some flow) ∧
         s3 !! flow = Some (set_key (λ m, m <| eth_dst := p_eth_address pb |>)
           ((netflow_add_out_port n (re_iface re)) <| nf_start_time := tA |>)) ∧
         arp_table_lookup (ln_at A2) ip = Some e ∧ ae_eth_addr e = p_eth_address pb ∧
         fb_repr (ln_base A2) l).
Proof.
  intros Hs Hout Hre Hip Hne HwfA HnoneA HpA HiA Hb HwfB HpB HiB HipB Hmac.
  destruct (forward_parks A s flow n ecmp re ip pa xa ia l)
    as (b & req & q & Hfwd & Hq & Hb1 & Hrm); [done..|].
  pose proof (fr_cap _ _ Hb) as Hcap. unfold parked in Hb1.
  eexists _, _, q. split; [exact Hfwd|]. split; [done|].
  destruct (decide (length l = 2%nat)) as [Hfull|Hfull].
  { rewrite decide_False in Hb1 by lia. exact Hb1. }
  rewrite decide_True in Hb1 by lia. split; [exact Hb1|].
  set (n1 := netflow_add_out_port n (re_iface re)) in *. set (s0 := <[flow := n1]> s) in *.
  (* the request at B *)
  set (reqB := hop portB tB req).
  assert (alter (hop portB tB) q (<[q := req]> s0) = <[q := reqB]> s0) as HsB
    by (by rewrite alter_insert_eq).
  pose proof (l2_recv_request B (<[q := reqB]> s0) q reqB xb pb ib) as HB.
  assert (nf_match reqB = (request_key pa ia ip) <| in_port := portB |>) as HmB
    by (by rewrite <- Hrm).
  rewrite HmB in HB.
  specialize (HB (lookup_insert_eq _ _ _) HpB ltac:(by left) eq_refl eq_refl HiB (eq_sym HipB)).
  (* the reply at A *)
  set (rep := (recv_arp_request B pb reqB).2) in *. set (repA := hop (re_iface re) tA rep).
  assert (nf_match repA = reply_key pa pb ia ip (re_iface re)) as HmA by (by apply answer_key).
  assert (alter (hop (re_iface re) tA) q (<[q := rep]> (<[q := reqB]> s0)) = <[q := repA]> s0)
    as HsA by (by rewrite alter_insert_eq, insert_insert_eq).
  destruct (l2_recv_reply (A <| ln_base; n_flow_buff := b |>) (<[q := repA]> s0) q repA xa pa l
    flow n1) as (b' & HA & Hb2); rewrite ?HmA;
    [apply lookup_insert_eq|exact HpA|by right|done|done|exact Hb1|done
    |rewrite lookup_insert_ne by done; apply lookup_insert_eq|].
  rewrite HmA in HA. change (arp_spa (reply_key _ _ _ _ _)) with ip in HA.
  change (arp_sha (reply_key _ _ _ _ _)) with (p_eth_address pb) in HA.
  change (in_port (reply_key _ _ _ _ _)) with (re_iface re) in HA.
  assert (take ETH_LEN (p_eth_address pb) = p_eth_address pb) as Htake by (apply take_ge; lia).
  do 5 eexists. split_and!; [rewrite HsB; exact HB|rewrite HsA; exact HA|..].
  - rewrite lookup_insert_eq. cbn [ae_eth_addr arp_table_entry_new]. by rewrite Htake.
  - apply arp_add_ok; [exact HwfA|exact HnoneA].
  - exact Htake.
  - exact Hb2.
Qed.

(** *** Witnesses: two nodes on 10.0.0.0/24 *)

Definition sample_mac (k : Z) : list Z := [2; 0; 0; 0; 0; k].
(** A node with one port. *)
Definition sample_ln (uuid k ip : Z) : outcome legacy_node :=
  r ← legacy_node_init uuid HOST;
  base ← node_add_port (ln_base r.2) 1 1 (sample_mac k) 1000000 1000000;
  legacy_node_set_intf_ipv4 (r.2 <| ln_base := base |>) 1 ip (prefix_mask 24).

Definition blank_rt : route_table := RouteTable (Patricia PNull 32 0) (Patricia PNull 128 0).
Definition the_ln (o : outcome legacy_node) : legacy_node :=
  match o with
  | Ok ln => ln
  | Fault _ => LegacyNode (node_init 0 HOST).2 None blank_rt
  end.
Definition sample_A : legacy_node := the_ln (sample_ln 0 1 0x0a000001).
Definition sample_B : legacy_node := the_ln (sample_ln 1 2 0x0a000002).
Definition port_of (ln : legacy_node) : port :=
  match node_port (ln_base ln) 1 with Some (_, p) => p | None => port_new 0 [] 0 0 end.

(** An IPv4 netflow of A for B, and a request of A for the address of B. *)
Definition sample_ip_flow : netflow :=
  set_key (λ m, m <| eth_type := ETH_TYPE_IP |> <| ipv4_dst := 0x0a000002 |>) netflow_init.
Definition sample_request : netflow :=
  set_key (λ m, m <| eth_type := ETH_TYPE_ARP |> <| arp_op := ARP_REQUEST |>
                  <| arp_tpa := 0x0a000002 |> <| arp_spa := 0x0a000001 |> <| in_port := 1 |>
                  <| eth_src := sample_mac 1 |> <| eth_dst := BCAST_ETH |>) netflow_init.

Lemma arp_request_answered_witness :
  ∃ ln' n', l2_recv_netflow sample_B {[ 7%nat := sample_request ]} 7
              = Ok (ln', <[7%nat := n']> {[ 7%nat := sample_request ]}, Some 7%nat) ∧
    arp_op (nf_match n') = ARP_REPLY ∧ eth_dst (nf_match n') = sample_mac 1 ∧
    arp_sha (nf_match n') = sample_mac 2.
Proof.
  destruct (arp_request_answered sample_B {[ 7%nat := sample_request ]} 7 sample_request 1
    (port_of sample_B) (Ipv4Info 0x0a000002 (prefix_mask 24)))
    as (ln' & n' & Hr & _ & Hop & Hdst & _ & Hsha & _).
  - apply lookup_insert_eq.
  - vm_compute. reflexivity.
  - by left.
  - reflexivity.
  - reflexivity.
  - vm_compute. reflexivity.
  - reflexivity.
  - vm_compute. exact I.
  - exists ln', n'. split; [exact Hr|]. split; [exact Hop|]. split; [exact Hdst|].
    rewrite Hsha. vm_compute. reflexivity.
Defined.

Lemma arp_resolution_round_trip_witness :
  ∃ A1 s1 req B1 s2 A2 s3,
    find_forwarding_ports sample_A {[ 7%nat := sample_ip_flow ]} 7 false = Ok (A1, s1, Some req) ∧
    l2_recv_netflow sample_B (alter (hop 1 10) req s1) req = Ok (B1, s2, Some req) ∧
    l2_recv_netflow A1 (alter (hop 1 20) req s2) req = Ok (A2, s3, Some 7%nat) ∧
    s3 !! 7%nat = Some (set_key (λ m, m <| eth_dst := sample_mac 2 |>)
      ((netflow_add_out_port sample_ip_flow 1) <| nf_start_time := 20 |>)).
Proof.
  destruct (arp_resolution_round_trip sample_A sample_B {[ 7%nat := sample_ip_flow ]} 7
    sample_ip_flow false (RouteEntry 0x0a000000 (prefix_mask 24) 0 1 0 0) 0x0a000002 (port_of sample_A) 1
    (Ipv4Info 0x0a000001 (prefix_mask 24)) [] (port_of sample_B) 1
    (Ipv4Info 0x0a000002 (prefix_mask 24)) 1 10 20)
    as (A1 & s1 & req & H1 & _ & _ & B1 & s2 & A2 & s3 & e & H2 & H3 & H4 & _).
  - apply lookup_insert_eq.
  - reflexivity.
  - vm_compute. reflexivity.
  - reflexivity.
  - discriminate.
  - vm_compute. exact I.
  - vm_compute. reflexivity.
  - vm_compute. reflexivity.
  - vm_compute. reflexivity.
  - split; [reflexivity|reflexivity|reflexivity|simpl; lia|by intros ? ? ?].
  - vm_compute. exact I.
  - vm_compute. reflexivity.
  - vm_compute. reflexivity.
  - reflexivity.
  - vm_compute. reflexivity.
  - exists A1, s1, req, B1, s2, A2, s3. split; [exact H1|]. split; [exact H2|].
    split; [exact H3|]. exact H4.
Defined.
