(* ===== verification/Host.v ===== *)
(** * Host: end points and their applications

    Models [net/app/app.c], [net/app/ping.c], [net/app/raw_udp.c] and
    [net/host.c].  An application is identified by the IP protocol it listens to;
    its two function pointers are the constructors of [app_code] ([AppUnset] when
    the type is unknown: the pointers are then left uninitialised).  An execution
    ([struct exec]) keeps a private copy of the argument bytes, which the start
    function reads as its own argument struct.

    The theorems: a host answers an echo request with a reply to the sender; the
    traffic of the UDP generator is the largest number of whole packets within its
    rate; starting an application consumes one execution and yields a netflow with
    the source address of its output port, or a request for the address of the
    next hop. *)

From stdpp Require Import prelude gmap.
From S2P Require Import Prelude Util Uthash Action FlowKey Netflow Packet Node.
From S2P Require Import Patricia RouteTable LegacyNode.

(** ** raw_udp.c *)

Record raw_udp_args := RawUdpArgs {
  ru_rate : Z; ru_ip_dst : Z; ru_dst_port : Z; ru_src_port : Z }.

(** The memory of the struct. *)
Definition raw_udp_args_read (args : list Z) : outcome raw_udp_args :=
  m ← mem_read args 0 16;
  Ok (RawUdpArgs (le_val (fld 0 8 m)) (le_val (fld 8 4 m)) (le_val (fld 12 2 m))
        (le_val (fld 14 2 m))).

(** Nothing is done with a received flow. *)
Definition raw_udp_handle_netflow (flow : netflow) : netflow * Z := (flow, 0).

Definition raw_udp_flow (start : Z) (flow : netflow) (args : raw_udp_args) : netflow :=
  let pkt_size := 1470 + 34 in
  let pkt_cnt := ru_rate args / (pkt_size * 8) in
  let byte_cnt := u64 (pkt_cnt * pkt_size) in
  (set_key (λ m, m <| eth_type := ETH_TYPE_IP |> <| ip_proto := IP_PROTO_UDP |>
                   <| ipv4_dst := ru_ip_dst args |> <| udp_src := ru_src_port args |>
                   <| udp_dst := ru_dst_port args |>) flow)
    <| nf_pkt_cnt := pkt_cnt |> <| nf_byte_cnt := byte_cnt |> <| nf_start_time := start |>.

Definition raw_udp_start (start : Z) (args : list Z) : outcome netflow :=
  a ← raw_udp_args_read args;
  Ok (raw_udp_flow start netflow_init a).

(** ** ping.c *)

(** The round-trip time that is logged for a reply. *)
Definition ping_rtt (flow : netflow) : Z :=
  u64 (nf_start_time flow - le_val (take 8 (icmp_data flow))).

Definition ping_handle_netflow (flow : netflow) : netflow * Z :=
  if icmpv4_type (nf_match flow) =? ECHO then
    (set_key (λ m, m <| icmpv4_type := ECHO_REPLY |> <| ipv4_dst := ipv4_src m |>) flow, 1)
  else (flow, 0).

Definition ping_request (start : Z) (flow : netflow) (ip_dst : Z) : netflow :=
  (set_key (λ m, m <| eth_type := ETH_TYPE_IP |> <| ip_proto := IP_PROTO_ICMPV4 |>
                   <| ipv4_dst := ip_dst |> <| icmpv4_type := ECHO |>
                   <| icmpv4_code := 0 |>) flow)
    <| nf_pkt_cnt := 1 |> <| nf_byte_cnt := 64 |>
    <| nf_info ::= λ i, patch 4 (le_bytes 8 start) (patch 0 (le_bytes 2 0x42)
                          (patch 2 (le_bytes 2 0) i)) |>
    <| nf_start_time := start |>.

Definition ping_start (start : Z) (ip_dst : list Z) : outcome netflow :=
  ip ← mem_read ip_dst 0 4;
  Ok (ping_request start netflow_init (le_val ip)).

(** ** app.c *)

(** [enum app_type] *)
Definition PINGV4 : Z := 1.
Definition UDP : Z := 17.

Inductive app_code := AppRawUdp | AppPing | AppUnset.
Record app := App { app_type : Z; app_fns : app_code }.
#[export] Instance app_keyed : Keyed app := λ a, le_bytes 2 (app_type a).

Definition app_creator (type : Z) : app :=
  App type (if type =? UDP then AppRawUdp else if type =? PINGV4 then AppPing else AppUnset).

(** Calls through the function pointers. *)
Definition app_handle_netflow (a : app) (flow : netflow) : outcome (netflow * Z) :=
  match app_fns a with
  | AppRawUdp => Ok (raw_udp_handle_netflow flow)
  | AppPing => Ok (ping_handle_netflow flow)
  | AppUnset => Fault Indeterminate
  end.
Definition app_start (a : app) (start : Z) (args : list Z) : outcome netflow :=
  match app_fns a with
  | AppRawUdp => raw_udp_start start args
  | AppPing => ping_start start args
  | AppUnset => Fault Indeterminate
  end.

Record exec := Exec {
  ex_id : Z; ex_type : Z; ex_exec_cnt : Z; ex_start_time : Z; ex_args : list Z }.
#[export] Instance eta_exec : Eta exec := λ e,
  Exec (ex_id e) (ex_type e) (ex_exec_cnt e) (ex_start_time e) (ex_args e).
#[export] Instance exec_keyed : Keyed exec := λ e, le_bytes 8 (ex_id e).

(** [args] is copied. *)
Definition app_new_exec (id type execs_num start_time : Z) (args : list Z) (arg_size : nat)
  : outcome exec :=
  a ← mem_read args 0 arg_size;
  Ok (Exec id type execs_num start_time a).

(** ** host.c *)

Record host := Host { h_ep : legacy_node; h_apps : uthash app; h_execs : uthash exec }.
#[export] Instance eta_host : Eta host := λ h, Host (h_ep h) (h_apps h) (h_execs h).

Definition host_new (current_uuid : Z) : outcome (Z * host) :=
  r ← legacy_node_init current_uuid HOST;
  Ok (r.1, Host r.2 None None).

Definition host_add_port (h : host) (a : addr) (port_id : Z) (eth_addr : list Z)
    (speed curr_speed : Z) : outcome host :=
  base ← node_add_port (ln_base (h_ep h)) a port_id eth_addr speed curr_speed;
  Ok (h <| h_ep; ln_base := base |>).

Definition host_set_intf_ipv4 (h : host) (port_id addr netmask : Z) : outcome host :=
  ep ← legacy_node_set_intf_ipv4 (h_ep h) port_id addr netmask;
  Ok (h <| h_ep := ep |>).

Definition host_add_app (h : host) (type : Z) : host :=
  h <| h_apps ::= λ t, HASH_ADD (fresh_addr t) (app_creator type) t |>.

(** The key is the first two bytes of the 32-bit [type]. *)
Definition host_find_app (h : host) (type : Z) : option app :=
  snd <$> HASH_FIND (le_bytes 2 type) (h_apps h).

Definition host_add_app_exec (h : host) (id type execs_num start_time : Z) (args : list Z)
    (arg_size : nat) : outcome host :=
  match host_find_app h type with
  | None => Ok h
  | Some _ =>
      e ← app_new_exec id type execs_num start_time args arg_size;
      Ok (h <| h_execs ::= λ t, HASH_ADD (fresh_addr t) e t |>)
  end.

(** The loop over output ports that writes the source addresses of the last of
    them; port and address are dereferenced. *)
Fixpoint fill_source (base : node) (ports : list Z) (n : netflow) : outcome netflow :=
  match ports with
  | [] => Ok n
  | op :: ports =>
      pp ← deref (node_port base op);
      ip ← deref (p_ipv4_addr pp.2);
      fill_source base ports
        (set_key (λ m, m <| ipv4_src := v4_addr ip |> <| eth_src := p_eth_address pp.2 |>) n)
  end.

(** [fill_source] on the heap object [f], over the ports of object [from]. *)
Definition fill_source_at (base : node) (s : nf_store) (from f : addr) : outcome nf_store :=
  src ← nf_load s from;
  n ← nf_load s f;
  n ← fill_source base (nf_out_ports src) n;
  Ok (<[f := n]> s).

(** An IP flow that has passed the MAC filter. *)
Definition host_deliver (h : host) (s : nf_store) (flow : addr)
  : outcome (host * nf_store * option addr) :=
  n ← nf_load s flow;
  if is_l3_destination (h_ep h) n then
    match host_find_app h (ip_proto (nf_match n)) with
    | None => Ok (h, s, None)
    | Some a =>
        r ← app_handle_netflow a n;
        let '(n, ret) := r in
        let s := <[flow := n]> s in
        if ret =? 0 then Ok (h, s, None)
        else
          r ← find_forwarding_ports (h_ep h) s flow false;
          let '(ep, s, f) := r in
          let h := h <| h_ep := ep |> in
          match f with
          | None => Ok (h, s, None)
          | Some f => s ← fill_source_at (ln_base ep) s flow f; Ok (h, s, Some f)
          end
    end
  else Ok (h, s, None).

Definition is_ip_type (t : Z) : bool := (t =? ETH_TYPE_IP) || (t =? ETH_TYPE_IPV6).

Definition host_recv_netflow (h : host) (s : nf_store) (flow : addr)
  : outcome (host * nf_store * option addr) :=
  n ← nf_load s flow;
  let type := eth_type (nf_match n) in
  r ← l2_recv_netflow (h_ep h) s flow;
  let '(ep, s, nf) := r in
  let h := h <| h_ep := ep |> in
  match nf with
  | None => Ok (h, s, None)
  | Some nf =>
      if is_ip_type type then host_deliver h s nf
      else if type =? ETH_TYPE_ARP then
        m ← nf_load s nf;
        if is_ip_type (eth_type (nf_match m)) then
          s ← fill_source_at (ln_base ep) s nf nf; Ok (h, s, Some nf)
        else Ok (h, s, Some nf)
      else Ok (h, s, None)
  end.

Definition host_send_netflow (h : host) (n : netflow) (out_port : Z) : host :=
  h <| h_ep; ln_base ::= λ b, node_update_port_stats b n out_port |>.

(** [exec] is the address of an element of the table of executions. *)
Definition exec_at (h : host) (a : addr) : option exec :=
  snd <$> first (λ av, bool_decide (av.1 = a)) (ht_elems (h_execs h)).

Definition host_execute_app (h : host) (s : nf_store) (exec : addr)
  : outcome (host * nf_store * option addr) :=
  e ← deref (exec_at h exec);
  match host_find_app h (ex_type e) with
  | None => Ok (h, s, None)
  | Some a =>
      n ← app_start a (ex_start_time e) (ex_args e);
      let '(s, flow) := nf_new s (n <| nf_exec_id := ex_id e |>) in
      let h := h <| h_execs ::= ht_update exec (λ e, e <| ex_exec_cnt ::= λ c, u32 (c - 1) |>) |> in
      r ← find_forwarding_ports (h_ep h) s flow false;
      let '(ep, s, f) := r in
      let h := h <| h_ep := ep |> in
      match f with
      | None => Ok (h, s, None)
      | Some f => s ← fill_source_at (ln_base ep) s f f; Ok (h, s, Some f)
      end
  end.

Definition host_set_default_gw (h : host) (ip port : Z) : outcome host :=
  rt ← add_ipv4_entry (ln_rt (h_ep h)) (RouteEntry 0 0 ip port 0 0);
  Ok (h <| h_ep; ln_rt := rt |>).

Definition host_set_name (h : host) (name : option (list Z)) : outcome (host * bool) :=
  r ← node_set_name (ln_base (h_ep h)) name;
  Ok (h <| h_ep; ln_base := r.1 |>, r.2).

Definition host_name (h : host) : list Z := n_name (ln_base (h_ep h)).
Definition host_port (h : host) (port_id : Z) : option (addr * port) :=
  node_port (ln_base (h_ep h)) port_id.
Definition host_uuid (h : host) : Z := n_uuid (ln_base (h_ep h)).

(** ** Forwarding to a known neighbour *)

(** The route of [ip] in [ln] leaves by port [re_iface re], towards a next hop
    whose MAC address is known, and the port has an address. *)
Record known_hop (ln : legacy_node) (ip : Z) (re : route_entry_v4) (mac : list Z)
    (p : port) (addr : Z) : Prop := {
  kh_route : ipv4_lookup (ln_rt ln) ip 0 = Ok (Some re);
  kh_next : (if re_gateway re =? 0 then ip else re_gateway re) ≠ 0;
  kh_mac : ae_eth_addr <$>
    arp_table_lookup (ln_at ln) (if re_gateway re =? 0 then ip else re_gateway re) = Some mac;
  kh_port : snd <$> node_port (ln_base ln) (re_iface re) = Some p;
  kh_addr : v4_addr <$> p_ipv4_addr p = Some addr }.

(** The netflow as it leaves. *)
Definition addressed (re : route_entry_v4) (mac : list Z) (p : port) (addr : Z) (n : netflow)
  : netflow :=
  set_key (λ m, m <| eth_dst := mac |> <| ipv4_src := addr |> <| eth_src := p_eth_address p |>)
    (netflow_add_out_port n (re_iface re)).

Lemma forward_known ln s flow n re mac p addr :
  s !! flow = Some n → nf_out_ports n = [] →
  known_hop ln (ipv4_dst (nf_match n)) re mac p addr →
  (r ← find_forwarding_ports ln s flow false;
   let '(ep, s, f) := r in
   match f with
   | None => Ok (ep, s, None)
   | Some f => s ← fill_source_at (ln_base ep) s f f; Ok (ep, s, Some f)
   end) = Ok (ln, <[flow := addressed re mac p addr n]> s, Some flow) ∧
  find_forwarding_ports ln s flow false =
    Ok (ln, <[flow := set_key (λ m, m <| eth_dst := mac |>)
                        (netflow_add_out_port n (re_iface re))]> s, Some flow).
Proof.
  intros Hs Hout [Hre Hnh Hmac Hp Haddr].
  apply fmap_Some in Hmac as (ae & Hae & ->). apply fmap_Some in Hp as ([x p'] & Hp & ->).
  apply fmap_Some in Haddr as (ip & Hip & ->).
  assert (find_forwarding_ports ln s flow false =
    Ok (ln, <[flow := set_key (λ m, m <| eth_dst := ae_eth_addr ae |>)
                        (netflow_add_out_port n (re_iface re))]> s, Some flow)) as Hf.
  { unfold find_forwarding_ports, ip_lookup, nf_load. rewrite Hs. cbn [deref mbind outcome_bind].
    rewrite Hre. cbn [mbind outcome_bind]. rewrite (proj2 (Z.eqb_neq _ _)) by done.
    unfold resolve_mac, nf_load. rewrite lookup_insert_eq. cbn [deref mbind outcome_bind].
    rewrite Hae. by rewrite insert_insert_eq. }
  split; [|done]. rewrite Hf. cbn [mbind outcome_bind].
  unfold fill_source_at, nf_load. rewrite lookup_insert_eq. cbn [deref mbind outcome_bind].
  cbn [nf_out_ports set_key netflow_add_out_port setf]. rewrite Hout. cbn [Datatypes.app fill_source].
  rewrite Hp. cbn [deref mbind outcome_bind snd]. simpl in Hip. rewrite Hip.
  cbn [deref mbind outcome_bind]. by rewrite insert_insert_eq.
Qed.

(** ** Correctness *)

(** The UDP generator sends whole packets of 1504 bytes, as many as fit in the
    rate (bits per second): the byte count is exact and cannot overflow. *)
Theorem raw_udp_rate start flow args :
  in_width 64 (ru_rate args) →
  let n := raw_udp_flow start flow args in
  nf_byte_cnt n = 1504 * nf_pkt_cnt n ∧
  8 * nf_byte_cnt n ≤ ru_rate args < 8 * (nf_byte_cnt n + 1504).
Proof.
  intros [H0 H1]. cbn [raw_udp_flow nf_byte_cnt nf_pkt_cnt setf set_key].
  change ((1470 + 34) * 8) with 12032. change (1470 + 34) with 1504.
  set (k := ru_rate args / 12032).
  assert (12032 * k ≤ ru_rate args < 12032 * (k + 1)) as Hk.
  { unfold k. pose proof (Z.div_mod (ru_rate args) 12032). pose proof (Z.mod_pos_bound (ru_rate args) 12032). lia. }
  assert (0 ≤ k) by (apply Z.div_pos; lia).
  rewrite wrap_small by (split; lia). lia.
Qed.

Lemma ping_handle_reply n :
  icmpv4_type (nf_match n) = ECHO_REPLY → ping_handle_netflow n = (n, 0).
Proof. intros H. unfold ping_handle_netflow. by rewrite H. Qed.

(** A ping measures the round trip: the request carries its start time, the
    receiver turns it into a reply without touching the time stamp, and the sender
    that gets the reply at time [t] logs [t] minus the start time. *)
Theorem ping_measures_round_trip start ip t :
  in_width 64 start → in_width 32 ip →
  ∃ req, ping_start start (le_bytes 4 ip) = Ok req ∧
    ipv4_dst (nf_match req) = ip ∧
    ∀ src, let reply := ping_handle_netflow
                 (req <| nf_match; ipv4_src := src |> <| nf_start_time := t |>) in
      reply.2 = 1 ∧ ipv4_dst (nf_match reply.1) = src ∧
      icmpv4_type (nf_match reply.1) = ECHO_REPLY ∧
      ping_handle_netflow reply.1 = (reply.1, 0) ∧
      ping_rtt reply.1 = u64 (t - start).
Proof.
  intros Hs Hip. unfold ping_start.
  assert (mem_read (le_bytes 4 ip) 0 4 = Ok (le_bytes 4 ip)) as -> by done.
  cbn [mbind outcome_bind]. rewrite (le_val_bytes 4 ip), wrap_small by exact Hip.
  eexists. split; [reflexivity|]. split; [done|]. intros src. cbv zeta.
  assert (ping_rtt (netflow_init <| nf_start_time := t |>
    <| nf_info ::= λ i, patch 4 (le_bytes 8 start) (patch 0 (le_bytes 2 0x42)
                          (patch 2 (le_bytes 2 0) i)) |>) = u64 (t - start)) as Hr.
  { unfold ping_rtt. cbn [nf_start_time setf]. f_equal. f_equal.
    transitivity (le_val (le_bytes 8 start)); [reflexivity|].
    rewrite le_val_bytes. exact (wrap_small 64 start Hs). }
  split; [reflexivity|]. split; [reflexivity|]. split; [reflexivity|].
  split; [by apply ping_handle_reply|exact Hr].
Qed.

(** C29. A host answers pings: an echo request for its address becomes a reply to
    the sender, from the address of the port the route back names, addressed to the
    MAC address of the next hop, with the data of the request; nothing else in the
    host changes. *)
Theorem host_answers_ping h s flow n p ip a re mac po addr :
  s !! flow = Some n → nf_out_ports n = [] → eth_type (nf_match n) = ETH_TYPE_IP →
  ip_proto (nf_match n) = IP_PROTO_ICMPV4 → icmpv4_type (nf_match n) = ECHO →
  host_port h (in_port (nf_match n)) = Some p → for_port p.2 (nf_match n) →
  p_ipv4_addr p.2 = Some ip → ipv4_dst (nf_match n) = v4_addr ip → v4_addr ip ≠ 0 →
  host_find_app h PINGV4 = Some a → app_fns a = AppPing →
  known_hop (h_ep h) (ipv4_src (nf_match n)) re mac po addr →
  host_recv_netflow h s flow =
    Ok (h, <[flow := addressed re mac po addr
               (set_key (λ m, m <| icmpv4_type := ECHO_REPLY |>
                                <| ipv4_dst := ipv4_src (nf_match n) |>) n)]> s, Some flow).
Proof.
  intros Hs Hout Ht Hpr Hty Hp Hfor Hip Hdst Hne Happ Hfn Hk.
  assert (l2_recv_netflow (h_ep h) s flow = Ok (h_ep h, s, Some flow)) as Hl2.
  { unfold l2_recv_netflow, nf_load. rewrite Hs. cbn [deref mbind outcome_bind].
    unfold host_port in Hp. destruct p as [x p]. rewrite Hp.
    rewrite (for_port_accepts p (nf_match n) Hfor), Ht. done. }
  assert (h <| h_ep := h_ep h |> = h) as Heta by (by destruct h).
  unfold host_recv_netflow, nf_load. rewrite Hs. cbn [deref mbind outcome_bind].
  rewrite Hl2. cbn [mbind outcome_bind]. rewrite Heta, Ht.
  change (is_ip_type ETH_TYPE_IP) with true. cbv iota.
  unfold host_deliver, nf_load. rewrite Hs. cbn [deref mbind outcome_bind].
  assert (is_l3_destination (h_ep h) n = true) as ->.
  { unfold is_l3_destination. unfold host_port in Hp. rewrite Hp. destruct p as [x p].
    simpl in Hip. rewrite Hip, Hdst. rewrite (proj2 (Z.eqb_neq _ _)) by done. apply Z.eqb_refl. }
  rewrite Hpr. change IP_PROTO_ICMPV4 with PINGV4. rewrite Happ.
  unfold app_handle_netflow. rewrite Hfn. cbn [mbind outcome_bind].
  unfold ping_handle_netflow. rewrite Hty. change (ECHO =? ECHO) with true. cbv iota.
  set (n' := set_key _ n).
  destruct (forward_known (h_ep h) (<[flow := n']> s) flow n' re mac po addr) as [Hall Hf];
    [apply lookup_insert_eq|done|exact Hk|].
  rewrite Hf in Hall |- *. cbn [mbind outcome_bind] in Hall |- *.
  change (1 =? 0) with false. cbv iota. rewrite Heta.
  apply outcome_bind_Ok in Hall as (s' & Hfill & [= ->]). rewrite Hfill.
  cbn [mbind outcome_bind]. by rewrite insert_insert_eq.
Qed.

Lemma first_ext_fmap {A B} (f : A → B) (P : A → bool) (Q : B → bool) l :
  (∀ x, Q (f x) = P x) → first Q (f <$> l) = f <$> first P l.
Proof.
  intros H. induction l as [|x l IH]; [done|]. simpl. rewrite H. by destruct (P x).
Qed.

(** Starting an application whose next hop is known: it yields the netflow of
    the application, marked with the execution, with the source address of the output
    port, on that port; one execution is consumed and no other execution changes. *)
Theorem host_execute_app_starts h s x e a n re mac po addr :
  ht_wf (h_execs h) → exec_at h x = Some e → host_find_app h (ex_type e) = Some a →
  app_start a (ex_start_time e) (ex_args e) = Ok n → nf_out_ports n = [] →
  known_hop (h_ep h) (ipv4_dst (nf_match n)) re mac po addr →
  ∃ h', host_execute_app h s x =
      Ok (h', <[fresh (dom s) := addressed re mac po addr (n <| nf_exec_id := ex_id e |>)]> s,
          Some (fresh (dom s))) ∧
    h_ep h' = h_ep h ∧ h_apps h' = h_apps h ∧
    exec_at h' x = Some (e <| ex_exec_cnt := u32 (ex_exec_cnt e - 1) |>) ∧
    ∀ y, y ≠ x → exec_at h' y = exec_at h y.
Proof.
  intros Hwf He Happ Hst Hout Hk. unfold host_execute_app. rewrite He.
  cbn [deref mbind outcome_bind]. rewrite Happ, Hst. cbn [mbind outcome_bind].
  unfold nf_new. set (f := fresh (dom s)). set (n' := n <| nf_exec_id := ex_id e |>).
  set (h1 := h <| h_execs ::= _ |>).
  destruct (forward_known (h_ep h) (<[f := n']> s) f n' re mac po addr) as [Hall Hf];
    [apply lookup_insert_eq|done|exact Hk|].
  rewrite Hf in Hall. cbn [mbind outcome_bind] in Hall.
  apply outcome_bind_Ok in Hall as (s' & Hfill & [= ->]).
  change (h_ep h1) with (h_ep h). rewrite Hf. cbn [mbind outcome_bind]. rewrite Hfill.
  cbn [mbind outcome_bind]. rewrite insert_insert_eq.
  eexists. split; [reflexivity|]. split; [done|]. split; [done|].
  destruct (ht_update_spec x (λ e, e <| ex_exec_cnt ::= λ c, u32 (c - 1) |>) (h_execs h) Hwf)
    as [_ Hel]; [done|].
  assert (∀ y, exec_at (h1 <| h_ep := h_ep h |>) y =
    (if decide (y = x) then λ e, e <| ex_exec_cnt ::= λ c, u32 (c - 1) |> else id)
      <$> exec_at h y) as Hat.
  { intros y. unfold exec_at.
    change (h_execs (h1 <| h_ep := h_ep h |>)) with
      (ht_update x (λ e, e <| ex_exec_cnt ::= λ c, u32 (c - 1) |>) (h_execs h)).
    rewrite Hel.
    rewrite (first_ext_fmap (elem_update x _) (λ av, bool_decide (av.1 = y))).
    2: { intros [z v]. unfold elem_update. cbn [fst]. destruct (decide (z = x)) as [->|]; done. }
    destruct (first _ (ht_elems (h_execs h))) as [[z v]|] eqn:E; [|by destruct (decide _)].
    apply first_Some in E as [_ E]. apply bool_decide_eq_true in E as <-. simpl.
    unfold elem_update. cbn [fst]. destruct (decide (z = x)) as [->|]; done. }
  split; [by rewrite Hat, He, decide_True|].
  intros y Hy. rewrite Hat, decide_False by done. by destruct (exec_at h y).
Qed.

(** *** Witnesses: a host 10.0.0.1 that knows its neighbour 10.0.0.2 *)

Definition sample_host_setup : outcome host :=
  r ← host_new 0;
  h ← host_add_port r.2 1 1 (sample_mac 1) 1000000 1000000;
  h ← host_set_intf_ipv4 h 1 0x0a000001 (prefix_mask 24);
  let h := host_add_app h PINGV4 in
  h ← host_add_app_exec h 5 PINGV4 3 100 (le_bytes 4 0x0a000002) 4;
  Ok (h <| h_ep; ln_at ::= λ t, arp_table_add_entry t
             (arp_table_entry_new 0x0a000002 (sample_mac 2) 1) |>).
Definition sample_host : host :=
  match sample_host_setup with
  | Ok h => h
  | Fault _ => Host (the_ln (Fault Aborted)) None None
  end.
Definition sample_route : route_entry_v4 := RouteEntry 0x0a000000 (prefix_mask 24) 0 1 0 0.
Definition sample_echo : netflow :=
  set_key (λ m, m <| eth_type := ETH_TYPE_IP |> <| ip_proto := IP_PROTO_ICMPV4 |>
                  <| icmpv4_type := ECHO |> <| in_port := 1 |> <| eth_dst := sample_mac 1 |>
                  <| ipv4_src := 0x0a000002 |> <| ipv4_dst := 0x0a000001 |>) netflow_init.

Lemma sample_host_hop :
  known_hop (h_ep sample_host) 0x0a000002 sample_route (sample_mac 2)
    (port_of (h_ep sample_host)) 0x0a000001.
Proof. split; vm_compute; congruence. Qed.

Lemma raw_udp_rate_witness :
  let n := raw_udp_flow 7 netflow_init (RawUdpArgs 1000000 1 2 3) in
  (nf_pkt_cnt n, nf_byte_cnt n) = (83, 124832) ∧ 8 * nf_byte_cnt n ≤ 1000000.
Proof.
  destruct (raw_udp_rate 7 netflow_init (RawUdpArgs 1000000 1 2 3)) as (_ & H & _).
  - split; vm_compute; congruence.
  - split; [vm_compute; reflexivity|exact H].
Defined.

Lemma ping_measures_round_trip_witness :
  ∃ req, ping_start 100 (le_bytes 4 0x0a000002) = Ok req ∧
    ping_rtt (ping_handle_netflow (req <| nf_match; ipv4_src := 1 |> <| nf_start_time := 350 |>)).1
    = 250.
Proof.
  destruct (ping_measures_round_trip 100 0x0a000002 350) as (req & H & _ & Hr);
    [split; vm_compute; congruence..|].
  exists req. split; [exact H|]. destruct (Hr 1) as (_ & _ & _ & _ & ->). reflexivity.
Defined.

Lemma host_answers_ping_witness :
  ∃ n', host_recv_netflow sample_host {[ 7%nat := sample_echo ]} 7 =
          Ok (sample_host, <[7%nat := n']> {[ 7%nat := sample_echo ]}, Some 7%nat) ∧
    (icmpv4_type (nf_match n'), ipv4_dst (nf_match n'), ipv4_src (nf_match n'), nf_out_ports n')
    = (ECHO_REPLY, 0x0a000002, 0x0a000001, [1]).
Proof.
  eexists. split.
  - apply (host_answers_ping sample_host {[ 7%nat := sample_echo ]} 7 sample_echo
      (1%nat, port_of (h_ep sample_host)) (Ipv4Info 0x0a000001 (prefix_mask 24)) (App PINGV4 AppPing)
      sample_route (sample_mac 2) (port_of (h_ep sample_host)) 0x0a000001).
    + apply lookup_insert_eq.
    + reflexivity.
    + reflexivity.
    + reflexivity.
    + reflexivity.
    + vm_compute. reflexivity.
    + right. vm_compute. reflexivity.
    + vm_compute. reflexivity.
    + reflexivity.
    + discriminate.
    + vm_compute. reflexivity.
    + reflexivity.
    + exact sample_host_hop.
  - reflexivity.
Defined.

Lemma host_execute_app_starts_witness :
  ∃ h' s' f, host_execute_app sample_host ∅ 1 = Ok (h', s', Some f) ∧
    ex_exec_cnt <$> exec_at h' 1 = Some 2.
Proof.
  destruct (host_execute_app_starts sample_host ∅ 1
    (Exec 5 PINGV4 3 100 (le_bytes 4 0x0a000002)) (App PINGV4 AppPing)
    (ping_request 100 netflow_init 0x0a000002) sample_route (sample_mac 2)
    (port_of (h_ep sample_host)) 0x0a000001) as (h' & Hr & _ & _ & He & _).
  - assert (h_execs sample_host = HASH_ADD 1 (Exec 5 PINGV4 3 100 (le_bytes 4 0x0a000002)) None)
      as -> by (vm_compute; reflexivity).
    apply HASH_ADD_spec; [done|apply not_elem_of_nil].
  - vm_compute. reflexivity.
  - vm_compute. reflexivity.
  - vm_compute. reflexivity.
  - reflexivity.
  - exact sample_host_hop.
  - do 3 eexists. split; [exact Hr|]. rewrite He. reflexivity.
Defined.
