(* ===== verification/Router.v ===== *)
(** * Router: IP forwarding and routes from the routing daemons

    Models [net/router.c]: a legacy node with a router id, equal-cost
    multi-path switch and routing daemon, and the generator of internal addresses.
    [router_start], [router_stop] and the calls of the daemon are in [Daemons].

    The theorems: a router counts what it receives and forwards an IP netflow
    that is not for itself along its routing table; a FIB message installs
    exactly its routes; the internal addresses are distinct until the network is
    used up. *)

From stdpp Require Import prelude gmap.
From S2P Require Import Prelude Util Uthash Action FlowKey Netflow Packet Node.
From S2P Require Import Patricia RouteTable LegacyNode Host RoutingMsg.

(** [r_daemon] is the address of the daemon object. *)
Record router := Router {
  r_ln : legacy_node; r_router_id : Z; r_ecmp : bool; r_daemon : option addr;
  r_ext_intfs : list (list Z) }.
#[export] Instance eta_router : Eta router := λ r,
  Router (r_ln r) (r_router_id r) (r_ecmp r) (r_daemon r) (r_ext_intfs r).

Definition router_new (current_uuid : Z) : outcome (Z * router) :=
  r ← legacy_node_init current_uuid ROUTER;
  Ok (r.1, Router r.2 0 false None []).

Definition router_add_port (r : router) (a : addr) (port_id : Z) (eth_addr : list Z)
    (speed curr_speed : Z) : outcome router :=
  base ← node_add_port (ln_base (r_ln r)) a port_id eth_addr speed curr_speed;
  Ok (r <| r_ln; ln_base := base |>).
Definition router_add_external_intf (r : router) (intf : list Z) : router :=
  r <| r_ext_intfs ::= λ l, l ++ [intf] |>.
Definition router_set_quagga_daemon (r : router) (d : addr) : router := r <| r_daemon := Some d |>.
Definition router_set_exabgp_daemon (r : router) (d : addr) : router := r <| r_daemon := Some d |>.
Definition router_set_intf_ipv4 (r : router) (port_id addr netmask : Z) : outcome router :=
  ln ← legacy_node_set_intf_ipv4 (r_ln r) port_id addr netmask;
  Ok (r <| r_ln := ln |>).
Definition router_port (r : router) (port_id : Z) : option (addr * port) :=
  node_port (ln_base (r_ln r)) port_id.
Definition router_set_name (r : router) (name : option (list Z)) : outcome (router * bool) :=
  x ← node_set_name (ln_base (r_ln r)) name;
  Ok (r <| r_ln; ln_base := x.1 |>, x.2).
Definition router_set_ecmp (r : router) (enable : bool) : router := r <| r_ecmp := enable |>.
Definition router_set_id (r : router) (id : Z) : router := r <| r_router_id := id |>.
Definition router_name (r : router) : list Z := n_name (ln_base (r_ln r)).
Definition router_uuid (r : router) : Z := n_uuid (ln_base (r_ln r)).
Definition router_id (r : router) : Z := r_router_id r.

(** Receive counters of the input port. *)
Definition router_count_rx (n : netflow) (r : router) : router :=
  match router_port r (in_port (nf_match n)) with
  | Some (a, _) =>
      r <| r_ln; ln_base ::= port_update a (λ p, p
             <| p_stats; rx_bytes ::= λ c, u64 (c + nf_byte_cnt n) |>
             <| p_stats; rx_packets ::= λ c, u64 (c + nf_pkt_cnt n) |>) |>
  | None => r
  end.

Definition router_recv_netflow (r : router) (s : nf_store) (flow : addr)
  : outcome (router * nf_store * option addr) :=
  n ← nf_load s flow;
  let r := router_count_rx n r in
  let type := eth_type (nf_match n) in
  x ← l2_recv_netflow (r_ln r) s flow;
  let '(ln, s, nf) := x in
  let r := r <| r_ln := ln |> in
  match nf with
  | None => Ok (r, s, None)
  | Some nf =>
      if is_ip_type type then
        m ← nf_load s nf;
        if is_l3_destination ln m then Ok (r, s, None)
        else
          x ← find_forwarding_ports ln s nf (r_ecmp r);
          let '(ln, s, f) := x in Ok (r <| r_ln := ln |>, s, f)
      else if type =? ETH_TYPE_ARP then Ok (r, s, Some nf)
      else Ok (r, s, None)
  end.

Definition router_send_netflow (r : router) (n : netflow) (out_port : Z) : router :=
  r <| r_ln; ln_base ::= λ b, node_update_port_stats b n out_port |>.

(** One prefix of a FIB message. *)
Definition fib_entry (rt : route_table) (addr netmask next_hop : Z)
  : outcome route_table :=
  re ← ipv4_lookup rt next_hop 0;
  let port_id := match re with Some re => re_iface re | None => 0 end in
  add_ipv4_entry rt (RouteEntry (Z.land addr netmask) netmask next_hop port_id 0 0).

(** Twelve bytes are read in each round. *)
Fixpoint fib_loop (rt : route_table) (data : list Z) (entries : Z) {struct data}
  : outcome route_table :=
  if entries =? 0 then Ok rt
  else
    match data with
    | a0 :: a1 :: a2 :: a3 :: m0 :: m1 :: m2 :: m3 :: h0 :: h1 :: h2 :: h3 :: data =>
        rt ← fib_entry rt (be_val [a0; a1; a2; a3]) (be_val [m0; m1; m2; m3])
               (be_val [h0; h1; h2; h3]);
        fib_loop rt data (entries - 1)
    | _ => Fault OutOfBounds
    end.

Definition fib_add (r : router) (data : list Z) (len : Z) : outcome router :=
  rt ← fib_loop (ln_rt (r_ln r)) data (len / 12);
  Ok (r <| r_ln; ln_rt := rt |>).

(** [msg->size - HEADER_LEN] is converted to [size_t].  There is never a reply
    ([NULL]). *)
Definition router_handle_control_message (r : router) (data : list Z) : outcome router :=
  msg ← routing_msg_unpack data;
  if rm_type msg =? ROUTER_FIB
  then fib_add r (drop (Z.to_nat HEADER_LEN) data) (u64 (rm_size msg - HEADER_LEN))
  else Ok r.

(** The last two bytes of the internal network 172.20.0.0/16; [None] when the
    function returns without writing an address. *)
Record internal_net_bytes := InternalBytes { ib_third : Z; ib_fourth : Z }.
Definition gen_internal_ip (b : internal_net_bytes) : internal_net_bytes * option (list Z) :=
  let done b := (b, Some [172; 20; ib_third b; ib_fourth b]) in
  if ib_fourth b <? 254 then done (InternalBytes (ib_third b) (u8 (ib_fourth b + 1)))
  else if ib_third b =? 254 then (b, None)
  else done (InternalBytes (u8 (ib_third b + 1)) 1).

(** ** Internal addresses *)

(** The state after [k] routers have been started. *)
Definition internal_after (k : Z) : internal_net_bytes :=
  if k =? 0 then InternalBytes 0 0 else InternalBytes ((k - 1) / 254) ((k - 1) mod 254 + 1).
Definition INTERNAL_MAX : Z := 255 * 254.

(** The generator counts: call [k + 1] (for [k] below 64770) gives address number
    [k + 1] of the internal network, a different one each time, with no byte 0 or 255 in
    the last place; when all are used, it writes none. *)
Theorem gen_internal_ip_counts k :
  0 ≤ k ≤ INTERNAL_MAX →
  (k < INTERNAL_MAX →
   gen_internal_ip (internal_after k) =
   (internal_after (k + 1), Some [172; 20; k / 254; k mod 254 + 1])) ∧
  (k = INTERNAL_MAX → gen_internal_ip (internal_after k) = (internal_after k, None)) ∧
  ∀ j, 0 ≤ j < k → (k < INTERNAL_MAX) →
    [172; 20; j / 254; j mod 254 + 1] ≠ [172; 20; k / 254; k mod 254 + 1].
Proof.
  unfold INTERNAL_MAX. intros Hk. split; [|split].
  - intros Hlt. unfold internal_after. rewrite (proj2 (Z.eqb_neq (k + 1) 0)) by lia.
    replace (k + 1 - 1) with k by lia.
    destruct (Z.eqb_spec k 0) as [->|Hne]; [reflexivity|].
    pose proof (Z.div_mod (k - 1) 254 ltac:(lia)). pose proof (Z.mod_pos_bound (k - 1) 254 ltac:(lia)).
    assert ((k - 1) / 254 ≤ 254) by (apply Z.lt_succ_r, Z.div_lt_upper_bound; lia).
    assert (0 ≤ (k - 1) / 254) by (apply Z.div_pos; lia).
    unfold gen_internal_ip. cbn [ib_third ib_fourth].
    destruct (Z.ltb_spec ((k - 1) mod 254 + 1) 254) as [Hl|Hg].
    + assert (k / 254 = (k - 1) / 254 ∧ k mod 254 = (k - 1) mod 254 + 1) as [-> ->].
      { split; [symmetry; apply (Z.div_unique k 254 _ ((k - 1) mod 254 + 1)); lia|].
        symmetry. apply (Z.mod_unique k 254 ((k - 1) / 254)); lia. }
      rewrite wrap_small by (split; lia). do 2 f_equal.
    + assert (k / 254 = (k - 1) / 254 + 1 ∧ k mod 254 = 0) as [Hd Hm].
      { split; [symmetry; apply (Z.div_unique k 254 _ 0); lia|].
        symmetry. apply (Z.mod_unique k 254 ((k - 1) / 254 + 1)); lia. }
      assert (k / 254 ≤ 254) by (apply Z.lt_succ_r, Z.div_lt_upper_bound; lia).
      rewrite (proj2 (Z.eqb_neq _ _)) by lia. rewrite wrap_small by (split; lia).
      by rewrite Hd, Hm.
  - intros ->. reflexivity.
  - intros j Hj Hlt [= Hd Hm]. pose proof (Z.div_mod j 254 ltac:(lia)).
    pose proof (Z.div_mod k 254 ltac:(lia)). lia.
Qed.

Lemma gen_internal_ip_counts_witness :
  gen_internal_ip (internal_after 254) = (internal_after 255, Some [172; 20; 1; 1]).
Proof.
  destruct (gen_internal_ip_counts 254) as [H _]; [unfold INTERNAL_MAX; lia|].
  apply H. unfold INTERNAL_MAX. lia.
Defined.

(** ** FIB messages *)

(** A prefix of a message: address, prefix length, next hop. *)
Record fib_prefix := FibPrefix { fp_addr : Z; fp_len : nat; fp_next_hop : Z }.
Definition fib_prefix_wf (f : fib_prefix) : Prop :=
  in_width 32 (fp_addr f) ∧ (fp_len f ≤ 32)%nat ∧ in_width 32 (fp_next_hop f).
Definition fib_bytes (l : list fib_prefix) : list Z :=
  concat ((λ f, be_bytes 4 (fp_addr f) ++ be_bytes 4 (prefix_mask (fp_len f)) ++
                be_bytes 4 (fp_next_hop f)) <$> l).
(** The message that announces the prefixes. *)
Definition fib_message (router_id : Z) (l : list fib_prefix) : list Z :=
  hdr_bytes (RoutingMsg ROUTER_FIB (HEADER_LEN + 12 * Z.of_nat (length l)) router_id NoBody) ++
  fib_bytes l.
(** The route a prefix asks for; the output port depends on the table. *)
Definition fib_route (f : fib_prefix) (e : route_entry_v4) : Prop :=
  re_ip e = Z.land (fp_addr f) (prefix_mask (fp_len f)) ∧
  re_netmask e = prefix_mask (fp_len f) ∧ re_gateway e = fp_next_hop f.

Lemma prefix_mask_width p : (p ≤ 32)%nat → in_width 32 (prefix_mask p).
Proof.
  intros Hp. unfold prefix_mask. rewrite Z.land_comm. apply land_in_width; [lia|].
  by vm_compute; split.
Qed.

Lemma fib_entry_ok rt f : rt_wf rt → fib_prefix_wf f →
  ∃ rt' e, fib_entry rt (fp_addr f) (prefix_mask (fp_len f)) (fp_next_hop f) = Ok rt' ∧
    rt_wf rt' ∧ routes rt' ≡ₚ e :: routes rt ∧ fib_route f e.
Proof.
  intros Hwf (Ha & Hl & Hn). unfold fib_entry.
  assert (∃ re, ipv4_lookup rt (fp_next_hop f) 0 = Ok re) as [re ->].
  { destruct (ipv4_lookup_ok rt _ Hwf Hn) as [[H _]|(hops & _ & H & _)]; [eauto|].
    rewrite H; [eauto|by split]. }
  cbn [mbind outcome_bind]. set (e := RouteEntry _ _ _ _ _ _).
  destruct (add_ipv4_entry_ok rt e Hwf) as (rt' & E & Hwf' & Hr).
  { apply entry_wf_mask; [|done]. by apply land_in_width. }
  by exists rt', e.
Qed.

Lemma fib_loop_step rt a m h data k :
  length a = 4%nat → length m = 4%nat → length h = 4%nat → 0 ≤ k →
  fib_loop rt (a ++ m ++ h ++ data) (k + 1) =
  (rt ← fib_entry rt (be_val a) (be_val m) (be_val h); fib_loop rt data k).
Proof.
  intros Ha Hm Hh Hk.
  destruct a as [|? [|? [|? [|? [|]]]]], m as [|? [|? [|? [|? [|]]]]],
    h as [|? [|? [|? [|? [|]]]]]; try discriminate.
  cbn [Datatypes.app fib_loop]. rewrite (proj2 (Z.eqb_neq _ _)) by lia.
  by replace (k + 1 - 1) with k by lia.
Qed.

Lemma fib_loop_ok rt l extra : rt_wf rt → Forall fib_prefix_wf l →
  ∃ rt' es, fib_loop rt (fib_bytes l ++ extra) (Z.of_nat (length l)) = Ok rt' ∧ rt_wf rt' ∧
    Forall2 fib_route l es ∧ routes rt' ≡ₚ es ++ routes rt.
Proof.
  intros Hwf Hl. revert rt Hwf. induction Hl as [|f l Hf Hl IH]; intros rt Hwf.
  { exists rt, []. split_and!; [by destruct extra|done|constructor|done]. }
  destruct (fib_entry_ok rt f Hwf Hf) as (rt1 & e & E & Hwf1 & Hr1 & He).
  destruct (IH rt1 Hwf1) as (rt2 & es & E2 & Hwf2 & Hes & Hr2).
  exists rt2, (e :: es). destruct Hf as (Ha & Hp & Hn). split_and!; [|done|by constructor|].
  - unfold fib_bytes. rewrite fmap_cons. cbn [concat length]. rewrite <-!app_assoc.
    replace (Z.of_nat (S (length l))) with (Z.of_nat (length l) + 1) by lia.
    rewrite fib_loop_step by (apply be_bytes_length || lia).
    rewrite !be_val_in_width by (done || by apply prefix_mask_width). by rewrite E.
  - rewrite Hr2, Hr1. simpl. solve_Permutation.
Qed.

(** What follows the message in its buffer is not looked at. *)
Lemma fib_message_ok r id l extra :
  rt_wf (ln_rt (r_ln r)) → Forall fib_prefix_wf l → in_width 32 id →
  12 * Z.of_nat (length l) + 8 < 65536 →
  ∃ r' es, router_handle_control_message r (fib_message id l ++ extra) = Ok r' ∧
    rt_wf (ln_rt (r_ln r')) ∧ Forall2 fib_route l es ∧
    routes (ln_rt (r_ln r')) ≡ₚ es ++ routes (ln_rt (r_ln r)) ∧
    ln_base (r_ln r') = ln_base (r_ln r) ∧ ln_at (r_ln r') = ln_at (r_ln r).
Proof.
  intros Hwf Hl Hid Hlen. destruct (fib_loop_ok _ l extra Hwf Hl) as (rt' & es & E & Hwf' & Hes & Hr).
  set (size := HEADER_LEN + 12 * Z.of_nat (length l)).
  set (msg := RoutingMsg ROUTER_FIB size id NoBody).
  destruct (unpack_hdr msg (fib_bytes l ++ extra)) as (t & s & i & Ht & Vt & Hs & Vs & Hi & Vi);
    [by vm_compute; split
    |unfold msg; cbn [rm_size]; unfold size, HEADER_LEN, in_width; change (2 ^ 16) with 65536; lia
    |done|].
  unfold router_handle_control_message, fib_message, routing_msg_unpack. fold size. fold msg.
  rewrite <- app_assoc.
  rewrite Ht. cbn [mbind outcome_bind]. rewrite Vt. cbn [rm_type msg].
  change (ROUTER_FIB =? BGP_STATE) with false. change (ROUTER_FIB =? BGP_ANNOUNCE) with false.
  change ((ROUTER_FIB =? ROUTER_ACTIVITY) || (ROUTER_FIB =? ROUTER_FIB)) with true.
  cbn [mbind outcome_bind]. rewrite Hs, Hi. cbn [mbind outcome_bind rm_type rm_size].
  change (ROUTER_FIB =? ROUTER_FIB) with true. cbv iota.
  rewrite Vs. cbn [rm_size msg]. unfold fib_add.
  assert (u64 (size - HEADER_LEN) / 12 = Z.of_nat (length l)) as ->.
  { unfold size, HEADER_LEN. replace (8 + _ - 8) with (Z.of_nat (length l) * 12) by lia.
    rewrite wrap_small by (split; lia). by apply Z.div_mul. }
  change (Z.to_nat HEADER_LEN) with 8%nat. rewrite drop_app_length' by (by rewrite hdr_bytes_length).
  rewrite E. cbn [mbind outcome_bind]. by exists (r <| r_ln; ln_rt := rt' |>), es.
Qed.

(** A FIB message installs its routes: for every prefix of the message one route
    with that prefix and next hop is added to the table, which keeps the others and
    stays well formed; nothing outside the message is read. *)
Theorem fib_message_installs r id l :
  rt_wf (ln_rt (r_ln r)) → Forall fib_prefix_wf l → in_width 32 id →
  12 * Z.of_nat (length l) + 8 < 65536 →
  ∃ r' es, router_handle_control_message r (fib_message id l) = Ok r' ∧
    rt_wf (ln_rt (r_ln r')) ∧ Forall2 fib_route l es ∧
    routes (ln_rt (r_ln r')) ≡ₚ es ++ routes (ln_rt (r_ln r)) ∧
    ln_base (r_ln r') = ln_base (r_ln r) ∧ ln_at (r_ln r') = ln_at (r_ln r).
Proof.
  intros Hwf Hl Hid Hlen. destruct (fib_message_ok r id l [] Hwf Hl Hid Hlen) as (r' & es & E & H).
  rewrite app_nil_r in E. by exists r', es.
Qed.

(** ** Forwarding *)

(** What a router does with a netflow, case by case: it counts the traffic on the
    input port, and then drops a frame addressed to another station or an unknown
    port, answers or consumes ARP, drops an IP netflow for its own address and
    forwards any other along its routing table (hashing when equal-cost routing is
    on), and drops what is neither. *)
Theorem router_recv_cases r s flow n :
  s !! flow = Some n →
  let r1 := router_count_rx n r in
  let m := nf_match n in
  router_recv_netflow r s flow =
  match router_port r1 (in_port m) with
  | None => Ok (r1, s, None)
  | Some (_, p) =>
      if bool_decide (eth_dst m = p_eth_address p ∨ eth_dst m = BCAST_ETH) then
        if eth_type m =? ETH_TYPE_ARP then
          x ← l2_recv_netflow (r_ln r1) s flow;
          let '(ln, s, f) := x in Ok (r1 <| r_ln := ln |>, s, f)
        else if is_ip_type (eth_type m) && negb (is_l3_destination (r_ln r1) n) then
          x ← find_forwarding_ports (r_ln r1) s flow (r_ecmp r);
          let '(ln, s, f) := x in Ok (r1 <| r_ln := ln |>, s, f)
        else Ok (r1, s, None)
      else Ok (r1, s, None)
  end.
Proof.
  intros Hs. cbv zeta. unfold router_recv_netflow, nf_load. rewrite Hs.
  cbn [deref mbind outcome_bind]. set (r1 := router_count_rx n r).
  assert (r_ecmp r1 = r_ecmp r) as Hecmp.
  { unfold r1, router_count_rx. by destruct (router_port r _) as [[]|]. }
  assert (r1 <| r_ln := r_ln r1 |> = r1) as Heta by (by destruct r1).
  clearbody r1.
  destruct (router_port r1 (in_port (nf_match n))) as [[a p]|] eqn:Hp; unfold router_port in Hp.
  2: { unfold l2_recv_netflow, nf_load. rewrite Hs. cbn [deref mbind outcome_bind]. rewrite Hp.
       cbn [mbind outcome_bind]. by rewrite Heta. }
  destruct (bool_decide_reflect (eth_dst (nf_match n) = p_eth_address p ∨ eth_dst (nf_match n) = BCAST_ETH))
    as [Hfor|Hnot].
  2: { unfold l2_recv_netflow, nf_load. rewrite Hs. cbn [deref mbind outcome_bind]. rewrite Hp.
       rewrite !bool_decide_false by naive_solver. cbn [negb andb mbind outcome_bind]. by rewrite Heta. }
  assert (for_port p (nf_match n)) as Hf by (unfold for_port; tauto).
  destruct (Z.eqb_spec (eth_type (nf_match n)) ETH_TYPE_ARP) as [Harp|Harp].
  - rewrite Harp. destruct (l2_recv_netflow (r_ln r1) s flow) as [[[ln s'] [f|]]|]; done.
  - assert (l2_recv_netflow (r_ln r1) s flow = Ok (r_ln r1, s, Some flow)) as ->.
    { unfold l2_recv_netflow, nf_load. rewrite Hs. cbn [deref mbind outcome_bind].
      rewrite Hp, (for_port_accepts p (nf_match n) Hf). by rewrite (proj2 (Z.eqb_neq _ _)). }
    cbn [mbind outcome_bind]. rewrite Heta.
    destruct (is_ip_type (eth_type (nf_match n))); cbn [andb]; [|done].
    rewrite Hs. cbn [deref mbind outcome_bind].
    destruct (is_l3_destination (r_ln r1) n); cbn [negb]; [done|]. rewrite Hecmp.
    by destruct (find_forwarding_ports _ _ _ _) as [[[]]|].
Qed.

(** *** Witnesses *)

Definition sample_router_setup : outcome router :=
  r ← router_new 3;
  r ← router_add_port r.2 1 1 (sample_mac 9) 1000000 1000000;
  router_set_intf_ipv4 r 1 0x0a000009 (prefix_mask 24).
Definition sample_fib : list fib_prefix := [FibPrefix 0x0a010000 16 0x0a000002].

Lemma sample_router_wf : ∃ r, sample_router_setup = Ok r ∧ rt_wf (ln_rt (r_ln r)).
Proof.
  destruct route_table_init_ok as (rt & E & W & _).
  destruct (add_ipv4_entry_ok rt (RouteEntry 0x0a000000 (prefix_mask 24) 0 1 0 0) W)
    as (rt' & E' & W' & _).
  { apply entry_wf_mask; [by vm_compute; split|lia]. }
  assert (∃ r, sample_router_setup = Ok r) as [r Hr] by (eexists; vm_compute; reflexivity).
  exists r. split; [exact Hr|].
  assert ((r ← sample_router_setup; Ok (ln_rt (r_ln r))) =
          (rt ← route_table_init; add_ipv4_entry rt (RouteEntry 0x0a000000 (prefix_mask 24) 0 1 0 0)))
    as Hrt by (vm_compute; reflexivity).
  rewrite Hr, E in Hrt. cbn [mbind outcome_bind] in Hrt. rewrite E' in Hrt.
  injection Hrt as ->. exact W'.
Qed.

Lemma fib_message_installs_witness :
  ∃ r r' es, sample_router_setup = Ok r ∧
    router_handle_control_message r (fib_message 7 sample_fib) = Ok r' ∧
    Forall2 fib_route sample_fib es ∧
    routes (ln_rt (r_ln r')) ≡ₚ es ++ routes (ln_rt (r_ln r)).
Proof.
  destruct sample_router_wf as (r & E & W).
  destruct (fib_message_installs r 7 sample_fib W) as (r' & es & E' & _ & Hes & Hr & _).
  - repeat constructor; vm_compute; congruence.
  - split; vm_compute; congruence.
  - simpl. lia.
  - exists r, r', es. split; [exact E|]. split; [exact E'|]. split; [exact Hes|exact Hr].
Defined.

Definition sample_stray : netflow := sample_request <| nf_match; in_port := 4 |>.
Lemma router_recv_cases_witness :
  ∃ r, sample_router_setup = Ok r ∧
    router_recv_netflow r {[ 7%nat := sample_stray ]} 7 =
    Ok (r, {[ 7%nat := sample_stray ]}, None).
Proof.
  destruct sample_router_wf as (r & E & W). exists r. split; [exact E|].
  rewrite (router_recv_cases r _ 7 (sample_stray))
    by apply lookup_insert_eq.
  assert ((r ← sample_router_setup; Ok (router_port r 4)) = Ok None) as Hp
    by (vm_compute; reflexivity).
  rewrite E in Hp. cbn [mbind outcome_bind] in Hp. injection Hp as Hp.
  unfold router_count_rx. change (in_port (nf_match sample_stray)) with 4. rewrite Hp.
  cbv iota. rewrite Hp. reflexivity.
Defined.
