(* ===== verification/Topology.v ===== *)
(** * Topology: nodes and links

    Models [net/topology.c].  The nodes of the three kinds are elements of one
    hash table keyed by the unique id that [node_init] gives them; maps by datapath
    id, router id and host id point to them.  A node object lives in the [nodes]
    table and a pointer to it is its address there.  A link is keyed by the pair of
    node id and port it leaves from; an undirected link is two entries.

    The theorems: adding an undirected link between known nodes makes each end the
    next hop of the other and changes no other next hop; in every topology built
    that way the next-hop relation is symmetric; the JSON loader looks nodes up by
    datapath id in the table keyed by unique id. *)

From stdpp Require Import prelude gmap.
From S2P Require Import Prelude Util Uthash Action FlowKey Netflow Node Datapath.
From S2P Require Import Patricia RouteTable LegacyNode Host Router.

(** ** State *)

Inductive net_node :=
| NDatapath (dp : datapath)
| NHost (h : host)
| NRouter (r : router).
(** The [struct node] every kind starts with. *)
Definition net_base (n : net_node) : node :=
  match n with
  | NDatapath dp => dp_base dp
  | NHost h => ln_base (h_ep h)
  | NRouter r => ln_base (r_ln r)
  end.
Definition net_uuid (n : net_node) : Z := n_uuid (net_base n).
#[export] Instance net_node_keyed : Keyed net_node := λ n, le_bytes 8 (net_uuid n).

Record node_port_pair := NodePort { np_uuid : Z; np_port : Z }.
#[export] Instance node_port_pair_eq_dec : EqDecision node_port_pair.
Proof. solve_decision. Defined.
(** The memory of the struct, four bytes of padding included: both the links and
    the key of a lookup are cleared first. *)
Definition np_bytes (np : node_port_pair) : list Z :=
  le_bytes 8 (np_uuid np) ++ le_bytes 4 (np_port np) ++ [0; 0; 0; 0].

Record link := Link {
  l_node1 : node_port_pair; l_node2 : node_port_pair; l_latency : Z; l_bandwidth : Z }.
#[export] Instance link_keyed : Keyed link := λ l, np_bytes (l_node1 l).

Record dp_node := DpNode { dn_dp_id : Z; dn_dp : addr }.
#[export] Instance dp_node_keyed : Keyed dp_node := λ d, le_bytes 8 (dn_dp_id d).
Record router_node := RouterNode { rn_router_id : Z; rn_rt : addr }.
#[export] Instance router_node_keyed : Keyed router_node := λ d, le_bytes 4 (rn_router_id d).
Record host_node := HostNode { hn_uuid : Z; hn_h : addr }.
#[export] Instance host_node_keyed : Keyed host_node := λ d, le_bytes 8 (hn_uuid d).

(** The array [degree] is never used. *)
Record topology := Topology {
  t_nodes : uthash net_node; t_links : uthash link; t_dps : uthash dp_node;
  t_routers : uthash router_node; t_hosts : uthash host_node;
  t_n_dps : Z; t_n_routers : Z; t_n_hosts : Z; t_n_links : Z }.
#[export] Instance eta_topology : Eta topology := λ t,
  Topology (t_nodes t) (t_links t) (t_dps t) (t_routers t) (t_hosts t) (t_n_dps t)
    (t_n_routers t) (t_n_hosts t) (t_n_links t).

(** ** Operations *)

Definition topology_new : topology := Topology None None None None None 0 0 0 0.

(** [a] is the address of the object that is added. *)
Definition topology_add_router (t : topology) (a : addr) (r : router) : topology :=
  t <| t_routers ::= λ h, HASH_ADD (fresh_addr h) (RouterNode (router_id r) a) h |>
    <| t_nodes ::= HASH_ADD a (NRouter r) |> <| t_n_routers ::= λ k, u32 (k + 1) |>.
Definition topology_add_datapath (t : topology) (a : addr) (dp : datapath) : topology :=
  t <| t_dps ::= λ h, HASH_ADD (fresh_addr h) (DpNode (dp_id dp) a) h |>
    <| t_nodes ::= HASH_ADD a (NDatapath dp) |> <| t_n_dps ::= λ k, u32 (k + 1) |>.
Definition topology_add_host (t : topology) (a : addr) (h : host) : topology :=
  t <| t_hosts ::= λ m, HASH_ADD (fresh_addr m) (HostNode (host_uuid h) a) m |>
    <| t_nodes ::= HASH_ADD a (NHost h) |> <| t_n_hosts ::= λ k, u32 (k + 1) |>.

Definition topology_node (t : topology) (uuid : Z) : option (addr * net_node) :=
  HASH_FIND (le_bytes 8 uuid) (t_nodes t).

(** One entry of the link table; [None] when a node does not exist. *)
Definition insert_link (t : topology) (uuidA uuidB portA portB bw latency : Z)
  : option topology :=
  match topology_node t uuidA, topology_node t uuidB with
  | Some (_, dpA), Some (_, dpB) =>
      let l := Link (NodePort (net_uuid dpA) portA) (NodePort (net_uuid dpB) portB) latency bw in
      Some (t <| t_links ::= λ h, HASH_ADD (fresh_addr h) l h |>)
  | _, _ => None
  end.

(** The recursive call for the way back is directed, so the recursion ends
    there. *)
Definition topology_add_link (t : topology) (uuidA uuidB portA portB bw latency : Z)
    (directed : bool) : topology :=
  let count t := t <| t_n_links ::= λ k, u32 (k + 1) |> in
  match insert_link t uuidA uuidB portA portB bw latency with
  | None => t
  | Some t =>
      if directed then count t
      else match insert_link t uuidB uuidA portB portA bw latency with
           | None => t
           | Some t => count t
           end
  end.

(** The other end of the link (node and port) and its latency. *)
Definition topology_next_hop (t : topology) (orig_uuid orig_port : Z)
  : option (node_port_pair * Z) :=
  (λ l, (l_node2 l.2, l_latency l.2)) <$>
    HASH_FIND (np_bytes (NodePort orig_uuid orig_port)) (t_links t).

Definition topology_datapath_by_dpid (t : topology) (dp_id : Z) : option addr :=
  (λ d, dn_dp d.2) <$> HASH_FIND (le_bytes 8 dp_id) (t_dps t).
Definition topology_router_by_id (t : topology) (router_id : Z) : option addr :=
  (λ d, rn_rt d.2) <$> HASH_FIND (le_bytes 4 router_id) (t_routers t).

(** Store through a node pointer. *)
Definition node_update (a : addr) (g : net_node → net_node) (t : topology) : topology :=
  t <| t_nodes ::= ht_update a g |>.

(** [parse_topology] fills this struct. *)
Record link_spec := LinkSpec {
  ls_switchX : Z; ls_switchY : Z; ls_portX : Z; ls_portY : Z; ls_delay : Z; ls_bw : Z }.
Record parsed_topology := ParsedTopology { pt_dps : list Z; pt_links : list link_spec }.

Definition ptopo_datapath (st : Z * topology) (dpid : Z) : outcome (Z * topology) :=
  let '(uuid, dp) := dp_new st.1 dpid in
  let mac := [0; 0; 0; 0; 0; 1] in
  dp ← dp_add_port dp 1 1 mac 1000000 1000000;
  dp ← dp_add_port dp 2 2 mac 1000000 1000000;
  Ok (uuid, topology_add_datapath st.2 (fresh_addr (t_nodes st.2)) dp).

Fixpoint ptopo_datapaths (st : Z * topology) (dps : list Z) : outcome (Z * topology) :=
  match dps with
  | [] => Ok st
  | dpid :: dps => st ← ptopo_datapath st dpid; ptopo_datapaths st dps
  end.

(** Delay and bandwidth are passed in the order of the specification, not of
    the parameters of [topology_add_link]. *)
Definition topology_from_ptopo (current_uuid : Z) (t : topology) (p : parsed_topology)
  : outcome (Z * topology) :=
  st ← ptopo_datapaths (current_uuid, t) (pt_dps p);
  Ok (st.1, foldl (λ t l, topology_add_link t (ls_switchX l) (ls_switchY l) (ls_portX l)
                            (ls_portY l) (ls_delay l) (ls_bw l) false) st.2 (pt_links p)).

(** ** Well-formed topologies *)

Definition np_wf (np : node_port_pair) : Prop :=
  in_width 64 (np_uuid np) ∧ in_width 32 (np_port np).

Record topo_wf (t : topology) : Prop := {
  tw_nodes : ht_wf (t_nodes t);
  tw_uuids : keys_unique (t_nodes t);
  tw_width : ∀ a n, (a, n) ∈ ht_elems (t_nodes t) → in_width 64 (net_uuid n);
  tw_links : ht_wf (t_links t);
  tw_ports : keys_unique (t_links t);
  tw_ends : ∀ a l, (a, l) ∈ ht_elems (t_links t) → np_wf (l_node1 l) ∧ np_wf (l_node2 l) }.

Lemma le_bytes_inj_width k x y : in_width (8 * Z.of_nat k) x → in_width (8 * Z.of_nat k) y →
  le_bytes k x = le_bytes k y → x = y.
Proof.
  intros Hx Hy H. apply (f_equal le_val) in H. rewrite !le_val_bytes in H.
  by rewrite !wrap_small in H.
Qed.

Lemma np_bytes_inj p q : np_wf p → np_wf q → np_bytes p = np_bytes q → p = q.
Proof.
  intros [Hu Hp] [Hu' Hp'] H. unfold np_bytes in H.
  apply app_inj_1 in H as [H1 H2]; [|by rewrite !length_le_bytes].
  apply app_inj_1 in H2 as [H2 _]; [|by rewrite !length_le_bytes].
  apply (le_bytes_inj_width 8) in H1; [|done..]. apply (le_bytes_inj_width 4) in H2; [|done..].
  destruct p, q. simpl in *. congruence.
Qed.

Lemma topology_node_Some t u a n : topo_wf t → in_width 64 u →
  topology_node t u = Some (a, n) ↔ (a, n) ∈ ht_elems (t_nodes t) ∧ net_uuid n = u.
Proof.
  intros Hwf Hu. unfold topology_node. rewrite HASH_FIND_unique by apply Hwf.
  split; intros [Hin He]; (split; [done|]).
  - apply (le_bytes_inj_width 8); [by apply (tw_width _ Hwf a)|done|exact He].
  - by rewrite <-He.
Qed.

(** The links as a relation. *)
Lemma next_hop_Some t np e : topo_wf t → np_wf np →
  topology_next_hop t (np_uuid np) (np_port np) = Some e ↔
  ∃ a l, (a, l) ∈ ht_elems (t_links t) ∧ l_node1 l = np ∧ e = (l_node2 l, l_latency l).
Proof.
  intros Hwf Hnp. unfold topology_next_hop. rewrite fmap_Some.
  assert (NodePort (np_uuid np) (np_port np) = np) as -> by (by destruct np).
  split.
  - intros ([a l] & Hf & ->). apply HASH_FIND_unique in Hf as [Hin Hk]; [|apply Hwf..].
    exists a, l. split_and!; [done| |done]. apply np_bytes_inj; [|done|exact Hk].
    by apply (tw_ends _ Hwf a).
  - intros (a & l & Hin & <- & ->). exists (a, l). split; [|done].
    by apply HASH_FIND_unique; [apply Hwf..|].
Qed.

Lemma next_hop_None t np : topo_wf t → np_wf np →
  topology_next_hop t (np_uuid np) (np_port np) = None →
  ∀ a l, (a, l) ∈ ht_elems (t_links t) → l_node1 l ≠ np.
Proof.
  intros Hwf Hnp Hnone a l Hin Heq.
  assert (topology_next_hop t (np_uuid np) (np_port np) = Some (l_node2 l, l_latency l)) as H;
    [|congruence]. apply next_hop_Some; [done..|]. eauto.
Qed.

Lemma insert_link_ok t A B lat bw x n y m :
  topo_wf t → np_wf A → np_wf B →
  topology_node t (np_uuid A) = Some (x, n) → topology_node t (np_uuid B) = Some (y, m) →
  topology_next_hop t (np_uuid A) (np_port A) = None →
  ∃ t', insert_link t (np_uuid A) (np_uuid B) (np_port A) (np_port B) bw lat = Some t' ∧
    topo_wf t' ∧ t_nodes t' = t_nodes t ∧ t_n_links t' = t_n_links t ∧
    ∀ np, np_wf np → topology_next_hop t' (np_uuid np) (np_port np) =
      if decide (np = A) then Some (B, lat) else topology_next_hop t (np_uuid np) (np_port np).
Proof.
  intros Hwf HA HB HnA HnB Hfree. pose proof (next_hop_None t A Hwf HA Hfree) as Hno.
  unfold insert_link. rewrite HnA, HnB.
  apply topology_node_Some in HnA as [_ HuA]; [|done|apply HA].
  apply topology_node_Some in HnB as [_ HuB]; [|done|apply HB]. rewrite HuA, HuB.
  assert (NodePort (np_uuid A) (np_port A) = A) as -> by (by destruct A).
  assert (NodePort (np_uuid B) (np_port B) = B) as -> by (by destruct B).
  set (l := Link A B lat bw). eexists. split; [reflexivity|].
  set (t' := t <| t_links ::= _ |>).
  destruct (HASH_ADD_spec (fresh_addr (t_links t)) l (t_links t)) as [Hwf' Hel];
    [apply Hwf|apply fresh_addr_not_in|].
  assert (∀ a k, (a, k) ∈ ht_elems (t_links t') ↔
    (a, k) ∈ ht_elems (t_links t) ∨ a = fresh_addr (t_links t) ∧ k = l) as Hin.
  { intros a k. change (t_links t') with (HASH_ADD (fresh_addr (t_links t)) l (t_links t)).
    rewrite Hel, elem_of_app, list_elem_of_singleton. naive_solver. }
  assert (topo_wf t') as Ht'.
  { split; try apply Hwf; [exact Hwf'| |].
    - intros a k a' k' [H|[-> ->]]%Hin [H'|[-> ->]]%Hin Hk; [by apply (tw_ports _ Hwf)|..|done].
      + destruct (Hno a k H). apply np_bytes_inj; [by apply (tw_ends _ Hwf a)|done|exact Hk].
      + destruct (Hno a' k' H'). apply np_bytes_inj; [by apply (tw_ends _ Hwf a')|done|symmetry; exact Hk].
    - intros a k [H|[-> ->]]%Hin; [by apply (tw_ends _ Hwf a)|done]. }
  split_and!; [done..|]. intros np Hnp. destruct (decide (np = A)) as [->|Hne].
  - apply next_hop_Some; [done..|]. exists (fresh_addr (t_links t)), l.
    split_and!; [apply Hin; by right|done|done].
  - apply option_eq. intros e. rewrite !next_hop_Some by done. split.
    + intros (a & k & [H|[-> ->]]%Hin & <- & ->); [eauto|by destruct Hne].
    + intros (a & k & H & <- & ->). exists a, k. split_and!; [apply Hin; by left|done|done].
Qed.

(** Both ends of an undirected link between existing nodes, on free ports. *)
Lemma add_link_ok t A B lat bw x n y m :
  topo_wf t → np_wf A → np_wf B → A ≠ B →
  topology_node t (np_uuid A) = Some (x, n) → topology_node t (np_uuid B) = Some (y, m) →
  topology_next_hop t (np_uuid A) (np_port A) = None →
  topology_next_hop t (np_uuid B) (np_port B) = None →
  let t' := topology_add_link t (np_uuid A) (np_uuid B) (np_port A) (np_port B) bw lat false in
  topo_wf t' ∧ t_nodes t' = t_nodes t ∧ t_n_links t' = u32 (t_n_links t + 1) ∧
  ∀ np, np_wf np → topology_next_hop t' (np_uuid np) (np_port np) =
    if decide (np = A) then Some (B, lat)
    else if decide (np = B) then Some (A, lat)
    else topology_next_hop t (np_uuid np) (np_port np).
Proof.
  intros Hwf HA HB Hne HnA HnB HfA HfB. unfold topology_add_link.
  destruct (insert_link_ok t A B lat bw x n y m) as (t1 & -> & W1 & N1 & C1 & H1); [done..|].
  destruct (insert_link_ok t1 B A lat bw y m x n) as (t2 & -> & W2 & N2 & C2 & H2); [done..| | | |].
  - unfold topology_node. by rewrite N1.
  - unfold topology_node. by rewrite N1.
  - rewrite H1 by done. by rewrite decide_False.
  - split_and!.
    + by destruct W2.
    + simpl. congruence.
    + simpl. by rewrite C2, C1.
    + intros np Hnp. change (topology_next_hop (t2 <| t_n_links ::= _ |>)) with (topology_next_hop t2).
      rewrite H2, H1 by done. destruct (decide (np = A)) as [->|]; [by rewrite decide_False|done].
Qed.

Lemma add_link_unknown t uA uB pA pB bw lat d :
  topology_node t uA = None ∨ topology_node t uB = None →
  topology_add_link t uA uB pA pB bw lat d = t.
Proof.
  intros H. unfold topology_add_link, insert_link.
  destruct (topology_node t uA) as [[]|], (topology_node t uB) as [[]|]; naive_solver.
Qed.

Lemma topo_add_node_ok t t' a n :
  topo_wf t → in_width 64 (net_uuid n) → topology_node t (net_uuid n) = None →
  a ∉ ht_addrs (t_nodes t) →
  t_nodes t' = HASH_ADD a n (t_nodes t) → t_links t' = t_links t →
  topo_wf t' ∧ ht_elems (t_nodes t') = ht_elems (t_nodes t) ++ [(a, n)].
Proof.
  intros Hwf Hn Hnone Ha HN HL. destruct (HASH_ADD_spec a n (t_nodes t)) as [Hwf' Hel];
    [apply Hwf|done|]. rewrite HN.
  pose proof (proj1 (HASH_FIND_None _ _ (tw_nodes _ Hwf)) Hnone) as Hno.
  split; [|done]. split; rewrite ?HN, ?HL; try apply Hwf; [done| |].
  - intros b k b' k'. rewrite Hel, !elem_of_app, !list_elem_of_singleton.
    intros [H|[= -> ->]] [H'|[= -> ->]] Hk; [by apply (tw_uuids _ Hwf)|..|done].
    + by destruct (Hno b k H).
    + by destruct (Hno b' k' H').
  - intros b k. rewrite Hel, elem_of_app, list_elem_of_singleton.
    intros [H|[= -> ->]]; [by apply (tw_width _ Hwf b)|done].
Qed.

(** ** Reachable topologies *)

(** The object of a node with a new unique id at a new address. *)
Definition new_node (t : topology) (a : addr) (n : net_node) : Prop :=
  in_width 64 (net_uuid n) ∧ topology_node t (net_uuid n) = None ∧ a ∉ ht_addrs (t_nodes t).

Inductive topo_reachable : topology → Prop :=
| topo_new : topo_reachable topology_new
| topo_router t a r : topo_reachable t → new_node t a (NRouter r) →
    topo_reachable (topology_add_router t a r)
| topo_datapath t a dp : topo_reachable t → new_node t a (NDatapath dp) →
    topo_reachable (topology_add_datapath t a dp)
| topo_host t a h : topo_reachable t → new_node t a (NHost h) →
    topo_reachable (topology_add_host t a h)
| topo_link t A B bw lat : topo_reachable t → np_wf A → np_wf B → A ≠ B →
    topology_next_hop t (np_uuid A) (np_port A) = None →
    topology_next_hop t (np_uuid B) (np_port B) = None →
    topo_reachable (topology_add_link t (np_uuid A) (np_uuid B) (np_port A) (np_port B)
                      bw lat false).

Definition links_symmetric (t : topology) : Prop := ∀ np np' lat, np_wf np →
  topology_next_hop t (np_uuid np) (np_port np) = Some (np', lat) →
  np_wf np' ∧ topology_next_hop t (np_uuid np') (np_port np') = Some (np, lat).

Lemma topo_reachable_ok t : topo_reachable t → topo_wf t ∧ links_symmetric t.
Proof.
  induction 1 as [|t a r _ [W S] (Hu & Hn & Ha)|t a dp _ [W S] (Hu & Hn & Ha)
    |t a h _ [W S] (Hu & Hn & Ha)|t A B bw lat _ [W S] HA HB Hne HfA HfB].
  - split; [|by intros ????]. split; try done; (intros ???? Hx || intros ?? Hx); by apply not_elem_of_nil in Hx.
  - split; [by apply (topo_add_node_ok t _ a (NRouter r))|exact S].
  - split; [by apply (topo_add_node_ok t _ a (NDatapath dp))|exact S].
  - split; [by apply (topo_add_node_ok t _ a (NHost h))|exact S].
  - destruct (topology_node t (np_uuid A)) as [[x n]|] eqn:EA;
      [|by rewrite add_link_unknown by (by left)].
    destruct (topology_node t (np_uuid B)) as [[y m]|] eqn:EB;
      [|by rewrite add_link_unknown by (by right)].
    destruct (add_link_ok t A B lat bw x n y m) as (W' & _ & _ & H'); [done..|].
    split; [done|]. intros np np' l Hnp. rewrite H' by done.
    destruct (decide (np = A)) as [->|HnA]; [|destruct (decide (np = B)) as [->|HnB]].
    + intros [= <- <-]. split; [done|]. rewrite H' by done. by rewrite decide_False, decide_True.
    + intros [= <- <-]. split; [done|]. rewrite H' by done. by rewrite decide_True.
    + intros Hh. destruct (S np np' l Hnp Hh) as [Hnp' Hback]. split; [done|].
      rewrite H' by done. rewrite !decide_False; [done|congruence..].
Qed.

(** ** Correctness *)

(** An undirected link between two existing nodes, on ports without a link, makes
    each end the next hop of the other with the latency of the link, counts one
    link, and leaves every other next hop and the nodes unchanged; with an unknown
    node nothing changes at all. *)
Theorem topology_add_link_connects t A B bw lat :
  topo_wf t → np_wf A → np_wf B → A ≠ B →
  topology_next_hop t (np_uuid A) (np_port A) = None →
  topology_next_hop t (np_uuid B) (np_port B) = None →
  let t' := topology_add_link t (np_uuid A) (np_uuid B) (np_port A) (np_port B) bw lat false in
  match topology_node t (np_uuid A), topology_node t (np_uuid B) with
  | Some _, Some _ =>
      topo_wf t' ∧ t_nodes t' = t_nodes t ∧ t_n_links t' = u32 (t_n_links t + 1) ∧
      ∀ np, np_wf np → topology_next_hop t' (np_uuid np) (np_port np) =
        if decide (np = A) then Some (B, lat)
        else if decide (np = B) then Some (A, lat)
        else topology_next_hop t (np_uuid np) (np_port np)
  | _, _ => t' = t
  end.
Proof.
  intros Hwf HA HB Hne HfA HfB t'.
  destruct (topology_node t (np_uuid A)) as [[x n]|] eqn:EA; [|by apply add_link_unknown; left].
  destruct (topology_node t (np_uuid B)) as [[y m]|] eqn:EB; [|by apply add_link_unknown; right].
  by apply (add_link_ok t A B lat bw x n y m).
Qed.

(** In every topology built from nodes with distinct ids and undirected links on
    free ports, the tables are consistent and the next-hop relation is symmetric:
    what leaves a node by a port comes back to it by the other end, with the same
    latency. *)
Theorem topology_links_symmetric t : topo_reachable t → topo_wf t ∧ links_symmetric t.
Proof. apply topo_reachable_ok. Qed.

(** The loader of JSON topologies passes datapath ids where [topology_add_link]
    expects unique ids (given in order of creation), and delay and bandwidth in the
    wrong order: a link between datapaths 5 and 6 is lost, and one between datapaths
    1 and 2, whose ids happen to coincide, gets its bandwidth as latency. *)
Theorem json_topology_links :
  (st ← topology_from_ptopo 0 topology_new (ParsedTopology [5; 6] [LinkSpec 5 6 1 1 10 100]);
   Ok (t_n_dps st.2, t_n_links st.2, topology_next_hop st.2 1 1)) = Ok (2, 0, None) ∧
  (st ← topology_from_ptopo 0 topology_new (ParsedTopology [1; 2] [LinkSpec 1 2 1 1 10 100]);
   Ok (t_n_dps st.2, t_n_links st.2, topology_next_hop st.2 1 1))
  = Ok (2, 1, Some (NodePort 2 1, 100)).
Proof. split; vm_compute; reflexivity. Qed.

(** *** Witnesses: two hosts *)

Definition sample_host_obj (uuid : Z) : net_node :=
  NHost (Host (LegacyNode (node_init (uuid - 1) HOST).2 None blank_rt) None None).
Definition sample_topo : topology :=
  topology_add_host (topology_add_host topology_new 1
    (Host (LegacyNode (node_init 0 HOST).2 None blank_rt) None None)) 2
    (Host (LegacyNode (node_init 1 HOST).2 None blank_rt) None None).

Lemma sample_topo_reachable : topo_reachable sample_topo.
Proof.
  apply topo_host; [apply topo_host; [apply topo_new|]|].
  - split; [|split]; [by vm_compute; split|reflexivity|apply not_elem_of_nil].
  - split; [|split]; [by vm_compute; split|vm_compute; reflexivity|].
    rewrite <-(bool_decide_eq_false _). vm_compute. reflexivity.
Qed.

#[local] Opaque topology_node topology_next_hop topology_add_link.

Lemma topology_add_link_connects_witness :
  let t := topology_add_link sample_topo 1 2 1 1 100 5 false in
  topology_next_hop t 1 1 = Some (NodePort 2 1, 5) ∧
  topology_next_hop t 2 1 = Some (NodePort 1 1, 5).
Proof.
  destruct (topo_reachable_ok _ sample_topo_reachable) as [W _].
  pose proof (topology_add_link_connects sample_topo (NodePort 1 1) (NodePort 2 1) 100 5 W) as H.
  assert (topology_node sample_topo (np_uuid (NodePort 1 1)) ≠ None ∧
          topology_node sample_topo (np_uuid (NodePort 2 1)) ≠ None) as [N1 N2]
    by (split; vm_compute; discriminate).
  revert H N1 N2. generalize (topology_node sample_topo (np_uuid (NodePort 1 1))).
  generalize (topology_node sample_topo (np_uuid (NodePort 2 1))).
  intros [o2|] [o1|] H N1 N2; [|destruct (N1 eq_refl)|destruct (N2 eq_refl)|destruct (N1 eq_refl)].
  clear N1 N2.
  destruct H as (_ & _ & _ & H).
  - split; vm_compute; split; congruence.
  - split; vm_compute; split; congruence.
  - discriminate.
  - vm_compute. reflexivity.
  - vm_compute. reflexivity.
  - split.
    + exact (H (NodePort 1 1) ltac:(split; vm_compute; split; congruence)).
    + exact (H (NodePort 2 1) ltac:(split; vm_compute; split; congruence)).
Defined.

Lemma topology_links_symmetric_witness :
  links_symmetric (topology_add_link sample_topo 1 2 1 1 100 5 false).
Proof.
  apply (topology_links_symmetric (topology_add_link sample_topo 1 2 1 1 100 5 false)).
  apply (topo_link sample_topo (NodePort 1 1) (NodePort 2 1)).
  - exact sample_topo_reachable.
  - split; vm_compute; split; congruence.
  - split; vm_compute; split; congruence.
  - discriminate.
  - vm_compute. reflexivity.
  - vm_compute. reflexivity.
Defined.
