(* ===== verification/JsonTopology.v ===== *)
(** * JsonTopology: networks described in a file

    Models [lib/json_topology.c] and [from_json] of [net/topology.c].  The vendored
    JSON parser is a parameter that gives the tree of a text; the loader walks this
    tree by position and casts the payloads without looking at their type, so a
    tree of another shape is a null dereference or a read of the wrong struct.
    Numbers are texts in base 16, read by [strtoull]; the datapath ids are sorted
    once and searched by bisection ([qsort], [bsearch]).  A message to the user and
    [exit] are [Fault Aborted].

    The theorems: bisection finds exactly the elements of a sorted array; a document
    that describes a network within the limits of the arrays is read back as that
    network, and refused when a link names an unknown datapath; one datapath more
    than the array has places is written past its end. *)

From Stdlib Require Import Ascii.
From stdpp Require Import prelude strings sorting.
From S2P Require Import Prelude Util Uthash Topology.

(** ** The tree of the parser *)

Inductive json_value :=
| JNumber (text : string)
| JString (text : string)
| JObject (elements : list (string * json_value))
| JArray (elements : list json_value)
| JOther.

(** The payload of a value as the struct the code takes it for; the payload of
    [true], [false] and [null] is null, and string and number structs are laid out
    alike. *)
Definition as_object (v : json_value) : outcome (list (string * json_value)) :=
  match v with
  | JObject l => Ok l
  | JOther => Fault NullDeref
  | _ => Fault Indeterminate
  end.
Definition as_array (v : json_value) : outcome (list json_value) :=
  match v with
  | JArray l => Ok l
  | JOther => Fault NullDeref
  | _ => Fault Indeterminate
  end.
Definition as_number (v : json_value) : outcome string :=
  match v with
  | JNumber t | JString t => Ok t
  | JOther => Fault NullDeref
  | _ => Fault Indeterminate
  end.

(** ** Numbers *)

Definition is_space (c : ascii) : bool :=
  let n := nat_of_ascii c in (n =? 32)%nat || ((9 <=? n) && (n <=? 13))%nat.
Definition hex_digit (c : ascii) : option Z :=
  let n := Z.of_nat (nat_of_ascii c) in
  if (48 <=? n) && (n <=? 57) then Some (n - 48)
  else if (97 <=? n) && (n <=? 102) then Some (n - 87)
  else if (65 <=? n) && (n <=? 70) then Some (n - 55)
  else None.

Fixpoint skip_spaces (s : string) : string :=
  match s with
  | String c s' => if is_space c then skip_spaces s' else s
  | EmptyString => s
  end.
Fixpoint hex_digits (acc : Z) (s : string) : Z * string :=
  match s with
  | String c s' =>
      match hex_digit c with Some d => hex_digits (16 * acc + d) s' | None => (acc, s) end
  | EmptyString => (acc, s)
  end.
Definition starts_hex (s : string) : bool :=
  match s with String c _ => bool_decide (is_Some (hex_digit c)) | EmptyString => false end.

Definition first_is (c : ascii) (s : string) : bool :=
  match s with String c' _ => bool_decide (c' = c) | EmptyString => false end.
Definition rest_of (s : string) : string :=
  match s with String _ s' => s' | EmptyString => s end.

(** [strtoull(text, &end, 16)]: the value, whether it was out of range, and the
    text from [end] on; [None] when nothing was converted. *)
Definition strtoull16 (text : string) : option (Z * bool * string) :=
  let s := skip_spaces text in
  let neg := first_is "-" s in
  let s := if neg || first_is "+" s then rest_of s else s in
  let s' := rest_of s in
  let s := if first_is "0" s && (first_is "x" s' || first_is "X" s') && starts_hex (rest_of s')
           then rest_of s' else s in
  if starts_hex s then
    let '(v, rest) := hex_digits 0 s in
    if v <? 2 ^ 64 then Some (if neg then u64 (- v) else v, false, rest)
    else Some (2 ^ 64 - 1, true, rest)
  else None.

Definition parse_number (text : string) (maximum : Z) : outcome Z :=
  match strtoull16 text with
  | Some (value, erange, rest) =>
      if erange || negb (bool_decide (rest = "")) || first_is "-" text || (maximum <? value)
      then Fault Aborted else Ok value
  | None => Fault Aborted
  end.

(** ** The array of datapaths *)

Definition cmpfunc (a b : Z) : Z :=
  (if b <? a then 1 else 0) - (if a <? b then 1 else 0).

(** The library functions, with the comparison above. *)
Definition cmp_le (a b : Z) : Prop := cmpfunc a b ≤ 0.
#[export] Instance cmp_le_dec : RelDecision cmp_le.
Proof. intros a b. unfold cmp_le. apply _. Defined.
Definition qsort (l : list Z) : list Z := merge_sort cmp_le l.
Fixpoint bsearch (fuel : nat) (key : Z) (base : list Z) (l u : nat) : option nat :=
  match fuel with
  | O => None
  | S fuel =>
      if decide (l < u)%nat then
        let idx := ((l + u) / 2)%nat in
        match base !! idx with
        | None => None
        | Some x =>
            let c := cmpfunc key x in
            if c <? 0 then bsearch fuel key base l idx
            else if 0 <? c then bsearch fuel key base (S idx) u
            else Some idx
        end
      else None
  end.

Definition validate_link_dp (dpid : Z) (dps : list Z) : Z :=
  match bsearch (S (length dps)) dpid dps 0 (length dps) with Some _ => 0 | None => -1 end.

(** ** The loader *)

Definition DP_LIMIT : Z := 65535.
Definition LINK_LIMIT : Z := 10000.
Definition UINT32_MAX : Z := 2 ^ 32 - 1.

Definition validate_keyword (expected key : string) : outcome unit :=
  if bool_decide (expected = key) then Ok tt else Fault Aborted.

(** The element at the head of an object must have the given key. *)
Definition next_element (key : string) (elements : list (string * json_value))
  : outcome (json_value * list (string * json_value)) :=
  e ← deref (head elements);
  _ ← validate_keyword key e.1;
  Ok (e.2, tail elements).
Definition next_number (key : string) (maximum : Z) (elements : list (string * json_value))
  : outcome (Z * list (string * json_value)) :=
  e ← next_element key elements;
  text ← as_number e.1;
  v ← parse_number text maximum;
  Ok (v, e.2).
Definition known_switch (dpid : Z) (dps : list Z) : outcome unit :=
  if validate_link_dp dpid dps <? 0 then Fault Aborted else Ok tt.

(** The element [i] of an array of [limit] elements is assigned to. *)
Definition in_array (i limit : Z) : outcome unit :=
  if i <? limit then Ok tt else Fault OutOfBounds.

Fixpoint parse_dps (i : Z) (elements : list json_value) : outcome (list Z) :=
  match elements with
  | [] => Ok []
  | v :: elements =>
      text ← as_number v;
      dpid ← parse_number text (2 ^ 64 - 1);
      _ ← in_array i DP_LIMIT;
      dps ← parse_dps (i + 1) elements;
      Ok (dpid :: dps)
  end.

Definition parse_link (i : Z) (dps : list Z) (v : json_value) : outcome link_spec :=
  elements ← as_object v;
  x ← next_number "switchX" (2 ^ 64 - 1) elements;
  _ ← in_array i LINK_LIMIT;
  _ ← known_switch x.1 dps;
  y ← next_number "switchY" (2 ^ 64 - 1) x.2;
  _ ← known_switch y.1 dps;
  px ← next_number "portX" UINT32_MAX y.2;
  py ← next_number "portY" UINT32_MAX px.2;
  delay ← next_number "delay" UINT32_MAX py.2;
  bw ← next_number "bw" UINT32_MAX delay.2;
  Ok (LinkSpec x.1 y.1 px.1 py.1 delay.1 bw.1).
Fixpoint parse_links (i : Z) (dps : list Z) (elements : list json_value)
  : outcome (list link_spec) :=
  match elements with
  | [] => Ok []
  | v :: elements =>
      l ← parse_link i dps v;
      links ← parse_links (i + 1) dps elements;
      Ok (l :: links)
  end.

Section loader.
Context (json_parse_ex : string → option json_value).

(** Without a second element the number of links is not assigned ([None]). *)
Definition parse_topology (json : string) : outcome (list Z * option (list link_spec)) :=
  match json_parse_ex json with
  | None => Fault Aborted
  | Some root =>
      elements ← as_object root;
      e ← next_element "dps" elements;
      array ← as_array e.1;
      dps ← parse_dps 0 array;
      let dps := qsort dps in
      match e.2 with
      | [] => Ok (dps, None)
      | _ =>
          e ← next_element "links" e.2;
          array ← as_array e.1;
          links ← parse_links 0 dps array;
          Ok (dps, Some links)
      end
  end.

(** [file] is the text of the file, if it could be read. *)
Definition from_json (current_uuid : Z) (file : option string) : outcome (Z * topology) :=
  match file with
  | None => Ok (current_uuid, topology_new)
  | Some json =>
      p ← parse_topology json;
      match p.2 with
      | None => Fault Indeterminate
      | Some links => topology_from_ptopo current_uuid topology_new (ParsedTopology p.1 links)
      end
  end.
End loader.

(** ** Sorting and searching *)

Lemma cmpfunc_sign a b :
  (cmpfunc a b < 0 ↔ a < b) ∧ (0 < cmpfunc a b ↔ b < a) ∧ (cmp_le a b ↔ a ≤ b).
Proof. unfold cmp_le, cmpfunc. destruct (Z.ltb_spec a b), (Z.ltb_spec b a); lia. Qed.

Lemma qsort_sorted l : StronglySorted Z.le (qsort l).
Proof.
  assert (Transitive cmp_le) by (intros a b c; rewrite !(proj2 (proj2 (cmpfunc_sign _ _))); lia).
  assert (Total cmp_le) by (intros a b; rewrite !(proj2 (proj2 (cmpfunc_sign _ _))); lia).
  pose proof (StronglySorted_merge_sort cmp_le l) as Hs. unfold qsort.
  induction Hs as [|x l' _ IH Hx]; constructor; [done|].
  eapply Forall_impl; [exact Hx|]. intros y. apply cmpfunc_sign.
Qed.
Lemma qsort_perm l : qsort l ≡ₚ l.
Proof. apply merge_sort_Permutation. Qed.

Lemma sorted_lookup (l : list Z) i j x y : StronglySorted Z.le l →
  l !! i = Some x → l !! j = Some y → (i < j)%nat → x ≤ y.
Proof.
  intros Hs. revert i j. induction Hs as [|z l _ IH Hz]; intros i j Hi Hj Hij; [done|].
  destruct j as [|j]; [lia|]. destruct i as [|i]; cbn in Hi, Hj.
  - injection Hi as ->. eapply Forall_lookup_1 in Hz; [exact Hz|done].
  - apply (IH i j); [done|done|lia].
Qed.

Lemma bsearch_spec fuel key base l u :
  StronglySorted Z.le base → (u ≤ length base)%nat → (u < l + fuel)%nat →
  (∀ i, base !! i = Some key → l ≤ i < u)%nat →
  is_Some (bsearch fuel key base l u) ↔ key ∈ base.
Proof.
  intros Hs Hu Hf Hin. revert l u Hu Hf Hin.
  induction fuel as [|fuel IH]; intros l u Hu Hf Hin; cbn [bsearch].
  { split; [by intros []|]. intros [i Hi]%list_elem_of_lookup. apply Hin in Hi. lia. }
  case_decide as Hlu.
  2: { split; [by intros []|]. intros [i Hi]%list_elem_of_lookup. apply Hin in Hi. lia. }
  set (idx := ((l + u) / 2)%nat). assert (l ≤ idx < u)%nat as Hidx.
  { unfold idx. pose proof (Nat.div_mod_eq (l + u) 2). pose proof (Nat.mod_upper_bound (l + u) 2). lia. }
  destruct (lookup_lt_is_Some_2 base idx) as [x Hx]; [lia|]. rewrite Hx.
  destruct (cmpfunc_sign key x) as (Hlt & Hgt & _).
  destruct (Z.ltb_spec (cmpfunc key x) 0) as [Hc|Hc].
  - apply IH; [lia|lia|]. intros i Hi. split; [by apply Hin|].
    destruct (decide (idx ≤ i)%nat) as [Hle|]; [|lia]. exfalso.
    assert (x ≤ key); [|apply Hlt in Hc; lia].
    destruct (decide (idx = i)) as [->|]; [rewrite Hi in Hx; injection Hx; lia|].
    eapply (sorted_lookup base idx i); eauto with lia.
  - destruct (Z.ltb_spec 0 (cmpfunc key x)) as [Hc'|Hc'].
    + apply IH; [lia|lia|]. intros i Hi. split; [|by apply Hin].
      destruct (decide (i ≤ idx)%nat) as [Hle|]; [|lia]. exfalso.
      assert (key ≤ x); [|apply Hgt in Hc'; lia].
      destruct (decide (i = idx)) as [->|]; [rewrite Hi in Hx; injection Hx; lia|].
      eapply (sorted_lookup base i idx); eauto with lia.
    + split; [intros _|by eexists]. assert (x = key) as <- by lia. by eapply list_elem_of_lookup_2.
Qed.

Lemma known_switch_spec dpid dps :
  known_switch dpid (qsort dps) = if decide (dpid ∈ dps) then Ok tt else Fault Aborted.
Proof.
  unfold known_switch, validate_link_dp.
  pose proof (bsearch_spec (S (length (qsort dps))) dpid (qsort dps) 0 (length (qsort dps))
    (qsort_sorted dps) ltac:(lia) ltac:(lia)) as Hb.
  rewrite (qsort_perm dps) in Hb at 4. case_decide as Hd.
  - destruct (bsearch _ _ _ _ _); [done|]. apply Hb in Hd as [? [=]].
    intros i Hi. apply lookup_lt_Some in Hi. lia.
  - destruct (bsearch _ _ _ _ _); [|done]. destruct Hd. apply Hb; [|by eexists].
    intros i Hi. apply lookup_lt_Some in Hi. lia.
Qed.

(** ** Numbers in base 16 *)

Definition hex_char (d : Z) : ascii :=
  ascii_of_nat (Z.to_nat (if d <? 10 then 48 + d else 87 + d)).
(** The last [k] digits. *)
Fixpoint hex_text (k : nat) (v : Z) : string :=
  match k with
  | O => ""
  | S k => String (hex_char (v / 16 ^ Z.of_nat k mod 16)) (hex_text k v)
  end.

(** A digit is neither white space nor a sign nor the [x] of a prefix. *)
Lemma hex_char_digit d : 0 ≤ d < 16 →
  hex_digit (hex_char d) = Some d ∧ is_space (hex_char d) = false ∧
  Forall (λ c, hex_char d ≠ c) ["-"; "+"; "x"; "X"]%char.
Proof.
  intros Hd. assert (d ∈ seqZ 0 16) as Hin by (apply elem_of_seqZ; lia). clear Hd. revert d Hin.
  apply Forall_forall. apply (bool_decide_unpack _). vm_compute. done.
Qed.

Lemma hex_text_digits k v acc :
  hex_digits acc (hex_text k v) = (16 ^ Z.of_nat k * acc + v mod 16 ^ Z.of_nat k, "").
Proof.
  revert acc. induction k as [|k IH]; intros acc.
  { cbn [hex_text hex_digits]. rewrite Z.mod_1_r. f_equal. lia. }
  cbn [hex_text hex_digits].
  rewrite (proj1 (hex_char_digit _ (Z.mod_pos_bound _ 16 ltac:(lia)))).
  rewrite IH. f_equal. rewrite Nat2Z.inj_succ, Z.pow_succ_r by lia.
  set (p := 16 ^ Z.of_nat k). assert (0 < p) by (apply Z.pow_pos_nonneg; lia).
  rewrite (Z.mul_comm 16 p), (Z.rem_mul_r v p 16) by lia. lia.
Qed.

Lemma hex_text_first k v :
  starts_hex (hex_text (S k) v) = true ∧ skip_spaces (hex_text (S k) v) = hex_text (S k) v ∧
  Forall (λ c, first_is c (hex_text (S k) v) = false) ["-"; "+"; "x"; "X"]%char.
Proof.
  cbn [hex_text]. set (d := _ mod 16).
  destruct (hex_char_digit d) as (Hd & Hs & Hc); [by apply Z.mod_pos_bound|].
  cbn [starts_hex skip_spaces]. rewrite Hd, Hs. split; [done|]. split; [done|].
  eapply Forall_impl; [exact Hc|]. intros c Hne. by apply bool_decide_eq_false.
Qed.

(** Reading back what was printed. *)
Lemma parse_hex_text k v maximum :
  0 ≤ v < 16 ^ Z.of_nat k → (1 ≤ k ≤ 16)%nat →
  parse_number (hex_text k v) maximum = if maximum <? v then Fault Aborted else Ok v.
Proof.
  intros Hv Hk. destruct k as [|k]; [lia|].
  destruct (hex_text_first k v) as (Hst & Hsp & Hf).
  rewrite !Forall_cons in Hf. destruct Hf as (Hm & Hp & _ & _ & _).
  assert (first_is "x" (rest_of (hex_text (S k) v)) || first_is "X" (rest_of (hex_text (S k) v))
          = false) as Hx.
  { destruct k as [|k]; [done|].
    change (rest_of (hex_text (S (S k)) v)) with (hex_text (S k) v).
    destruct (hex_text_first k v) as (_ & _ & Hf). rewrite !Forall_cons in Hf.
    by destruct Hf as (_ & _ & -> & -> & _). }
  unfold parse_number, strtoull16. rewrite Hsp, Hm, Hp. cbn [orb]. rewrite Hx, andb_false_r.
  cbn [andb]. rewrite Hst, hex_text_digits, Z.mul_0_r, Z.add_0_l, Z.mod_small by done.
  rewrite (proj2 (Z.ltb_lt _ _)).
  2: { eapply Z.lt_le_trans; [apply Hv|]. change (2 ^ 64) with (16 ^ 16).
       apply Z.pow_le_mono_r; lia. }
  rewrite bool_decide_true by done. by destruct (maximum <? v).
Qed.

(** ** Documents *)

(** Numbers are written as strings of sixteen digits in base 16: JSON has no
    hexadecimal numbers and no leading zeros, and the loader reads strings and numbers alike. *)
Definition number (v : Z) : json_value := JString (hex_text 16 v).
Definition link_json (l : link_spec) : json_value :=
  JObject [("switchX", number (ls_switchX l)); ("switchY", number (ls_switchY l));
           ("portX", number (ls_portX l)); ("portY", number (ls_portY l));
           ("delay", number (ls_delay l)); ("bw", number (ls_bw l))].
(** The document that describes a network. *)
Definition topology_json (dps : list Z) (links : list link_spec) : json_value :=
  JObject [("dps", JArray (number <$> dps)); ("links", JArray (link_json <$> links))].

Definition link_wf (l : link_spec) : Prop :=
  in_width 64 (ls_switchX l) ∧ in_width 64 (ls_switchY l) ∧ in_width 32 (ls_portX l) ∧
  in_width 32 (ls_portY l) ∧ in_width 32 (ls_delay l) ∧ in_width 32 (ls_bw l).
(** Both ends are datapaths of the document. *)
Definition link_known (dps : list Z) (l : link_spec) : Prop :=
  ls_switchX l ∈ dps ∧ ls_switchY l ∈ dps.
#[export] Instance link_known_dec dps l : Decision (link_known dps l).
Proof. unfold link_known. apply _. Defined.

Lemma parse_number_64 v : in_width 64 v → parse_number (hex_text 16 v) (2 ^ 64 - 1) = Ok v.
Proof.
  intros Hv. rewrite parse_hex_text by (done || lia).
  by rewrite (proj2 (Z.ltb_ge _ _)) by (unfold in_width in Hv; lia).
Qed.
Lemma parse_number_32 v : in_width 32 v → parse_number (hex_text 16 v) UINT32_MAX = Ok v.
Proof.
  intros [Hv Hw]. rewrite parse_hex_text; [|split; [done|]|lia].
  - by rewrite (proj2 (Z.ltb_ge _ _)) by (unfold UINT32_MAX; lia).
  - etransitivity; [exact Hw|]. done.
Qed.

Lemma next_number_ok key maximum v rest :
  parse_number (hex_text 16 v) maximum = Ok v →
  next_number key maximum ((key, number v) :: rest) = Ok (v, rest).
Proof.
  intros Hv. unfold next_number, next_element, validate_keyword.
  cbn [head deref mbind outcome_bind fst snd]. rewrite bool_decide_true by done.
  cbn [mbind outcome_bind fst snd as_number number tail]. by rewrite Hv.
Qed.

Lemma parse_dps_ok i dps : Forall (in_width 64) dps →
  parse_dps i (number <$> dps) =
  if decide (dps = [] ∨ i + Z.of_nat (length dps) ≤ DP_LIMIT) then Ok dps else Fault OutOfBounds.
Proof.
  intros Hd. revert i. induction Hd as [|v dps Hv Hd IH]; intros i.
  { by rewrite decide_True by (by left). }
  rewrite fmap_cons. cbn [parse_dps number as_number mbind outcome_bind].
  rewrite parse_number_64 by done. cbn [mbind outcome_bind]. unfold in_array. rewrite IH.
  cbn [length]. destruct (Z.ltb_spec i DP_LIMIT); cbn [mbind outcome_bind].
  2: { rewrite decide_False; [done|]. intros [|]; [done|lia]. }
  destruct (decide (dps = [] ∨ _)) as [Hx|Hx]; cbn [mbind outcome_bind].
  - rewrite decide_True; [done|]. right. destruct Hx as [->|]; cbn [length]; lia.
  - rewrite decide_False; [done|]. intros [|]; [done|]. apply Hx. right. lia.
Qed.

Lemma parse_link_ok i dps l : link_wf l → i < LINK_LIMIT →
  parse_link i (qsort dps) (link_json l) =
  if decide (link_known dps l) then Ok l else Fault Aborted.
Proof.
  intros (Hx & Hy & Hpx & Hpy & Hd & Hb) Hi. unfold parse_link, link_json.
  cbn [as_object mbind outcome_bind]. rewrite next_number_ok by (by apply parse_number_64).
  cbn [mbind outcome_bind fst snd]. unfold in_array. rewrite (proj2 (Z.ltb_lt _ _) Hi).
  cbn [mbind outcome_bind]. rewrite known_switch_spec. unfold link_known.
  destruct (decide (ls_switchX l ∈ dps)); [|rewrite decide_False by tauto; done].
  cbn [mbind outcome_bind]. rewrite next_number_ok by (by apply parse_number_64).
  cbn [mbind outcome_bind fst snd]. rewrite known_switch_spec.
  destruct (decide (ls_switchY l ∈ dps)); [|rewrite decide_False by tauto; done].
  rewrite decide_True by done. cbn [mbind outcome_bind].
  do 4 (rewrite next_number_ok by (by apply parse_number_32); cbn [mbind outcome_bind fst snd]).
  by destruct l.
Qed.

Lemma parse_links_ok i dps links :
  Forall link_wf links → i + Z.of_nat (length links) ≤ LINK_LIMIT →
  parse_links i (qsort dps) (link_json <$> links) =
  if decide (Forall (link_known dps) links) then Ok links else Fault Aborted.
Proof.
  intros Hl. revert i. induction Hl as [|l links Hl Hls IH]; intros i Hi.
  { by rewrite decide_True by constructor. }
  cbn [length] in Hi. rewrite fmap_cons. cbn [parse_links]. rewrite parse_link_ok by (done || lia).
  destruct (decide (link_known dps l)) as [Hk|Hk]; cbn [mbind outcome_bind].
  2: { rewrite decide_False; [done|]. rewrite Forall_cons. tauto. }
  rewrite IH by lia. destruct (decide (Forall _ links)); cbn [mbind outcome_bind].
  - by rewrite decide_True by (by constructor).
  - rewrite decide_False; [done|]. rewrite Forall_cons. tauto.
Qed.

(** The document of a network within the limits. *)
Lemma parse_document_ok json_parse_ex text dps links :
  json_parse_ex text = Some (topology_json dps links) →
  Forall (in_width 64) dps → Forall link_wf links →
  Z.of_nat (length dps) ≤ DP_LIMIT → Z.of_nat (length links) ≤ LINK_LIMIT →
  parse_topology json_parse_ex text =
    if decide (Forall (link_known dps) links) then Ok (qsort dps, Some links) else Fault Aborted.
Proof.
  intros Ht Hd Hl Hnd Hnl. unfold parse_topology. rewrite Ht. unfold topology_json.
  cbn [as_object mbind outcome_bind]. unfold next_element, validate_keyword.
  cbn [head deref mbind outcome_bind fst snd]. rewrite bool_decide_true by done.
  cbn [mbind outcome_bind fst snd as_array tail]. rewrite parse_dps_ok by done.
  rewrite decide_True by (right; lia). cbn [mbind outcome_bind head deref fst snd].
  rewrite bool_decide_true by done. cbn [mbind outcome_bind fst snd as_array].
  rewrite parse_links_ok by (done || lia). by destruct (decide _).
Qed.

(** A topology file is read back: the document of a network within the limits of
    the loader's arrays gives its datapaths, sorted, and its links in order; when a
    link names a datapath that is not listed, the program exits. *)
Theorem topology_document_round_trip json_parse_ex text dps links :
  json_parse_ex text = Some (topology_json dps links) →
  Forall (in_width 64) dps → Forall link_wf links →
  Z.of_nat (length dps) ≤ DP_LIMIT → Z.of_nat (length links) ≤ LINK_LIMIT →
  ∃ sorted, sorted ≡ₚ dps ∧ StronglySorted Z.le sorted ∧
    parse_topology json_parse_ex text =
    if decide (Forall (link_known dps) links) then Ok (sorted, Some links) else Fault Aborted.
Proof.
  intros Ht Hd Hl Hnd Hnl. exists (qsort dps). split; [apply qsort_perm|].
  split; [apply qsort_sorted|]. by apply parse_document_ok.
Qed.

(** The loader does not bound its arrays: a document with more datapaths than
    [DP_LIMIT] is written past the end of the array. *)
Theorem too_many_datapaths json_parse_ex text dps links :
  json_parse_ex text = Some (topology_json dps links) →
  Forall (in_width 64) dps → DP_LIMIT < Z.of_nat (length dps) →
  parse_topology json_parse_ex text = Fault OutOfBounds.
Proof.
  intros Ht Hd Hnd. unfold parse_topology. rewrite Ht. unfold topology_json.
  cbn [as_object mbind outcome_bind]. unfold next_element, validate_keyword.
  cbn [head deref mbind outcome_bind fst snd]. rewrite bool_decide_true by done.
  cbn [mbind outcome_bind fst snd as_array tail]. rewrite parse_dps_ok by done.
  rewrite decide_False; [done|]. intros [->|]; [cbn in Hnd|]; unfold DP_LIMIT in *; lia.
Qed.

(** *** Witnesses and the file the repository ships *)

Definition sample_links : list link_spec := [LinkSpec 1 2 2 1 10 100].

Lemma topology_document_round_trip_witness :
  ∃ sorted, sorted ≡ₚ [2; 1] ∧ StronglySorted Z.le sorted ∧
    parse_topology (λ _, Some (topology_json [2; 1] sample_links)) "" = Ok (sorted, Some sample_links).
Proof.
  destruct (topology_document_round_trip (λ _, Some (topology_json [2; 1] sample_links)) "" [2; 1]
    sample_links) as (sorted & H1 & H2 & H3).
  - reflexivity.
  - repeat constructor; vm_compute; congruence.
  - repeat constructor; vm_compute; congruence.
  - vm_compute. congruence.
  - vm_compute. congruence.
  - exists sorted. split; [exact H1|]. split; [exact H2|]. rewrite H3, decide_True; [reflexivity|].
    by apply (bool_decide_unpack _); vm_compute.
Defined.

Lemma too_many_datapaths_witness :
  parse_topology (λ _, Some (topology_json (replicate (Z.to_nat 65536) 1) [])) "" = Fault OutOfBounds.
Proof.
  apply (too_many_datapaths _ "" (replicate (Z.to_nat 65536) 1) []).
  - reflexivity.
  - apply Forall_replicate. split; lia.
  - rewrite length_replicate, Z2Nat.id by lia. unfold DP_LIMIT. lia.
Defined.

(** [topology.json]: two datapaths and a link with delay 10 and bandwidth 100.  The
    numbers are read in base 16, and the bandwidth becomes the latency of the link.
    A document without links leaves their number unassigned. *)
Definition shipped (links : list (string * json_value)) : json_value :=
  JObject (("dps", JArray [JNumber "1"; JNumber "2"]) :: links).
Example shipped_topology :
  (st ← from_json (λ _, Some (shipped [("links", JArray [JObject
       [("switchX", JNumber "1"); ("switchY", JNumber "2"); ("portX", JNumber "2");
        ("portY", JNumber "1"); ("delay", JNumber "10"); ("bw", JNumber "100")]])])) 0 (Some "");
   Ok (t_n_dps st.2, t_n_links st.2, topology_next_hop st.2 1 2)) = Ok (2, 1, Some (NodePort 2 1, 256)) ∧
  from_json (λ _, Some (shipped [])) 0 (Some "") = Fault Indeterminate.
Proof. split; vm_compute; reflexivity. Qed.
