(* ===== verification/EventHandler.v ===== *)
(** * EventHandler: what an event does to the network

    Models [sim/event_handler.c].  The handler state holds the topology, the
    event queue, the live flows and the heap of netflows: a netflow is shared by
    its live flow and by all events that carry it, so events hold its address.
    What leaves the simulator through the connection manager and the routing
    daemons is a log.  (The payload bytes of a netflow are kept in the netflow,
    so that copies do not share them.)

    The theorems: the loop over output ports ends after finitely many rounds and
    schedules one transmission per port, with flooding expanded; a transmission
    over a link becomes a reception at the other end after the latency of the
    link; the live-flow table maps each identifier to one flow; a transmission
    to an unconnected port destroys a netflow that other events still use. *)

From stdpp Require Import prelude gmap.
From S2P Require Import Prelude Util Uthash Action Instruction FlowKey Flow FlowTable.
From S2P Require Import Netflow Packet Node.
From S2P Require Import DpActions OfMsg OfUnpack OfPack Datapath DpControl Scheduler.
From S2P Require Import RoutingMsg Patricia RouteTable LegacyNode Host Router Topology.

Definition OFPP_FLOOD : Z := 0xfffffffb.
Definition OFPP_CONTROLLER : Z := 0xfffffffd.
Definition OFPR_ACTION : Z := 1.

#[export] Instance live_flow_keyed : Keyed live_flow := λ f, le_bytes 8 (lf_flow_id f).

(** [conn_manager_send_of] and [router_change_daemon_config]; the routing
    daemons never get a reply. *)
Inductive sent :=
| SentOf (dp_id : Z) (data : list Z) (len : Z)
| SentConfig (router : addr) (cmd : list Z) (proto : Z).

Record ev_handler := EvHandler {
  eh_topo : topology;
  eh_sch : scheduler;
  eh_live_flows : uthash live_flow;
  eh_flows : nf_store;
  eh_flow_id : Z;
  eh_sent : list sent
}.
#[export] Instance eta_ev_handler : Eta ev_handler := λ h,
  EvHandler (eh_topo h) (eh_sch h) (eh_live_flows h) (eh_flows h) (eh_flow_id h) (eh_sent h).

(** A new event object in the queue. *)
Definition fresh_event (sch : scheduler) : addr := S (max_list (sch_ev_queue sch).*1).
Definition schedule (ev : sim_event) (h : ev_handler) : ev_handler :=
  h <| eh_sch ::= λ sch, scheduler_insert sch (fresh_event sch) ev |>.

(** ** Live flows *)

Definition add_live_flow (h : ev_handler) (lf : live_flow) : ev_handler :=
  h <| eh_live_flows ::= λ t, HASH_ADD (fresh_addr t) lf t |>.
(** The netflow goes with it. *)
Definition live_flow_destroy {A} (lf : live_flow) (flows : gmap addr A) : gmap addr A :=
  delete (lf_flow lf) flows.
Definition del_live_flow (h : ev_handler) (a : addr) (lf : live_flow) : ev_handler :=
  h <| eh_live_flows ::= HASH_DELETE a |> <| eh_flows ::= live_flow_destroy lf |>.
Definition find_live_flow (h : ev_handler) (flow_id : Z) : option (addr * live_flow) :=
  HASH_FIND (le_bytes 8 flow_id) (eh_live_flows h).

(** A live flow for a new netflow object. *)
Definition new_live_flow (h : ev_handler) (node_id : Z) (n : netflow)
  : ev_handler * addr * Z :=
  let '(flows, nf) := nf_new (eh_flows h) n in
  let '(next, lf) := live_flow_new (eh_flow_id h) node_id nf in
  (add_live_flow (h <| eh_flows := flows |> <| eh_flow_id := next |>) lf, nf, lf_flow_id lf).

(** ** Nodes *)

(** Store through a [struct node] pointer. *)
Definition with_base (g : node → node) (n : net_node) : net_node :=
  match n with
  | NDatapath dp => NDatapath (dp <| dp_base ::= g |>)
  | NHost x => NHost (x <| h_ep; ln_base ::= g |>)
  | NRouter r => NRouter (r <| r_ln; ln_base ::= g |>)
  end.

(** The function pointers [recv_netflow] and [send_netflow] of a node. *)
Definition recv_netflow (n : net_node) (s : nf_store) (flow : addr)
  : outcome (net_node * nf_store * option addr) :=
  match n with
  | NDatapath dp =>
      nf ← nf_load s flow;
      r ← dp_recv_netflow dp nf;
      let '(dp, nf, forwarded) := r in
      Ok (NDatapath dp, <[flow := nf]> s, if forwarded : bool then Some flow else None)
  | NHost x => r ← host_recv_netflow x s flow; Ok (NHost r.1.1, r.1.2, r.2)
  | NRouter x => r ← router_recv_netflow x s flow; Ok (NRouter r.1.1, r.1.2, r.2)
  end.
Definition send_netflow (n : net_node) (nf : netflow) (out_port : Z) : net_node :=
  match n with
  | NDatapath dp => NDatapath (dp_send_netflow dp nf out_port)
  | NHost x => NHost (host_send_netflow x nf out_port)
  | NRouter r => NRouter (router_send_netflow r nf out_port)
  end.

(** The cast [(struct datapath * )node]. *)
Definition as_datapath (n : net_node) : outcome datapath :=
  match n with NDatapath dp => Ok dp | _ => Fault Indeterminate end.

Definition store_node (a : addr) (n : net_node) (h : ev_handler) : ev_handler :=
  h <| eh_topo ::= node_update a (λ _, n) |>.
Definition node_at (t : topology) (a : addr) : option net_node :=
  snd <$> first (λ av, bool_decide (av.1 = a)) (ht_elems (t_nodes t)).

(** The volume of a netflow in the units of the port buffers. *)
Definition flow_rate (nf : netflow) : Z :=
  let bits := nf_byte_cnt nf / 125 in if INT_MAX <? bits then INT_MAX else bits.

(** ** Receiving *)

Section handlers.
Context `{Loci}.

(** One transmission: the sending side takes the volume, the transmission time is
    added to the netflow and the event is scheduled for then. *)
Definition schedule_send (h : ev_handler) (n : net_node) (nf : addr) (port flow_id : Z)
  : outcome (ev_handler * net_node) :=
  f ← nf_load (eh_flows h) nf;
  base ← node_update_port_capacity (net_base n) (flow_rate f) port;
  let n := with_base (λ _, base) n in
  f ← node_add_tx_time base port f;
  let h := h <| eh_flows ::= <[nf := f]> |> in
  let ev := init_event_hdr (nf_start_time f) EVENT_FLOW_SEND
              (BodyFlowSend (net_uuid n) (Some flow_id) port (Some nf)) in
  Ok (schedule ev h, n).

(** A packet-in message about the netflow; [buf] is the packet buffer. *)
Definition schedule_packet_in (buf : list Z) (h : ev_handler) (n : net_node) (nf : addr)
  : outcome ev_handler :=
  dp ← as_datapath n;
  f ← nf_load (eh_flows h) nf;
  let f := f <| nf_metadata; dm_reason := OFPR_ACTION |> in
  let h := h <| eh_flows ::= <[nf := f]> |> in
  msg ← pack_packet_in buf f;
  let data := of_packet_in_wire msg in
  Ok (schedule (sim_event_of_msg_out_new (nf_start_time f) (dp_id dp) data
                  (Z.of_nat (length data))) h).

Definition pop_out_port (nf : addr) (h : ev_handler) : ev_handler :=
  h <| eh_flows ::= alter (λ f, f <| nf_out_ports ::= tail |>) nf |>.

(** The loop over the output ports: every round takes the first element, and
    flooding appends to the list. *)
Fixpoint after_flow_recv (fuel : nat) (buf : list Z) (h : ev_handler) (n : net_node)
    (nf : addr) (flow_id : Z) : outcome (ev_handler * net_node) :=
  match fuel with
  | O => Fault OutOfFuel
  | S fuel =>
      f ← nf_load (eh_flows h) nf;
      match nf_out_ports f with
      | [] => Ok (h, n)
      | port :: _ =>
          if port =? OFPP_CONTROLLER then
            h ← schedule_packet_in buf h n nf;
            after_flow_recv fuel buf (pop_out_port nf h) n nf flow_id
          else if port =? OFPP_FLOOD then
            dp ← as_datapath n;
            let h := pop_out_port nf h in
            f ← nf_load (eh_flows h) nf;
            after_flow_recv fuel buf
              (h <| eh_flows ::= <[nf := dp_create_flood dp f]> |>) n nf flow_id
          else
            r ← schedule_send h n nf port flow_id;
            let '(h, n) := r in
            after_flow_recv fuel buf (pop_out_port nf h) n nf flow_id
      end
  end.

(** Rounds enough for one expansion of every flood. *)
Definition flood_fuel (n : net_node) (f : netflow) : nat :=
  S (length (nf_out_ports f) * S (length (ht_elems (n_ports (net_base n))))).

Definition handle_after_flow_recv (buf : list Z) (h : ev_handler) (n : net_node)
    (nf : addr) (flow_id : Z) : outcome (ev_handler * net_node) :=
  f ← nf_load (eh_flows h) nf;
  after_flow_recv (flood_fuel n f) buf h n nf flow_id.

Definition handle_recv_netflow (buf : list Z) (h : ev_handler) (node_id flow_id : Z)
  : outcome ev_handler :=
  match topology_node (eh_topo h) node_id, find_live_flow h flow_id with
  | Some (na, n), Some (la, lf) =>
      r ← recv_netflow n (eh_flows h) (lf_flow lf);
      let '(n, flows, nf) := r in
      let h := h <| eh_flows := flows |> in
      match nf with
      | Some nf =>
          r ← handle_after_flow_recv buf h n nf flow_id;
          let '(h, n) := r in
          Ok ((store_node na n h) <| eh_live_flows ::= ht_update la (λ lf, lf <| lf_flow := nf |>) |>)
      | None => Ok (del_live_flow (store_node na n h) la lf)
      end
  | _, _ => Ok h
  end.

(** ** Sending *)

(** The next execution of an application of the host. *)
Definition next_exec (h : ev_handler) (n : net_node) (f : netflow)
  : ev_handler * net_node :=
  match n with
  | NHost x =>
      match HASH_FIND (le_bytes 8 (nf_exec_id f)) (h_execs x) with
      | Some (ea, e) =>
          if ex_exec_cnt e =? 0 then (h, n)
          else
            let t := u64 (nf_start_time f + 1000000) in
            let x := x <| h_execs ::= ht_update ea (λ e, e <| ex_start_time := t |>) |> in
            (schedule (sim_event_app_start_new t (net_uuid n) ea) h, NHost x)
      | None => (h, n)
      end
  | _ => (h, n)
  end.

Definition handle_after_flow_send (h : ev_handler) (n : net_node) (out_port : Z)
    (nf : addr) (flow_id : Z) : outcome (ev_handler * net_node) :=
  f ← nf_load (eh_flows h) nf;
  let '(h, n) := next_exec h n f in
  match topology_next_hop (eh_topo h) (net_uuid n) out_port with
  | Some (dst, latency) =>
      let f := f <| nf_start_time ::= λ t, u64 (t + latency) |>
                 <| nf_match; in_port := np_port dst |> in
      let ev := init_event_hdr (nf_start_time f) EVENT_FLOW_RECV
                  (BodyFlowRecv (np_uuid dst) (Some flow_id) (flow_rate f) (Some nf)) in
      Ok (schedule ev (h <| eh_flows ::= <[nf := f]> |>), n)
  | None => Ok (h <| eh_flows ::= delete nf |>, n)
  end.

Definition handle_send_netflow (h : ev_handler) (node_id flow_id out_port : Z)
  : outcome ev_handler :=
  match topology_node (eh_topo h) node_id, find_live_flow h flow_id with
  | Some (na, n), Some (_, lf) =>
      f ← nf_load (eh_flows h) (lf_flow lf);
      let loss := node_calculate_port_loss (net_base n) f out_port in
      base ← node_update_port_capacity (net_base n) (- flow_rate f) out_port;
      let n := with_base (λ _, base) n in
      if negb (loss =? 0) then Ok (store_node na n h)
      else
        let n := send_netflow n f out_port in
        r ← handle_after_flow_send h n out_port (lf_flow lf) flow_id;
        let '(h, n) := r in Ok (store_node na n h)
  | _, _ => Ok h
  end.

(** ** Control messages *)

(** One copy of the netflow of a packet-out: its send event carries the time
    before the transmission. *)
Definition send_copy (h : ev_handler) (base : node) (n : netflow) (port : Z)
  : outcome ev_handler :=
  let '(h, nf, flow_id) := new_live_flow h (n_uuid base) n in
  f ← node_add_tx_time base port n;
  let h := h <| eh_flows ::= <[nf := f <| nf_out_ports := [] |>]> |> in
  Ok (schedule (init_event_hdr (nf_start_time n) EVENT_FLOW_SEND
        (BodyFlowSend (n_uuid base) (Some flow_id) port (Some nf))) h).

(** The loop over the ports of a packet-out; the netflow is local. *)
Fixpoint of_in_ports (fuel : nat) (h : ev_handler) (dp : datapath) (n : netflow)
  : outcome ev_handler :=
  match fuel with
  | O => Fault OutOfFuel
  | S fuel =>
      match nf_out_ports n with
      | [] => Ok h
      | port :: ports =>
          if port =? OFPP_FLOOD then
            of_in_ports fuel h dp (dp_create_flood dp (n <| nf_out_ports := ports |>))
          else
            h ← send_copy h (dp_base dp) n port;
            of_in_ports fuel h dp (n <| nf_out_ports := ports |>)
      end
  end.

(** No switch has the datapath id of the message: the null pointer is harmless
    only as long as nothing needs the switch. *)
Definition of_in_null (sc : scratch) (h : ev_handler) (data : list Z) (len time : Z)
  : outcome ev_handler :=
  if INT_MAX <? len then Ok h
  else match of_object_new_from_message data len with
       | None | Some OF_OTHER_MESSAGE => Ok h
       | Some (OF_PACKET_OUT m) =>
           n ← handle_pkt_out sc (dp_new 0 0).2 m netflow_init time;
           if decide (nf_out_ports n = []) then Ok h else Fault NullDeref
       | Some _ => Fault NullDeref
       end.

Definition handle_of_in (sc : scratch) (h : ev_handler) (time : Z) (data : list Z)
    (len dpid : Z) : outcome ev_handler :=
  match topology_datapath_by_dpid (eh_topo h) dpid with
  | None => of_in_null sc h data len time
  | Some na =>
      node ← deref (node_at (eh_topo h) na);
      dp ← as_datapath node;
      r ← dp_control_handle_control_msg sc dp data netflow_init len time;
      let '(dp, n, ret) := r in
      let h := store_node na (NDatapath dp) h in
      h ← of_in_ports (flood_fuel (NDatapath dp) n) h dp n;
      match ret with
      | None => Ok h
      | Some ret =>
          let msg := of_reply_wire ret in
          Ok (schedule (sim_event_of_msg_out_new time (dp_id dp) msg (Z.of_nat (length msg))) h)
      end
  end.

Definition handle_of_out (h : ev_handler) (data : list Z) (len dpid : Z) : ev_handler :=
  h <| eh_sent ::= λ l, l ++ [SentOf dpid data len] |>.

(** The second byte of the message is printed when the router does not exist. *)
Definition handle_router_in (h : ev_handler) (data : list Z) (rid : Z) : outcome ev_handler :=
  match topology_router_by_id (eh_topo h) rid with
  | None => _ ← mem_read data 1 1; Ok h
  | Some na =>
      node ← deref (node_at (eh_topo h) na);
      match node with
      | NRouter r => r ← router_handle_control_message r data; Ok (store_node na (NRouter r) h)
      | _ => Fault Indeterminate
      end
  end.

Definition handle_router_out (h : ev_handler) : ev_handler := h.

Definition handle_router_config (h : ev_handler) (rid : Z) (cmd : list Z) (proto : Z)
  : ev_handler :=
  match topology_router_by_id (eh_topo h) rid with
  | None => h
  | Some na => h <| eh_sent ::= λ l, l ++ [SentConfig na cmd proto] |>
  end.

Definition handle_fti (sc : scratch) (h : ev_handler) (time : Z) (ev : fti_event)
  : outcome ev_handler :=
  match ev with
  | FtiOf subtype data len dpid =>
      if subtype =? EVENT_OF_MSG_IN then handle_of_in sc h time data len dpid
      else if subtype =? EVENT_OF_MSG_OUT then Ok (handle_of_out h data len dpid)
      else Fault Indeterminate
  | FtiRouter subtype data len rid conn_id =>
      if subtype =? EVENT_ROUTER_IN then handle_router_in h data rid
      else if subtype =? EVENT_ROUTER_OUT then Ok (handle_router_out h)
      else Fault Indeterminate
  | FtiRouterConfig rid cmd proto => Ok (handle_router_config h rid cmd proto)
  end.

(** ** Applications *)

(** The output ports of the started netflow, each with its own copy; here the
    event carries the time after the transmission. *)
Fixpoint start_ports (h : ev_handler) (base : node) (n : netflow) (ports : list Z)
  : outcome ev_handler :=
  match ports with
  | [] => Ok h
  | port :: ports =>
      let '(h, nf, flow_id) := new_live_flow h (n_uuid base) n in
      f ← node_add_tx_time base port n;
      let h := h <| eh_flows ::= <[nf := f <| nf_out_ports := [] |>]> |> in
      start_ports (schedule (init_event_hdr (nf_start_time f) EVENT_FLOW_SEND
                     (BodyFlowSend (n_uuid base) (Some flow_id) port (Some nf))) h)
        base n ports
  end.

Definition handle_start_app (h : ev_handler) (node_id : Z) (exec : addr) : outcome ev_handler :=
  match topology_node (eh_topo h) node_id with
  | None => Ok h
  | Some (na, NHost x) =>
      r ← host_execute_app x (eh_flows h) exec;
      let '(x, flows, nf) := r in
      let h := store_node na (NHost x) (h <| eh_flows := flows |>) in
      match nf with
      | None => Ok h
      | Some nf =>
          n ← nf_load (eh_flows h) nf;
          h ← start_ports h (ln_base (h_ep x)) n (nf_out_ports n);
          Ok (h <| eh_flows ::= delete nf |>)
      end
  | Some _ => Fault Indeterminate
  end.

(** ** Dispatch *)

Definition handle_packet (h : ev_handler) : ev_handler := h.
Definition handle_port (h : ev_handler) : ev_handler := h.

(** The table is indexed with the type of the event; the end event has a number
    past its end. *)
Definition handle_event (sc : scratch) (buf : list Z) (h : ev_handler) (ev : sim_event)
  : outcome ev_handler :=
  match ev_type ev with
  | None => Fault Indeterminate
  | Some ty =>
      if ty =? EVENT_FLOW_RECV then
        match ev_body ev with
        | BodyFlowRecv node_id (Some flow_id) _ _ => handle_recv_netflow buf h node_id flow_id
        | _ => Fault Indeterminate
        end
      else if ty =? EVENT_FLOW_SEND then
        match ev_body ev with
        | BodyFlowSend node_id (Some flow_id) out_port _ =>
            handle_send_netflow h node_id flow_id out_port
        | _ => Fault Indeterminate
        end
      else if ty =? EVENT_PACKET then Ok (handle_packet h)
      else if ty =? EVENT_PORT then Ok (handle_port h)
      else if ty =? EVENT_FTI then
        match ev_body ev with
        | BodyFti fti => handle_fti sc h (ev_time ev) fti
        | _ => Fault Indeterminate
        end
      else if ty =? EVENT_APP_START then
        match ev_body ev with
        | BodyAppStart node_id exec => handle_start_app h node_id exec
        | _ => Fault Indeterminate
        end
      else Fault OutOfBounds
  end.

(** ** The queue and the heap *)

Lemma fresh_event_not_in sch : fresh_event sch ∉ (sch_ev_queue sch).*1.
Proof.
  intros Hin. pose proof (max_list_elem_of_le _ _ Hin) as Hle. unfold fresh_event in Hle. lia.
Qed.

Lemma schedule_queue ev h q :
  sch_ev_queue (eh_sch h) = q →
  sch_ev_queue (eh_sch (schedule ev h)) ≡ₚ (fresh_event (eh_sch h), ev) :: q.
Proof. intros <-. apply insert_inorder_perm. Qed.

Lemma schedule_wf ev h : sch_wf (eh_sch h) → sch_wf (eh_sch (schedule ev h)).
Proof. intros Hw. apply scheduler_insert_wf; [done|apply fresh_event_not_in]. Qed.

(** ** Nodes under the operations of the loop *)

Definition port_ids (n : net_node) : list Z :=
  p_port_id ∘ snd <$> ht_elems (n_ports (net_base n)).

Lemma net_base_with_base g n : net_base (with_base g n) = g (net_base n).
Proof. by destruct n. Qed.

Lemma port_update_ids a g b :
  ht_wf (n_ports b) → (∀ p, p_port_id (g p) = p_port_id p) →
  ht_wf (n_ports (port_update a g b)) ∧
  p_port_id ∘ snd <$> ht_elems (n_ports (port_update a g b)) =
  p_port_id ∘ snd <$> ht_elems (n_ports b).
Proof.
  intros Hw Hg. destruct (port_update_elems a g b Hw) as [Hw' He].
  { intros p. unfold key_image, port_keyed. by rewrite Hg. }
  split; [done|]. rewrite He, <- list_fmap_compose. apply list_fmap_ext.
  intros i [x p] _. unfold compose, elem_update. cbn [fst snd].
  case_decide; [|done]. cbn [snd]. apply Hg.
Qed.

Lemma update_capacity_keeps b bits port b' :
  node_update_port_capacity b bits port = Ok b' → ht_wf (n_ports b) →
  ht_wf (n_ports b') ∧ n_uuid b' = n_uuid b ∧
  p_port_id ∘ snd <$> ht_elems (n_ports b') = p_port_id ∘ snd <$> ht_elems (n_ports b).
Proof.
  unfold node_update_port_capacity. destruct (node_port b port) as [[a p]|].
  - intros Hc Hw. inv_ok. destruct (port_update_ids a (λ p, p <| p_buffer_state := a0 |>) b Hw)
      as [Hw' He]; [done|]. by repeat split.
  - intros [= <-] Hw. by repeat split.
Qed.

Lemma add_tx_time_keeps b port f f' :
  node_add_tx_time b port f = Ok f' →
  nf_out_ports f' = nf_out_ports f ∧ nf_match f' = nf_match f.
Proof.
  unfold node_add_tx_time, netflow_update_send_time. intros E.
  destruct (node_port b port) as [[a p]|]; [|by simplify_eq].
  destruct (_ =? 0); by simplify_eq.
Qed.

(** ** Every operation of the loop ends *)

Lemma ends_int_add x y : ends (int_add x y).
Proof. unfold int_add. by case_decide. Qed.
Lemma ends_update_capacity b bits port : ends (node_update_port_capacity b bits port).
Proof.
  unfold node_update_port_capacity, buffer_state_update_capacity.
  destruct (node_port b port) as [[a p]|]; [|done].
  apply ends_bind; [|intros; done]. apply ends_bind; [apply ends_int_add|done].
Qed.
Lemma ends_add_tx_time b port f : ends (node_add_tx_time b port f).
Proof.
  unfold node_add_tx_time, netflow_update_send_time.
  destruct (node_port b port) as [[a p]|]; [|done]. by destruct (_ =? 0).
Qed.

Lemma ends_tags_to_pkt f buf off : ends (tags_to_pkt f buf off).
Proof.
  unfold tags_to_pkt. destruct (tags_empty f); [done|].
  assert (∀ l acc, ends acc → ends (foldl (λ acc i,
      st ← acc;
      let '(buf, off) := st in
      t ← array_get (level (nf_tags f)) (Z.of_nat i);
      if is_mpls_type (tag_type t) || is_vlan_type (tag_type t) then
        buf ← mem_write buf off (tag_union t);
        Ok (buf, (off + 4)%nat)
      else Ok (buf, off)) acc l)) as Hl; [|by apply Hl].
  induction l as [|i l IH]; intros acc Ha; [done|]. cbn [foldl]. apply IH.
  apply ends_bind; [done|]. intros [b o] _. ends_auto.
Qed.
Lemma ends_netflow_to_pkt f buf : ends (netflow_to_pkt f buf).
Proof.
  unfold netflow_to_pkt, l4_to_pkt. pose proof ends_tags_to_pkt. ends_auto.
Qed.

(** ** Fan-out of a received netflow *)

(** What a scheduled event is for. *)
Inductive target :=
| ToController (dp_id : Z)
| ToPort (node_id flow_id port : Z).
Definition ev_target (ev : sim_event) : option target :=
  match ev_body ev with
  | BodyFlowSend node_id (Some flow_id) port _ => Some (ToPort node_id flow_id port)
  | BodyFti (FtiOf _ _ _ dpid) => Some (ToController dpid)
  | _ => None
  end.
(** The events that output [port] of a node asks for. *)
Definition port_target (n : net_node) (flow_id port : Z) : option target :=
  if port =? OFPP_CONTROLLER
  then match n with NDatapath dp => Some (ToController (dp_id dp)) | _ => None end
  else Some (ToPort (net_uuid n) flow_id port).

(** The output ports with every flood replaced by the other ports of the switch. *)
Definition expand (ids : list Z) (input : Z) (ports : list Z) : list Z :=
  ports ≫= λ p, if p =? OFPP_FLOOD then filter (λ i, i ≠ input) ids else [p].
Definition weight (ids ports : list Z) : nat :=
  sum_list_with (λ p, if p =? OFPP_FLOOD then S (length ids) else 1%nat) ports.

Lemma expand_app ids i l k : expand ids i (l ++ k) = expand ids i l ++ expand ids i k.
Proof. apply bind_app. Qed.
Lemma expand_plain ids i l : OFPP_FLOOD ∉ l → expand ids i l = l.
Proof.
  induction l as [|p l IH]; intros Hl; [done|]. apply not_elem_of_cons in Hl as [Hp Hl].
  unfold expand in *. cbn [mbind list_bind]. rewrite (proj2 (Z.eqb_neq _ _)) by done.
  cbn [Datatypes.app]. f_equal. by apply IH.
Qed.
Lemma weight_app ids l k : weight ids (l ++ k) = (weight ids l + weight ids k)%nat.
Proof. apply sum_list_with_app. Qed.
Lemma weight_plain ids l : OFPP_FLOOD ∉ l → weight ids l = length l.
Proof.
  induction l as [|p l IH]; intros Hl; [done|]. apply not_elem_of_cons in Hl as [Hp Hl].
  unfold weight in *. cbn [sum_list_with length]. rewrite (proj2 (Z.eqb_neq _ _)) by done.
  rewrite IH by done. lia.
Qed.
Lemma weight_le ids l : (weight ids l ≤ length l * S (length ids))%nat.
Proof.
  induction l as [|p l IH]; [done|]. unfold weight in *. cbn [sum_list_with length].
  destruct (p =? OFPP_FLOOD); lia.
Qed.

(** The same node as far as the loop is concerned. *)
Definition same_node (n n' : net_node) : Prop :=
  ht_wf (n_ports (net_base n')) ∧ port_ids n' = port_ids n ∧ net_uuid n' = net_uuid n ∧
  ∀ flow_id port, port_target n' flow_id port = port_target n flow_id port.

Lemma same_node_refl n : ht_wf (n_ports (net_base n)) → same_node n n.
Proof. done. Qed.
Lemma same_node_trans n1 n2 n3 : same_node n1 n2 → same_node n2 n3 → same_node n1 n3.
Proof.
  intros (_ & P & U & T) (W & P' & U' & T'). split; [done|]. split; [congruence|].
  split; [congruence|]. intros. by rewrite T', T.
Qed.

Lemma schedule_send_spec h n nf f port flow_id :
  eh_flows h !! nf = Some f → ht_wf (n_ports (net_base n)) →
  (port =? OFPP_CONTROLLER) = false →
  match schedule_send h n nf port flow_id with
  | Fault e => e ≠ OutOfFuel
  | Ok (h', n') => ∃ f' e,
      eh_flows h' = <[nf := f']> (eh_flows h) ∧ nf_out_ports f' = nf_out_ports f ∧
      nf_match f' = nf_match f ∧ same_node n n' ∧
      sch_ev_queue (eh_sch h') ≡ₚ e :: sch_ev_queue (eh_sch h) ∧
      ev_target e.2 = port_target n flow_id port ∧
      eh_topo h' = eh_topo h ∧ eh_live_flows h' = eh_live_flows h
  end.
Proof.
  intros Hf Hw Hp. unfold schedule_send, nf_load. rewrite Hf. cbn [deref mbind outcome_bind].
  pose proof (ends_update_capacity (net_base n) (flow_rate f) port) as He.
  destruct (node_update_port_capacity _ _ _) as [b|e] eqn:Eb; [|intros ->; by apply He].
  cbn [mbind outcome_bind]. pose proof (ends_add_tx_time b port f) as He2.
  destruct (node_add_tx_time b port f) as [f'|e] eqn:Ef; [|intros ->; by apply He2].
  cbn [mbind outcome_bind]. destruct (add_tx_time_keeps _ _ _ _ Ef) as [Ho Hm].
  destruct (update_capacity_keeps _ _ _ _ Eb Hw) as (Hw' & Hu & Hi).
  eexists f', (_, _). split; [reflexivity|]. split; [done|]. split; [done|].
  assert (net_uuid (with_base (λ _, b) n) = net_uuid n) as Hu'
    by (unfold net_uuid; by rewrite net_base_with_base).
  split; [|split; [by apply schedule_queue|split; [|done]]].
  - split; [by rewrite net_base_with_base|]. split; [unfold port_ids; by rewrite net_base_with_base|].
    split; [done|]. intros id p. unfold port_target. rewrite Hu'. by destruct n.
  - unfold port_target. rewrite Hp. cbn [ev_target snd ev_body init_event_hdr]. by rewrite Hu'.
Qed.

Lemma schedule_packet_in_spec buf h n nf f flow_id :
  eh_flows h !! nf = Some f →
  match schedule_packet_in buf h n nf with
  | Fault e => e ≠ OutOfFuel
  | Ok h' => ∃ f' e,
      eh_flows h' = <[nf := f']> (eh_flows h) ∧ nf_out_ports f' = nf_out_ports f ∧
      nf_match f' = nf_match f ∧ sch_ev_queue (eh_sch h') ≡ₚ e :: sch_ev_queue (eh_sch h) ∧
      ev_target e.2 = port_target n flow_id OFPP_CONTROLLER ∧
      eh_topo h' = eh_topo h ∧ eh_live_flows h' = eh_live_flows h
  end.
Proof.
  intros Hf. unfold schedule_packet_in, nf_load. destruct n as [dp|x|r]; [|done..].
  cbn [as_datapath mbind outcome_bind]. rewrite Hf. cbn [deref mbind outcome_bind].
  set (f1 := f <| nf_metadata; dm_reason := OFPR_ACTION |>).
  assert (ends (pack_packet_in buf f1)) as He.
  { unfold pack_packet_in. apply ends_bind; [apply ends_netflow_to_pkt|]. by intros [] _. }
  destruct (pack_packet_in buf f1) as [msg|e]; [|intros ->; by apply He].
  cbn [mbind outcome_bind]. eexists f1, (_, _). split; [reflexivity|].
  split; [done|]. split; [done|]. split; [by apply schedule_queue|]. by split.
Qed.

(** The events a run of the loop adds. *)
Definition fanned_out (n : net_node) (flow_id : Z) (ports : list Z) (h h' : ev_handler)
  : Prop :=
  ∃ evs, sch_ev_queue (eh_sch h') ≡ₚ evs ++ sch_ev_queue (eh_sch h) ∧
    (ev_target ∘ snd <$> evs) ≡ₚ (port_target n flow_id <$> ports) ∧
    eh_topo h' = eh_topo h ∧ eh_live_flows h' = eh_live_flows h.

Lemma fanned_out_cons n n1 flow_id p ports h h1 h2 e :
  same_node n n1 →
  sch_ev_queue (eh_sch h1) ≡ₚ e :: sch_ev_queue (eh_sch h) →
  ev_target e.2 = port_target n flow_id p →
  eh_topo h1 = eh_topo h → eh_live_flows h1 = eh_live_flows h →
  fanned_out n1 flow_id ports h1 h2 → fanned_out n flow_id (p :: ports) h h2.
Proof.
  intros (_ & _ & _ & Ht) Hq He Hto Hl (evs & Hq2 & Hev & Hto2 & Hl2). exists (e :: evs).
  split; [|split; [|split; [by rewrite Hto2|by rewrite Hl2]]].
  - rewrite Hq2, Hq. cbn [Datatypes.app]. symmetry. apply Permutation_middle.
  - cbn [fmap list_fmap]. unfold compose at 1. rewrite He. constructor.
    rewrite Hev. erewrite list_fmap_ext; [reflexivity|]. intros i x _. apply Ht.
Qed.

Lemma pop_out_port_store nf h f :
  eh_flows h !! nf = Some f →
  eh_flows (pop_out_port nf h) !! nf = Some (f <| nf_out_ports ::= tail |>).
Proof.
  intros Hf. cbn [pop_out_port eh_flows setf]. by rewrite lookup_alter_eq, Hf.
Qed.

(** What the loop leaves: events for all expanded ports, no output port, the
    same node; and it always ends. *)
Definition loop_result (n : net_node) (flow_id : Z) (ports : list Z) (h : ev_handler)
    (nf : addr) (r : outcome (ev_handler * net_node)) : Prop :=
  match r with
  | Fault e => e ≠ OutOfFuel
  | Ok (h', n') => fanned_out n flow_id ports h h' ∧ same_node n n' ∧
      nf_out_ports <$> eh_flows h' !! nf = Some []
  end.

Lemma loop_result_cons n n1 flow_id p ports h h1 nf r e :
  same_node n n1 →
  sch_ev_queue (eh_sch h1) ≡ₚ e :: sch_ev_queue (eh_sch h) →
  ev_target e.2 = port_target n flow_id p →
  eh_topo h1 = eh_topo h → eh_live_flows h1 = eh_live_flows h →
  loop_result n1 flow_id ports h1 nf r → loop_result n flow_id (p :: ports) h nf r.
Proof.
  intros Hs Hq He Hto Hl. destruct r as [[h' n']|]; [|done]. intros (Hf & Hn & Ho).
  split; [by eapply fanned_out_cons|]. split; [by eapply same_node_trans|done].
Qed.

Lemma loop_result_perm n flow_id ports ports' h nf r :
  ports ≡ₚ ports' → loop_result n flow_id ports h nf r → loop_result n flow_id ports' h nf r.
Proof.
  intros Hp. destruct r as [[h' n']|]; [|done].
  intros ((evs & Hq & Hev & Ht & Hl) & Hn & Ho). split; [|done]. exists evs.
  split; [done|]. split; [|done]. by rewrite Hev, Hp.
Qed.

Lemma flood_ids_plain (ids : list Z) (i : Z) : OFPP_FLOOD ∉ ids → OFPP_FLOOD ∉ filter (λ x, x ≠ i) ids.
Proof. intros Hn [_ Hin]%list_elem_of_filter. by apply Hn. Qed.

(** One round of the loop, given what the remaining rounds do. *)
Section loop_round.
Context (fuel : nat) (buf : list Z) (nf : addr) (flow_id : Z).
Hypothesis IH : ∀ h n f,
  eh_flows h !! nf = Some f → ht_wf (n_ports (net_base n)) → OFPP_FLOOD ∉ port_ids n →
  (weight (port_ids n) (nf_out_ports f) < fuel)%nat →
  loop_result n flow_id (expand (port_ids n) (in_port (nf_match f)) (nf_out_ports f)) h nf
    (after_flow_recv fuel buf h n nf flow_id).

(** An event was scheduled; the port is popped and the loop goes on. *)
Lemma popped_round h n f port ports h1 n1 f' e :
  nf_out_ports f = port :: ports → OFPP_FLOOD ∉ port_ids n →
  (weight (port_ids n) ports < fuel)%nat →
  eh_flows h1 = <[nf := f']> (eh_flows h) → nf_out_ports f' = nf_out_ports f →
  nf_match f' = nf_match f → same_node n n1 →
  sch_ev_queue (eh_sch h1) ≡ₚ e :: sch_ev_queue (eh_sch h) →
  ev_target e.2 = port_target n flow_id port →
  eh_topo h1 = eh_topo h → eh_live_flows h1 = eh_live_flows h →
  loop_result n flow_id (port :: expand (port_ids n) (in_port (nf_match f)) ports) h nf
    (after_flow_recv fuel buf (pop_out_port nf h1) n1 nf flow_id).
Proof.
  intros Ho Hfl Hlt Hs Ho' Hm Hn Hq He Ht Hl.
  assert (eh_flows h1 !! nf = Some f') as Hf1 by (rewrite Hs; apply lookup_insert_eq).
  pose proof (pop_out_port_store nf h1 f' Hf1) as Hf2.
  eapply (loop_result_cons n n1); [exact Hn|exact Hq|exact He|done|done|].
  destruct Hn as (Hw1 & Hids & _). rewrite <- Hm, <- Hids.
  assert (nf_out_ports (f' <| nf_out_ports ::= tail |>) = ports) as Hp
    by (cbn [nf_out_ports setf]; by rewrite Ho', Ho).
  rewrite <- Hp. apply (IH (pop_out_port nf h1) n1 _ Hf2 Hw1); [by rewrite Hids|].
  by rewrite Hp, Hids.
Qed.

(** A flood is replaced by the other ports, at the end of the list. *)
Lemma flood_round h dp f ports :
  let n := NDatapath dp in
  nf_out_ports f = OFPP_FLOOD :: ports → ht_wf (n_ports (net_base n)) →
  OFPP_FLOOD ∉ port_ids n → (weight (port_ids n) (nf_out_ports f) < S fuel)%nat →
  loop_result n flow_id (expand (port_ids n) (in_port (nf_match f)) (nf_out_ports f)) h nf
    (after_flow_recv fuel buf
       ((pop_out_port nf h) <| eh_flows ::=
          <[nf := dp_create_flood dp (f <| nf_out_ports ::= tail |>)]> |>) n nf flow_id).
Proof.
  intros n Ho Hw Hfl Hlt. set (f1 := f <| nf_out_ports ::= tail |>).
  destruct (flood_loop (ht_elems (dp_ports dp)) f1) as (Hm & _ & Hout).
  fold (dp_create_flood dp f1) in Hm, Hout.
  change (nf_out_ports f1) with (tail (nf_out_ports f)) in Hout. rewrite Ho in Hlt, Hout |- *.
  change (nf_match f1) with (nf_match f) in Hm, Hout.
  change (p_port_id ∘ snd <$> ht_elems (dp_ports dp)) with (port_ids n) in Hout.
  cbn [tail] in Hout. set (f2 := dp_create_flood dp f1) in *. set (F := filter _ _) in Hout.
  assert (OFPP_FLOOD ∉ F) as HF by by apply flood_ids_plain.
  eapply (loop_result_perm _ _ (expand (port_ids n) (in_port (nf_match f2)) (nf_out_ports f2))).
  { rewrite Hout, Hm, expand_app, (expand_plain _ _ F HF).
    unfold expand at 2. cbn [mbind list_bind]. rewrite Z.eqb_refl. apply Permutation_app_comm. }
  set (h1 := _ <| eh_flows ::= _ |>).
  apply (IH h1 n f2); [apply lookup_insert_eq|done|done|].
  rewrite Hout, weight_app, (weight_plain _ F HF).
  assert (length F ≤ length (port_ids n))%nat by apply length_filter.
  unfold weight in Hlt |- *. cbn [sum_list_with] in Hlt. rewrite Z.eqb_refl in Hlt. lia.
Qed.
End loop_round.

Lemma after_flow_recv_spec fuel buf h n nf f flow_id :
  eh_flows h !! nf = Some f → ht_wf (n_ports (net_base n)) → OFPP_FLOOD ∉ port_ids n →
  (weight (port_ids n) (nf_out_ports f) < fuel)%nat →
  loop_result n flow_id (expand (port_ids n) (in_port (nf_match f)) (nf_out_ports f)) h nf
    (after_flow_recv fuel buf h n nf flow_id).
Proof.
  revert h n f. induction fuel as [|fuel IH]; intros h n f Hf Hw Hfl Hlt; [lia|].
  cbn [after_flow_recv]. unfold nf_load. rewrite Hf. cbn [deref mbind outcome_bind].
  destruct (nf_out_ports f) as [|port ports] eqn:Ho.
  { split; [|split; [by apply same_node_refl|by rewrite Hf; cbn; rewrite Ho]].
    exists []. by repeat split. }
  destruct (Z.eqb_spec port OFPP_FLOOD) as [->|Hnf].
  { change (OFPP_FLOOD =? OFPP_CONTROLLER) with false. cbv iota.
    destruct n as [dp|x|r]; [|done..]. cbn [as_datapath mbind outcome_bind].
    rewrite (pop_out_port_store nf h f Hf). cbn [deref mbind outcome_bind].
    rewrite <- Ho. apply flood_round with ports; [exact IH|done..|by rewrite Ho]. }
  assert (weight (port_ids n) ports < fuel)%nat as Hlt'.
  { unfold weight in Hlt |- *. cbn [sum_list_with] in Hlt. destruct (port =? OFPP_FLOOD); lia. }
  unfold expand. cbn [mbind list_bind]. rewrite (proj2 (Z.eqb_neq port OFPP_FLOOD)) by done.
  cbn [Datatypes.app]. fold (expand (port_ids n) (in_port (nf_match f)) ports).
  destruct (Z.eqb_spec port OFPP_CONTROLLER) as [->|Hc].
  - pose proof (schedule_packet_in_spec buf h n nf f flow_id Hf) as Hp.
    destruct (schedule_packet_in buf h n nf) as [h1|]; [|exact Hp].
    destruct Hp as (f' & e & Hs & Ho' & Hm & Hq & He & Ht & Hl). cbn [mbind outcome_bind].
    by eapply popped_round; [..|apply same_node_refl| | | |].
  - pose proof (schedule_send_spec h n nf f port flow_id Hf Hw (proj2 (Z.eqb_neq _ _) Hc)) as Hp.
    destruct (schedule_send h n nf port flow_id) as [[h1 n1]|]; [|exact Hp].
    destruct Hp as (f' & e & Hs & Ho' & Hm & Hn & Hq & He & Ht & Hl). cbn [mbind outcome_bind].
    by eapply popped_round.
Qed.

(** C7. The loop over the output ports of a received netflow ends within
    [flood_fuel] rounds whatever happens in it, provided no port of the switch is
    numbered [OFPP_FLOOD]; when no operation faults, it has scheduled exactly one
    event for each output port - a transmission, or a packet-in for
    [OFPP_CONTROLLER] - with every flood replaced by all ports but the input port,
    and has emptied the list of output ports. *)
Theorem received_flow_fans_out buf h n nf f flow_id :
  eh_flows h !! nf = Some f → ht_wf (n_ports (net_base n)) → OFPP_FLOOD ∉ port_ids n →
  match handle_after_flow_recv buf h n nf flow_id with
  | Fault e => e ≠ OutOfFuel
  | Ok (h', n') =>
      fanned_out n flow_id (expand (port_ids n) (in_port (nf_match f)) (nf_out_ports f)) h h' ∧
      nf_out_ports <$> eh_flows h' !! nf = Some []
  end.
Proof.
  intros Hf Hw Hfl. unfold handle_after_flow_recv, nf_load. rewrite Hf.
  cbn [deref mbind outcome_bind].
  pose proof (after_flow_recv_spec (flood_fuel n f) buf h n nf f flow_id Hf Hw Hfl) as Hs.
  destruct (after_flow_recv _ _ _ _ _ _) as [[h' n']|e].
  - destruct Hs as (H1 & _ & H2); [|done]. unfold flood_fuel.
    pose proof (weight_le (port_ids n) (nf_out_ports f)) as Hle. unfold port_ids in *.
    rewrite length_fmap in Hle. lia.
  - apply Hs. unfold flood_fuel. pose proof (weight_le (port_ids n) (nf_out_ports f)) as Hle.
    unfold port_ids in *. rewrite length_fmap in Hle. lia.
Qed.

(** ** Transmission *)

Lemma net_uuid_send n f port : net_uuid (send_netflow n f port) = net_uuid n.
Proof.
  assert (∀ b, n_uuid (node_update_port_stats b f port) = n_uuid b) as Hs.
  { intros b. unfold node_update_port_stats. destruct (node_port b port) as [[a p]|]; [|done].
    by destruct (upnlive p). }
  destruct n; unfold net_uuid; apply Hs.
Qed.

Lemma net_uuid_capacity n bits port b :
  node_update_port_capacity (net_base n) bits port = Ok b →
  net_uuid (with_base (λ _, b) n) = net_uuid n.
Proof.
  unfold node_update_port_capacity, net_uuid. rewrite net_base_with_base.
  destruct (node_port _ _) as [[a p]|]; intros; inv_ok; done.
Qed.

Lemma net_uuid_next_exec h n f : net_uuid (next_exec h n f).2 = net_uuid n.
Proof. destruct n; try done. cbn [next_exec]. by cases. Qed.

(** The execution of an application of the sender that is due again after this netflow,
    and the node with its new start time. *)
Definition pending_exec (n : net_node) (f : netflow) : option addr :=
  match n with
  | NHost x =>
      match HASH_FIND (le_bytes 8 (nf_exec_id f)) (h_execs x) with
      | Some (ea, e) => if decide (ex_exec_cnt e = 0) then None else Some ea
      | None => None
      end
  | _ => None
  end.
Definition restart_at (t : Z) (n : net_node) (ea : addr) : net_node :=
  match n with
  | NHost x => NHost (x <| h_execs ::= ht_update ea (λ e, e <| ex_start_time := t |>) |>)
  | _ => n
  end.

Lemma next_exec_eq h n f :
  let t := u64 (nf_start_time f + 1000000) in
  next_exec h n f =
  match pending_exec n f with
  | Some ea => (schedule (sim_event_app_start_new t (net_uuid n) ea) h, restart_at t n ea)
  | None => (h, n)
  end.
Proof.
  cbv zeta. destruct n as [dp|x|r]; [done| |done]. cbn [next_exec pending_exec].
  destruct (HASH_FIND _ _) as [[ea e]|]; [|done].
  destruct (Z.eqb_spec (ex_exec_cnt e) 0), (decide (ex_exec_cnt e = 0)); done.
Qed.

(** A port after a transmission: the load shrinks by the volume of the netflow in
    kilobits, down to 0 at the least, and a port that is up and live counts a netflow
    that was not dropped. *)
Definition transmitted (lost : bool) (f : netflow) (p : port) : port :=
  let volume := Z.min (nf_byte_cnt f / 125) INT_MAX in
  let p := p <| p_buffer_state; bs_load ::= λ load, Z.max 0 (load - volume) |> in
  if lost || negb (upnlive p) then p
  else p <| p_stats; tx_packets ::= λ c, u64 (c + nf_pkt_cnt f) |>
         <| p_stats; tx_bytes ::= λ c, u64 (c + nf_byte_cnt f) |>.

(** A port whose load and speeds are in the range of their types. *)
Record port_loaded (p : port) : Prop := {
  pl_load : 0 ≤ bs_load (p_buffer_state p) < 2 ^ 31;
  pl_capacity : 0 ≤ bs_capacity (p_buffer_state p);
  pl_speed : 0 ≤ p_curr_speed p }.

Definition overloaded (p : port) : bool :=
  bs_capacity (p_buffer_state p) + p_curr_speed p <? bs_load (p_buffer_state p).

Lemma port_loss_eq b f i a p : node_port b i = Some (a, p) → port_loaded p →
  negb (node_calculate_port_loss b f i =? 0) = overloaded p.
Proof.
  intros Hp [Hl Hc Hs]. unfold node_calculate_port_loss, buffer_state_calculate_loss, overloaded.
  rewrite Hp. destruct (Z.ltb_spec (bs_capacity (p_buffer_state p) + p_curr_speed p) (bs_load (p_buffer_state p)));
    [|done]. apply negb_true_iff, Z.eqb_neq. unfold swrap, wrap.
  rewrite Z.mod_small by lia. case_decide; lia.
Qed.

Lemma flow_rate_eq f : 0 ≤ nf_byte_cnt f →
  flow_rate f = Z.min (nf_byte_cnt f / 125) INT_MAX ∧ 0 ≤ flow_rate f ≤ INT_MAX.
Proof.
  intros Hf. unfold flow_rate. pose proof (Z.div_pos (nf_byte_cnt f) 125 Hf ltac:(lia)).
  destruct (Z.ltb_spec INT_MAX (nf_byte_cnt f / 125)); unfold INT_MAX in *; lia.
Qed.

(** The load after taking the volume off; no overflow. *)
Lemma capacity_ok b f i a p :
  node_port b i = Some (a, p) → port_loaded p → 0 ≤ nf_byte_cnt f →
  node_update_port_capacity b (- flow_rate f) i =
    Ok (port_update a (λ q, q <| p_buffer_state := p_buffer_state (transmitted true f p) |>) b).
Proof.
  intros Hp [Hl _ _] Hf. destruct (flow_rate_eq f Hf) as [Hr Hb].
  unfold INT_MAX in Hb. unfold node_update_port_capacity, buffer_state_update_capacity, int_add. rewrite Hp.
  rewrite decide_True by lia. cbn [mbind outcome_bind transmitted orb p_buffer_state setf]. rewrite <- Hr.
  assert ((if bs_load (p_buffer_state p) + - flow_rate f <? 0 then 0
           else bs_load (p_buffer_state p) + - flow_rate f)
          = Z.max 0 (bs_load (p_buffer_state p) - flow_rate f)) as ->; [|done].
  destruct (Z.ltb_spec (bs_load (p_buffer_state p) + - flow_rate f) 0); lia.
Qed.

(** The ports of the sender after a transmission. *)
Lemma sender_ports b f i a p :
  Node.node_wf b → in_width 32 i → node_port b i = Some (a, p) →
  let b1 := port_update a (λ q, q <| p_buffer_state := p_buffer_state (transmitted true f p) |>) b in
  let ports lost b' := node_port b' i = Some (a, transmitted lost f p) ∧
    ∀ q, in_width 32 q → q ≠ i → node_port b' q = node_port b q in
  ports true b1 ∧ ports false (node_update_port_stats b1 f i).
Proof.
  intros Hw Hi Hp b1 ports. set (t := transmitted true f p).
  assert (Node.node_wf b1) as Hw1 by (by apply port_update_wf).
  assert (∀ g b' q x, Node.node_wf b' → (∀ p, p_port_id (g p) = p_port_id p) → in_width 32 q → q ≠ i →
    node_port b' i = Some (a, x) → node_port (port_update a g b') q = node_port b' q) as Hother.
  { intros g b' q x Hwb Hg Hq Hne Hx. rewrite node_port_update by done.
    destruct (node_port b' q) as [[c y]|] eqn:E; [|done]. cbn [fmap option_fmap option_map fst snd].
    rewrite decide_False; [done|]. intros ->.
    apply node_port_Some in E as [E1 E2]; [|done..]. apply node_port_Some in Hx as [X1 X2]; [|done..].
    pose proof (NoDup_fst_inj _ _ _ _ (ht_addrs_NoDup _ (nw_table _ Hwb)) E1 X1). congruence. }
  assert (ports true b1) as H1.
  { split; [|intros q Hq Hne; by apply (Hother _ b q p)].
    unfold b1. rewrite node_port_update, Hp by done. cbn [fmap option_fmap option_map fst snd].
    rewrite decide_True by done. done. }
  split; [exact H1|]. destruct H1 as [Hp1 Ho1]. unfold node_update_port_stats. rewrite Hp1.
  assert (upnlive (transmitted true f p) = upnlive p) as Hu by done. rewrite Hu.
  assert (transmitted false f p = if upnlive p then (transmitted true f p)
    <| p_stats; tx_packets ::= λ c, u64 (c + nf_pkt_cnt f) |>
    <| p_stats; tx_bytes ::= λ c, u64 (c + nf_byte_cnt f) |> else transmitted true f p) as Ht.
  { unfold transmitted at 1. cbn [orb]. by destruct (upnlive p) eqn:E; cbn [upnlive p_config p_state setf] in *;
      unfold upnlive in *; cbn [p_config p_state setf]; rewrite E. }
  unfold ports. rewrite Ht. destruct (upnlive p); [|done]. split.
  - rewrite node_port_update, Hp1 by done. cbn [fmap option_fmap option_map fst snd]. by rewrite decide_True.
  - intros q Hq Hne. rewrite <- (Ho1 q Hq Hne). by eapply Hother.
Qed.


(** ** Handlers keep the identity of nodes *)

(** Run a successful computation backwards through its branches. *)
Ltac run_back H :=
  repeat first
    [ progress inv_ok
    | match type of H with
      | (let '(_, _) := ?x in _) = Ok _ => destruct x eqn:?
      | match ?x with _ => _ end = Ok _ => destruct x eqn:?
      end ].

Lemma resolve_mac_uuid ln s flow ip ln' s' r :
  resolve_mac ln s flow ip = Ok (ln', s', r) → n_uuid (ln_base ln') = n_uuid (ln_base ln).
Proof.
  unfold resolve_mac. intros E. apply outcome_bind_Ok in E as (n & _ & E).
  destruct (arp_table_lookup _ _); [by simplify_eq|].
  apply outcome_bind_Ok in E as ([req []] & _ & E);
    [|destruct (nf_new _ _); by simplify_eq].
  destruct (nf_new _ _) as [s1 a]. apply outcome_bind_Ok in E as ([b k] & Hp & E).
  simplify_eq. cbn [ln_base setf fst]. unfold node_flow_push in Hp.
  destruct (_ =? 0); [by simplify_eq|]. inv_ok. by simplify_eq.
Qed.

Lemma find_forwarding_uuid ln s flow ecmp ln' s' r :
  find_forwarding_ports ln s flow ecmp = Ok (ln', s', r) →
  n_uuid (ln_base ln') = n_uuid (ln_base ln).
Proof.
  unfold find_forwarding_ports. intros E. apply outcome_bind_Ok in E as ([s1 ip] & _ & E).
  destruct (ip =? 0); [by simplify_eq|]. by eapply resolve_mac_uuid.
Qed.

Lemma recv_arp_request_uuid ln p n :
  n_uuid (ln_base (recv_arp_request ln p n).1) = n_uuid (ln_base ln).
Proof. unfold recv_arp_request. cbn [fst]. by destruct (arp_table_lookup _ _). Qed.

Lemma l2_recv_uuid ln s flow ln' s' r :
  l2_recv_netflow ln s flow = Ok (ln', s', r) → n_uuid (ln_base ln') = n_uuid (ln_base ln).
Proof.
  unfold l2_recv_netflow. intros E. apply outcome_bind_Ok in E as (n & _ & E).
  destruct (node_port _ _) as [[a p]|]; [|by simplify_eq].
  destruct (_ && _); [by simplify_eq|]. destruct (_ =? ETH_TYPE_ARP); [|by simplify_eq].
  pose proof (recv_arp_request_uuid ln p n) as Hr.
  destruct (recv_arp_request ln p n) as [ln1 n1]. cbn [fst] in Hr.
  destruct (_ =? ARP_REQUEST).
  { destruct (p_ipv4_addr p) as [ip|]; [destruct (negb (_ =? v4_addr ip))|];
      cbv beta iota in E; by simplify_eq. }
  destruct (_ =? ARP_REPLY); [|by simplify_eq].
  destruct (node_is_buffer_empty _); [by simplify_eq|].
  apply outcome_bind_Ok in E as ([b w] & Hp & E). apply outcome_bind_Ok in E as (wf & _ & E).
  simplify_eq. cbn [ln_base setf]. unfold node_flow_pop in Hp.
  apply outcome_bind_Ok in Hp as ([x|] & _ & Hp); by simplify_eq.
Qed.

Lemma dp_recv_uuid dp f dp' f' b :
  dp_recv_netflow dp f = Ok (dp', f', b) → n_uuid (dp_base dp') = n_uuid (dp_base dp).
Proof.
  unfold dp_recv_netflow. destruct (dp_port _ _) as [[a p]|]; intros E; [|by simplify_eq].
  apply outcome_bind_Ok in E as ([[ts nf] fw] & _ & E). by simplify_eq.
Qed.

Lemma host_recv_uuid x s flow x' s' r :
  host_recv_netflow x s flow = Ok (x', s', r) →
  n_uuid (ln_base (h_ep x')) = n_uuid (ln_base (h_ep x)).
Proof.
  unfold host_recv_netflow. intros E. apply outcome_bind_Ok in E as (n & _ & E).
  apply outcome_bind_Ok in E as ([[ep s1] nf] & Hl & E). apply l2_recv_uuid in Hl.
  destruct nf as [nf|]; [|by simplify_eq].
  destruct (is_ip_type _).
  - unfold host_deliver in E. apply outcome_bind_Ok in E as (m & _ & E).
    destruct (is_l3_destination _ _); [|by simplify_eq].
    destruct (host_find_app _ _); [|by simplify_eq].
    apply outcome_bind_Ok in E as ([m1 ret] & _ & E). destruct (ret =? 0); [by simplify_eq|].
    apply outcome_bind_Ok in E as ([[ep2 s2] f2] & Hf & E). apply find_forwarding_uuid in Hf.
    destruct f2; inv_ok; simplify_eq; cbn [h_ep setf] in *; congruence.
  - destruct (_ =? ETH_TYPE_ARP); [|by simplify_eq].
    apply outcome_bind_Ok in E as (m & _ & E). destruct (is_ip_type _); inv_ok; by simplify_eq.
Qed.

Lemma router_recv_uuid x s flow x' s' r :
  router_recv_netflow x s flow = Ok (x', s', r) →
  n_uuid (ln_base (r_ln x')) = n_uuid (ln_base (r_ln x)).
Proof.
  unfold router_recv_netflow. intros E. apply outcome_bind_Ok in E as (n & _ & E).
  assert (n_uuid (ln_base (r_ln (router_count_rx n x))) = n_uuid (ln_base (r_ln x))) as Hc.
  { unfold router_count_rx. by destruct (router_port _ _) as [[]|]. }
  apply outcome_bind_Ok in E as ([[ln s1] nf] & Hl & E). apply l2_recv_uuid in Hl.
  destruct nf as [nf|]; [|simplify_eq; cbn [r_ln setf]; congruence].
  destruct (is_ip_type _).
  - apply outcome_bind_Ok in E as (m & _ & E).
    destruct (is_l3_destination _ _); [simplify_eq; cbn [r_ln setf]; congruence|].
    apply outcome_bind_Ok in E as ([[ln2 s2] f2] & Hf & E). apply find_forwarding_uuid in Hf.
    simplify_eq. cbn [r_ln setf]. congruence.
  - destruct (_ =? ETH_TYPE_ARP); simplify_eq; cbn [r_ln setf]; congruence.
Qed.

Lemma recv_netflow_uuid n s flow n' s' r :
  recv_netflow n s flow = Ok (n', s', r) → net_uuid n' = net_uuid n.
Proof.
  unfold net_uuid. destruct n as [dp|x|x]; cbn [recv_netflow]; intros E.
  - apply outcome_bind_Ok in E as (f & _ & E).
    apply outcome_bind_Ok in E as ([[dp' f'] b] & Hd & E). simplify_eq.
    by eapply dp_recv_uuid.
  - apply outcome_bind_Ok in E as ([[x' s1] f'] & Hd & E). simplify_eq. by eapply host_recv_uuid.
  - apply outcome_bind_Ok in E as ([[x' s1] f'] & Hd & E). simplify_eq. by eapply router_recv_uuid.
Qed.

Lemma host_execute_uuid x s e x' s' r :
  host_execute_app x s e = Ok (x', s', r) →
  n_uuid (ln_base (h_ep x')) = n_uuid (ln_base (h_ep x)).
Proof.
  unfold host_execute_app. intros E. apply outcome_bind_Ok in E as (ex & _ & E).
  destruct (host_find_app _ _); [|by simplify_eq].
  apply outcome_bind_Ok in E as (n & _ & E). destruct (nf_new _ _) as [s1 a1].
  apply outcome_bind_Ok in E as ([[ep s2] f] & Hf & E). apply find_forwarding_uuid in Hf.
  destruct f; inv_ok; simplify_eq; cbn [h_ep setf] in *; congruence.
Qed.

Lemma dispatch_uuid sc dp obj f time dp' f' r :
  dispatch sc dp obj f time = Ok (dp', f', r) → dp_base dp' = dp_base dp.
Proof.
  assert (∀ req dp1 fl, dp_get_stats_flows dp req 1 [] time = Ok (dp1, fl) →
    dp_base dp1 = dp_base dp) as Hst.
  { intros req dp1 fl E. unfold dp_get_stats_flows in E. run_back E; by simplify_eq. }
  intros E. destruct obj; cbn [dispatch] in E.
  1-2,6-10: unfold handle_flow_mod, dp_handle_flow_mod in E; run_back E; by simplify_eq.
  - run_back E; by simplify_eq.
  - unfold handle_flow_stats_req in E. apply outcome_bind_Ok in E as ([d p] & E1 & E). simplify_eq.
    apply outcome_bind_Ok in E1 as ([d1 fl] & Hs & E1). apply Hst in Hs. inv_ok. by simplify_eq.
  - unfold handle_aggregate_stats_req in E. apply outcome_bind_Ok in E as ([d p] & E1 & E). simplify_eq.
    apply outcome_bind_Ok in E1 as ([d1 fl] & Hs & E1). apply Hst in Hs. inv_ok. by simplify_eq.
Qed.

Lemma dp_control_uuid sc dp msg f len time dp' f' r :
  dp_control_handle_control_msg sc dp msg f len time = Ok (dp', f', r) →
  dp_base dp' = dp_base dp.
Proof.
  unfold dp_control_handle_control_msg. destruct (_ <? _); [by intros; simplify_eq|].
  destruct (of_object_new_from_message _ _); [apply dispatch_uuid|by intros; simplify_eq].
Qed.

(** ** The network under events *)

(** Address and identifier of every node. *)
Definition node_ids (t : topology) : list (addr * Z) :=
  (λ an, (an.1, net_uuid an.2)) <$> ht_elems (t_nodes t).

Record eh_wf (h : ev_handler) : Prop := {
  ew_sch : sch_wf (eh_sch h);
  ew_nodes : ht_wf (t_nodes (eh_topo h));
  ew_live : ht_wf (eh_live_flows h)
}.

(** What no event changes: which nodes and links there are. *)
Definition same_network (t t' : topology) : Prop :=
  node_ids t' = node_ids t ∧ t_links t' = t_links t ∧ t_dps t' = t_dps t ∧
  t_routers t' = t_routers t ∧ t_hosts t' = t_hosts t.

(** Handlers add events; clock and mode belong to the simulator. *)
Definition sch_grows (sch sch' : scheduler) : Prop :=
  sch_ev_queue sch ⊆ sch_ev_queue sch' ∧ sch_clock sch' = sch_clock sch ∧
  sch_mode sch' = sch_mode sch.

(** One step of a handler. *)
Definition keeps (h h' : ev_handler) : Prop :=
  eh_wf h → eh_wf h' ∧ same_network (eh_topo h) (eh_topo h') ∧
            sch_grows (eh_sch h) (eh_sch h').

#[export] Instance keeps_preorder : PreOrder keeps.
Proof.
  split; [by intros h Hh|]. intros h1 h2 h3 H12 H23 H1.
  destruct (H12 H1) as (H2 & (A & B & C & D & E) & Q & K & M).
  destruct (H23 H2) as (H3 & (A' & B' & C' & D' & E') & Q' & K' & M').
  split; [done|]. split; [split_and!; congruence|]. split; [by etransitivity|].
  split; congruence.
Qed.

(** A step that keeps topology and queue. *)
Lemma keeps_frame h h' :
  eh_topo h' = eh_topo h → eh_sch h' = eh_sch h →
  (ht_wf (eh_live_flows h) → ht_wf (eh_live_flows h')) → keeps h h'.
Proof.
  intros Ht Hs Hl [Ws Wn Wl]. unfold same_network, sch_grows. rewrite Ht, Hs.
  split; [split; [by rewrite Hs|by rewrite Ht|by apply Hl]|]. by repeat split.
Qed.

Lemma keeps_schedule ev h : keeps h (schedule ev h).
Proof.
  intros [Hs Hn Hl]. split; [split; [by apply schedule_wf|exact Hn|exact Hl]|].
  split; [by repeat split|]. split; [|done].
  intros e He. rewrite (schedule_queue ev h _ eq_refl). by right.
Qed.
Lemma keeps_flows g h : keeps h (h <| eh_flows ::= g |>).
Proof. by apply keeps_frame. Qed.
Lemma keeps_flow_id v h : keeps h (h <| eh_flow_id := v |>).
Proof. by apply keeps_frame. Qed.
Lemma keeps_sent g h : keeps h (h <| eh_sent ::= g |>).
Proof. by apply keeps_frame. Qed.
Lemma keeps_add_live h lf : keeps h (add_live_flow h lf).
Proof.
  apply keeps_frame; [done|done|]. intros Hl.
  by apply HASH_ADD_spec; [|apply fresh_addr_not_in].
Qed.
Lemma keeps_del_live h a lf : keeps h (del_live_flow h a lf).
Proof. apply keeps_frame; [done|done|]. intros Hl. by apply HASH_DELETE_spec. Qed.
Lemma keeps_live_flow a nf h :
  keeps h (h <| eh_live_flows ::= ht_update a (λ lf, lf <| lf_flow := nf |>) |>).
Proof. apply keeps_frame; [done|done|]. intros Hl. by apply ht_update_spec. Qed.

Lemma keeps_store na n0 n h :
  (na, n0) ∈ ht_elems (t_nodes (eh_topo h)) → net_uuid n = net_uuid n0 →
  keeps h (store_node na n h).
Proof.
  intros Hin Hu [Hs Hn Hl].
  assert (∀ v, (na, v) ∈ ht_elems (t_nodes (eh_topo h)) → v = n0) as Huniq.
  { intros v Hv. eapply (NoDup_fst_inj _ na); [by apply ht_addrs_NoDup|done|done]. }
  destruct (ht_update_spec na (λ _, n) (t_nodes (eh_topo h)) Hn) as [Hw He].
  { intros v Hv%Huniq. subst v. unfold key_image, net_node_keyed. by rewrite Hu. }
  split; [split; [exact Hs|exact Hw|exact Hl]|]. split; [|done]. split; [|done].
  unfold node_ids. cbn [store_node eh_topo setf node_update t_nodes]. rewrite He.
  rewrite <- list_fmap_compose. apply list_fmap_ext. intros i [a v] Hi.
  unfold compose, elem_update. cbn [fst snd]. case_decide as Ha; [|done]. subst a. cbn [fst snd].
  f_equal. rewrite Hu. f_equal. symmetry. apply Huniq. by eapply list_elem_of_lookup_2.
Qed.
Create HintDb keeps.
#[local] Hint Resolve keeps_schedule keeps_flows keeps_flow_id keeps_sent keeps_add_live
  keeps_del_live keeps_live_flow : keeps.

Lemma keeps_new_live h id n : keeps h (new_live_flow h id n).1.1.
Proof.
  unfold new_live_flow. destruct (nf_new _ _) as [fl a]. destruct (live_flow_new _ _ _) as [k lf].
  cbn [fst]. etransitivity; [|apply keeps_add_live].
  etransitivity; [|apply keeps_flow_id]. apply (keeps_flows (λ _, fl)).
Qed.

(** Steps that leave the topology alone. *)
Definition keeps_topo (h h' : ev_handler) : Prop := keeps h h' ∧ eh_topo h' = eh_topo h.
#[local] Instance keeps_topo_preorder : PreOrder keeps_topo.
Proof.
  split; [by intros h; split|]. intros h1 h2 h3 [K T] [K' T'].
  split; [by etransitivity|congruence].
Qed.
Lemma keeps_topo_intro h h' : keeps h h' → eh_topo h' = eh_topo h → keeps_topo h h'.
Proof. done. Qed.

Lemma schedule_send_keeps h n nf port id h' n' :
  schedule_send h n nf port id = Ok (h', n') → keeps_topo h h' ∧ net_uuid n' = net_uuid n.
Proof.
  unfold schedule_send. intros E. apply outcome_bind_Ok in E as (f & _ & E).
  apply outcome_bind_Ok in E as (b & Hb & E). apply outcome_bind_Ok in E as (f' & _ & E).
  simplify_eq. split; [|by eapply net_uuid_capacity]. split; [|done].
  etransitivity; [|apply keeps_schedule]. apply keeps_flows.
Qed.

Lemma schedule_packet_in_keeps buf h n nf h' :
  schedule_packet_in buf h n nf = Ok h' → keeps_topo h h'.
Proof.
  unfold schedule_packet_in. intros E. inv_ok. split; [|done].
  etransitivity; [|apply keeps_schedule]. apply keeps_flows.
Qed.

Lemma after_flow_recv_keeps fuel buf h n nf id h' n' :
  after_flow_recv fuel buf h n nf id = Ok (h', n') →
  keeps_topo h h' ∧ net_uuid n' = net_uuid n.
Proof.
  revert h n. induction fuel as [|fuel IH]; intros h n E; [done|].
  cbn [after_flow_recv] in E. apply outcome_bind_Ok in E as (f & _ & E).
  destruct (nf_out_ports f) as [|port ports]; [by simplify_eq|].
  destruct (port =? OFPP_CONTROLLER).
  { apply outcome_bind_Ok in E as (h1 & H1%schedule_packet_in_keeps & E).
    destruct (IH _ _ E) as [K U]. split; [|done].
    etransitivity; [exact H1|]. etransitivity; [|exact K]. split; [apply keeps_flows|done]. }
  destruct (port =? OFPP_FLOOD).
  { apply outcome_bind_Ok in E as (dp & _ & E). apply outcome_bind_Ok in E as (f1 & _ & E).
    destruct (IH _ _ E) as [K U]. split; [|done]. etransitivity; [|exact K].
    split; [|done]. transitivity (pop_out_port nf h); apply keeps_flows. }
  apply outcome_bind_Ok in E as ([h1 n1] & [H1 U1]%schedule_send_keeps & E).
  destruct (IH _ _ E) as [K U]. split; [|congruence].
  etransitivity; [exact H1|]. etransitivity; [|exact K]. split; [apply keeps_flows|done].
Qed.

(** A node found by its identifier, written back after some steps. *)
Lemma keeps_store_found h h1 node_id na n0 n :
  topology_node (eh_topo h) node_id = Some (na, n0) → keeps_topo h h1 →
  net_uuid n = net_uuid n0 → keeps h (store_node na n h1).
Proof.
  intros Hf [K T] Hu Hw. assert (keeps h1 (store_node na n h1)) as K'.
  { apply (keeps_store na n0); [|done]. rewrite T. by eapply HASH_FIND_Some; [apply Hw|]. }
  by apply (transitivity K K').
Qed.

Lemma handle_recv_keeps buf h node_id flow_id h' :
  handle_recv_netflow buf h node_id flow_id = Ok h' → keeps h h'.
Proof.
  unfold handle_recv_netflow. intros E.
  destruct (topology_node _ _) as [[na n]|] eqn:Hn; [|by simplify_eq].
  destruct (find_live_flow _ _) as [[la lf]|]; [|by simplify_eq].
  apply outcome_bind_Ok in E as ([[n1 fl] [nf|]] & Hr%recv_netflow_uuid & E).
  - apply outcome_bind_Ok in E as ([h1 n2] & Ha & E). simplify_eq.
    unfold handle_after_flow_recv in Ha. apply outcome_bind_Ok in Ha as (f & _ & Ha).
    apply after_flow_recv_keeps in Ha as [K U].
    transitivity (store_node na n2 h1); [|exact (keeps_live_flow la nf (store_node na n2 h1))].
    eapply keeps_store_found; [exact Hn| |congruence].
    etransitivity; [|exact K]. split; [apply (keeps_flows (λ _, fl))|done].
  - simplify_eq. set (h1 := h <| eh_flows := fl |>).
    transitivity (store_node na n1 h1); [|exact (keeps_del_live (store_node na n1 h1) la lf)].
    eapply keeps_store_found; [exact Hn| |done]. split; [apply (keeps_flows (λ _, fl))|done].
Qed.

Lemma next_exec_keeps h n f : keeps_topo h (next_exec h n f).1.
Proof.
  destruct n as [dp|x|r]; [done| |done]. cbn [next_exec].
  destruct (HASH_FIND _ _) as [[ea e]|]; [|done]. destruct (_ =? 0); [done|].
  split; [apply keeps_schedule|done].
Qed.

Lemma handle_send_keeps h node_id flow_id port h' :
  handle_send_netflow h node_id flow_id port = Ok h' → keeps h h'.
Proof.
  unfold handle_send_netflow. intros E.
  destruct (topology_node _ _) as [[na n]|] eqn:Hn; [|by simplify_eq].
  destruct (find_live_flow _ _) as [[la lf]|]; [|by simplify_eq].
  apply outcome_bind_Ok in E as (f & _ & E). apply outcome_bind_Ok in E as (b & Hb & E).
  apply net_uuid_capacity in Hb. destruct (negb _).
  { simplify_eq. by eapply keeps_store_found. }
  apply outcome_bind_Ok in E as ([h1 n1] & Ha & E). simplify_eq.
  unfold handle_after_flow_send in Ha. apply outcome_bind_Ok in Ha as (f' & _ & Ha).
  pose proof (next_exec_keeps h (send_netflow (with_base (λ _, b) n) f port) f') as K.
  pose proof (net_uuid_next_exec h (send_netflow (with_base (λ _, b) n) f port) f') as U.
  destruct (next_exec _ _ _) as [h2 n2]. cbn [fst snd] in K, U.
  rewrite net_uuid_send, Hb in U.
  destruct (topology_next_hop _ _ _) as [[dst lat]|]; simplify_eq;
    (eapply keeps_store_found; [exact Hn| |done]);
    (etransitivity; [exact K|]); (split; [|done]); [|apply keeps_flows].
  etransitivity; [|apply keeps_schedule]. apply keeps_flows.
Qed.

Lemma send_copy_keeps h b n port h' : send_copy h b n port = Ok h' → keeps_topo h h'.
Proof.
  unfold send_copy. pose proof (keeps_new_live h (n_uuid b) n) as K.
  assert (eh_topo (new_live_flow h (n_uuid b) n).1.1 = eh_topo h) as T by done.
  destruct (new_live_flow h (n_uuid b) n) as [[h1 nf] id]. cbn [fst] in K, T.
  intros E. inv_ok. split; [|exact T].
  etransitivity; [exact K|]. etransitivity; [|apply keeps_schedule]. apply keeps_flows.
Qed.

Lemma of_in_ports_keeps fuel h dp n h' : of_in_ports fuel h dp n = Ok h' → keeps_topo h h'.
Proof.
  revert h n. induction fuel as [|fuel IH]; intros h n E; [done|]. cbn [of_in_ports] in E.
  destruct (nf_out_ports n) as [|port ports]; [by simplify_eq|].
  destruct (port =? OFPP_FLOOD); [by apply IH in E|].
  apply outcome_bind_Ok in E as (h1 & K%send_copy_keeps & E). apply IH in E.
  by etransitivity.
Qed.

Lemma start_ports_keeps h b n ports h' : start_ports h b n ports = Ok h' → keeps_topo h h'.
Proof.
  revert h. induction ports as [|port ports IH]; intros h E; [by simplify_eq/=|].
  cbn [start_ports] in E. pose proof (keeps_new_live h (n_uuid b) n) as K.
  assert (eh_topo (new_live_flow h (n_uuid b) n).1.1 = eh_topo h) as T by done.
  destruct (new_live_flow h (n_uuid b) n) as [[h1 nf] id]. cbn [fst] in K, T.
  apply outcome_bind_Ok in E as (f & _ & E). apply IH in E.
  etransitivity; [|exact E]. split; [|exact T].
  etransitivity; [exact K|]. etransitivity; [|apply keeps_schedule]. apply keeps_flows.
Qed.

Lemma node_at_in t a n : node_at t a = Some n → (a, n) ∈ ht_elems (t_nodes t).
Proof.
  unfold node_at. intros ([b m] & Hf & ->)%fmap_Some. cbn [snd].
  apply first_Some in Hf as (Hin & Hb). apply bool_decide_eq_true in Hb. cbn [fst] in Hb.
  by subst.
Qed.

Lemma handle_of_in_keeps sc h time data len dpid h' :
  handle_of_in sc h time data len dpid = Ok h' → keeps h h'.
Proof.
  unfold handle_of_in. intros E.
  destruct (topology_datapath_by_dpid _ _) as [na|].
  2: { unfold of_in_null in E. destruct (_ <? _); [by simplify_eq|].
       destruct (of_object_new_from_message _ _) as [[]|]; inv_ok; try done.
       by case_decide; simplify_eq. }
  apply outcome_bind_Ok in E as (node & Hn & E). destruct (node_at _ _) as [n0|] eqn:Hat; [|done].
  cbn [deref] in Hn. injection Hn as ->. apply node_at_in in Hat.
  apply outcome_bind_Ok in E as (dp & Hdp & E). destruct node as [dp0|x|r]; [|done..].
  cbn [as_datapath] in Hdp. injection Hdp as ->.
  apply outcome_bind_Ok in E as ([[dp1 n1] ret] & Hb%dp_control_uuid & E).
  apply outcome_bind_Ok in E as (h2 & [K _]%of_in_ports_keeps & E).
  assert (keeps h h2) as K2.
  { etransitivity; [|exact K]. eapply keeps_store; [exact Hat|].
    unfold net_uuid. cbn [net_base]. by rewrite Hb. }
  destruct ret as [ret|]; simplify_eq; [|done].
  etransitivity; [exact K2|]. apply keeps_schedule.
Qed.

Lemma handle_router_in_keeps h data rid h' :
  handle_router_in h data rid = Ok h' → keeps h h'.
Proof.
  unfold handle_router_in. intros E. destruct (topology_router_by_id _ _) as [na|].
  2: { inv_ok. done. }
  apply outcome_bind_Ok in E as (node & Hn & E). destruct (node_at _ _) as [n0|] eqn:Hat; [|done].
  cbn [deref] in Hn. injection Hn as ->. apply node_at_in in Hat.
  destruct node as [|x|r]; [done..|]. apply outcome_bind_Ok in E as (r1 & Hr & E).
  simplify_eq. eapply keeps_store; [exact Hat|]. unfold router_handle_control_message, fib_add in Hr.
  apply outcome_bind_Ok in Hr as (m & _ & Hr). destruct (_ =? _); inv_ok; done.
Qed.

Lemma handle_start_app_keeps h node_id ex h' :
  handle_start_app h node_id ex = Ok h' → keeps h h'.
Proof.
  unfold handle_start_app. intros E.
  destruct (topology_node _ _) as [[na [dp|x|r]]|] eqn:Hn; [done| |done|by simplify_eq].
  apply outcome_bind_Ok in E as ([[x1 fl] nf] & Hu%host_execute_uuid & E).
  set (h1 := store_node na (NHost x1) (h <| eh_flows := fl |>)) in *.
  assert (keeps h h1) as K1.
  { eapply keeps_store_found; [exact Hn| |exact Hu]. split; [apply (keeps_flows (λ _, fl))|done]. }
  destruct nf as [nf|]; [|by simplify_eq].
  apply outcome_bind_Ok in E as (n & _ & E).
  apply outcome_bind_Ok in E as (h2 & [K2 _]%start_ports_keeps & E). simplify_eq.
  etransitivity; [exact K1|]. etransitivity; [exact K2|]. apply keeps_flows.
Qed.

Lemma handle_event_keeps sc buf h ev h' : handle_event sc buf h ev = Ok h' → keeps h h'.
Proof.
  unfold handle_event. intros E. destruct (ev_type ev) as [ty|]; [|done].
  destruct (ty =? EVENT_FLOW_RECV).
  { destruct (ev_body ev) as [|? [?|] ? ?| | |]; try done. by eapply handle_recv_keeps. }
  destruct (ty =? EVENT_FLOW_SEND).
  { destruct (ev_body ev) as [| |? [?|] ? ?| |]; try done. by eapply handle_send_keeps. }
  destruct (ty =? EVENT_PACKET); [by simplify_eq|]. destruct (ty =? EVENT_PORT); [by simplify_eq|].
  destruct (ty =? EVENT_FTI).
  { destruct (ev_body ev) as [| | |[]|]; try done; cbn [handle_fti] in E.
    - destruct (_ =? _); [by eapply handle_of_in_keeps|]. destruct (_ =? _); [|done].
      simplify_eq. apply keeps_sent.
    - destruct (_ =? _); [by eapply handle_router_in_keeps|]. destruct (_ =? _); by simplify_eq.
    - injection E as <-. unfold handle_router_config. destruct (topology_router_by_id _ _); [|done].
      apply keeps_sent. }
  destruct (ty =? EVENT_APP_START); [|done].
  destruct (ev_body ev); try done. by eapply handle_start_app_keeps.
Qed.

(** C12. Whatever event is handled - a reception, a transmission, a message of a
    controller or a routing daemon, the start of an application - the event queue
    stays sorted with distinct events and loses none, the tables of nodes and of
    live flows stay well formed, no node or link appears, disappears or changes its
    identity, and clock and mode of the simulation are left alone. *)
Theorem events_keep_network sc buf h ev h' :
  eh_wf h → handle_event sc buf h ev = Ok h' →
  eh_wf h' ∧ same_network (eh_topo h) (eh_topo h') ∧ sch_grows (eh_sch h) (eh_sch h').
Proof. intros Hw E. by apply (handle_event_keeps sc buf h ev h' E). Qed.
End handlers.

(** ** A network of two switches *)

(** Switch A (ports 1, 2, 3) sends IPv4 to ports 1 and 2; port 2 leads to port 1 of
    switch B over a link of latency 10; ports 1 and 3 lead nowhere. *)
Definition multi_rule : flow :=
  (set_eth_type (flow_new 0) 0x800) <| f_priority := 10 |>
  <| f_insts := add_apply_actions instruction_set_zero
       (inst_apply_actions [action_output blank_action 1; action_output blank_action 2]) |>.

Definition switch_A : outcome datapath :=
  dp ← dp_add_port (dp_new 0 1).2 1 1 (replicate 6 1) 1000000 1000000;
  dp ← dp_add_port dp 2 2 (replicate 6 2) 1000000 1000000;
  dp ← dp_add_port dp 3 3 (replicate 6 3) 1000000 1000000;
  dp_handle_flow_mod dp OF_FLOW_ADD 5 multi_rule 0.
Definition switch_B : outcome datapath :=
  dp_add_port (dp_new 1 2).2 1 1 (replicate 6 4) 1000000 1000000.

Definition arriving : netflow := sample_nf <| nf_match; in_port := 3 |> <| nf_start_time := 100 |>.

Definition two_switches : outcome ev_handler :=
  a ← switch_A; b ← switch_B;
  let t := topology_add_datapath (topology_add_datapath topology_new 1 a) 2 b in
  let t := topology_add_link t (dp_uuid a) (dp_uuid b) 2 1 1000000 10 false in
  let h := EvHandler t scheduler_new None ∅ 0 [] in
  Ok (new_live_flow h (dp_uuid a) arriving).1.1.

(** Dispatch and handle the next event. *)
Definition next_event `{Loci} (h : ev_handler) : outcome ev_handler :=
  r ← scheduler_dispatch (eh_sch h);
  let '(sch, e) := r in
  e ← deref e;
  handle_event sample_scratch [] (h <| eh_sch := sch |>) e.2.


#[local] Instance no_controller : Loci := sample_loci OF_OTHER_MESSAGE.

(** The parts of the example, as closed values. *)
Definition blank_handler : ev_handler := EvHandler topology_new scheduler_new None ∅ 0 [].
Definition the_handler (o : outcome ev_handler) : ev_handler :=
  match o with Ok h => h | Fault _ => blank_handler end.
Definition net0 : ev_handler := Eval vm_compute in the_handler two_switches.
Definition net1 : ev_handler :=
  Eval vm_compute in the_handler (handle_recv_netflow [] net0 (dp_uuid (dp_new 0 1).2) 0).

Lemma net0_computed : two_switches = Ok net0 ∧
  handle_recv_netflow [] net0 (dp_uuid (dp_new 0 1).2) 0 = Ok net1.
Proof. split; vm_compute; reflexivity. Qed.

(** A transmission to a port without a link frees the netflow while its live
    flow, and the transmissions scheduled for its other output ports, still point
    to it: in the network above, the second of the two events that follow the
    reception of one netflow uses memory freed at event_handler.c:196. *)
Theorem unconnected_port_frees_shared_flow :
  (h ← two_switches;
   h ← handle_recv_netflow [] h (dp_uuid (dp_new 0 1).2) 0;
   h ← next_event h;
   next_event h) = Fault NullDeref.
Proof. vm_compute. reflexivity. Qed.

(** ** Witnesses *)

Definition flooded : netflow := sample_nf <| nf_out_ports := [OFPP_FLOOD] |>.
Definition one_flow : ev_handler := EvHandler topology_new scheduler_new None {[0%nat := flooded]} 0 [].

Lemma received_flow_fans_out_witness :
  ∃ dp h' n', sample_dp (output_rule 2) = Ok dp ∧
    handle_after_flow_recv [] one_flow (NDatapath dp) 0 7 = Ok (h', n') ∧
    fanned_out (NDatapath dp) 7 [2] one_flow h'.
Proof.
  destruct (sample_dp_wf 2) as (dp & E & Hd); [done|].
  assert ((dp ← sample_dp (output_rule 2); Ok (port_ids (NDatapath dp))) = Ok [1; 2]) as C1
    by (vm_compute; reflexivity).
  assert ((dp ← sample_dp (output_rule 2);
           r ← handle_after_flow_recv [] one_flow (NDatapath dp) 0 7; Ok tt) = Ok tt) as C2
    by (vm_compute; reflexivity).
  rewrite E in C1, C2. cbn [mbind outcome_bind] in C1, C2. injection C1 as C1.
  pose proof (received_flow_fans_out [] one_flow (NDatapath dp) 0 flooded 7 eq_refl) as H.
  rewrite C1 in H. destruct (handle_after_flow_recv _ _ _ _ _) as [[h' n']|] eqn:Ho;
    [|discriminate C2].
  destruct H as [H _]; [apply Hd|by apply (bool_decide_unpack _); vm_compute|].
  exists dp, h', n'. split; [exact E|]. split; [exact Ho|]. exact H.
Defined.

(** A switch with a wire from its second port to its first, and a netflow on its way out. *)
Definition looped (dp : datapath) : ev_handler :=
  EvHandler (topology_add_link (topology_add_datapath topology_new 1 dp) 1 1 2 1 10 5 false)
    scheduler_new (HASH_ADD 1%nat (LiveFlow 0 1 0) None) {[0%nat := sample_nf]} 1 [].

Lemma looped_facts : ∃ dp p, sample_dp (output_rule 2) = Ok dp ∧ dp_wf dp ∧
  topology_node (eh_topo (looped dp)) 1 = Some (1%nat, NDatapath dp) ∧
  node_port (dp_base dp) 2 = Some (2%nat, p) ∧ port_loaded p ∧ overloaded p = false ∧
  topology_next_hop (eh_topo (looped dp)) (net_uuid (NDatapath dp)) 2 = Some (NodePort 1 1, 5).
Proof.
  destruct (sample_dp_wf 2) as (dp & E & Hd); [done|].
  assert ((dp ← sample_dp (output_rule 2); Ok (topology_node (eh_topo (looped dp)) 1)) =
          (dp ← sample_dp (output_rule 2); Ok (Some (1%nat, NDatapath dp)))) as C1 by (vm_compute; reflexivity).
  assert ((dp ← sample_dp (output_rule 2);
    Ok ((λ ap, (ap.1, bs_load (p_buffer_state ap.2), bs_capacity (p_buffer_state ap.2), p_curr_speed ap.2))
          <$> node_port (dp_base dp) 2)) = Ok (Some (2%nat, 0, 0, 100000))) as C2 by (vm_compute; reflexivity).
  assert ((dp ← sample_dp (output_rule 2);
    Ok (topology_next_hop (eh_topo (looped dp)) (net_uuid (NDatapath dp)) 2)) = Ok (Some (NodePort 1 1, 5)))
    as C3 by (vm_compute; reflexivity).
  rewrite E in C1, C2, C3. cbn [mbind outcome_bind] in C1, C2, C3.
  destruct (node_port (dp_base dp) 2) as [[a p]|] eqn:Ep; [|discriminate C2].
  apply Ok_inj in C2. injection C2 as -> L C S. exists dp, p. split; [exact E|]. split; [exact Hd|].
  split; [exact (Ok_inj _ _ C1)|]. split; [exact Ep|]. split; [split; lia|].
  split; [unfold overloaded; by rewrite L, C, S|]. exact (Ok_inj _ _ C3).
Qed.


Lemma one_switch_wf dp : eh_wf (EvHandler (topology_add_datapath topology_new 1 dp)
  scheduler_new None ∅ 0 []).
Proof.
  split; [apply scheduler_new_wf| |done].
  apply (HASH_ADD_spec (V := net_node) 1%nat (NDatapath dp) None); [done|apply not_elem_of_nil].
Qed.

Definition one_switch (dp : datapath) : ev_handler :=
  EvHandler (topology_add_datapath topology_new 1 dp) scheduler_new None ∅ 0 [].

Lemma sample_message_handled : ∃ dp h', sample_dp (output_rule 2) = Ok dp ∧
  handle_event sample_scratch [] (one_switch dp) (sim_event_of_msg_in_new 5 1 [] 8) = Ok h'.
Proof.
  assert ((dp ← sample_dp (output_rule 2);
    _ ← handle_event sample_scratch [] (one_switch dp) (sim_event_of_msg_in_new 5 1 [] 8);
    Ok tt) = Ok tt) as C by (vm_compute; reflexivity).
  apply outcome_bind_Ok in C as (dp & E & C). apply outcome_bind_Ok in C as (h' & C & _).
  exists dp, h'. split; [exact E|exact C].
Qed.

Lemma events_keep_network_witness :
  ∃ dp h', sample_dp (output_rule 2) = Ok dp ∧
    handle_event sample_scratch [] (one_switch dp) (sim_event_of_msg_in_new 5 1 [] 8) = Ok h' ∧
    eh_wf h'.
Proof.
  destruct sample_message_handled as (dp & h' & E & H). exists dp, h'.
  split; [exact E|]. split; [exact H|].
  exact (proj1 (events_keep_network sample_scratch [] (one_switch dp) _ h' (one_switch_wf dp) H)).
Defined.
