(* ===== verification/Server.v ===== *)
(** * Server: the connections of the routing daemons

    Models [sim/server.c]: the table of the connections that the daemons of the
    emulated routers open, the address it listens on, the callbacks of libevent that fill
    it, and sending on a connection.  A [bufferevent] is a handle into the buffers libevent has made:
    [None] when it was freed, otherwise the argument its callbacks get and the bytes
    written to it; libevent closes the socket when a buffer is freed and uses a
    buffer only while it exists.  [conn_id] is the static counter of the file.

    The theorems: the server implements a map from numbers to byte streams, up to
    the first use of a connection that its peer has closed; the number the callback
    of a connection reports leads back to the same connection; a closed
    connection stays in the table, and sending on it uses a freed buffer. *)

From stdpp Require Import prelude gmap.
From S2P Require Import Prelude Util Uthash Inet.

Record conn := Conn { c_id : Z; c_bev : nat }.
#[export] Instance conn_keyed : Keyed conn := λ c, le_bytes 4 (c_id c).

(** What libevent keeps of a connection. *)
Record bev := Bev { bev_ctx : addr; bev_out : list Z }.

Record server := Server {
  sv_port : Z; sv_running : bool; sv_connections : uthash conn }.
#[export] Instance eta_server : Eta server := λ s,
  Server (sv_port s) (sv_running s) (sv_connections s).

Record server_world := ServerWorld {
  sw_conn_id : Z; sw_server : server; sw_bevs : list (option bev) }.
#[export] Instance eta_server_world : Eta server_world := λ w,
  ServerWorld (sw_conn_id w) (sw_server w) (sw_bevs w).

Definition server_new (port : Z) : server := Server port false None.
Definition server_start (s : server) : server := s <| sv_running := true |>.

(** Where the thread of the server listens; [None] when the library gives no event base
    or cannot bind the address. *)
Definition server_listen (event_base listener : bool) (s : server) : option sockaddr_in :=
  if negb event_base then None
  else
    let sin := SockaddrIn AF_INET (be_bytes 2 (sv_port s)) (le_bytes 4 (htonl 2887057150)) in
    if listener then Some sin else None.

(** The buffer a handle names, if it was not freed. *)
Definition bev_live (bevs : list (option bev)) (b : nat) : outcome bev :=
  match bevs !! b with Some (Some v) => Ok v | _ => Fault OutOfBounds end.

(** A new connection: the counter overflows after [INT_MAX] of them. *)
Definition accept_conn_cb (w : server_world) : outcome server_world :=
  let c := fresh_addr (sv_connections (sw_server w)) in
  let b := length (sw_bevs w) in
  let conn := Conn (sw_conn_id w) b in
  let w := w <| sw_server; sv_connections ::= HASH_ADD c conn |>
             <| sw_bevs ::= λ l, l ++ [Some (Bev c [])] |> in
  if sw_conn_id w <? 2 ^ 31 - 1 then Ok (w <| sw_conn_id ::= Z.succ |>)
  else Fault SignedOverflow.

Definition BEV_EVENT_EOF : Z := 0x10.
Definition BEV_EVENT_ERROR : Z := 0x20.

Definition event_cb (w : server_world) (b : nat) (events : Z) : outcome server_world :=
  if negb (Z.land events (Z.lor BEV_EVENT_EOF BEV_EVENT_ERROR) =? 0) then
    _ ← bev_live (sw_bevs w) b;
    Ok (w <| sw_bevs ::= λ l, <[b := None]> l |>)
  else Ok w.

Definition server_send (w : server_world) (conn_id : Z) (data : list Z) (len : nat)
  : outcome server_world :=
  match HASH_FIND (le_bytes 4 conn_id) (sv_connections (sw_server w)) with
  | Some (_, c) =>
      v ← bev_live (sw_bevs w) (c_bev c);
      Ok (w <| sw_bevs ::= λ l, <[c_bev c := Some (Bev (bev_ctx v) (bev_out v ++ take len data))]> l |>)
  | None => Ok w
  end.

Definition conn_manager_send_routing (w : server_world) (conn_id : Z) (data : list Z) (len : nat)
  : outcome server_world := server_send w conn_id data len.

(** [HASH_ITER] with [HASH_DEL]: what is left, and the connections freed.  The
    buffers are not freed. *)
Definition server_destroy (s : server) : uthash conn * list addr :=
  (foldl (λ h c, HASH_DELETE c h) (sv_connections s) (ht_addrs (sv_connections s)),
   ht_addrs (sv_connections s)).

(** ** What the server does, one call after the other *)

Inductive server_op :=
| Accept
| Hangup (b : nat)
| Send (id : Z) (data : list Z).

Definition server_step (w : server_world) (op : server_op) : outcome server_world :=
  match op with
  | Accept => accept_conn_cb w
  | Hangup b => event_cb w b BEV_EVENT_EOF
  | Send id data => conn_manager_send_routing w id data (length data)
  end.
Fixpoint server_run (w : server_world) (ops : list server_op) : outcome server_world :=
  match ops with
  | [] => Ok w
  | op :: ops => w ← server_step w op; server_run w ops
  end.
Definition server_init (port : Z) : server_world := ServerWorld 0 (server_start (server_new port)) [].

(** ** The abstract server: a stream for each connection, [None] once it is closed *)

Abbreviation streams := (list (option (list Z))).
Definition spec_step (s : streams) (op : server_op) : outcome streams :=
  match op with
  | Accept => if Z.of_nat (length s) <? 2 ^ 31 - 1 then Ok (s ++ [Some []]) else Fault SignedOverflow
  | Hangup b => match s !! b with Some (Some _) => Ok (<[b := None]> s) | _ => Fault OutOfBounds end
  | Send id data =>
      if decide (0 ≤ id < Z.of_nat (length s)) then
        match s !! Z.to_nat id with
        | Some (Some out) => Ok (<[Z.to_nat id := Some (out ++ data)]> s)
        | _ => Fault OutOfBounds
        end
      else Ok s
  end.
Fixpoint spec_run (s : streams) (ops : list server_op) : outcome streams :=
  match ops with
  | [] => Ok s
  | op :: ops => s ← spec_step s op; spec_run s ops
  end.

Definition outs (l : list (option bev)) : streams :=
  fmap (M := list) (fmap (M := option) bev_out) l.

(** The ids are the numbers of the buffers; the callbacks of a buffer get its
    connection. *)
Record server_repr (w : server_world) (s : streams) : Prop := {
  sr_wf : ht_wf (sv_connections (sw_server w));
  sr_count : sw_conn_id w = Z.of_nat (length s);
  sr_bound : Z.of_nat (length s) < 2 ^ 31;
  sr_conns : (ht_elems (sv_connections (sw_server w))).*2
               = (λ i, Conn (Z.of_nat i) i) <$> seq 0 (length s);
  sr_outs : outs (sw_bevs w) = s;
  sr_ctx : ∀ b v, sw_bevs w !! b = Some (Some v) →
    (bev_ctx v, Conn (Z.of_nat b) b) ∈ ht_elems (sv_connections (sw_server w)) }.

(** An [int]. *)
Definition op_wf (op : server_op) : Prop :=
  match op with Send id _ => - 2 ^ 31 ≤ id < 2 ^ 31 | _ => True end.

(** A small number has the bytes of no other [int]. *)
Lemma le_bytes_int i z : 0 ≤ i < 2 ^ 31 → - 2 ^ 31 ≤ z < 2 ^ 31 →
  le_bytes 4 i = le_bytes 4 z → i = z.
Proof.
  intros Hi Hz E. apply (f_equal le_val) in E. rewrite !le_val_bytes in E. unfold wrap in E.
  change (2 ^ (8 * Z.of_nat 4)) with 4294967296 in E.
  change (2 ^ 31) with 2147483648 in *. rewrite Z.mod_small in E by lia.
  destruct (decide (0 ≤ z)); [rewrite Z.mod_small in E; lia|].
  rewrite <- (Z.mod_add z 1), Z.mod_small in E by lia. lia.
Qed.

Lemma repr_conn w s a c : server_repr w s → (a, c) ∈ ht_elems (sv_connections (sw_server w)) →
  ∃ i, c = Conn (Z.of_nat i) i ∧ (i < length s)%nat.
Proof.
  intros Hr Hin. assert (c ∈ (ht_elems (sv_connections (sw_server w))).*2) as Hc
    by (apply list_elem_of_fmap; by exists (a, c)).
  rewrite (sr_conns _ _ Hr) in Hc. apply list_elem_of_fmap in Hc as (i & -> & Hi%elem_of_seq).
  exists i. split; [done|lia].
Qed.

Lemma NoDup_snd_inj {A B} (l : list (A * B)) x x' y :
  NoDup l.*2 → (x, y) ∈ l → (x', y) ∈ l → x = x'.
Proof.
  intros Hnd (i & Hi)%list_elem_of_lookup (j & Hj)%list_elem_of_lookup.
  assert (i = j) as <-; [|congruence].
  eapply NoDup_lookup; [done|..]; rewrite list_lookup_fmap; [by rewrite Hi|by rewrite Hj].
Qed.

Lemma repr_keys w s : server_repr w s → keys_unique (sv_connections (sw_server w)).
Proof.
  intros Hr a v a' v' Hin Hin' Hk.
  destruct (repr_conn _ _ _ _ Hr Hin) as (i & -> & Hi), (repr_conn _ _ _ _ Hr Hin') as (j & -> & Hj).
  pose proof (sr_bound _ _ Hr). apply le_bytes_int in Hk; cbn in *; [|lia..].
  apply Nat2Z.inj in Hk as ->. split; [|done]. eapply NoDup_snd_inj; [|done..].
  rewrite (sr_conns _ _ Hr). apply NoDup_fmap_2; [|apply NoDup_seq]. by intros ?? [=].
Qed.

Lemma repr_length w s : server_repr w s → length (sw_bevs w) = length s.
Proof. intros Hr. rewrite <- (sr_outs _ _ Hr). unfold outs. by rewrite length_fmap. Qed.

(** Looking an id up. *)
Lemma repr_find w s id : server_repr w s → - 2 ^ 31 ≤ id < 2 ^ 31 →
  if decide (0 ≤ id < Z.of_nat (length s)) then
    ∃ a, HASH_FIND (le_bytes 4 id) (sv_connections (sw_server w)) = Some (a, Conn id (Z.to_nat id))
  else HASH_FIND (le_bytes 4 id) (sv_connections (sw_server w)) = None.
Proof.
  intros Hr Hid. pose proof (sr_wf _ _ Hr) as Hwf. pose proof (repr_keys _ _ Hr) as Hu.
  pose proof (sr_bound _ _ Hr) as Hb. case_decide as Hc.
  - assert (Conn id (Z.to_nat id) ∈ (ht_elems (sv_connections (sw_server w))).*2) as Hin.
    { rewrite (sr_conns _ _ Hr). apply list_elem_of_fmap. exists (Z.to_nat id).
      split; [by rewrite Z2Nat.id by lia|]. apply elem_of_seq. lia. }
    apply list_elem_of_fmap in Hin as ([a c] & Hcc & Hin). cbn in Hcc. subst c.
    exists a. by apply HASH_FIND_unique.
  - apply HASH_FIND_None; [done|]. intros a c Hin Hk.
    destruct (repr_conn _ _ _ _ Hr Hin) as (i & -> & Hi).
    apply le_bytes_int in Hk; cbn in *; lia.
Qed.

Lemma outs_lookup l b : outs l !! b = (fmap bev_out) <$> (l !! b).
Proof. unfold outs. apply list_lookup_fmap. Qed.

(** A change of the buffers that keeps their callbacks. *)
Lemma repr_bevs w s b x : server_repr w s → (b < length s)%nat →
  (∀ v, x = Some v → ∃ v', sw_bevs w !! b = Some (Some v') ∧ bev_ctx v' = bev_ctx v) →
  server_repr (w <| sw_bevs ::= λ l, <[b := x]> l |>) (<[b := bev_out <$> x]> s).
Proof.
  intros Hr Hb Hx. destruct Hr as [H1 H2 H3 H4 H5 H6]. split; cbn -[outs fmap]; rewrite ?length_insert; try done.
  - unfold outs. rewrite list_fmap_insert. by f_equal.
  - intros b' v. destruct (decide (b = b')) as [<-|Hne].
    + rewrite list_lookup_insert_eq; [|rewrite <- H5 in Hb; unfold outs in Hb; by rewrite length_fmap in Hb].
      intros [= ->]. destruct (Hx v eq_refl) as (v' & Hv' & <-). by apply H6.
    + rewrite list_lookup_insert_ne by done. apply H6.
Qed.

Lemma accept_repr w s : server_repr w s → Z.of_nat (length s) < 2 ^ 31 - 1 →
  ∃ w', accept_conn_cb w = Ok w' ∧ server_repr w' (s ++ [Some []]).
Proof.
  intros Hr Hlt. pose proof (repr_length _ _ Hr) as Hl. destruct Hr as [H1 H2 H3 H4 H5 H6].
  unfold accept_conn_cb. cbn -[HASH_ADD fresh_addr Z.ltb]. rewrite (proj2 (Z.ltb_lt _ _)) by lia.
  eexists. split; [done|]. set (h := sv_connections (sw_server w)) in *.
  destruct (HASH_ADD_spec (fresh_addr h) (Conn (sw_conn_id w) (length (sw_bevs w))) h H1
    (fresh_addr_not_in h)) as [Hw He].
  split; cbn -[HASH_ADD fresh_addr outs fmap]; fold h; rewrite ?length_app; cbn [length].
  - done.
  - lia.
  - lia.
  - rewrite He, fmap_app, H4, Hl, H2. cbn. by rewrite seq_app, fmap_app.
  - unfold outs. rewrite fmap_app. by f_equal.
  - intros b v. rewrite He. intros [Hb|[Hge Hb]]%lookup_app_Some.
    + apply elem_of_app. left. by apply H6.
    + apply elem_of_app. right. apply list_elem_of_singleton.
      apply list_lookup_singleton_Some in Hb as [Hb [= <-]]. cbn.
      replace b with (length (sw_bevs w)) by lia. by rewrite H2, Hl.
Qed.

(** Results that agree, and faults that agree. *)
Definition refines (m : outcome server_world) (m' : outcome streams) : Prop :=
  match m, m' with
  | Ok w, Ok s => server_repr w s
  | Fault e, Fault e' => e = e'
  | _, _ => False
  end.

Lemma bev_live_spec w s b : server_repr w s →
  match bev_live (sw_bevs w) b, s !! b with
  | Ok v, Some (Some out) => sw_bevs w !! b = Some (Some v) ∧ bev_out v = out
  | Fault OutOfBounds, (None | Some None) => True
  | _, _ => False
  end.
Proof.
  intros Hr. rewrite <- (sr_outs _ _ Hr), outs_lookup. unfold bev_live.
  destruct (sw_bevs w !! b) as [[v|]|]; by cbn.
Qed.

Lemma server_step_refines w s op : server_repr w s → op_wf op →
  refines (server_step w op) (spec_step s op).
Proof.
  intros Hr Hop. destruct op as [|b|id data]; cbn [server_step spec_step].
  - destruct (Z.ltb_spec (Z.of_nat (length s)) (2 ^ 31 - 1)) as [Hlt|Hge].
    + by destruct (accept_repr w s Hr Hlt) as (w' & -> & Hr').
    + unfold accept_conn_cb. cbn -[HASH_ADD fresh_addr Z.ltb Z.pow]. rewrite (sr_count _ _ Hr).
      by rewrite (proj2 (Z.ltb_ge _ _)) by lia.
  - unfold event_cb. change (negb _) with true. cbv iota.
    pose proof (bev_live_spec w s b Hr) as Hb. destruct (bev_live _ b) as [v|e].
    + destruct (s !! b) as [[out|]|] eqn:Hs; try done. apply lookup_lt_Some in Hs.
      by apply (repr_bevs w s b None Hr Hs).
    + destruct e; try done. by destruct (s !! b) as [[out|]|].
  - unfold conn_manager_send_routing, server_send. pose proof (repr_find w s id Hr Hop) as Hf.
    case_decide as Hc; [|by rewrite Hf]. destruct Hf as [a ->]. cbn [c_bev].
    pose proof (bev_live_spec w s (Z.to_nat id) Hr) as Hb. destruct (bev_live _ _) as [v|e].
    + destruct (s !! Z.to_nat id) as [[out|]|] eqn:Hs; try done. destruct Hb as [Hb <-].
      cbn [mbind outcome_bind refines]. rewrite firstn_all. apply lookup_lt_Some in Hs.
      apply (repr_bevs w s _ (Some (Bev (bev_ctx v) (bev_out v ++ data))) Hr Hs).
      intros v' [= <-]. by exists v.
    + destruct e; try done. by destruct (s !! Z.to_nat id) as [[out|]|].
Qed.

Lemma server_run_refines w s ops : server_repr w s → Forall op_wf ops →
  refines (server_run w ops) (spec_run s ops).
Proof.
  intros Hr Hops. revert w s Hr. induction Hops as [|op ops Hop _ IH]; intros w s Hr; [done|].
  cbn [server_run spec_run]. pose proof (server_step_refines w s op Hr Hop) as Hstep.
  destruct (server_step w op), (spec_step s op); try done. by apply IH.
Qed.

Lemma server_init_repr port : server_repr (server_init port) [].
Proof. by split. Qed.

(** C17. The server implements its specification, a stream of bytes for each
    connection: for every sequence of new connections, closed connections and
    messages it ends as the specification does - each open connection has got
    exactly the bytes sent to its number, in order, a number that was never given
    out drops the message, and sending to a number whose peer has closed the
    connection uses a freed buffer; the counter overflows after [INT_MAX] of them. *)
Theorem server_refines_streams port ops :
  Forall op_wf ops → refines (server_run (server_init port) ops) (spec_run [] ops).
Proof. intros. by apply server_run_refines; [apply server_init_repr|]. Qed.

(** The number that the callback of a connection reports with a message leads back
    to the same connection. *)
Theorem reply_reaches_sender port ops w b v data :
  Forall op_wf ops → server_run (server_init port) ops = Ok w →
  sw_bevs w !! b = Some (Some v) →
  ∃ c w', (bev_ctx v, c) ∈ ht_elems (sv_connections (sw_server w)) ∧
    server_send w (c_id c) data (length data) = Ok w' ∧
    sw_bevs w' = <[b := Some (Bev (bev_ctx v) (bev_out v ++ data))]> (sw_bevs w).
Proof.
  intros Hops Hw Hb. pose proof (server_run_refines _ _ ops (server_init_repr port) Hops) as Hr.
  rewrite Hw in Hr. destruct (spec_run [] ops) as [s|]; [|done]. cbn in Hr.
  pose proof (sr_ctx _ _ Hr b v Hb) as Hin. eexists _, _. split; [exact Hin|]. cbn [c_id].
  destruct (repr_conn _ _ _ _ Hr Hin) as (i & [= _ <-] & Hi). pose proof (sr_bound _ _ Hr).
  pose proof (repr_find w s (Z.of_nat b) Hr ltac:(lia)) as Hf. rewrite decide_True in Hf by lia.
  destruct Hf as [a Ha]. unfold server_send. rewrite Ha. cbn [c_bev]. rewrite Nat2Z.id.
  unfold bev_live. rewrite Hb. cbn [mbind outcome_bind]. rewrite firstn_all. split; [done|]. done.
Qed.

(** A connection whose peer has closed it stays in the table: the next message for
    it is written to a buffer that was freed. *)
Theorem send_after_hangup_faults port ops w b v data :
  Forall op_wf ops → server_run (server_init port) ops = Ok w →
  sw_bevs w !! b = Some (Some v) →
  server_run w [Hangup b; Send (Z.of_nat b) data] = Fault OutOfBounds.
Proof.
  intros Hops Hw Hb. pose proof (server_run_refines _ _ ops (server_init_repr port) Hops) as Hr.
  rewrite Hw in Hr. destruct (spec_run [] ops) as [s|]; [|done]. cbn in Hr.
  assert (b < length s)%nat as Hl by (rewrite <- (repr_length _ _ Hr); by eapply lookup_lt_Some).
  pose proof (sr_bound _ _ Hr). assert (s !! b = Some (Some (bev_out v))) as Hs.
  { rewrite <- (sr_outs _ _ Hr), outs_lookup, Hb. done. }
  pose proof (server_run_refines w s [Hangup b; Send (Z.of_nat b) data] Hr) as Hrun.
  cbn [spec_run spec_step] in Hrun. rewrite Hs in Hrun. cbn [mbind outcome_bind] in Hrun.
  rewrite length_insert, decide_True, Nat2Z.id, list_lookup_insert_eq in Hrun by lia.
  cbn [mbind outcome_bind] in Hrun.
  assert (Forall op_wf [Hangup b; Send (Z.of_nat b) data]) as Hops2.
  { apply Forall_cons_2; [done|]. apply Forall_singleton. cbn. lia. }
  specialize (Hrun Hops2). destruct (server_run w _) as [w'|e]; [done|]. by f_equal.
Qed.

(** Deleting a list of elements keeps the others. *)
Lemma delete_all_elems {V} `{Keyed V} (l : list addr) (h : uthash V) :
  ht_wf h → let h' := foldl (λ h c, HASH_DELETE c h) h l in
  ht_wf h' ∧ ht_elems h' = filter (λ e, e.1 ∉ l) (ht_elems h).
Proof.
  revert h. induction l as [|a l IH]; intros h Hwf; cbn [foldl].
  - split; [done|]. symmetry. apply filter_all, Forall_forall. intros e _. apply not_elem_of_nil.
  - destruct (HASH_DELETE_spec a h Hwf) as [Hw He]. destruct (IH _ Hw) as [Hw' He'].
    split; [done|]. rewrite He', He, list_filter_filter. apply list_filter_iff.
    intros e. rewrite not_elem_of_cons. tauto.
Qed.

(** Deleting every element leaves no table. *)
Lemma delete_all_none {V} `{Keyed V} (h : uthash V) : ht_wf h →
  foldl (λ h c, HASH_DELETE c h) h (ht_addrs h) = None.
Proof.
  intros Hwf. destruct (delete_all_elems (ht_addrs h) h Hwf) as [Hw He].
  apply ht_elems_nil; [done|]. rewrite He.
  destruct (filter _ _) as [|[a c] l] eqn:E; [done|]. exfalso.
  assert ((a, c) ∈ (a, c) :: l) as Hin by apply list_elem_of_here. rewrite <- E in Hin.
  apply list_elem_of_filter in Hin as [Hn Hin]. apply Hn, list_elem_of_fmap. by exists (a, c).
Qed.

(** Destroying the server empties the table and frees each connection once. *)
Theorem server_destroy_frees_all port ops w :
  Forall op_wf ops → server_run (server_init port) ops = Ok w →
  (server_destroy (sw_server w)).1 = None ∧ NoDup (server_destroy (sw_server w)).2.
Proof.
  intros Hops Hw. pose proof (server_run_refines _ _ ops (server_init_repr port) Hops) as Hr.
  rewrite Hw in Hr. destruct (spec_run [] ops) as [s|]; [|done]. cbn in Hr.
  pose proof (sr_wf _ _ Hr) as Hwf. unfold server_destroy. cbn [fst snd].
  split; [by apply delete_all_none|by apply ht_addrs_NoDup].
Qed.

(** ** Witnesses *)

Definition sample_ops : list server_op :=
  [Accept; Accept; Send 1 [1; 2]; Send 0 [9]; Send 5 [7]; Hangup 0; Send 1 [3]].

Lemma server_refines_streams_witness :
  ∃ w, server_run (server_init 6000) sample_ops = Ok w ∧ outs (sw_bevs w) = [None; Some [1; 2; 3]].
Proof.
  pose proof (server_refines_streams 6000 sample_ops) as H.
  destruct (server_run (server_init 6000) sample_ops) as [w|e].
  - exists w. split; [reflexivity|].
    assert (server_repr w [None; Some [1; 2; 3]]) as Hr.
    { apply H. repeat apply Forall_cons_2; try exact I; try (split; cbn; lia). apply Forall_nil_2. }
    exact (sr_outs _ _ Hr).
  - exfalso. apply H. repeat apply Forall_cons_2; try exact I; try (split; cbn; lia). apply Forall_nil_2.
Defined.

Lemma send_after_hangup_faults_witness :
  ∃ w, server_run (server_init 6000) [Accept] = Ok w ∧
    server_run w [Hangup 0; Send 0 [1]] = Fault OutOfBounds.
Proof.
  destruct (server_run (server_init 6000) [Accept]) as [w|e] eqn:E.
  - exists w. split; [reflexivity|].
    apply (send_after_hangup_faults 6000 [Accept] w 0 (Bev 1 []) [1]);
      [repeat constructor|exact E|]. vm_compute in E. injection E as <-. reflexivity.
  - vm_compute in E. discriminate.
Defined.
