(* ===== verification/ConnManager.v ===== *)
(** * ConnManager: messages from controllers and routing daemons

    Models [sim/conn_manager.c]: the callbacks that turn what arrives on a
    connection into events, and the look-up of the connection a message leaves by.
    libevent's input buffer is the class [BufferEvent] with the behaviour its
    documentation gives; a block of memory is what [xmalloc] returns for a size,
    with its contents, and may be larger than the size.  The two static variables
    of the router callback are state of the manager: all connections share them.

    The theorems: the router callback always returns; it cuts a sequence of whole
    messages into one event each if the blocks it gets have eight bytes more than
    it asks for, and otherwise writes past the block of the first message with a
    body; events of one call are queued in the reverse of the order of
    arrival; a FIB message is carried from the wire to the routing table. *)

From stdpp Require Import prelude gmap sorting.
From S2P Require Import Prelude Util Uthash Packet RoutingMsg RouteTable LegacyNode Router.
From S2P Require Import OfMsg DpControl Scheduler Topology EventHandler.

(** An OpenFlow connection is known by the datapath id it belongs to. *)
Record of_conn := OfConn { oc_id : Z }.
#[export] Instance of_conn_keyed : Keyed of_conn := λ c, le_bytes 8 (oc_id c).

Record conn_manager := ConnManager {
  cm_active_conns : uthash of_conn;
  cm_sch : scheduler;
  cm_pos : Z;
  cm_header : list Z;
  cm_sent : list (Z * list Z)
}.
#[export] Instance eta_conn_manager : Eta conn_manager := λ c,
  ConnManager (cm_active_conns c) (cm_sch c) (cm_pos c) (cm_header c) (cm_sent c).

Definition conn_manager_new (sch : scheduler) : conn_manager :=
  ConnManager None sch 0 (replicate 8 0) [].

(** The bytes are written to the connection of the datapath, if there is one. *)
Definition conn_manager_send_of (cm : conn_manager) (dpid : Z) (buf : list Z) (len : nat)
  : conn_manager :=
  match HASH_FIND (le_bytes 8 dpid) (cm_active_conns cm) with
  | Some (_, conn) => cm <| cm_sent ::= λ l, l ++ [(oc_id conn, take len buf)] |>
  | None => cm
  end.

Definition queue_event (ev : sim_event) (cm : conn_manager) : conn_manager :=
  cm <| cm_sch ::= λ sch, scheduler_insert sch (fresh_event sch) ev |>.

(** A message of a controller, copied whole. *)
Definition conn_manager_of_message_cb (cm : conn_manager) (dp_id : Z) (data : list Z)
  : conn_manager :=
  queue_event (sim_event_of_msg_in_new (sch_clock (cm_sch cm)) dp_id data
                 (Z.of_nat (length data))) cm.

(** ** Messages of routing daemons *)

(** The input of a libevent buffer: reading removes up to [n] bytes. *)
Class BufferEvent := {
  bufferevent : Type;
  input : bufferevent → list Z;
  bufferevent_read : bufferevent → nat → list Z * bufferevent;
  read_data b n : (bufferevent_read b n).1 = take n (input b);
  read_rest b n : input (bufferevent_read b n).2 = drop n (input b)
}.

Definition ROUND_UP (x y : Z) : Z := (x + (y - 1)) / y * y.
(** [ntohs(msg->size)], [ntohl(msg->router_id)] *)
Definition msg_size (m : list Z) : Z := be_val (fld 2 2 m).
Definition msg_router_id (m : list Z) : Z := be_val (fld 4 4 m).

Section callback.
Context `{BufferEvent} (xmalloc : nat → list Z) (conn_id : Z).

(** The size goes into the event in network byte order. *)
Definition router_event (time : Z) (header data : list Z) : sim_event :=
  sim_event_router_in_new time (msg_router_id header) conn_id data (le_val (fld 2 2 header)).

(** One round of the loop, with the number of bytes read. *)
Definition read_round (cm : conn_manager) (b : bufferevent)
  : outcome (conn_manager * bufferevent * nat) :=
  let time := sch_clock (cm_sch cm) in
  if cm_pos cm =? 0 then
    let '(bs, b) := bufferevent_read b (Z.to_nat HEADER_LEN) in
    let n := length bs in
    let header := bs ++ replicate (8 - n) 0 in
    let cm := cm <| cm_header := header |> in
    if decide (n = 0%nat) then Ok (cm, b, n)
    else if msg_size header =? HEADER_LEN then
      data ← mem_write (xmalloc (Z.to_nat HEADER_LEN)) 0 header;
      Ok (queue_event (router_event time header data) cm, b, n)
    else if HEADER_LEN <? ROUND_UP (msg_size header) 8 then
      Ok (cm <| cm_pos := u8 (cm_pos cm + HEADER_LEN) |>, b, n)
    else Ok (cm, b, n)
  else
    let header := cm_header cm in
    let len := Z.to_nat (u16 (ROUND_UP (msg_size header) 8 - HEADER_LEN)) in
    data ← mem_write (xmalloc len) 0 header;
    let '(bs, b) := bufferevent_read b len in
    data ← mem_write data (Z.to_nat (cm_pos cm)) bs;
    Ok ((queue_event (router_event time header data) cm) <| cm_pos := 0 |>, b, length bs).

Fixpoint read_rounds (fuel : nat) (cm : conn_manager) (b : bufferevent)
  : outcome (conn_manager * bufferevent) :=
  match fuel with
  | O => Fault OutOfFuel
  | S fuel =>
      r ← read_round cm b;
      let '(cm, b, n) := r in
      if decide (n = 0%nat) then Ok (cm, b) else read_rounds fuel cm b
  end.

(** Every round but the last takes a byte from the input. *)
Definition conn_manager_router_message_cb (cm : conn_manager) (b : bufferevent)
  : outcome (conn_manager * bufferevent) := read_rounds (S (length (input b))) cm b.

(** ** The callback returns *)

Lemma read_bytes b n : ∃ b', bufferevent_read b n = (take n (input b), b') ∧
  input b' = drop n (input b).
Proof.
  pose proof (read_data b n) as Hd. pose proof (read_rest b n) as Hr.
  destruct (bufferevent_read b n) as [bs b']. exists b'. cbn [fst snd] in *. by subst.
Qed.

Lemma read_round_ends cm b :
  match read_round cm b with
  | Fault e => e ≠ OutOfFuel
  | Ok (_, b', n) => length (input b') + n = length (input b)
  end%nat.
Proof.
  assert (∀ k b', input b' = drop k (input b) →
    (length (input b') + length (take k (input b)) = length (input b))%nat) as Hl.
  { intros k b' ->. rewrite length_drop, length_take. lia. }
  unfold read_round. destruct (cm_pos cm =? 0).
  - destruct (read_bytes b (Z.to_nat HEADER_LEN)) as (b' & -> & Hr). cbv zeta beta iota.
    pose proof (Hl _ _ Hr) as Hn. case_decide; [done|]. destruct (_ =? _).
    + destruct (mem_write _ _ _) eqn:E; cbn [mbind outcome_bind]; [done|].
      intros ->. by apply ends_mem_write in E.
    + by destruct (_ <? _).
  - cbv zeta. destruct (mem_write _ 0 _) eqn:E; cbn [mbind outcome_bind];
      [|intros ->; by apply ends_mem_write in E].
    destruct (read_bytes b (Z.to_nat (u16 (ROUND_UP (msg_size (cm_header cm)) 8 - HEADER_LEN))))
      as (b' & -> & Hr). cbv beta iota.
    destruct (mem_write _ _ (take _ _)) eqn:E2; cbn [mbind outcome_bind]; [by apply Hl|].
    intros ->. by apply ends_mem_write in E2.
Qed.

(** The router callback returns, whatever has arrived and whatever state an
    earlier call left behind: its loop never runs out of the rounds that the bytes
    of the input buffer allow. *)
Theorem router_callback_returns cm b :
  conn_manager_router_message_cb cm b ≠ Fault OutOfFuel.
Proof.
  unfold conn_manager_router_message_cb.
  enough (∀ fuel cm b, (length (input b) < fuel)%nat → read_rounds fuel cm b ≠ Fault OutOfFuel)
    as Hf by (apply Hf; lia).
  clear cm b. induction fuel as [|fuel IH]; intros cm b Hb; [lia|]. cbn [read_rounds].
  pose proof (read_round_ends cm b) as Hr.
  destruct (read_round cm b) as [[[cm' b'] n]|e]; cbn [mbind outcome_bind]; [|congruence].
  case_decide; [done|]. apply IH. lia.
Qed.

(** ** Cutting the input into messages *)

(** A whole message: a header that counts itself, padded to a multiple of eight. *)
Record message_wf (m : list Z) : Prop := {
  mw_bytes : Forall byte_wf m;
  mw_size : HEADER_LEN ≤ msg_size m;
  mw_length : Z.of_nat (length m) = ROUND_UP (msg_size m) 8
}.

(** The size of the block the code asks for, and whether the message fits. *)
Definition block_size (m : list Z) : nat :=
  if msg_size m =? HEADER_LEN then 8 else length m - 8.
Definition room (m : list Z) : Prop := (length m ≤ length (xmalloc (block_size m)))%nat.
#[export] Instance room_dec m : Decision (room m).
Proof. unfold room. apply _. Defined.

(** The event of a message; its data may be followed by what the block held. *)
Definition event_of (time : Z) (m : list Z) (ev : sim_event) : Prop :=
  ∃ extra, ev = router_event time m (m ++ extra).

(** No queued event is in the past. *)
Definition none_past (cm : conn_manager) : Prop :=
  Forall (λ e, sch_clock (cm_sch cm) ≤ ev_time e.2) (sch_ev_queue (cm_sch cm)).

Lemma message_length m : message_wf m →
  (8 ≤ length m)%nat ∧ (msg_size m = 8 ∧ length m = 8%nat ∨
    8 < msg_size m ∧ 8 < ROUND_UP (msg_size m) 8 ∧ 16 ≤ Z.of_nat (length m) ≤ 65536).
Proof.
  intros [Hb Hs Hl]. unfold HEADER_LEN in Hs.
  assert (msg_size m < 65536) as Hu.
  { unfold msg_size, be_val. assert (Forall byte_wf (reverse (fld 2 2 m))) as Hf.
    { apply Forall_reverse. unfold fld. by apply Forall_take, Forall_drop. }
    pose proof (le_val_in_width _ Hf) as [_ Hw].
    eapply Z.lt_le_trans; [exact Hw|]. change 65536 with (2 ^ 16). apply Z.pow_le_mono_r; [lia|].
    rewrite length_reverse. unfold fld. rewrite length_take. lia. }
  unfold ROUND_UP in *.
  assert (8 * ((msg_size m + 7) / 8) ≤ msg_size m + 7 < 8 * ((msg_size m + 7) / 8) + 8) as Hd.
  { pose proof (Z.div_mod (msg_size m + 7) 8). pose proof (Z.mod_pos_bound (msg_size m + 7) 8). lia. }
  change (8 - 1) with 7 in *. lia.
Qed.

(** The header determines size and router. *)
Lemma header_fields m : (8 ≤ length m)%nat →
  fld 2 2 (take 8 m) = fld 2 2 m ∧ msg_size (take 8 m) = msg_size m ∧
  msg_router_id (take 8 m) = msg_router_id m.
Proof.
  intros Hl. unfold msg_size, msg_router_id, fld.
  assert (∀ o k, (o + k ≤ 8)%nat → take k (drop o (take 8 m)) = take k (drop o m)) as Hf.
  { intros o k Hk. rewrite skipn_firstn_comm, take_take. f_equal. lia. }
  rewrite !Hf by lia. done.
Qed.

Lemma queue_event_front ev cm :
  none_past cm → ev_time ev = sch_clock (cm_sch cm) →
  none_past (queue_event ev cm) ∧
  (sch_ev_queue (cm_sch (queue_event ev cm))).*2 = ev :: (sch_ev_queue (cm_sch cm)).*2.
Proof.
  intros Hp Ht. unfold none_past, queue_event.
  change (sch_clock (cm_sch (cm <| cm_sch ::= _ |>))) with (sch_clock (cm_sch cm)).
  assert (∀ a, insert_inorder (a, ev) (sch_ev_queue (cm_sch cm)) =
               (a, ev) :: sch_ev_queue (cm_sch cm)) as Hi.
  { intros a. unfold none_past in Hp. destruct Hp as [|x l Hx Hl]; [done|]. cbn [insert_inorder].
    rewrite priocmp_le. cbn [snd]. by rewrite (proj2 (Z.leb_le _ _)) by lia. }
  cbn [cm_sch setf scheduler_insert sch_ev_queue]. rewrite Hi.
  split; [|done]. constructor; [cbn [snd]; lia|done].
Qed.

Lemma router_event_header t m d : (8 ≤ length m)%nat →
  router_event t (take 8 m) d = router_event t m d.
Proof. intros Hl. destruct (header_fields m Hl) as (Hf & _ & Hi). unfold router_event. by rewrite Hf, Hi. Qed.

Lemma header_round cm b m rest :
  cm_pos cm = 0 → (8 ≤ length m)%nat → input b = m ++ rest →
  let cm1 := cm <| cm_header := take 8 m |> in
  ∃ b1, input b1 = drop 8 m ++ rest ∧
    read_round cm b =
    if msg_size m =? HEADER_LEN then
      data ← mem_write (xmalloc 8) 0 (take 8 m);
      Ok (queue_event (router_event (sch_clock (cm_sch cm)) m data) cm1, b1, 8%nat)
    else Ok (if HEADER_LEN <? ROUND_UP (msg_size m) 8 then cm1 <| cm_pos := 8 |> else cm1,
             b1, 8%nat).
Proof.
  intros Hpos Hl Hin cm1. destruct (read_bytes b 8) as (b1 & Hr1 & Hi1). rewrite Hin in Hr1, Hi1.
  rewrite take_app_le in Hr1 by lia. rewrite drop_app_le in Hi1 by lia.
  exists b1. split; [done|]. destruct (header_fields m Hl) as (_ & Hsz & _).
  assert (length (take 8 m) = 8%nat) as Ht by (rewrite length_take; lia).
  unfold read_round. rewrite Hpos. change (0 =? 0) with true. cbv iota zeta.
  change (Z.to_nat HEADER_LEN) with 8%nat. rewrite Hr1. cbv beta iota. rewrite Ht.
  rewrite decide_False by done. cbn [Nat.sub replicate]. rewrite app_nil_r, Hsz. fold cm1.
  destruct (_ =? _).
  - destruct (mem_write _ _ _); cbn [mbind outcome_bind]; [by rewrite router_event_header|done].
  - change (cm_pos cm1) with (cm_pos cm). rewrite Hpos. by destruct (_ <? _).
Qed.

(** The block takes the header and the rest of the message. *)
Lemma body_round cm b m rest :
  cm_pos cm = 8 → cm_header cm = take 8 m → message_wf m → 8 < msg_size m →
  input b = drop 8 m ++ rest →
  let block := xmalloc (length m - 8) in
  ∃ b1, input b1 = rest ∧
    read_round cm b =
    if decide (length m ≤ length block)%nat then
      Ok ((queue_event (router_event (sch_clock (cm_sch cm)) m (m ++ drop (length m) block)) cm)
            <| cm_pos := 0 |>, b1, (length m - 8)%nat)
    else Fault OutOfBounds.
Proof.
  intros Hpos Hh Hm Hs Hin block. destruct (message_length m Hm) as [H8 [[]|(_ & _ & Hl)]]; [lia|].
  destruct (read_bytes b (length m - 8)) as (b1 & Hr1 & Hi1). rewrite Hin in Hr1, Hi1.
  rewrite take_app_length' in Hr1 by (by rewrite length_drop).
  rewrite drop_app_length' in Hi1 by (by rewrite length_drop).
  exists b1. split; [done|]. destruct (header_fields m H8) as (_ & Hsz & _).
  unfold read_round. rewrite Hpos, Hh, Hsz, <- (mw_length m Hm).
  change (8 =? 0) with false. cbv iota zeta.
  assert (Z.to_nat (u16 (Z.of_nat (length m) - HEADER_LEN)) = (length m - 8)%nat) as ->.
  { unfold HEADER_LEN. rewrite wrap_small; [lia|]. split; [lia|]. change (2 ^ 16) with 65536. lia. }
  fold block. rewrite Hr1.
  assert (mem_write block 0 (take 8 m) =
          if decide (8 ≤ length block)%nat then Ok (take 8 m ++ drop 8 block) else Fault OutOfBounds)
    as -> by (unfold mem_write; rewrite length_take, Nat.min_l by lia; done).
  case_decide as Hb; [|rewrite decide_False by lia; done]. cbn [mbind outcome_bind].
  unfold mem_write. change (Z.to_nat 8) with 8%nat. cbn [take Datatypes.app Nat.add].
  rewrite length_app, length_take, !length_drop, Nat.min_l by lia.
  destruct (decide (length m ≤ length block)%nat) as [Hroom|Hroom].
  2: { by rewrite decide_False by lia. }
  rewrite decide_True by lia. cbn [mbind outcome_bind].
  rewrite take_app_length' by (rewrite length_take; lia).
  rewrite drop_app_ge by (rewrite length_take; lia).
  rewrite length_take, Nat.min_l, drop_drop by lia.
  rewrite router_event_header by done. rewrite (app_assoc (take 8 m)), take_drop.
  repeat f_equal. lia.
Qed.

(** A message takes one round, or two when it has a body. *)
Lemma read_message cm b m rest :
  cm_pos cm = 0 → message_wf m → room m → input b = m ++ rest →
  ∃ k cm' b' ev, (1 ≤ k ≤ 2)%nat ∧
    (∀ fuel, read_rounds (k + fuel) cm b = read_rounds fuel cm' b') ∧ input b' = rest ∧
    cm_pos cm' = 0 ∧ event_of (sch_clock (cm_sch cm)) m ev ∧
    cm_sch cm' = cm_sch (queue_event ev cm).
Proof.
  intros Hpos Hm Hroom Hin. destruct (message_length m Hm) as [H8 Hcase].
  destruct (header_round cm b m rest Hpos H8 Hin) as (b1 & Hi1 & Hround).
  unfold room, block_size, HEADER_LEN in *. destruct Hcase as [[Hs Hl]|(Hs & Hr & Hl)].
  - rewrite Hs in Hround, Hroom. change (8 =? 8) with true in *. cbv iota in *.
    rewrite take_ge in Hround by lia. unfold mem_write in Hround.
    rewrite decide_True in Hround by lia. cbn [mbind outcome_bind take Datatypes.app] in Hround.
    eexists 1%nat, _, b1, _. split; [lia|]. split.
    { intros fuel. cbn [Nat.add read_rounds]. rewrite Hround. reflexivity. }
    split; [by rewrite Hi1, drop_ge by lia|]. split; [done|]. split; [by eexists|done].
  - rewrite (proj2 (Z.eqb_neq (msg_size m) 8)) in Hround, Hroom by lia.
    rewrite (proj2 (Z.ltb_lt _ _) Hr) in Hround.
    set (cm1 := _ <| cm_pos := 8 |>) in Hround.
    destruct (body_round cm1 b1 m rest eq_refl eq_refl Hm Hs Hi1) as (b2 & Hi2 & Hbody).
    rewrite decide_True in Hbody by done.
    eexists 2%nat, _, b2, _. split; [lia|]. split.
    { intros fuel. cbn [Nat.add read_rounds]. rewrite Hround. cbn [mbind outcome_bind].
      rewrite decide_False by done. rewrite Hbody. cbn [mbind outcome_bind].
      rewrite decide_False by lia. reflexivity. }
    split; [done|]. split; [done|]. split; [by eexists|done].
Qed.

Lemma read_messages ms : ∀ fuel cm b,
  cm_pos cm = 0 → Forall message_wf ms → Forall room ms → input b = concat ms →
  none_past cm → (2 * length ms < fuel)%nat →
  ∃ cm' b' evs, read_rounds fuel cm b = Ok (cm', b') ∧ input b' = [] ∧ cm_pos cm' = 0 ∧
    Forall2 (event_of (sch_clock (cm_sch cm))) ms evs ∧
    (sch_ev_queue (cm_sch cm')).*2 = reverse evs ++ (sch_ev_queue (cm_sch cm)).*2.
Proof.
  induction ms as [|m ms IH]; intros fuel cm b Hpos Hms Hroom Hin Hp Hf.
  - destruct fuel as [|fuel]; [lia|]. cbn [concat] in Hin.
    destruct (read_bytes b 8) as (b1 & Hr & Hi). rewrite Hin in Hr, Hi.
    eexists _, b1, []. split.
    { cbn [read_rounds]. unfold read_round. rewrite Hpos. change (0 =? 0) with true. cbv iota zeta.
      change (Z.to_nat HEADER_LEN) with 8%nat. rewrite Hr. reflexivity. }
    split; [done|]. split; [done|]. by split; [constructor|].
  - apply Forall_cons in Hms as [Hm Hms]. apply Forall_cons in Hroom as [Hr Hroom].
    cbn [concat] in Hin. cbn [length] in Hf.
    destruct (read_message cm b m (concat ms) Hpos Hm Hr Hin)
      as (k & cm1 & b1 & ev & Hk & Hstep & Hi1 & Hpos1 & Hev & Hsch).
    assert (ev_time ev = sch_clock (cm_sch cm)) as Ht by (by destruct Hev as [? ->]).
    destruct (queue_event_front ev cm Hp Ht) as [Hp1 Hq1].
    destruct (IH (fuel - k)%nat cm1 b1) as (cm2 & b2 & evs & E & Hi2 & Hpos2 & Hevs & Hq2);
      [done..| |lia|]. { unfold none_past in *. by rewrite Hsch. }
    rewrite Hsch in Hevs, Hq2. exists cm2, b2, (ev :: evs).
    split; [rewrite <- E, <- Hstep; f_equal; lia|]. split; [done|]. split; [done|].
    split; [by constructor|]. rewrite Hq2, Hq1, reverse_cons, <- app_assoc. done.
Qed.

Lemma messages_rounds ms : Forall message_wf ms → (2 * length ms < S (length (concat ms)))%nat.
Proof.
  induction 1 as [|m ms Hm _ IH]; [cbn; lia|]. cbn [concat length]. rewrite length_app.
  destruct (message_length m Hm) as [H8 _]. lia.
Qed.

(** Without room the message is written past the end of its block. *)
Lemma read_overflow cm b m rest fuel :
  cm_pos cm = 0 → message_wf m → ¬ room m → input b = m ++ rest →
  read_rounds (2 + fuel) cm b = Fault OutOfBounds.
Proof.
  intros Hpos Hm Hroom Hin. destruct (message_length m Hm) as [H8 Hcase].
  destruct (header_round cm b m rest Hpos H8 Hin) as (b1 & Hi1 & Hround).
  unfold room, block_size, HEADER_LEN in *. change (2 + fuel)%nat with (S (S fuel)).
  cbn [read_rounds]. rewrite Hround. destruct Hcase as [[Hs Hl]|(Hs & Hr & Hl)].
  - rewrite Hs in Hroom |- *. change (8 =? 8) with true in *. cbv iota in *.
    unfold mem_write. rewrite length_take, decide_False by lia. done.
  - rewrite (proj2 (Z.eqb_neq (msg_size m) 8)) in Hroom |- * by lia.
    rewrite (proj2 (Z.ltb_lt _ _) Hr). cbn [mbind outcome_bind]. rewrite decide_False by done.
    set (cm1 := _ <| cm_pos := 8 |>).
    destruct (body_round cm1 b1 m rest eq_refl eq_refl Hm Hs Hi1) as (b2 & _ & Hbody).
    rewrite decide_False in Hbody by done. by rewrite Hbody.
Qed.
Lemma read_messages_overflow ms : ∀ fuel cm b,
  cm_pos cm = 0 → Forall message_wf ms → ¬ Forall room ms → input b = concat ms →
  (2 * length ms < fuel)%nat → read_rounds fuel cm b = Fault OutOfBounds.
Proof.
  induction ms as [|m ms IH]; intros fuel cm b Hpos Hms Hroom Hin Hf; [by destruct Hroom|].
  apply Forall_cons in Hms as [Hm Hms]. cbn [concat] in Hin. cbn [length] in Hf.
  destruct (decide (room m)) as [Hr|Hr].
  - destruct (read_message cm b m (concat ms) Hpos Hm Hr Hin)
      as (k & cm1 & b1 & ev & Hk & Hstep & Hi1 & Hpos1 & _).
    replace fuel with (k + (fuel - k))%nat by lia. rewrite Hstep.
    apply IH; [done|done| |done|lia]. intros Hms'. apply Hroom. by constructor.
  - replace fuel with (2 + (fuel - 2))%nat by lia. by apply (read_overflow _ _ m (concat ms)).
Qed.

(** With blocks of exactly the size that was asked for, only headers fit. *)
Lemma tight_room m : (∀ k, length (xmalloc k) = k) → message_wf m →
  room m ↔ msg_size m = HEADER_LEN.
Proof.
  intros Halloc Hm. unfold room, block_size. rewrite Halloc.
  destruct (message_length m Hm) as [H8 Hc]. unfold HEADER_LEN.
  destruct (Z.eqb_spec (msg_size m) 8); lia.
Qed.

(** C36. The router callback on an input of whole messages, for every allocator: the
    callback asks for a block of eight bytes for a message without a body, and for the size
    of the body only for a message with one, into which it writes header and body.  If each
    of the blocks that it gets has room for its message, all bytes are consumed
    and there is one event for each message, at the current time, with the bytes of
    the message and the router it names, queued in front of the others in the
    reverse of the order of arrival; otherwise it writes past the end of a block.  When
    the blocks have exactly the size that is asked for, which is all that malloc
    promises, the first case is that of messages without a body. *)
Theorem routing_messages_framed cm b ms :
  cm_pos cm = 0 → input b = concat ms → Forall message_wf ms → none_past cm →
  (if decide (Forall room ms) then
     ∃ cm' b' evs, conn_manager_router_message_cb cm b = Ok (cm', b') ∧
       input b' = [] ∧ cm_pos cm' = 0 ∧
       Forall2 (event_of (sch_clock (cm_sch cm))) ms evs ∧
       (sch_ev_queue (cm_sch cm')).*2 = reverse evs ++ (sch_ev_queue (cm_sch cm)).*2
   else conn_manager_router_message_cb cm b = Fault OutOfBounds) ∧
  ((∀ k, length (xmalloc k) = k) → Forall room ms ↔ Forall (λ m, msg_size m = HEADER_LEN) ms).
Proof.
  intros Hpos Hin Hms Hp. unfold conn_manager_router_message_cb.
  pose proof (messages_rounds ms Hms) as Hf. rewrite <- Hin in Hf. split.
  - destruct (decide (Forall room ms)) as [Hr|Hr]; [by apply read_messages|].
    by apply (read_messages_overflow ms).
  - intros Halloc. rewrite !Forall_forall. rewrite Forall_forall in Hms.
    split; intros Hx m Hin'; apply (tight_room m Halloc (Hms m Hin')), Hx, Hin'.
Qed.

(** ** From the wire to the routing table *)

(** A message as it is sent: padded to a multiple of eight bytes. *)
Definition padded (m : list Z) : list Z :=
  m ++ replicate (Z.to_nat (ROUND_UP (msg_size m) 8) - length m) 0.

Lemma fib_bytes_wf l : Forall byte_wf (fib_bytes l) ∧ length (fib_bytes l) = (12 * length l)%nat.
Proof.
  induction l as [|f l [IH1 IH2]]; [by split|]. unfold fib_bytes in *. rewrite fmap_cons.
  cbn [concat length]. rewrite !Forall_app, !length_app, !length_be_bytes, IH2.
  split; [|lia]. split; [|done]. split_and!; apply be_bytes_wf.
Qed.

Lemma fib_message_fields id l extra :
  in_width 32 id → 12 * Z.of_nat (length l) + 8 < 65536 →
  msg_size (fib_message id l ++ extra) = 8 + 12 * Z.of_nat (length l) ∧
  msg_router_id (fib_message id l ++ extra) = id.
Proof.
  intros Hid Hl. set (size := HEADER_LEN + 12 * Z.of_nat (length l)).
  assert (in_width 16 size) as Hs.
  { unfold size, HEADER_LEN. split; [lia|]. change (2 ^ 16) with 65536. lia. }
  unfold fib_message, hdr_bytes. fold size. cbn [rm_type rm_size rm_router_id].
  unfold msg_size, msg_router_id. rewrite <- !app_assoc.
  rewrite !(fld_skip _ _ (be_bytes 2 ROUTER_FIB)) by (rewrite length_be_bytes; lia).
  rewrite length_be_bytes. cbn [Nat.sub].
  rewrite (fld_skip 2 4 (be_bytes 2 size)) by (rewrite length_be_bytes; lia).
  rewrite length_be_bytes. cbn [Nat.sub].
  rewrite !fld_here by apply length_be_bytes.
  by rewrite !be_val_in_width.
Qed.

Lemma fib_message_wf id l :
  in_width 32 id → 12 * Z.of_nat (length l) + 8 < 65536 → message_wf (padded (fib_message id l)).
Proof.
  intros Hid Hl. destruct (fib_bytes_wf l) as [Hw Hlen].
  pose proof (λ e, proj1 (fib_message_fields id l e Hid Hl)) as Hsz.
  pose proof (Hsz []) as Hsz0. rewrite app_nil_r in Hsz0.
  assert (length (fib_message id l) = 8 + 12 * length l)%nat as Hlm
    by (unfold fib_message; rewrite length_app, hdr_bytes_length, Hlen; done).
  unfold padded. split.
  - unfold fib_message, hdr_bytes. rewrite !Forall_app. split; [|by apply Forall_replicate].
    split; [|done]. split_and!; apply be_bytes_wf.
  - rewrite Hsz. unfold HEADER_LEN. lia.
  - rewrite Hsz, Hsz0, length_app, length_replicate, Hlm. unfold ROUND_UP.
    set (x := 8 + 12 * Z.of_nat (length l) + (8 - 1)).
    pose proof (Z.div_mod x 8 ltac:(done)) as Hd. pose proof (Z.mod_pos_bound x 8 ltac:(done)) as Hb.
    unfold x in Hd at 1. lia.
Qed.

(** A single message: its event is the first of the queue, or its block is too small. *)
Lemma one_message cm b m :
  cm_pos cm = 0 → none_past cm → message_wf m → input b = m →
  if decide (room m) then
    ∃ cm' b' a ev, conn_manager_router_message_cb cm b = Ok (cm', b') ∧
      scheduler_retrieve (cm_sch cm') = Some (a, ev) ∧ event_of (sch_clock (cm_sch cm)) m ev
  else conn_manager_router_message_cb cm b = Fault OutOfBounds.
Proof.
  intros Hpos Hp Hm Hin. assert (Forall message_wf [m]) as Hms by (by apply Forall_singleton).
  assert (input b = concat [m]) as Hin' by (cbn [concat]; by rewrite app_nil_r).
  pose proof (messages_rounds [m] Hms) as Hf. rewrite <- Hin' in Hf.
  unfold conn_manager_router_message_cb. destruct (decide (room m)) as [Hr|Hr].
  - destruct (read_messages [m] (S (length (input b))) cm b) as (cm' & b' & evs & E & _ & _ & Hev & Hq);
      [done|done|by constructor|done..|].
    apply Forall2_cons_inv_l in Hev as (ev & ? & Hev & ->%Forall2_nil_inv_l & ->).
    rewrite reverse_singleton in Hq. cbn [Datatypes.app] in Hq.
    destruct (sch_ev_queue (cm_sch cm')) as [|[a ev'] q] eqn:Hqueue; [done|].
    rewrite fmap_cons in Hq. injection Hq as -> Hq. exists cm', b', a, ev.
    split; [done|]. split; [|done]. unfold scheduler_retrieve. by rewrite Hqueue.
  - apply (read_messages_overflow [m]); try done. by rewrite Forall_singleton.
Qed.

(** The event of a FIB message adds exactly the announced routes to the table of the
    router with that id, and changes nothing else. *)
Lemma fib_event_ok `{Loci} sc buf h time rid l na r ev :
  in_width 32 rid → Forall fib_prefix_wf l → 12 * Z.of_nat (length l) + 8 < 65536 →
  topology_router_by_id (eh_topo h) rid = Some na →
  node_at (eh_topo h) na = Some (NRouter r) → rt_wf (ln_rt (r_ln r)) →
  event_of time (padded (fib_message rid l)) ev →
  ∃ r' es, handle_event sc buf h ev = Ok (store_node na (NRouter r') h) ∧
    Forall2 fib_route l es ∧
    routes (ln_rt (r_ln r')) ≡ₚ es ++ routes (ln_rt (r_ln r)) ∧ rt_wf (ln_rt (r_ln r')).
Proof.
  intros Hrid Hl Hlen Hid Hna Hwf [extra ->]. unfold padded. rewrite <- app_assoc.
  set (rest := _ ++ extra).
  destruct (fib_message_ok r rid l rest Hwf Hl Hrid Hlen) as (r' & es & Hr & Hwf' & Hes & Hro & _).
  exists r', es. split; [|done]. unfold router_event.
  destruct (fib_message_fields rid l (replicate (Z.to_nat (ROUND_UP (msg_size (fib_message rid l)) 8)
    - length (fib_message rid l)) 0) Hrid Hlen) as [_ ->].
  change (handle_router_in h (fib_message rid l ++ rest) rid = Ok (store_node na (NRouter r') h)).
  unfold handle_router_in. rewrite Hid, Hna. cbn [deref mbind outcome_bind]. by rewrite Hr.
Qed.
End callback.

(** ** Witnesses: a router, its daemon and blocks of ample size *)

(** The buffer as the list of its bytes. *)
#[local] Instance list_bufferevent : BufferEvent := {|
  bufferevent := list Z; input := id; bufferevent_read b n := (take n b, drop n b);
  read_data _ _ := eq_refl; read_rest _ _ := eq_refl |}.

Definition ample (k : nat) : list Z := replicate (k + 8) 0xa5.
Definition tight (k : nat) : list Z := replicate k 0.
Definition activity : list Z := [0; 0; 0; 8; 0; 0; 0; 7].
Definition fib_wire : list Z := padded (fib_message 7 [FibPrefix 0x0a010000 16 0x0a000002]).
Definition sample_cm : conn_manager :=
  conn_manager_new (scheduler_insert scheduler_new 1 (sim_event_flow_send_new 20 1 1)).

Lemma activity_wf : message_wf activity.
Proof. split; [by repeat constructor|done|done]. Qed.
Lemma fib_wire_wf : message_wf fib_wire.
Proof. apply fib_message_wf; [split|]; done. Qed.
Lemma sample_cm_past : none_past sample_cm.
Proof. repeat constructor; done. Qed.

(** Five bytes of a header are taken for a whole message. *)
Lemma router_callback_returns_witness :
  @conn_manager_router_message_cb list_bufferevent tight 1 sample_cm [0; 1; 0; 20; 9] ≠ Fault OutOfFuel ∧
  (r ← @conn_manager_router_message_cb list_bufferevent tight 1 sample_cm [0; 1; 0; 20; 9];
   Ok (length (sch_ev_queue (cm_sch r.1)), cm_pos r.1)) = Ok (2%nat, 0).
Proof.
  split; [apply (@router_callback_returns list_bufferevent tight 1 sample_cm [0; 1; 0; 20; 9])|].
  vm_compute. reflexivity.
Defined.

Lemma routing_messages_framed_witness :
  (∃ cm' b' evs, @conn_manager_router_message_cb list_bufferevent ample 1 sample_cm (activity ++ fib_wire)
      = Ok (cm', b') ∧
    Forall2 (event_of 1 0) [activity; fib_wire] evs ∧
    (sch_ev_queue (cm_sch cm')).*2 = reverse evs ++ [sim_event_flow_send_new 20 1 1]) ∧
  @conn_manager_router_message_cb list_bufferevent tight 1 sample_cm (activity ++ fib_wire)
    = Fault OutOfBounds.
Proof.
  assert (Forall message_wf [activity; fib_wire]) as Hwf.
  { constructor; [exact activity_wf|]. constructor; [exact fib_wire_wf|constructor]. }
  split.
  - destruct (@routing_messages_framed list_bufferevent ample 1 sample_cm (activity ++ fib_wire)
      [activity; fib_wire] eq_refl eq_refl Hwf sample_cm_past) as [H _].
    rewrite decide_True in H by (constructor; [vm_compute; lia|]; constructor; [vm_compute; lia|constructor]).
    destruct H as (cm' & b' & evs & E & _ & _ & Hev & Hq).
    exists cm', b', evs. split; [exact E|]. split; [exact Hev|exact Hq].
  - destruct (@routing_messages_framed list_bufferevent tight 1 sample_cm (activity ++ fib_wire)
      [activity; fib_wire] eq_refl eq_refl Hwf sample_cm_past) as [H Htight].
    rewrite decide_False in H; [exact H|]. rewrite Htight by (intros k; apply length_replicate).
    intros Hx. rewrite !Forall_cons in Hx. destruct Hx as (_ & Hx & _). by vm_compute in Hx.
Defined.
