(* ===== verification/Process.v ===== *)
(** * Process: programs that fork

    The system calls of [daemonise] in [src/horse_daemon.c] as a small language.  A program
    is a tree of calls; what follows a call depends on its result, so that the two processes
    after a [fork] run the same code with different results.  [run_process] gives the meaning: it
    executes all processes that arise from one, with their tables of descriptors and the
    files they write.  The answers of the system are lists that are used up in the order of
    the calls. *)

From stdpp Require Import prelude gmap.
From S2P Require Import Prelude.

Inductive open_flag := O_RDONLY | O_WRONLY | O_RDWR.
(** What a descriptor refers to. *)
Inductive descriptor := Inherited | DevNull (flag : open_flag).
Abbreviation descriptors := (gmap nat descriptor).

(** Calls whose result is at most printed. *)
Inductive other_call := Setsid | IgnoreHangup | Chdir | Umask | Fclose.

Inductive process :=
| Fork (k : Z → process)
| Fopen (name : list Z) (k : bool → process)
| Fprintf (name text : list Z) (k : process)
| Close (fd : nat) (k : process)
| OpenNull (flag : open_flag) (k : process)
| Call (c : other_call) (k : process)
| Exit (status : Z)
| Crash
| Return.

(** The answers still to come: the child of a fork, whether a file is opened, whether a
    text reaches its file, whether the null device is opened; and the files with what was
    written. *)
Record world := World {
  w_forks : list (option positive); w_fopens : list bool; w_writes : list bool;
  w_opens : list bool; w_files : list (list Z * list Z) }.
#[export] Instance eta_world : Eta world := λ w,
  World (w_forks w) (w_fopens w) (w_writes w) (w_opens w) (w_files w).

(** The lowest descriptor that is not in use, from [n] on. *)
Fixpoint lowest (fuel n : nat) (t : descriptors) : nat :=
  match fuel with
  | O => n
  | S fuel => if decide (t !! n = None) then n else lowest fuel (S n) t
  end.
Definition open_null (flag : open_flag) (t : descriptors) : descriptors :=
  <[lowest (size t) 0 t := DevNull flag]> t.

Inductive ending := Exited (status : Z) | Crashed | Returned (fds : descriptors).

(** An answer, and the ones after it; a system that has no answer refuses. *)
Definition answer {A} (refused : A) (l : list A) : A * list A :=
  match l with [] => (refused, []) | x :: l => (x, l) end.

(** Every process with its number and how it ends; the parent runs before its child. *)
Fixpoint run_process (p : process) (pid : Z) (fds : descriptors) (w : world)
  : world * list (Z * ending) :=
  match p with
  | Fork k =>
      let '(child, forks) := answer None (w_forks w) in
      let w := w <| w_forks := forks |> in
      match child with
      | None => run_process (k (-1)) pid fds w
      | Some c =>
          let parent := run_process (k (Zpos c)) pid fds w in
          let child := run_process (k 0) (Zpos c) fds parent.1 in
          (child.1, parent.2 ++ child.2)
      end
  | Fopen name k =>
      let '(ok, fopens) := answer false (w_fopens w) in
      let w := w <| w_fopens := fopens |> in
      run_process (k ok) pid fds (if ok : bool then w <| w_files ::= λ l, l ++ [(name, [])] |> else w)
  | Fprintf name text k =>
      let '(ok, writes) := answer false (w_writes w) in
      let w := w <| w_writes := writes |> in
      run_process k pid fds
        (if ok : bool then
           w <| w_files ::= fmap (λ f, if decide (f.1 = name) then (f.1, f.2 ++ text) else f) |>
         else w)
  | Close fd k => run_process k pid (delete fd fds) w
  | OpenNull flag k =>
      let '(ok, opens) := answer false (w_opens w) in
      run_process k pid (if ok : bool then open_null flag fds else fds) (w <| w_opens := opens |>)
  | Call _ k => run_process k pid fds w
  | Exit status => (w, [(pid, Exited status)])
  | Crash => (w, [(pid, Crashed)])
  | Return => (w, [(pid, Returned fds)])
  end.

(** The processes that go on. *)
Definition going_on (e : Z * ending) : option (Z * descriptors) :=
  match e.2 with Returned fds => Some (e.1, fds) | _ => None end.

(** ** Descriptors *)

Lemma lowest_here fuel n (t : descriptors) : t !! n = None → lowest fuel n t = n.
Proof. intros Hn. destruct fuel as [|fuel]; [done|]. cbn [lowest]. by rewrite decide_True. Qed.
Lemma lowest_next fuel n (t : descriptors) : t !! n ≠ None → lowest (S fuel) n t = lowest fuel (S n) t.
Proof. intros Hn. cbn [lowest]. by rewrite decide_False. Qed.

(** With the first [n] descriptors in use and the next one free, the next one is taken. *)
Lemma open_null_at n flag (t : descriptors) :
  (∀ i, (i < n)%nat → t !! i ≠ None) → t !! n = None → open_null flag t = <[n := DevNull flag]> t.
Proof.
  intros Hused Hfree. unfold open_null. f_equal.
  assert (n ≤ size t)%nat as Hs.
  { rewrite <- (size_dom (D := gset nat)). transitivity (size (set_seq (C := gset nat) 0 n)).
    - by rewrite size_set_seq.
    - apply subseteq_size. intros i Hi. apply elem_of_set_seq in Hi. apply elem_of_dom.
      destruct (t !! i) eqn:E; [by eexists|]. exfalso. apply (Hused i); [lia|done]. }
  assert (∀ k m, (m + k = n)%nat → (k ≤ size t)%nat → ∀ f, (k ≤ f)%nat → lowest f m t = n) as H.
  { induction k as [|k IH]; intros m Hm Hk f Hf.
    - replace n with m by lia. apply lowest_here. by replace m with n by lia.
    - destruct f as [|f]; [lia|]. rewrite lowest_next by (apply Hused; lia). apply IH; lia. }
  apply (H n 0%nat); lia.
Qed.

(** The null device is opened for the flags of [l], in order, with the first three
    descriptors closed. *)
Lemma reopen_standard l (t : descriptors) :
  (length l ≤ 3)%nat → (∀ i, (i < 3)%nat → t !! i = None) →
  let t' := foldl (λ t flag, open_null flag t) t l in
  ∀ i, t' !! i = if decide (i < 3)%nat then DevNull <$> l !! i else t !! i.
Proof.
  intros Hl Ht. cbv zeta. induction l as [|flag l IH] using rev_ind; intros i.
  { cbn [foldl]. case_decide; [|done]. by rewrite Ht. }
  rewrite length_app in Hl. cbn [length] in Hl. specialize (IH ltac:(lia)).
  rewrite foldl_app. cbn [foldl]. set (t1 := foldl _ t l) in *. rewrite (open_null_at (length l)).
  - destruct (decide (i = length l)) as [->|Hne].
    + rewrite lookup_insert_eq, decide_True by lia. by rewrite lookup_app_r, Nat.sub_diag by lia.
    + rewrite lookup_insert_ne, IH by done. case_decide; [|done].
      destruct (decide (i < length l)%nat); [by rewrite lookup_app_l|].
      rewrite !lookup_ge_None_2; [done|rewrite length_app; cbn; lia|lia].
  - intros j Hj. rewrite IH, decide_True by lia.
    destruct (lookup_lt_is_Some_2 l j Hj) as [? ->]. done.
  - rewrite IH, decide_True by lia. by rewrite lookup_ge_None_2.
Qed.
