(* ===== verification/HorseDaemon.v ===== *)
(** * HorseDaemon: the daemon beside each emulated router

    Models [src/horse_daemon.c].  One daemon runs in the name space of an emulated
    router.  Its route monitor reads the kernel's netlink notifications and sends
    a FIB message for each new route; its packet capture sends an activity message
    for routing traffic.  Buffers are byte lists read with checked accesses, a
    pointer into a buffer is its offset, and the output is the list of the buffers
    handed to [send] (a failing [send] only prints).  The [NLMSG_*] and [RTA_*]
    macros are those of [linux/netlink.h] and [linux/rtnetlink.h].

    Theorems: reading a datagram ends whatever its bytes; a datagram of well-formed
    notifications yields exactly the announcements of its new routes; a route then
    goes all the way from the kernel to the table of the simulated router;
    prefixes of length zero and one have an undefined mask; turning into a daemon
    leaves one process, whose number is in the file it is stopped through unless the
    second fork failed.  The packet capture is in [Capture]. *)

From stdpp Require Import strings prelude gmap.
From S2P Require Import Prelude Util Uthash Netflow Packet Node Inet Process RoutingMsg Patricia RouteTable.
From S2P Require Import LegacyNode Router OfMsg DpControl Scheduler Topology EventHandler ConnManager.

Definition BUFFER_SIZE : nat := 4095.
Definition IP_PROTO_OSPF : Z := 89.
Definition TCP_PORT_BGP : Z := 179.
Definition BGP_OPEN : Z := 1.
Definition BGP_UPDATE : Z := 2.

Definition NLMSG_DONE : Z := 3.
Definition RTM_NEWROUTE : Z := 24.
Definition RTM_DELROUTE : Z := 25.
Definition RTMGRP_IPV4_ROUTE : Z := 0x40.
Definition RTA_DST : Z := 1.
Definition RTA_GATEWAY : Z := 5.
Definition RTA_MULTIPATH : Z := 9.

Record daemon_data := DaemonData { server_fd : Z; router_id : Z }.

(** The value of [w] bytes on a little-endian host. *)
Definition load (w : nat) (buf : list Z) (p : nat) : outcome Z :=
  bs ← mem_read buf p w; Ok (le_val bs).

(** ** Messages to the simulator *)

Definition send_activity (rid : Z) (log : list (list Z)) : outcome (list (list Z)) :=
  let msg_data := [0; ROUTER_ACTIVITY; 0; HEADER_LEN] ++ replicate 4 0 in
  msg_data ← mem_write msg_data 4 (le_bytes 4 rid);
  Ok (log ++ [msg_data]).

Definition send_next_hop (rid destination netmask next_hop : Z) (log : list (list Z))
  : outcome (list (list Z)) :=
  let msg_data := [0; ROUTER_FIB; 0; HEADER_LEN + 12] ++ replicate 20 0 in
  msg_data ← mem_write msg_data 4 (le_bytes 4 rid);
  msg_data ← mem_write msg_data 8 (le_bytes 4 destination);
  msg_data ← mem_write msg_data 12 (le_bytes 4 netmask);
  msg_data ← mem_write msg_data 16 (le_bytes 4 next_hop);
  msg_data ← mem_write msg_data 20 (replicate 4 0);
  Ok (log ++ [msg_data]).

(** ** Packet capture *)

(** [packet] is what was captured, behind the sixteen bytes of the "cooked" header
    of the [any] device. *)
Definition capture_cb (dd : daemon_data) (packet : list Z) (log : list (list Z))
  : outcome (list (list Z)) :=
  eth_type ← load 2 packet 14;
  if ntohs eth_type =? ETH_TYPE_IP then
    let ip := 16%nat in
    proto ← load 1 packet (ip + 9);
    if proto =? IP_PROTO_OSPF then
      ospf_type ← load 1 packet (ip + 20 + 1);
      if 1 <? ospf_type then send_activity (router_id dd) log else Ok log
    else if proto =? IP_PROTO_TCP then
      let tcp := (ip + 20)%nat in
      ctl ← load 2 packet (tcp + 12);
      let hlen := Z.shiftr (ntohs ctl) 12 * 4 in
      src ← load 2 packet tcp;
      bgp ← (if ntohs src =? TCP_PORT_BGP then Ok true
             else dst ← load 2 packet (tcp + 2); Ok (ntohs dst =? TCP_PORT_BGP));
      if bgp : bool then
        bgp_type ← load 1 packet (tcp + Z.to_nat hlen + 18);
        if (bgp_type =? BGP_UPDATE) || (bgp_type =? BGP_OPEN)
        then send_activity (router_id dd) log else Ok log
      else Ok log
    else Ok log
  else Ok log.

(** ** Netlink *)

(** [NLMSG_ALIGN] and [RTA_ALIGN], on [unsigned int]. *)
Definition ALIGN4 (len : Z) : Z := u32 (Z.land (len + 3) (Z.lnot 3)).

Definition NLMSG_OK (buf : list Z) (nlh : nat) (len : Z) : outcome bool :=
  if len <? 16 then Ok false
  else l ← load 4 buf nlh; Ok ((16 <=? l) && (l <=? len)).

Definition RTA_OK (buf : list Z) (rta : nat) (len : Z) : outcome bool :=
  if len <? 4 then Ok false
  else l ← load 2 buf rta; Ok ((4 <=? l) && (l <=? len)).

(** [for (; RTA_OK(rta, len); rta = RTA_NEXT(rta, len)) body]. *)
Fixpoint rta_loop {A} (buf : list Z) (body : nat → A → outcome A) (fuel : nat)
    (rta : nat) (len : Z) (st : A) : outcome A :=
  ok ← RTA_OK buf rta len;
  if ok : bool then
    match fuel with
    | O => Fault OutOfFuel
    | S fuel =>
        st ← body rta st;
        l ← load 2 buf rta;
        rta_loop buf body fuel (rta + Z.to_nat (ALIGN4 l)) (i32 (len - ALIGN4 l)) st
    end
  else Ok st.

(** The variables of one notification. *)
Record route_vars := RouteVars {
  rv_destination : Z; rv_next_hop : Z; rv_mhops : option nat; rv_attrlen : Z }.

(** The body of the loop over the attributes of a route. *)
Definition route_attribute (buf : list Z) (rta : nat) (v : route_vars) : outcome route_vars :=
  ty ← load 2 buf (rta + 2);
  v ← (if ty =? RTA_DST
       then d ← load 4 buf (rta + 4); Ok (RouteVars d (rv_next_hop v) (rv_mhops v) (rv_attrlen v))
       else Ok v);
  v ← (if ty =? RTA_GATEWAY
       then g ← load 4 buf (rta + 4); Ok (RouteVars (rv_destination v) g (rv_mhops v) (rv_attrlen v))
       else Ok v);
  if ty =? RTA_MULTIPATH then
    let mhops := (rta + 4)%nat in
    l ← load 2 buf rta;
    let rtnhp_len := i32 (l - 4) in
    let v := RouteVars (rv_destination v) (rv_next_hop v) (Some mhops) (rv_attrlen v) in
    if rtnhp_len <? 8 then Ok v
    else
      hop_len ← load 2 buf mhops;
      if rtnhp_len <? hop_len then Ok v
      else Ok (RouteVars (rv_destination v) (rv_next_hop v) (rv_mhops v) (i32 (rtnhp_len - 8)))
  else Ok v.

(** The body of the loop over the attributes of a next hop. *)
Definition hop_attribute (buf : list Z) (rid destination netmask : Z) (attr : nat)
    (log : list (list Z)) : outcome (list (list Z)) :=
  ty ← load 2 buf (attr + 2);
  if ty =? RTA_GATEWAY then
    nh ← load 4 buf (attr + 4);
    send_next_hop rid destination netmask nh log
  else Ok log.

(** [~((1 << (32 - n)) - 1)] on [int]: the shift and the subtraction are undefined
    unless the shifted value is a positive [int]. *)
Definition route_mask (n : Z) : outcome Z :=
  if (n <? 2) || (32 <? n) then Fault SignedOverflow
  else Ok (u32 (Z.lnot (Z.shiftl 1 (32 - n) - 1))).

(** The body of the loop over the notifications. *)
Definition route_notification (buf : list Z) (dd : daemon_data) (nlh : nat)
    (log : list (list Z)) : outcome (list (list Z)) :=
  let route_entry := (nlh + 16)%nat in
  route_netmask ← load 1 buf (route_entry + 1);
  mask ← route_mask route_netmask;
  let netmask := htonl mask in
  route_protocol ← load 1 buf (route_entry + 5);
  nlmsg_len ← load 4 buf nlh;
  let route_attribute_len := i32 (nlmsg_len - 28) in
  v ← rta_loop buf (route_attribute buf) (Z.to_nat route_attribute_len) (route_entry + 12)
        route_attribute_len (RouteVars 0 0 None 0);
  nlmsg_type ← load 2 buf (nlh + 4);
  if nlmsg_type =? RTM_NEWROUTE then
    if negb (rv_destination v =? 0) then
      log ← (match rv_mhops v with
             | Some mhops =>
                 if negb (rv_attrlen v =? 0) then
                   rta_loop buf (hop_attribute buf (router_id dd) (rv_destination v) netmask)
                     (Z.to_nat (rv_attrlen v)) (mhops + 8) (rv_attrlen v) log
                 else Ok log
             | None => Ok log
             end);
      if negb (rv_next_hop v =? 0)
      then send_next_hop (router_id dd) (rv_destination v) netmask (rv_next_hop v) log
      else Ok log
    else Ok log
  else Ok log.

(** [for (; NLMSG_OK(nlh, n); nlh = NLMSG_NEXT(nlh, n)) ...]. *)
Fixpoint nlmsg_loop (buf : list Z) (dd : daemon_data) (fuel : nat) (nlh : nat)
    (received_bytes : Z) (log : list (list Z)) : outcome (list (list Z)) :=
  ok ← NLMSG_OK buf nlh received_bytes;
  if ok : bool then
    match fuel with
    | O => Fault OutOfFuel
    | S fuel =>
        log ← route_notification buf dd nlh log;
        l ← load 4 buf nlh;
        nlmsg_loop buf dd fuel (nlh + Z.to_nat (ALIGN4 l)) (received_bytes - ALIGN4 l) log
    end
  else Ok log.

(** [recv] into the start of the buffer: at most its size, the rest is cut off. *)
Definition recv_into (buf data : list Z) : list Z * Z :=
  let data := take (length buf) data in
  (data ++ drop (length data) buf, Z.of_nat (length data)).

(** The results of the calls of [recv] to come: [None] is an error. *)
Definition recv_results := list (option (list Z)).

(** The loop around [recv]: [None] when the socket has nothing more, otherwise
    what is left of the input with the buffer ([None] after an error). *)
Fixpoint recv_loop (nl_groups : Z) (buf : list Z) (rs : recv_results)
  : outcome (option (recv_results * option (list Z * Z))) :=
  match rs with
  | [] => Ok None
  | None :: rs => Ok (Some (rs, None))
  | Some data :: rs =>
      let '(buf, n) := recv_into buf data in
      ty ← load 2 buf 4;
      if (ty =? NLMSG_DONE) || (nl_groups =? RTMGRP_IPV4_ROUTE)
      then Ok (Some (rs, Some (buf, n)))
      else recv_loop nl_groups buf rs
  end.

(** [None]: blocked in [recv].  The result is [EXIT_FAILURE] after an error. *)
Definition loop (nl_groups : Z) (dd : daemon_data) (rs : recv_results) (log : list (list Z))
  : outcome (option (recv_results * list (list Z) * Z)) :=
  r ← recv_loop nl_groups (replicate BUFFER_SIZE 0) rs;
  match r with
  | None => Ok None
  | Some (rs, None) => Ok (Some (rs, log, 1))
  | Some (rs, Some (buf, n)) =>
      log ← nlmsg_loop buf dd (Z.to_nat n) 0 n log;
      Ok (Some (rs, log, 0))
  end.

(** [while (1) loop(...)], up to the call that blocks. *)
Fixpoint monitor_loop (nl_groups : Z) (dd : daemon_data) (fuel : nat) (rs : recv_results)
    (log : list (list Z)) : outcome (list (list Z)) :=
  match fuel with
  | O => Fault OutOfFuel
  | S fuel =>
      r ← loop nl_groups dd rs log;
      match r with
      | None => Ok log
      | Some (rs, log, _) => monitor_loop nl_groups dd fuel rs log
      end
  end.
Definition route_table_monitor (dd : daemon_data) (rs : recv_results) : outcome (list (list Z)) :=
  monitor_loop RTMGRP_IPV4_ROUTE dd (S (length rs)) rs [].

(** ** Start-up *)

Definition EXIT_FAILURE : Z := 1.
Definition NEWLINE : Z := 10.
(** A failed fork is [-1]; the child gets [0]. *)
Definition daemonise (rid : Z) : process :=
  let standard_files :=
    Call Chdir (Call Umask (Close 0 (Close 1 (Close 2
      (OpenNull O_RDONLY (OpenNull O_WRONLY (OpenNull O_RDWR Return))))))) in
  let second_fork :=
    Call Setsid (Call IgnoreHangup (Fork (λ pid,
      if pid =? -1 then standard_files
      else if negb (pid =? 0) then
        match sprintf 60 (lit "/tmp/daemon" ++ print_u32 (ntohl rid) ++ lit ".pid") with
        | Fault _ => Crash
        | Ok rname =>
            Fopen rname (λ opened,
              if opened : bool
              then Fprintf rname (print_u32 pid ++ [NEWLINE]) (Call Fclose (Exit 0))
              else Exit EXIT_FAILURE)
        end
      else standard_files))) in
  Fork (λ pid,
    if pid =? -1 then second_fork
    else if negb (pid =? 0) then Exit 0
    else second_fork).

(** [None]: the process ends because the system refuses the socket or the connection. *)
Definition client_connect (socket : option Z) (connect : bool) (server_ip port : Z)
  : option (Z * sockaddr_in) :=
  fd ← socket;
  if connect then Some (fd, SockaddrIn AF_INET (be_bytes 2 port) (le_bytes 4 server_ip)) else None.

(** The argument of the program; without one it ends ([None]), as it does when it cannot
    connect, and the identifier is not set by a text that is no address.  The threads of the
    monitor and of the capture are started by the process that returns. *)
Definition main (argv1 : option (list Z)) (socket : option Z) (connect : bool)
  : outcome (option (daemon_data * sockaddr_in * process)) :=
  match argv1 with
  | None => Ok None
  | Some text =>
      match inet_pton4 text, inet_pton4 (lit "172.20.254.254") with
      | Some a, Some server_ip =>
          match client_connect socket connect (le_val server_ip) 6000 with
          | None => Ok None
          | Some (fd, peer) =>
              let dd := DaemonData fd (le_val a) in
              Ok (Some (dd, peer, daemonise (router_id dd)))
          end
      | _, _ => Fault Indeterminate
      end
  end.

Lemma ends_load w buf p : ends (load w buf p).
Proof. unfold load. ends_auto. Qed.
#[export] Hint Resolve ends_load : horse.

(** ** Termination *)

Lemma ALIGN4_eq l : 0 ≤ l < 2 ^ 31 → ALIGN4 l = (l + 3) / 4 * 4.
Proof.
  intros Hl. unfold ALIGN4. rewrite <- Z.ldiff_land.
  change 3 with (Z.ones 2) at 2. rewrite Z.ldiff_ones_r, Z.shiftl_mul_pow2, Z.shiftr_div_pow2 by done.
  apply wrap_small. change (2 ^ 2) with 4. pose proof (Z.mul_div_le (l + 3) 4).
  assert (0 ≤ (l + 3) / 4) by (apply Z.div_pos; lia). unfold in_width. lia.
Qed.

Lemma ALIGN4_bounds l : 0 ≤ l < 2 ^ 31 → l ≤ ALIGN4 l < l + 4.
Proof.
  intros Hl. rewrite ALIGN4_eq by done.
  pose proof (Z.div_mod (l + 3) 4 ltac:(done)). pose proof (Z.mod_pos_bound (l + 3) 4 ltac:(done)). lia.
Qed.

Lemma i32_small z : - 2 ^ 31 ≤ z < 2 ^ 31 → i32 z = z.
Proof.
  intros Hz. unfold swrap. assert (wrap 32 z = if decide (0 ≤ z) then z else z + 2 ^ 32) as ->.
  { unfold wrap. case_decide; [apply Z.mod_small; lia|].
    rewrite <- (Z.mod_add z 1) by done. apply Z.mod_small. lia. }
  repeat case_decide; lia.
Qed.

(** What the two guards establish. *)
Lemma RTA_OK_true buf rta len : RTA_OK buf rta len = Ok true →
  ∃ l, load 2 buf rta = Ok l ∧ 4 ≤ l ≤ len.
Proof.
  unfold RTA_OK. destruct (len <? 4) eqn:E; [discriminate|]. intros H.
  apply outcome_bind_Ok in H as (l & Hl & H). exists l. split; [done|]. injection H as H. lia.
Qed.

Lemma NLMSG_OK_true buf nlh len : NLMSG_OK buf nlh len = Ok true →
  ∃ l, load 4 buf nlh = Ok l ∧ 16 ≤ l ≤ len.
Proof.
  unfold NLMSG_OK. destruct (len <? 16) eqn:E; [discriminate|]. intros H.
  apply outcome_bind_Ok in H as (l & Hl & H). exists l. split; [done|]. injection H as H. lia.
Qed.

Lemma ends_RTA_OK buf rta len : ends (RTA_OK buf rta len).
Proof. unfold RTA_OK. ends_auto. Qed.
Lemma ends_NLMSG_OK buf nlh len : ends (NLMSG_OK buf nlh len).
Proof. unfold NLMSG_OK. ends_auto. Qed.

Lemma rta_loop_ends {A} buf (body : nat → A → outcome A) :
  (∀ rta st, ends (body rta st)) → ∀ fuel rta len st,
  (Z.to_nat len ≤ fuel)%nat → len < 2 ^ 31 → ends (rta_loop buf body fuel rta len st).
Proof.
  intros Hb. induction fuel as [|fuel IH]; intros rta len st Hf Hlen; cbn [rta_loop].
  all: apply ends_bind; [apply ends_RTA_OK|]; intros [] Hok; [|done].
  all: apply RTA_OK_true in Hok as (l & Hl & Hr).
  - exfalso. lia.
  - apply ends_bind; [apply Hb|]. intros st' _. rewrite Hl. cbn [mbind outcome_bind].
    pose proof (ALIGN4_bounds l ltac:(lia)). apply IH; rewrite i32_small; lia.
Qed.

Lemma ends_send_activity rid log : ends (send_activity rid log).
Proof. unfold send_activity. ends_auto. Qed.
Lemma ends_send_next_hop rid d m g log : ends (send_next_hop rid d m g log).
Proof. unfold send_next_hop. ends_auto. Qed.
#[export] Hint Resolve ends_send_activity ends_send_next_hop : horse.

Lemma ends_route_attribute buf rta v : ends (route_attribute buf rta v).
Proof. unfold route_attribute. ends_auto. Qed.
Lemma ends_hop_attribute buf rid d m attr log : ends (hop_attribute buf rid d m attr log).
Proof. unfold hop_attribute. ends_auto. Qed.

Lemma rta_loop_inv {A} buf (body : nat → A → outcome A) (I : A → Prop) :
  (∀ rta st st', body rta st = Ok st' → I st → I st') → ∀ fuel rta len st st',
  rta_loop buf body fuel rta len st = Ok st' → I st → I st'.
Proof.
  intros Hb. induction fuel as [|fuel IH]; intros rta len st st' H Hst; cbn [rta_loop] in H;
    apply outcome_bind_Ok in H as ([] & _ & H); inv_ok; eauto.
Qed.

Lemma i32_bound z : i32 z < 2 ^ 31.
Proof.
  unfold swrap. pose proof (wrap_in_width 32 z ltac:(done)) as [? ?].
  change (2 ^ (32 - 1)) with (2 ^ 31). case_decide; lia.
Qed.

Lemma route_attribute_attrlen buf rta v v' :
  route_attribute buf rta v = Ok v' → rv_attrlen v < 2 ^ 31 → rv_attrlen v' < 2 ^ 31.
Proof.
  unfold route_attribute. intros H Hv. inv_ok. pose proof i32_bound.
  repeat match goal with H : (if ?b then _ else _) = Ok _ |- _ => destruct b; inv_ok end; simpl; auto.
Qed.

Lemma route_notification_ends buf dd nlh log : ends (route_notification buf dd nlh log).
Proof.
  unfold route_notification, route_mask. apply ends_bind; [by auto with horse|]. intros n _.
  apply ends_bind; [by destruct (_ || _)|]. intros mask _.
  apply ends_bind; [by auto with horse|]. intros _ _.
  apply ends_bind; [by auto with horse|]. intros len _.
  apply ends_bind; [apply rta_loop_ends; [apply ends_route_attribute|done|apply i32_bound]|].
  intros v Hv. apply (rta_loop_inv _ _ (λ v, rv_attrlen v < 2 ^ 31)) in Hv;
    [|by intros; eapply route_attribute_attrlen|done].
  ends_auto. apply rta_loop_ends; [apply ends_hop_attribute|done..].
Qed.

Lemma nlmsg_loop_ends buf dd : ∀ fuel nlh n log,
  (Z.to_nat n ≤ fuel)%nat → n < 2 ^ 31 → ends (nlmsg_loop buf dd fuel nlh n log).
Proof.
  induction fuel as [|fuel IH]; intros nlh n log Hf Hn; cbn [nlmsg_loop].
  all: apply ends_bind; [apply ends_NLMSG_OK|]; intros [] Hok; [|done].
  all: apply NLMSG_OK_true in Hok as (l & Hl & Hr).
  { exfalso. lia. }
  apply ends_bind; [apply route_notification_ends|]. intros log' _. rewrite Hl. cbn [mbind outcome_bind].
  pose proof (ALIGN4_bounds l ltac:(lia)). apply IH; lia.
Qed.

Lemma recv_into_length buf data : length (recv_into buf data).1 = length buf.
Proof. simpl. rewrite length_app, length_drop, length_take. lia. Qed.
Lemma recv_into_received buf data : (recv_into buf data).2 ≤ Z.of_nat (length buf).
Proof. simpl. rewrite length_take. lia. Qed.

(** The loop around [recv] takes at least one result and keeps the buffer. *)
Lemma recv_loop_spec groups : ∀ rs buf, (6 ≤ length buf)%nat →
  recv_loop groups buf rs = Ok None ∨
  ∃ rs' r, recv_loop groups buf rs = Ok (Some (rs', r)) ∧ (length rs' < length rs)%nat ∧
    match r with Some (buf', n) => length buf' = length buf ∧ n ≤ Z.of_nat (length buf) | None => True end.
Proof.
  induction rs as [|[data|] rs IH]; intros buf Hb; cbn [recv_loop];
    [by left| |right; eexists rs, None; cbn [length]; eauto with lia].
  pose proof (recv_into_length buf data) as Hl. pose proof (recv_into_received buf data) as Hn.
  destruct (recv_into buf data) as [buf' n]. cbn [fst snd] in *.
  unfold load. rewrite mem_read_ok by lia. cbn [mbind outcome_bind].
  destruct (_ || _); [right; eexists rs, (Some (buf', n)); cbn [length]; eauto with lia|].
  destruct (IH buf' ltac:(lia)) as [H|(rs' & r & H & Hlt & Hr)]; [by left|right].
  exists rs', r. rewrite H, Hl in *. cbn [length]. eauto with lia.
Qed.

Lemma BUFFER_SIZE_small : (6 ≤ BUFFER_SIZE)%nat ∧ Z.of_nat BUFFER_SIZE < 2 ^ 31.
Proof. split; [apply Nat.leb_le|]; by vm_compute. Qed.

(** C15. Reading the routing socket ends: whatever bytes the notifications hold and
    however the calls of [recv] fail, the monitor has processed all its input after
    finitely many steps, ending with its output or at a fault of the program. *)
Theorem route_monitor_ends dd rs : route_table_monitor dd rs ≠ Fault OutOfFuel.
Proof.
  unfold route_table_monitor.
  assert (∀ fuel rs log, (length rs < fuel)%nat →
    ends (monitor_loop RTMGRP_IPV4_ROUTE dd fuel rs log)) as H; [|apply H; lia].
  destruct BUFFER_SIZE_small as [Hs1 Hs2].
  induction fuel as [|fuel IH]; intros rs' log Hf; [lia|]. cbn [monitor_loop]. unfold loop.
  destruct (recv_loop_spec RTMGRP_IPV4_ROUTE rs' (replicate BUFFER_SIZE 0)) as [->|(rs1 & r & -> & Hlt & Hr)];
    rewrite ?length_replicate; [done..|]. cbn [mbind outcome_bind].
  destruct r as [[buf n]|]; cbn [mbind outcome_bind]; [|apply IH; lia].
  rewrite length_replicate in Hr.
  pose proof (nlmsg_loop_ends buf dd (Z.to_nat n) 0 n log ltac:(done) ltac:(lia)) as He.
  destruct (nlmsg_loop _ _ _ _ _ _) as [log'|e]; [apply IH; lia|]. intros [= ->]. by apply He.
Qed.

(** ** The notifications of the kernel *)

Record nl_attr := NlAttr { na_type : Z; na_data : list Z }.

Definition padding (n : nat) : list Z := replicate (Z.to_nat (ALIGN4 (Z.of_nat n)) - n) 0.
Definition attr_len (a : nl_attr) : Z := 4 + Z.of_nat (length (na_data a)).
Definition attr_bytes (a : nl_attr) : list Z :=
  le_bytes 2 (attr_len a) ++ le_bytes 2 (na_type a) ++ na_data a ++ padding (length (na_data a)).
Definition attrs_bytes (l : list nl_attr) : list Z := concat (attr_bytes <$> l).

(** An attribute of a route or of one of its next hops; addresses are numbers
    whose most significant byte comes first on the wire. *)
Inductive plain_attr :=
| Dst (addr : Z)
| Gateway (addr : Z)
| Other (ty : Z) (data : list Z).

Record hop := Hop { hop_flags : Z; hop_weight : Z; hop_ifindex : Z; hop_attrs : list plain_attr }.

(** [Multipath] has at least one next hop. *)
Inductive route_attr :=
| Plain (a : plain_attr)
| Multipath (h : hop) (hs : list hop).

Definition plain_raw (a : plain_attr) : nl_attr :=
  match a with
  | Dst d => NlAttr RTA_DST (be_bytes 4 d)
  | Gateway g => NlAttr RTA_GATEWAY (be_bytes 4 g)
  | Other ty data => NlAttr ty data
  end.

(** A next hop looks like an attribute: its length comes first, its flags and its
    weight are where an attribute has its type. *)
Definition hop_raw (h : hop) : nl_attr :=
  NlAttr (hop_flags h + 256 * hop_weight h)
         (le_bytes 4 (hop_ifindex h) ++ attrs_bytes (plain_raw <$> hop_attrs h)).
Definition hop_bytes (h : hop) : list Z :=
  le_bytes 2 (8 + Z.of_nat (length (attrs_bytes (plain_raw <$> hop_attrs h)))) ++
  [hop_flags h; hop_weight h] ++ le_bytes 4 (hop_ifindex h) ++ attrs_bytes (plain_raw <$> hop_attrs h).
Definition hops_bytes (hs : list hop) : list Z := concat (hop_bytes <$> hs).

Definition route_raw (a : route_attr) : nl_attr :=
  match a with
  | Plain a => plain_raw a
  | Multipath h hs => NlAttr RTA_MULTIPATH (hops_bytes (h :: hs))
  end.

(** [n_header]: flags, sequence number and port of the header; [n_entry]: the
    fields of the route entry after the prefix length. *)
Record notification := Notification {
  n_type : Z; n_header : list Z; n_family : Z; n_dst_len : Z; n_entry : list Z;
  n_attrs : list route_attr }.
Definition note_len (n : notification) : Z :=
  28 + Z.of_nat (length (attrs_bytes (route_raw <$> n_attrs n))).
Definition note_bytes (n : notification) : list Z :=
  le_bytes 4 (note_len n) ++ le_bytes 2 (n_type n) ++ n_header n ++
  [n_family n; n_dst_len n] ++ n_entry n ++ attrs_bytes (route_raw <$> n_attrs n).
Definition datagram (ns : list notification) : list Z := concat (note_bytes <$> ns).

Definition plain_wf (a : plain_attr) : Prop :=
  match a with
  | Dst d => in_width 32 d
  | Gateway g => in_width 32 g
  | Other ty _ => in_width 16 ty ∧ ty ≠ RTA_DST ∧ ty ≠ RTA_GATEWAY ∧ ty ≠ RTA_MULTIPATH
  end.
(** The flags and the weight do not spell the type of a gateway. *)
Definition hop_wf (h : hop) : Prop :=
  in_width 8 (hop_flags h) ∧ in_width 8 (hop_weight h) ∧
  hop_flags h + 256 * hop_weight h ≠ RTA_GATEWAY ∧ Forall plain_wf (hop_attrs h).
Definition route_attr_wf (a : route_attr) : Prop :=
  match a with Plain a => plain_wf a | Multipath h hs => Forall hop_wf (h :: hs) end.
Record note_shape (n : notification) : Prop := {
  ns_type : in_width 16 (n_type n);
  ns_header : length (n_header n) = 10%nat;
  ns_entry : length (n_entry n) = 10%nat }.
(** With one of the prefix lengths whose mask is defined. *)
Record note_wf (n : notification) : Prop := {
  nw_shape : note_shape n;
  nw_len : 2 ≤ n_dst_len n ≤ 32;
  nw_attrs : Forall route_attr_wf (n_attrs n) }.

(** ** What is announced for a notification *)

Definition dsts (l : list route_attr) : list Z :=
  omap (λ a, match a with Plain (Dst d) => Some d | _ => None end) l.
Definition gateways (l : list plain_attr) : list Z :=
  omap (λ a, match a with Gateway g => Some g | _ => None end) l.
Definition plains (l : list route_attr) : list plain_attr :=
  omap (λ a, match a with Plain a => Some a | _ => None end) l.
Definition multipaths (l : list route_attr) : list (hop * list hop) :=
  omap (λ a, match a with Multipath h hs => Some (h, hs) | _ => None end) l.

Definition route_dst (l : list route_attr) : Z := default 0 (last (dsts l)).
Definition route_gateway (l : list route_attr) : Z := default 0 (last (gateways (plains l))).
(** The gateways of the first hop of a multipath route: the others are not seen. *)
Definition first_hop_gateways (l : list route_attr) : list Z :=
  match last (multipaths l) with Some (h, _) => gateways (hop_attrs h) | None => [] end.

Definition next_hops (l : list route_attr) : list Z :=
  first_hop_gateways l ++ (if route_gateway l =? 0 then [] else [route_gateway l]).

(** New routes to a destination other than zero are announced, one message for
    each next hop; anything else is not. *)
Definition announced (rid : Z) (n : notification) : list (list Z) :=
  if (n_type n =? RTM_NEWROUTE) && negb (route_dst (n_attrs n) =? 0) then
    (λ g, padded (fib_message rid
            [FibPrefix (route_dst (n_attrs n)) (Z.to_nat (n_dst_len n)) g])) <$> next_hops (n_attrs n)
  else [].

(** ** Reading fields *)

Lemma load_fld w k buf pre body post :
  buf = pre ++ body ++ post → (k + w ≤ length body)%nat →
  load w buf (length pre + k) = Ok (le_val (fld k w body)).
Proof.
  intros -> Hk. unfold load. rewrite mem_read_ok by (rewrite !length_app; lia).
  cbn [mbind outcome_bind]. do 2 f_equal. unfold fld.
  rewrite drop_app_ge by lia. replace (length pre + k - length pre)%nat with k by lia.
  rewrite drop_app_le by lia. apply take_app_le. rewrite length_drop. lia.
Qed.
Lemma load_fld0 w buf pre body post :
  buf = pre ++ body ++ post → (w ≤ length body)%nat →
  load w buf (length pre) = Ok (le_val (fld 0 w body)).
Proof. intros. rewrite <- (Nat.add_0_r (length pre)). by eapply load_fld. Qed.

Lemma le_val_small k z : in_width (8 * Z.of_nat k) z → le_val (le_bytes k z) = z.
Proof. intros. rewrite le_val_bytes. by apply wrap_small. Qed.

Lemma length_padded_data n : Z.of_nat n < 2 ^ 16 →
  Z.of_nat (n + length (padding n)) = ALIGN4 (Z.of_nat n).
Proof.
  intros Hn. unfold padding. rewrite length_replicate.
  pose proof (ALIGN4_bounds (Z.of_nat n)). lia.
Qed.

Definition attr_wf (a : nl_attr) : Prop := attr_len a < 2 ^ 16.

Lemma attr_bytes_length a : attr_wf a → Z.of_nat (length (attr_bytes a)) = ALIGN4 (attr_len a).
Proof.
  unfold attr_wf, attr_len. intros Ha. unfold attr_bytes.
  rewrite !length_app, !length_le_bytes. pose proof (length_padded_data (length (na_data a))).
  rewrite ALIGN4_eq in * by lia.
  replace (4 + Z.of_nat (length (na_data a)) + 3) with (Z.of_nat (length (na_data a)) + 3 + 1 * 4) by lia.
  rewrite Z.div_add by done. lia.
Qed.

Lemma attr_bytes_fields a : 
  fld 0 2 (attr_bytes a) = le_bytes 2 (attr_len a) ∧ fld 2 2 (attr_bytes a) = le_bytes 2 (na_type a) ∧
  (length (na_data a) = 4%nat → fld 4 4 (attr_bytes a) = na_data a).
Proof.
  unfold attr_bytes. split_and!.
  - by rewrite fld_here.
  - rewrite fld_skip by done. by rewrite fld_here.
  - intros Hl. do 2 (rewrite fld_skip by (rewrite length_le_bytes; lia); rewrite length_le_bytes; cbn [Nat.sub]).
    by rewrite fld_here.
Qed.

Lemma attrs_bytes_cons a l : attrs_bytes (a :: l) = attr_bytes a ++ attrs_bytes l.
Proof. done. Qed.
Lemma attr_bytes_min a : (4 ≤ length (attr_bytes a))%nat.
Proof. unfold attr_bytes. rewrite !length_app, !length_le_bytes. lia. Qed.

(** ** The walk over the attributes *)

Section walk.
Context {T A : Type} (buf : list Z) (body : nat → A → outcome A) (raw : T → nl_attr).
(** What holds of the variables after the items of a list. *)
Context (I : list T → A → Prop) (wf : T → Prop).
Hypothesis raw_wf : ∀ t, wf t → attr_wf (raw t).
Hypothesis body_ok : ∀ before t pre post st, wf t → buf = pre ++ attr_bytes (raw t) ++ post →
  I before st → ∃ st', body (length pre) st = Ok st' ∧ I (before ++ [t]) st'.

Lemma rta_loop_attrs : ∀ ts before pre post st fuel,
  Forall wf ts → buf = pre ++ attrs_bytes (raw <$> ts) ++ post →
  (length (attrs_bytes (raw <$> ts)) ≤ fuel)%nat →
  Z.of_nat (length (attrs_bytes (raw <$> ts))) < 2 ^ 31 → I before st →
  ∃ st', rta_loop buf body fuel (length pre)
           (Z.of_nat (length (attrs_bytes (raw <$> ts)))) st = Ok st' ∧ I (before ++ ts) st'.
Proof.
  induction ts as [|t ts IH]; intros before pre post st fuel Hwf Hbuf Hfuel Hlen Hst.
  { exists st. rewrite app_nil_r. split; [|done]. by destruct fuel. }
  apply Forall_cons in Hwf as [Ht Hts]. pose proof (raw_wf t Ht) as Hw.
  rewrite fmap_cons, attrs_bytes_cons in *. rewrite length_app in *.
  pose proof (attr_bytes_length _ Hw) as Hal. pose proof (attr_bytes_min (raw t)) as Hmin.
  destruct (attr_bytes_fields (raw t)) as (Hf0 & _ & _). rewrite <- app_assoc in Hbuf.
  pose proof (eq_refl : attr_len (raw t) = 4 + _) as Hal4. unfold attr_wf in Hw.
  assert (load 2 buf (length pre) = Ok (attr_len (raw t))) as Hload.
  { rewrite (load_fld0 2 buf pre (attr_bytes (raw t)) (attrs_bytes (raw <$> ts) ++ post))
      by (done || lia).
    rewrite Hf0. f_equal. apply le_val_small. split; [lia|]. exact Hw. }
  pose proof (ALIGN4_bounds (attr_len (raw t)) ltac:(lia)) as Hb.
  destruct (body_ok before t pre (attrs_bytes (raw <$> ts) ++ post) st Ht) as (st1 & Hbody & H1);
    [done..|].
  destruct fuel as [|fuel]; [lia|]. cbn [rta_loop]. unfold RTA_OK.
  rewrite (proj2 (Z.ltb_ge _ _)) by lia. rewrite Hload. cbn [mbind outcome_bind].
  rewrite !(proj2 (Z.leb_le _ _)) by lia. cbn [andb]. rewrite Hbody. cbn [mbind outcome_bind].
  destruct (IH (before ++ [t]) (pre ++ attr_bytes (raw t)) post st1 fuel Hts)
    as (st2 & Hst2 & H2); [by rewrite <- app_assoc|lia|lia|done|].
  exists st2. rewrite <- app_assoc in H2. split; [|done]. rewrite <- Hst2. rewrite length_app.
  rewrite i32_small by lia. f_equal; lia.
Qed.
End walk.

(** ** The attributes of a route *)

Lemma attrs_bytes_mod l : Forall attr_wf l → Z.of_nat (length (attrs_bytes l)) mod 4 = 0.
Proof.
  induction 1 as [|a l Ha Hl IH]; [done|]. rewrite attrs_bytes_cons, length_app, Nat2Z.inj_add.
  rewrite attr_bytes_length, ALIGN4_eq by (done || unfold attr_wf, attr_len in *; lia).
  rewrite Z.add_comm, Z.mod_add; done.
Qed.

(** Whatever fits in a datagram is well-formed. *)
Lemma attrs_wf_of_length l : Z.of_nat (length (attrs_bytes l)) < 2 ^ 16 → Forall attr_wf l.
Proof.
  induction l as [|a l IH]; [done|]. rewrite attrs_bytes_cons, length_app. intros H.
  constructor; [|apply IH; lia]. unfold attr_wf, attr_len. unfold attr_bytes in H.
  rewrite !length_app, !length_le_bytes in H. lia.
Qed.

Lemma padding_nil n : Z.of_nat n mod 4 = 0 → Z.of_nat n < 2 ^ 16 → padding n = [].
Proof.
  intros Hm Hn. unfold padding. rewrite ALIGN4_eq by lia.
  pose proof (Z.div_mod (Z.of_nat n) 4 ltac:(done)) as Hd. rewrite Hm in Hd.
  replace (Z.of_nat n + 3) with (3 + Z.of_nat n / 4 * 4) by lia.
  rewrite Z.div_add by done. change (3 / 4) with 0. replace (_ - n)%nat with 0%nat by lia. done.
Qed.

Lemma le_bytes_2 x y : in_width 8 x → in_width 8 y → le_bytes 2 (x + 256 * y) = [x; y].
Proof.
  intros Hx Hy. replace (x + 256 * y) with (le_val [x; y]) by (cbn [le_val]; lia).
  apply (le_bytes_val [x; y]). by apply Forall_cons; split; [|apply Forall_singleton].
Qed.

Lemma hop_bytes_raw h : hop_wf h → Z.of_nat (length (hop_bytes h)) < 2 ^ 16 →
  hop_bytes h = attr_bytes (hop_raw h).
Proof.
  intros (Hf & Hw & _ & _). unfold hop_bytes, attr_bytes, hop_raw, attr_len. cbn [na_type na_data].
  rewrite le_bytes_2 by done. pose proof (attrs_bytes_mod (plain_raw <$> hop_attrs h)) as Hmod.
  pose proof (attrs_wf_of_length (plain_raw <$> hop_attrs h)) as Hwf.
  set (bs := attrs_bytes _) in *. rewrite !length_app, !length_le_bytes. cbn [length]. intros Hl.
  rewrite padding_nil, app_nil_r; [by replace (4 + Z.of_nat (4 + length bs)) with (8 + Z.of_nat (length bs)) by lia| |lia].
  rewrite Nat2Z.inj_add, <- Zplus_mod_idemp_r, (Hmod (Hwf ltac:(lia))). done.
Qed.

Lemma hops_bytes_raw hs : Forall hop_wf hs → Z.of_nat (length (hops_bytes hs)) < 2 ^ 16 →
  hops_bytes hs = attrs_bytes (hop_raw <$> hs).
Proof.
  unfold hops_bytes, attrs_bytes. induction 1 as [|h hs Hh Hhs IH]; [done|].
  cbn [fmap list_fmap concat]. rewrite length_app. intros Hl.
  rewrite hop_bytes_raw by (done || lia). f_equal. apply IH. lia.
Qed.

(** ** The gateways of a next hop *)

Lemma le_bytes_htonl x : le_bytes 4 (htonl x) = be_bytes 4 x.
Proof. destruct (be_bytes_wf 4 x) as [Hl Hf]. unfold bswap. rewrite <- Hl at 1. by apply le_bytes_val. Qed.

(** The messages the daemon builds are those the simulator expects. *)
Lemma send_next_hop_eq rid d (p : nat) g log mask :
  mask = prefix_mask p → send_next_hop (htonl rid) (htonl d) (htonl mask) (htonl g) log =
  Ok (log ++ [padded (fib_message rid [FibPrefix d p g])]).
Proof.
  intros ->. unfold send_next_hop. rewrite !le_bytes_htonl.
  unfold fib_message, fib_bytes. cbn [fmap list_fmap concat fp_addr fp_len fp_next_hop length].
  generalize (prefix_mask p) as m. intros m. reflexivity.
Qed.

Lemma load_attr_len buf pre a post :
  buf = pre ++ attr_bytes a ++ post → attr_wf a → load 2 buf (length pre) = Ok (attr_len a).
Proof.
  intros Hbuf Hw. pose proof (attr_bytes_min a).
  rewrite (load_fld0 _ _ _ _ _ Hbuf) by lia. rewrite (proj1 (attr_bytes_fields a)).
  f_equal. apply le_val_small. split; [unfold attr_len; lia|done].
Qed.
Lemma load_attr_type buf pre a post :
  buf = pre ++ attr_bytes a ++ post → in_width 16 (na_type a) →
  load 2 buf (length pre + 2) = Ok (na_type a).
Proof.
  intros Hbuf Hw. pose proof (attr_bytes_min a). rewrite (load_fld _ _ _ _ _ _ Hbuf) by lia.
  rewrite (proj1 (proj2 (attr_bytes_fields a))). f_equal. by apply le_val_small.
Qed.
Lemma load_attr_addr buf pre a post x :
  buf = pre ++ attr_bytes a ++ post → na_data a = be_bytes 4 x →
  load 4 buf (length pre + 4) = Ok (htonl x).
Proof.
  intros Hbuf Ha. assert (length (na_data a) = 4%nat) as Hl by (rewrite Ha; apply be_bytes_length).
  rewrite (load_fld _ _ _ _ _ _ Hbuf) by (unfold attr_bytes; rewrite !length_app, !length_le_bytes; lia).
  by rewrite (proj2 (proj2 (attr_bytes_fields a)) Hl), Ha.
Qed.

Lemma plain_type a : plain_wf a → in_width 16 (na_type (plain_raw a)).
Proof. destruct a; intros Ha; [by split..|]. apply Ha. Qed.
Lemma hop_type h : hop_wf h → in_width 16 (na_type (hop_raw h)).
Proof. intros (Hf & Hw & _). unfold in_width, hop_raw in *. cbn [na_type]. lia. Qed.

(** What the walk over a multipath attribute meets: the attributes of the first
    hop, then the other hops. *)
Definition item_raw (t : plain_attr + hop) : nl_attr :=
  match t with inl a => plain_raw a | inr h => hop_raw h end.
Definition item_wf (t : plain_attr + hop) : Prop :=
  attr_wf (item_raw t) ∧ match t with inl a => plain_wf a | inr h => hop_wf h end.
Definition item_gateways (ts : list (plain_attr + hop)) : list Z :=
  gateways (omap (λ t, match t with inl a => Some a | inr _ => None end) ts).

Definition announcement (rid d p : Z) (g : Z) : list Z :=
  padded (fib_message rid [FibPrefix d (Z.to_nat p) g]).

Lemma hop_attribute_ok buf rid d p log t pre post gs mask :
  mask = prefix_mask (Z.to_nat p) → item_wf t → buf = pre ++ attr_bytes (item_raw t) ++ post →
  hop_attribute buf (htonl rid) (htonl d) (htonl mask) (length pre)
    (log ++ (announcement rid d p <$> item_gateways gs)) =
  Ok (log ++ (announcement rid d p <$> item_gateways (gs ++ [t]))).
Proof.
  intros Hm [Ha Ht] Hbuf. unfold hop_attribute.
  rewrite (load_attr_type _ _ _ _ Hbuf) by (destruct t; [by apply plain_type|by apply hop_type]).
  cbn [mbind outcome_bind]. unfold item_gateways, gateways. rewrite !omap_app.
  destruct t as [[x|x|ty data]|h]; cbn [item_raw plain_raw hop_raw na_type] in *.
  - change (RTA_DST =? RTA_GATEWAY) with false. cbn. by rewrite app_nil_r.
  - change (RTA_GATEWAY =? RTA_GATEWAY) with true. cbv iota.
    rewrite (load_attr_addr _ _ _ _ x Hbuf) by done. cbn [mbind outcome_bind].
    rewrite (send_next_hop_eq rid d (Z.to_nat p) x) by done. cbn [omap list_omap].
    by rewrite fmap_app, app_assoc.
  - destruct Ht as (_ & _ & Hne & _). rewrite (proj2 (Z.eqb_neq _ _) Hne). cbn. by rewrite app_nil_r.
  - destruct Ht as (_ & _ & Hne & _). rewrite (proj2 (Z.eqb_neq _ _) Hne). cbn. by rewrite app_nil_r.
Qed.

Definition hop_items (h : hop) (hs : list hop) : list (plain_attr + hop) :=
  (inl <$> hop_attrs h) ++ (inr <$> hs).

Lemma hop_items_gateways h hs : item_gateways (hop_items h hs) = gateways (hop_attrs h).
Proof.
  unfold item_gateways, hop_items. f_equal. rewrite omap_app.
  assert (omap (λ t : plain_attr + hop, match t with inl a => Some a | inr _ => None end)
    (inr <$> hs) = []) as ->. { induction hs; [done|]. by cbn. }
  rewrite app_nil_r. induction (hop_attrs h) as [|a l IH]; [done|]. cbn. by f_equal.
Qed.

(** The first hop, then attributes and hops up to the end. *)
Lemma hops_bytes_items h hs : Forall hop_wf (h :: hs) →
  Z.of_nat (length (hops_bytes (h :: hs))) < 2 ^ 16 →
  ∃ hdr, length hdr = 8%nat ∧
    hops_bytes (h :: hs) = hdr ++ attrs_bytes (item_raw <$> hop_items h hs) ∧
    fld 0 2 hdr = le_bytes 2 (Z.of_nat (length (hop_bytes h))).
Proof.
  intros [Hh Hhs]%Forall_cons. unfold hops_bytes at 1 2. cbn [fmap list_fmap concat].
  fold (hops_bytes hs). rewrite length_app. intros Hl. rewrite hops_bytes_raw by (done || lia).
  unfold hop_bytes at 1. set (len := le_bytes 2 _).
  exists (len ++ [hop_flags h; hop_weight h] ++ le_bytes 4 (hop_ifindex h)). split_and!.
  - done.
  - unfold hop_items. rewrite <- !app_assoc. do 3 f_equal.
    unfold attrs_bytes. rewrite !fmap_app, concat_app, <- !list_fmap_compose. done.
  - rewrite fld_here by done. unfold len. f_equal. unfold hop_bytes.
    rewrite !length_app, !length_le_bytes. cbn [length]. lia.
Qed.

Lemma hop_items_wf h hs : Forall hop_wf (h :: hs) →
  Z.of_nat (length (attrs_bytes (item_raw <$> hop_items h hs))) < 2 ^ 16 →
  Forall item_wf (hop_items h hs).
Proof.
  intros [(_ & _ & _ & Hp) Hhs]%Forall_cons Hl%attrs_wf_of_length. rewrite Forall_fmap in Hl.
  assert (Forall (λ t, match t with inl a => plain_wf a | inr h => hop_wf h end) (hop_items h hs)) as H.
  { unfold hop_items. apply Forall_app. by rewrite !Forall_fmap. }
  apply Forall_forall. intros t Ht. rewrite Forall_forall in Hl, H.
  split; [by apply Hl|by apply (H t)].
Qed.

Lemma hops_walk_ok buf rid d p log mask h hs pre post :
  mask = prefix_mask (Z.to_nat p) → Forall hop_wf (h :: hs) →
  buf = pre ++ hops_bytes (h :: hs) ++ post →
  Z.of_nat (length (hops_bytes (h :: hs))) < 2 ^ 16 →
  let len := Z.of_nat (length (hops_bytes (h :: hs))) - 8 in
  rta_loop buf (hop_attribute buf (htonl rid) (htonl d) (htonl mask)) (Z.to_nat len)
    (length pre + 8) len log = Ok (log ++ (announcement rid d p <$> gateways (hop_attrs h))).
Proof.
  intros Hm Hwf Hbuf Hl len. destruct (hops_bytes_items h hs Hwf Hl) as (hdr & H8 & Heq & _).
  unfold len. rewrite Heq in *. rewrite length_app, H8 in *. rewrite <- app_assoc, app_assoc in Hbuf.
  pose proof (hop_items_wf h hs Hwf ltac:(lia)) as Hit.
  destruct (rta_loop_attrs buf (hop_attribute buf (htonl rid) (htonl d) (htonl mask)) item_raw
    (λ ts l, l = log ++ (announcement rid d p <$> item_gateways ts)) item_wf) with
    (ts := hop_items h hs) (before := @nil (plain_attr + hop)) (pre := pre ++ hdr) (post := post)
    (st := log) (fuel := Z.to_nat len) as (st' & E & ->).
  - by intros t [? _].
  - intros before t pre' post' st Ht Hb ->. eexists. split; [by eapply hop_attribute_ok|done].
  - done.
  - done.
  - unfold len. rewrite Heq, length_app. lia.
  - lia.
  - cbn. by rewrite app_nil_r.
  - cbn [Datatypes.app] in E. rewrite hop_items_gateways, length_app, H8 in E. rewrite <- E.
    f_equal; unfold len; rewrite ?Heq, ?length_app; lia.
Qed.

(** ** The variables after the attributes of a route *)

Definition mhops_at (buf : list Z) (h : hop) (hs : list hop) (v : route_vars) : Prop :=
  Forall hop_wf (h :: hs) ∧ Z.of_nat (length (hops_bytes (h :: hs))) < 2 ^ 16 ∧
  rv_attrlen v = Z.of_nat (length (hops_bytes (h :: hs))) - 8 ∧
  ∃ pre post, rv_mhops v = Some (length pre) ∧ buf = pre ++ hops_bytes (h :: hs) ++ post.

Definition route_inv (buf : list Z) (before : list route_attr) (v : route_vars) : Prop :=
  rv_destination v = htonl (route_dst before) ∧ rv_next_hop v = htonl (route_gateway before) ∧
  match last (multipaths before) with
  | None => rv_mhops v = None
  | Some (h, hs) => mhops_at buf h hs v
  end.

Lemma hops_bytes_head h hs : (length (hop_bytes h) ≤ length (hops_bytes (h :: hs)))%nat ∧
  (8 ≤ length (hop_bytes h))%nat.
Proof.
  unfold hops_bytes. cbn [fmap list_fmap concat]. rewrite length_app. split; [lia|].
  unfold hop_bytes. rewrite !length_app, !length_le_bytes. cbn [length]. lia.
Qed.

Lemma multipath_attribute_ok buf h hs pre post v :
  Forall hop_wf (h :: hs) → let a := NlAttr RTA_MULTIPATH (hops_bytes (h :: hs)) in
  attr_wf a → buf = pre ++ attr_bytes a ++ post →
  ∃ v', route_attribute buf (length pre) v = Ok v' ∧ mhops_at buf h hs v' ∧
    rv_destination v' = rv_destination v ∧ rv_next_hop v' = rv_next_hop v.
Proof.
  intros Hwf a Ha Hbuf. pose proof (hops_bytes_head h hs) as [Hh1 Hh2].
  assert (attr_len a = 4 + Z.of_nat (length (hops_bytes (h :: hs)))) as Hal by done.
  unfold attr_wf in Ha. destruct (hops_bytes_items h hs Hwf ltac:(lia)) as (hdr & H8 & Heq & Hfld).
  unfold route_attribute. rewrite (load_attr_type _ _ _ _ Hbuf) by done. cbn [mbind outcome_bind].
  rewrite (load_attr_len _ _ _ _ Hbuf) by done. cbn [mbind outcome_bind na_type a].
  change (RTA_MULTIPATH =? RTA_DST) with false. change (RTA_MULTIPATH =? RTA_GATEWAY) with false.
  change (RTA_MULTIPATH =? RTA_MULTIPATH) with true. cbv iota. cbn [mbind outcome_bind].
  set (len := Z.of_nat (length (hops_bytes (h :: hs)))) in *.
  rewrite (i32_small (attr_len a - 4)) by lia. rewrite (proj2 (Z.ltb_ge _ _)) by lia.
  assert (buf = (pre ++ le_bytes 2 (attr_len a) ++ le_bytes 2 RTA_MULTIPATH) ++
    hops_bytes (h :: hs) ++ padding (length (hops_bytes (h :: hs))) ++ post) as Hbuf2.
  { rewrite Hbuf. unfold attr_bytes. cbn [na_type na_data a]. by rewrite <- !app_assoc. }
  set (pre2 := pre ++ _) in Hbuf2.
  assert (length pre + 4 = length pre2)%nat as -> by (unfold pre2; rewrite !length_app, !length_le_bytes; lia).
  rewrite (load_fld0 _ _ _ _ _ Hbuf2) by lia. cbn [mbind outcome_bind].
  assert (fld 0 2 (hops_bytes (h :: hs)) = fld 0 2 hdr) as ->.
  { rewrite Heq. unfold fld. rewrite !drop_0. apply take_app_le. lia. }
  rewrite Hfld, le_val_small by (split; lia). rewrite (proj2 (Z.ltb_ge _ _)) by lia.
  rewrite i32_small by lia. eexists. split; [done|]. split; [|done].
  unfold mhops_at. cbn [rv_attrlen rv_mhops]. split_and!; [done|lia|lia|]. by eexists _, _.
Qed.

Lemma omap_snoc {A B} (f : A → option B) l a :
  omap f (l ++ [a]) = omap f l ++ match f a with Some b => [b] | None => [] end.
Proof. rewrite omap_app. cbn. by destruct (f a). Qed.

Lemma route_attribute_ok buf before a pre post v :
  route_attr_wf a ∧ attr_wf (route_raw a) → buf = pre ++ attr_bytes (route_raw a) ++ post →
  route_inv buf before v → ∃ v', route_attribute buf (length pre) v = Ok v' ∧ route_inv buf (before ++ [a]) v'.
Proof.
  intros [Hwf Ha] Hbuf (Hd & Hg & Hm).
  unfold route_inv, route_dst, route_gateway, dsts, gateways, plains, multipaths in *.
  destruct a as [a|h hs].
  2: { destruct (multipath_attribute_ok buf h hs pre post v Hwf Ha Hbuf) as (v' & E & Hat & Hd' & Hg').
    exists v'. split; [done|]. rewrite !omap_snoc. rewrite !app_nil_r, last_snoc, Hd', Hg'. done. }
  unfold route_attribute. rewrite (load_attr_type _ _ _ _ Hbuf) by by apply plain_type.
  cbn [mbind outcome_bind]. rewrite !omap_snoc.
  destruct a as [x|x|ty data]; cbn [route_raw plain_raw na_type] in *.
  - rewrite (load_attr_addr _ _ _ _ x Hbuf) by done.
    eexists. split; [done|]. rewrite !app_nil_r, last_snoc. done.
  - rewrite (load_attr_addr _ _ _ _ x Hbuf) by done.
    eexists. split; [done|]. rewrite !app_nil_r, last_snoc. done.
  - destruct Hwf as (_ & H1 & H2 & H3). apply Z.eqb_neq in H1, H2, H3. rewrite H1, H2, H3.
    eexists. split; [done|]. rewrite !app_nil_r. done.
Qed.

(** ** One notification *)

Lemma route_mask_ok n : 2 ≤ n ≤ 32 → route_mask n = Ok (prefix_mask (Z.to_nat n)).
Proof.
  intros Hn. unfold route_mask. rewrite (proj2 (Z.ltb_ge _ _)), (proj2 (Z.ltb_ge _ _)) by lia. cbn [orb].
  assert (forallb (λ k, u32 (Z.lnot (Z.shiftl 1 (32 - Z.of_nat k) - 1)) =? prefix_mask k) (seq 2 31) = true)
    as Hall by (vm_compute; reflexivity).
  rewrite forallb_forall in Hall. specialize (Hall (Z.to_nat n)). rewrite Z2Nat.id in Hall by lia.
  f_equal. apply Z.eqb_eq, Hall, in_seq. lia.
Qed.

Lemma htonl_zero x : in_width 32 x → (htonl x =? 0) = (x =? 0).
Proof.
  intros Hx. destruct (Z.eqb_spec x 0) as [->|Hne]; [done|].
  destruct (Z.eqb_spec (htonl x) 0) as [H|]; [|done]. destruct Hne.
  rewrite <- (bswap_involutive 4 x Hx), H. done.
Qed.

Lemma last_omap_wf {A B} (f : A → option B) (P : B → Prop) (b : B) l :
  Forall (λ a, match f a with Some x => P x | None => True end) l → P b → P (default b (last (omap f l))).
Proof.
  intros Hl Hb. destruct (last (omap f l)) as [x|] eqn:E; [|done]. cbn.
  apply last_Some_elem_of, list_elem_of_omap in E as (a & Ha & Hx).
  rewrite Forall_forall in Hl. specialize (Hl a Ha). by rewrite Hx in Hl.
Qed.

Lemma route_addrs_wf l : Forall route_attr_wf l →
  in_width 32 (route_dst l) ∧ in_width 32 (route_gateway l).
Proof.
  intros Hl. split.
  - apply (last_omap_wf _ (in_width 32)); [|by split]. eapply Forall_impl; [exact Hl|].
    by intros [[]|].
  - apply (last_omap_wf _ (in_width 32)); [|by split]. unfold plains. apply Forall_forall.
    intros p (a & Ha & Hp)%list_elem_of_omap. rewrite Forall_forall in Hl. specialize (Hl a Ha).
    destruct a; simplify_eq. by destruct p.
Qed.

Lemma route_attrs_ok buf pre attrs post :
  Forall route_attr_wf attrs → buf = pre ++ attrs_bytes (route_raw <$> attrs) ++ post →
  let len := Z.of_nat (length (attrs_bytes (route_raw <$> attrs))) in len < 2 ^ 16 →
  ∃ v, rta_loop buf (route_attribute buf) (Z.to_nat len) (length pre) len (RouteVars 0 0 None 0) = Ok v ∧
    route_inv buf attrs v.
Proof.
  intros Hwf Hbuf len Hlen. pose proof (attrs_wf_of_length _ Hlen) as Ha. rewrite Forall_fmap in Ha.
  apply (rta_loop_attrs buf (route_attribute buf) route_raw (route_inv buf)
    (λ a, route_attr_wf a ∧ attr_wf (route_raw a))) with (before := []) (post := post).
  - by intros t [_ ?].
  - intros before t pre' post' st Ht Hb Hi. by eapply route_attribute_ok.
  - apply Forall_and. by split.
  - done.
  - unfold len. lia.
  - unfold len in Hlen. lia.
  - done.
Qed.

(** The fields of a notification. *)
Lemma note_fields buf pre n post : note_shape n → note_len n < 2 ^ 16 → buf = pre ++ note_bytes n ++ post →
  load 4 buf (length pre) = Ok (note_len n) ∧ load 2 buf (length pre + 4) = Ok (n_type n) ∧
  load 1 buf (length pre + 16 + 1) = Ok (n_dst_len n) ∧ (∃ p, load 1 buf (length pre + 16 + 5) = Ok p) ∧
  ∃ pre', length pre' = (length pre + 16 + 12)%nat ∧
    buf = pre' ++ attrs_bytes (route_raw <$> n_attrs n) ++ post.
Proof.
  intros [Hty Hh He] Hlen Hbuf.
  assert (28 ≤ length (note_bytes n))%nat as H28.
  { unfold note_bytes. rewrite !length_app, !length_le_bytes, Hh, He. cbn [length]. lia. }
  rewrite <- !Nat.add_assoc. cbn [Nat.add].
  rewrite (load_fld0 _ _ _ _ _ Hbuf), !(load_fld _ _ _ _ _ _ Hbuf) by lia.
  unfold note_bytes at 1 2 3. split_and!.
  - rewrite fld_here by done. f_equal. apply le_val_small. split; [unfold note_len; lia|].
    change (2 ^ (8 * Z.of_nat 4)) with (2 ^ 32). lia.
  - rewrite fld_skip, fld_here by done. f_equal. by apply le_val_small.
  - do 3 (rewrite fld_skip by (rewrite ?length_le_bytes, ?Hh; lia); rewrite ?length_le_bytes, ?Hh; cbn [Nat.sub]).
    unfold fld. cbn [drop take Datatypes.app]. rewrite firstn_O. cbn [le_val]. f_equal. lia.
  - by eexists.
  - eexists (pre ++ le_bytes 4 (note_len n) ++ le_bytes 2 (n_type n) ++ n_header n ++
      [n_family n; n_dst_len n] ++ n_entry n). split.
    + rewrite !length_app, !length_le_bytes, Hh, He. cbn [length]. lia.
    + rewrite Hbuf. unfold note_bytes. by rewrite <- !app_assoc.
Qed.

Lemma route_notification_ok buf dd rid pre n post log :
  router_id dd = htonl rid → note_wf n → note_len n < 2 ^ 16 → buf = pre ++ note_bytes n ++ post →
  route_notification buf dd (length pre) log = Ok (log ++ announced rid n).
Proof.
  intros Hrid Hn Hlen Hbuf.
  destruct Hn as [Hn Hl Ha].
  destruct (note_fields buf pre n post Hn Hlen Hbuf) as (H0 & H4 & H17 & (p & H21) & pre' & Hpre' & Hbuf'). unfold route_notification.
  rewrite H17. cbn [mbind outcome_bind]. rewrite route_mask_ok by done. cbn [mbind outcome_bind].
  rewrite H21, H0, H4. cbn [mbind outcome_bind]. unfold note_len in *.
  set (attrs := n_attrs n) in *.
  set (len := Z.of_nat (length (attrs_bytes (route_raw <$> attrs)))) in *.
  replace (i32 (28 + len - 28)) with len by (rewrite i32_small; lia). rewrite <- Hpre'.
  destruct (route_attrs_ok buf pre' attrs post Ha Hbuf' ltac:(lia)) as (v & E & Hd & Hg & Hm).
  fold len in E. rewrite E. cbn [mbind outcome_bind]. unfold announced. fold attrs.
  destruct (n_type n =? RTM_NEWROUTE); cbn [andb]; [|by rewrite app_nil_r].
  destruct (route_addrs_wf attrs Ha) as [Hdw Hgw]. rewrite Hd, Hg, !htonl_zero by done.
  destruct (route_dst attrs =? 0); cbn [negb]; [by rewrite app_nil_r|].
  rewrite Hrid. unfold next_hops, first_hop_gateways. rewrite fmap_app, app_assoc.
  match goal with |- (?X ≫= _) = Ok (?L ++ _) => assert (X = Ok L) as -> end.
  { destruct (last (multipaths attrs)) as [[h hs]|]; [|by rewrite Hm, app_nil_r].
    destruct Hm as (Hwf & Hsize & Hal & pre2 & post2 & -> & Hbuf2). rewrite Hal.
    pose proof (hops_walk_ok buf rid (route_dst attrs) (n_dst_len n) log _ h hs pre2 post2 eq_refl Hwf Hbuf2 Hsize) as Hw.
    cbv zeta in Hw. destruct (Z.eqb_spec (Z.of_nat (length (hops_bytes (h :: hs))) - 8) 0) as [E0|_];
      cbn [negb]; [rewrite E0 in Hw|]; exact Hw. }
  cbn [mbind outcome_bind]. destruct (route_gateway attrs =? 0); cbn [negb]; [by rewrite app_nil_r|].
  by rewrite (send_next_hop_eq rid _ (Z.to_nat (n_dst_len n))).
Qed.

(** ** The whole input *)

Lemma note_length n : note_shape n → Z.of_nat (length (note_bytes n)) = note_len n.
Proof.
  intros [_ Hh He]. unfold note_bytes, note_len. rewrite !length_app, !length_le_bytes, Hh, He.
  cbn [length]. lia.
Qed.

Lemma note_aligned n : note_len n < 2 ^ 16 → ALIGN4 (note_len n) = note_len n.
Proof.
  unfold note_len. intros Hl.
  assert (Z.of_nat (length (attrs_bytes (route_raw <$> n_attrs n))) < 2 ^ 16) as Hs by lia.
  pose proof (attrs_bytes_mod _ (attrs_wf_of_length _ Hs)) as Hm.
  set (len := Z.of_nat (length (attrs_bytes (route_raw <$> n_attrs n)))) in *.
  rewrite ALIGN4_eq by lia. pose proof (Z.div_mod len 4 ltac:(done)) as Hd. rewrite Hm in Hd.
  replace (28 + len + 3) with (3 + (7 + len / 4) * 4) by lia. rewrite Z.div_add by done.
  change (3 / 4) with 0. lia.
Qed.

Lemma nlmsg_loop_ok buf dd rid : router_id dd = htonl rid → ∀ ns pre post fuel log,
  Forall note_wf ns → buf = pre ++ datagram ns ++ post →
  let len := Z.of_nat (length (datagram ns)) in len < 2 ^ 16 → (Z.to_nat len ≤ fuel)%nat →
  nlmsg_loop buf dd fuel (length pre) len log = Ok (log ++ concat (announced rid <$> ns)).
Proof.
  intros Hrid. induction ns as [|n ns IH]; intros pre post fuel log Hwf Hbuf len Hlen Hf.
  { cbn. rewrite app_nil_r. by destruct fuel. }
  apply Forall_cons in Hwf as [Hn Hns].
  assert (datagram (n :: ns) = note_bytes n ++ datagram ns) as Hdg by done.
  unfold len in *. clear len. rewrite Hdg in *. rewrite length_app, Nat2Z.inj_add in *.
  pose proof (note_length n (nw_shape n Hn)) as Hnl. assert (28 ≤ note_len n) as H28 by (unfold note_len; lia).
  rewrite <- app_assoc in Hbuf.
  pose proof (note_aligned n ltac:(lia)) as Hal.
  destruct (note_fields buf pre n _ (nw_shape n Hn) ltac:(lia) Hbuf) as (H0 & _).
  destruct fuel as [|fuel]; [lia|]. cbn [nlmsg_loop]. unfold NLMSG_OK.
  rewrite (proj2 (Z.ltb_ge _ _)) by lia. rewrite H0. cbn [mbind outcome_bind].
  rewrite !(proj2 (Z.leb_le _ _)) by lia. cbn [andb].
  rewrite (route_notification_ok buf dd rid pre n _ log Hrid Hn ltac:(lia) Hbuf). cbn [mbind outcome_bind].
  rewrite Hal. cbn [fmap list_fmap concat]. rewrite app_assoc.
  rewrite <- (IH (pre ++ note_bytes n) post fuel) by (try done; try lia; by rewrite <- app_assoc).
  rewrite length_app. f_equal; lia.
Qed.

Lemma loop_datagram dd rid ns rs log :
  router_id dd = htonl rid → Forall note_wf ns → (length (datagram ns) ≤ BUFFER_SIZE)%nat →
  loop RTMGRP_IPV4_ROUTE dd (Some (datagram ns) :: rs) log
    = Ok (Some (rs, log ++ concat (announced rid <$> ns), 0)).
Proof.
  intros Hrid Hwf Hl. destruct BUFFER_SIZE_small as [Hs _].
  assert (Z.of_nat BUFFER_SIZE < 2 ^ 16) as Hs2 by by vm_compute.
  unfold loop. cbn [recv_loop]. unfold recv_into. rewrite length_replicate, take_ge by lia.
  set (buf := datagram ns ++ _).
  assert (length buf = BUFFER_SIZE) as Hb
    by (unfold buf; rewrite length_app, length_drop, length_replicate; lia).
  unfold load. rewrite mem_read_ok by lia. cbn [mbind outcome_bind].
  rewrite Z.eqb_refl, orb_true_r. cbn [mbind outcome_bind].
  pose proof (nlmsg_loop_ok buf dd rid Hrid ns [] _ (Z.to_nat (Z.of_nat (length (datagram ns)))) log Hwf eq_refl
    ltac:(lia) ltac:(lia)) as H. cbn [length] in H. rewrite H. done.
Qed.

Lemma monitor_loop_step groups dd fuel rs log rs' log' ret :
  loop groups dd rs log = Ok (Some (rs', log', ret)) →
  monitor_loop groups dd (S fuel) rs log = monitor_loop groups dd fuel rs' log'.
Proof. intros E. cbn [monitor_loop]. by rewrite E. Qed.

(** C14. The route monitor announces exactly the new routes of the kernel: for any
    sequence of datagrams of well-formed notifications, it sends, in their order, one
    FIB message for each next hop it sees of each new route to a destination other
    than zero (of a multipath route, the gateways of the first hop), with the
    router's identifier, the prefix, its mask and the next hop in network byte order,
    in the layout the connection manager reads; withdrawals send nothing. *)
Theorem monitor_announces_routes dd rid nss :
  router_id dd = htonl rid → Forall (Forall note_wf) nss →
  Forall (λ ns, (length (datagram ns) ≤ BUFFER_SIZE)%nat) nss →
  route_table_monitor dd ((λ ns, Some (datagram ns)) <$> nss)
    = Ok (concat (announced rid <$> concat nss)).
Proof.
  intros Hrid Hwf Hlen. unfold route_table_monitor. rewrite length_fmap.
  change (concat (announced rid <$> concat nss)) with ([] ++ concat (announced rid <$> concat nss)).
  generalize (@nil (list Z)) as log. revert Hwf Hlen.
  induction nss as [|ns nss IH]; intros Hwf Hlen log; [by cbn; rewrite app_nil_r|].
  apply Forall_cons in Hwf as [Hw Hwf], Hlen as [Hl Hlen].
  rewrite fmap_cons. cbn [length].
  rewrite (monitor_loop_step _ _ _ _ _ _ _ _ (loop_datagram dd rid ns _ log Hrid Hw Hl)), IH by done.
  by rewrite concat_cons, fmap_app, concat_app, app_assoc.
Qed.

Lemma gateways_wf l : Forall plain_wf l → Forall (in_width 32) (gateways l).
Proof.
  intros Hl. apply Forall_forall. intros g (a & Ha & Hg)%list_elem_of_omap.
  rewrite Forall_forall in Hl. specialize (Hl a Ha). destruct a; by simplify_eq.
Qed.

Lemma next_hops_wf l : Forall route_attr_wf l → Forall (in_width 32) (next_hops l).
Proof.
  intros Hl. unfold next_hops. apply Forall_app. split.
  - unfold first_hop_gateways. destruct (last (multipaths l)) as [[h hs]|] eqn:E; [|done].
    apply last_Some_elem_of, list_elem_of_omap in E as (a & Ha & Hx).
    rewrite Forall_forall in Hl. specialize (Hl a Ha). destruct a as [|h' hs']; simplify_eq.
    apply gateways_wf. apply Forall_cons in Hl as [(_ & _ & _ & Hp) _]. done.
  - destruct (_ =? 0); [done|]. apply Forall_singleton. by apply route_addrs_wf.
Qed.

(** ** From the kernel to the simulated router *)

Section end_to_end.
Context `{BufferEvent} (xmalloc : nat → list Z) (conn_id : Z).

(** C11. A route that a routing daemon installs in the kernel of an emulated router
    and the routing table of the simulated one.  The monitor turns the notification into one
    message.  Handling an event with the bytes of this message adds exactly this route
    (the destination masked to the prefix length of the notification, its mask and its
    gateway) to the table of the router with the daemon's identifier, and changes no
    other node; from then on the router looks every address that the route covers with
    a longer prefix than the others up to it.  Between the two, the callback of the connection
    manager asks for sixteen bytes and writes twenty-four: when the allocator gives it
    that many, it queues such an event in front of all others; when not, it
    writes past the end of the block. *)
Theorem kernel_route_reaches_table `{Loci} sc buf cm h dd rid n g na r :
  router_id dd = htonl rid → in_width 32 rid →
  note_wf n → (length (note_bytes n) ≤ BUFFER_SIZE)%nat →
  n_type n = RTM_NEWROUTE → route_dst (n_attrs n) ≠ 0 → next_hops (n_attrs n) = [g] →
  cm_pos cm = 0 → none_past cm →
  topology_router_by_id (eh_topo h) rid = Some na →
  node_at (eh_topo h) na = Some (NRouter r) → rt_wf (ln_rt (r_ln r)) →
  ∃ msg, route_table_monitor dd [Some (note_bytes n)] = Ok [msg] ∧
    (∀ time ev, event_of conn_id time msg ev →
      ∃ r' e, handle_event sc buf h ev = Ok (store_node na (NRouter r') h) ∧
        fib_route (FibPrefix (route_dst (n_attrs n)) (Z.to_nat (n_dst_len n)) g) e ∧
        routes (ln_rt (r_ln r')) ≡ₚ e :: routes (ln_rt (r_ln r)) ∧ rt_wf (ln_rt (r_ln r')) ∧
        ∀ ip hash, in_width 32 ip → in_width 32 hash → covers e ip →
          (∀ e', e' ∈ routes (ln_rt (r_ln r)) → covers e' ip → (prefix_length e' < prefix_length e)%nat) →
          ipv4_lookup (ln_rt (r_ln r')) ip hash = Ok (Some e)) ∧
    ∀ b, input b = msg →
      if decide (24 ≤ length (xmalloc 16))%nat then
        ∃ cm' b' a ev, conn_manager_router_message_cb xmalloc conn_id cm b = Ok (cm', b') ∧
          scheduler_retrieve (cm_sch cm') = Some (a, ev) ∧
          event_of conn_id (sch_clock (cm_sch cm)) msg ev
      else conn_manager_router_message_cb xmalloc conn_id cm b = Fault OutOfBounds.
Proof.
  intros Hid Hrid Hn Hlen Hty Hd Hg Hpos Hp Hna Hr Hwf.
  assert (Forall note_wf [n]) as Hns by by apply Forall_singleton.
  assert (datagram [n] = note_bytes n) as Hdg by apply app_nil_r.
  set (f := FibPrefix (route_dst (n_attrs n)) (Z.to_nat (n_dst_len n)) g).
  exists (padded (fib_message rid [f])). split.
  { unfold route_table_monitor. rewrite <- Hdg in *.
    rewrite (monitor_loop_step _ _ _ _ _ _ _ _ (loop_datagram dd rid [n] [] [] Hid Hns Hlen)).
    cbn [concat fmap list_fmap Datatypes.app]. rewrite app_nil_r.
    unfold announced. rewrite Hty, Hg, (proj2 (Z.eqb_neq _ _) Hd). done. }
  destruct Hn as [_ Hl Ha].
  assert (fib_prefix_wf f) as Hf.
  { pose proof (next_hops_wf _ Ha) as Hgw. rewrite Hg in Hgw. apply Forall_cons in Hgw as [Hgw _].
    split; [by apply route_addrs_wf|]. split; [cbn; lia|exact Hgw]. }
  split.
  - intros time ev Hev.
    destruct (fib_event_ok conn_id sc buf h time rid [f] na r ev) as (r' & es & H1 & H2 & H3 & H4);
      try done; [by apply Forall_singleton|].
    apply Forall2_cons_inv_l in H2 as (e & ? & He & ->%Forall2_nil_inv_l & ->).
    exists r', e. split_and!; [done..|].
    intros ip hash Hip Hh Hc Hbest. by apply (ipv4_lookup_best _ _ e ip hash H4 Hip Hh H3).
  - intros b Hin. exact (one_message xmalloc conn_id cm b _ Hpos Hp (fib_message_wf rid [f] Hrid eq_refl) Hin).
Qed.
End end_to_end.

(** Of a multipath route only the first hop is announced: the loop over the
    attributes starts behind the header of the first hop and skips each further hop
    as if it were one attribute. *)
Theorem multipath_announces_first_hop dd rid n d h hs :
  router_id dd = htonl rid → note_wf n → (length (note_bytes n) ≤ BUFFER_SIZE)%nat →
  n_type n = RTM_NEWROUTE → n_attrs n = [Plain (Dst d); Multipath h hs] → d ≠ 0 →
  route_table_monitor dd [Some (note_bytes n)]
    = Ok (announcement rid d (n_dst_len n) <$> gateways (hop_attrs h)).
Proof.
  intros Hid Hn Hlen Hty Ha Hd. unfold route_table_monitor.
  assert (datagram [n] = note_bytes n) as Hdg by apply app_nil_r. rewrite <- Hdg in *.
  rewrite (monitor_loop_step _ _ _ _ _ _ _ _
    (loop_datagram dd rid [n] [] [] Hid ltac:(by apply Forall_singleton) Hlen)).
  cbn [concat fmap list_fmap Datatypes.app]. rewrite app_nil_r. cbn [monitor_loop].
  unfold announced. rewrite Hty, Ha. change (route_dst _) with d.
  rewrite (proj2 (Z.eqb_neq _ _) Hd). change (next_hops _) with (gateways (hop_attrs h) ++ []).
  by rewrite app_nil_r.
Qed.

(** A notification of a default route, or of a prefix of length one, makes the
    daemon evaluate an undefined shift or subtraction, whatever its type. *)
Theorem short_prefix_undefined dd n rest :
  note_shape n → (length (note_bytes n ++ rest) ≤ BUFFER_SIZE)%nat → n_dst_len n < 2 →
  route_table_monitor dd [Some (note_bytes n ++ rest)] = Fault SignedOverflow.
Proof.
  intros Hn Hlen Hd. unfold route_table_monitor. cbn [length monitor_loop]. unfold loop.
  cbn [recv_loop]. unfold recv_into. rewrite length_replicate, take_ge by lia.
  set (data := note_bytes n ++ rest) in *. set (buf := data ++ _).
  assert (Z.of_nat BUFFER_SIZE < 2 ^ 16) as Hs2 by by vm_compute.
  assert (length buf = BUFFER_SIZE) as Hb
    by (unfold buf; rewrite length_app, length_drop, length_replicate; lia).
  destruct BUFFER_SIZE_small as [Hs _]. unfold load at 1. rewrite mem_read_ok by lia.
  cbn [mbind outcome_bind]. rewrite Z.eqb_refl, orb_true_r. cbn [mbind outcome_bind].
  pose proof (note_length n Hn) as Hnl. unfold data in *. rewrite length_app in *.
  assert (28 ≤ note_len n) as H28 by (unfold note_len; lia).
  destruct (note_fields buf [] n (rest ++ drop (length (note_bytes n ++ rest)) (replicate BUFFER_SIZE 0)) Hn)
    as (H0 & _ & H17 & _); [lia|unfold buf; by rewrite <- app_assoc|].
  cbn [length Nat.add] in H0, H17.
  destruct (Z.to_nat _) as [|fuel] eqn:Ef; [lia|]. cbn [nlmsg_loop]. unfold NLMSG_OK.
  rewrite (proj2 (Z.ltb_ge _ _)) by lia. rewrite H0. cbn [mbind outcome_bind].
  rewrite !(proj2 (Z.leb_le _ _)) by lia. cbn [andb]. unfold route_notification. cbn [Nat.add].
  rewrite H17. cbn [mbind outcome_bind]. unfold route_mask. by rewrite (proj2 (Z.ltb_lt _ _) Hd).
Qed.

(** ** One process *)

Lemma print_u32_length z : (length (print_u32 z) ≤ 10)%nat.
Proof. unfold print_u32. pose proof (length_digits 10 z []). cbn [length] in *. lia. Qed.

Lemma pid_file_fits rid :
  sprintf 60 (lit "/tmp/daemon" ++ print_u32 rid ++ lit ".pid") = Ok (lit "/tmp/daemon" ++ print_u32 rid ++ lit ".pid").
Proof.
  rewrite sprintf_ok; [done|]. rewrite !length_app. pose proof (print_u32_length rid).
  change (length (lit "/tmp/daemon")) with 11%nat. change (length (lit ".pid")) with 4%nat. lia.
Qed.

(** The descriptors after the last part of [daemonise]. *)
Lemma standard_files_fds o0 o1 o2 (fds : descriptors) :
  let opened := omap (λ x : bool * open_flag, if x.1 then Some x.2 else None)
                  [(o0, O_RDONLY); (o1, O_WRONLY); (o2, O_RDWR)] in
  let t := delete 2%nat (delete 1%nat (delete 0%nat fds)) in
  let step (ok : bool) flag t := if ok then open_null flag t else t in
  ∀ i, step o2 O_RDWR (step o1 O_WRONLY (step o0 O_RDONLY t)) !! i =
       if decide (i < 3)%nat then DevNull <$> opened !! i else fds !! i.
Proof.
  intros opened t step i.
  transitivity (foldl (λ t flag, open_null flag t) t opened !! i); [by destruct o0, o1, o2|].
  rewrite reopen_standard.
  - case_decide as Hi; [done|]. unfold t. by rewrite !lookup_delete_ne by lia.
  - by destruct o0, o1, o2; apply Nat.leb_le.
  - intros j Hj. unfold t. destruct j as [|[|[|j]]]; [..|lia].
    + by rewrite !lookup_delete_ne, lookup_delete_eq by lia.
    + by rewrite lookup_delete_ne, lookup_delete_eq by lia.
    + by rewrite lookup_delete_eq.
Qed.

(** All processes of [daemonise], for any answers of the system. *)
Lemma daemonise_run rid pid fds c1 c2 opened_file written o0 o1 o2 :
  let name := lit "/tmp/daemon" ++ print_u32 (ntohl rid) ++ lit ".pid" in
  let first := from_option Zpos pid c1 in
  let last := from_option Zpos first c2 in
  let opened := omap (λ x : bool * open_flag, if x.1 then Some x.2 else None)
                  [(o0, O_RDONLY); (o1, O_WRONLY); (o2, O_RDWR)] in
  ∃ w ends fds',
    run_process (daemonise rid) pid fds (World [c1; c2] [opened_file] [written] [o0; o1; o2] []) = (w, ends) ∧
    omap going_on ends = [(last, fds')] ∧
    Forall (λ e, (∃ status, e.2 = Exited status) ∨ e = (last, Returned fds')) ends ∧
    w_files w = match c2 with
                | Some _ => if opened_file : bool
                            then [(name, if written : bool then print_u32 last ++ [NEWLINE] else [])] else []
                | None => []
                end ∧
    ∀ i, fds' !! i = if decide (i < 3)%nat then DevNull <$> opened !! i else fds !! i.
Proof.
  intros name first last opened. pose proof (standard_files_fds o0 o1 o2 fds) as Hfds.
  cbv zeta in Hfds. unfold daemonise. rewrite pid_file_fits. fold name.
  destruct c1 as [c1|], c2 as [c2|], opened_file, written;
    (eexists _, _, _; split; [cbn; rewrite ?decide_True by done; reflexivity|]; split; [reflexivity|];
     split; [repeat (constructor; [by eauto|]); by constructor|]; split; [reflexivity|exact Hfds]).
Qed.

(** C21. Turning into a daemon, run with all the processes it forks, for any answers of
    the system to its two forks, to opening, writing and closing the process file and to
    opening the null device.  Exactly one process goes on: the child of the second fork, or
    the process that called it when it fails; all others exit.  The process file exists
    when the second fork and opening it succeed; then it holds the number of the process
    that goes on, or nothing if that text could not be written.  In the process that goes on the
    standard descriptors are the null device, opened for reading, writing and both (when one of
    these calls fails the next one takes its place), and all other descriptors, the connection
    to the server among them, are as before. *)
Theorem daemonise_one_process rid pid fds c1 c2 opened_file written o0 o1 o2 :
  let name := lit "/tmp/daemon" ++ print_u32 (ntohl rid) ++ lit ".pid" in
  let first := from_option Zpos pid c1 in
  let last := from_option Zpos first c2 in
  let opened := omap (λ x : bool * open_flag, if x.1 then Some x.2 else None)
                  [(o0, O_RDONLY); (o1, O_WRONLY); (o2, O_RDWR)] in
  ∃ w ends fds',
    run_process (daemonise rid) pid fds (World [c1; c2] [opened_file] [written] [o0; o1; o2] []) = (w, ends) ∧
    omap going_on ends = [(last, fds')] ∧
    Forall (λ e, (∃ status, e.2 = Exited status) ∨ e = (last, Returned fds')) ends ∧
    w_files w = match c2 with
                | Some _ => if opened_file : bool
                            then [(name, if written : bool then print_u32 last ++ [NEWLINE] else [])] else []
                | None => []
                end ∧
    ∀ i, fds' !! i = if decide (i < 3)%nat then DevNull <$> opened !! i else fds !! i.
Proof. apply daemonise_run. Qed.

(** ** Witnesses: one router, a route with a gateway and a route with two hops *)

Definition sample_dd : daemon_data := DaemonData 4 (htonl 7).
Definition sample_entry : list Z := [0; 0; 254; 188; 0; 1; 0; 0; 0; 0].
Definition sample_note : notification :=
  Notification RTM_NEWROUTE (replicate 10 0) 2 16 sample_entry
    [Plain (Other 15 (le_bytes 4 254)); Plain (Dst 0x0a010000); Plain (Gateway 0x0a000002)].
Definition sample_hop (g : Z) : hop := Hop 0 0 2 [Gateway g].
Definition sample_multi : notification :=
  Notification RTM_NEWROUTE (replicate 10 0) 2 24 sample_entry
    [Plain (Dst 0x0a020000); Multipath (sample_hop 0x0a000002) [sample_hop 0x0a000003]].
Definition sample_withdrawal : notification :=
  Notification RTM_DELROUTE (replicate 10 0) 2 16 sample_entry (n_attrs sample_note).
Definition sample_default : notification :=
  Notification RTM_NEWROUTE (replicate 10 0) 2 0 sample_entry [Plain (Gateway 0x0a000001)].

Ltac shape := split; [split; done|reflexivity|reflexivity].
Lemma sample_note_wf : note_wf sample_note.
Proof.
  split; [shape|cbn; lia|]. apply Forall_cons; split; [|apply Forall_cons; split; [|apply Forall_singleton]].
  - split; [split; done|]. split; [discriminate|]. split; discriminate.
  - split; done.
  - split; done.
Qed.
Lemma sample_multi_wf : note_wf sample_multi.
Proof.
  split; [shape|cbn; lia|]. apply Forall_cons; split; [by split|].
  apply Forall_singleton. apply Forall_cons; split; [|apply Forall_singleton];
    (split; [by split|]; split; [by split|]; split; [done|]; apply Forall_singleton; by split).
Qed.
Lemma sample_withdrawal_wf : note_wf sample_withdrawal.
Proof. split; [shape|cbn; lia|]. exact (nw_attrs _ sample_note_wf). Qed.

(** Three notifications in two datagrams: the second next hop of the multipath
    route and the withdrawal leave no trace. *)
Lemma monitor_announces_routes_witness :
  route_table_monitor sample_dd [Some (datagram [sample_note; sample_multi]); Some (datagram [sample_withdrawal])]
    = Ok [announcement 7 0x0a010000 16 0x0a000002; announcement 7 0x0a020000 24 0x0a000002].
Proof.
  apply (monitor_announces_routes sample_dd 7 [[sample_note; sample_multi]; [sample_withdrawal]]).
  - reflexivity.
  - apply Forall_cons; split; [|apply Forall_singleton, Forall_singleton; exact sample_withdrawal_wf].
    apply Forall_cons; split; [exact sample_note_wf|apply Forall_singleton; exact sample_multi_wf].
  - apply Forall_cons; split; [|apply Forall_singleton]; apply Nat.leb_le; vm_compute; reflexivity.
Defined.

Lemma multipath_announces_first_hop_witness :
  route_table_monitor sample_dd [Some (note_bytes sample_multi)]
    = Ok [announcement 7 0x0a020000 24 0x0a000002].
Proof.
  apply (multipath_announces_first_hop sample_dd 7 sample_multi 0x0a020000 (sample_hop 0x0a000002)
    [sample_hop 0x0a000003]).
  - reflexivity.
  - exact sample_multi_wf.
  - apply Nat.leb_le; vm_compute; reflexivity.
  - reflexivity.
  - reflexivity.
  - discriminate.
Defined.

Lemma short_prefix_undefined_witness :
  route_table_monitor sample_dd [Some (note_bytes sample_default ++ note_bytes sample_note)]
    = Fault SignedOverflow.
Proof.
  apply short_prefix_undefined.
  - shape.
  - apply Nat.leb_le; vm_compute; reflexivity.
  - reflexivity.
Defined.

#[local] Instance no_controller : Loci := sample_loci OF_OTHER_MESSAGE.
Definition router_net (r : router) : ev_handler :=
  EvHandler (topology_add_router topology_new 1 (router_set_id r 7)) scheduler_new None ∅ 0 [].

Lemma router_net_node r : node_at (eh_topo (router_net r)) 1 = Some (NRouter (router_set_id r 7)).
Proof.
  unfold node_at. change (t_nodes (eh_topo (router_net r)))
    with (HASH_ADD 1%nat (NRouter (router_set_id r 7)) None).
  rewrite (proj2 (HASH_ADD_spec (V := net_node) 1%nat (NRouter (router_set_id r 7)) None
    I (not_elem_of_nil _))). reflexivity.
Qed.

Lemma kernel_route_reaches_table_witness :
  ∃ r msg cm' b' a ev r' e, sample_router_setup = Ok r ∧
    route_table_monitor sample_dd [Some (note_bytes sample_note)] = Ok [msg] ∧
    @conn_manager_router_message_cb list_bufferevent ample 1 sample_cm msg = Ok (cm', b') ∧
    scheduler_retrieve (cm_sch cm') = Some (a, ev) ∧
    handle_event sample_scratch [] (router_net r) ev = Ok (store_node 1 (NRouter r') (router_net r)) ∧
    routes (ln_rt (r_ln r')) ≡ₚ e :: routes (ln_rt (r_ln r)).
Proof.
  destruct sample_router_wf as (r & E & W). exists r.
  destruct (@kernel_route_reaches_table list_bufferevent ample 1 no_controller sample_scratch [] sample_cm
              (router_net r) sample_dd 7 sample_note 0x0a000002 1 (router_set_id r 7)) as (msg & Hlog & H & Hcb).
  - reflexivity.
  - split; done.
  - exact sample_note_wf.
  - apply Nat.leb_le; vm_compute; reflexivity.
  - reflexivity.
  - discriminate.
  - reflexivity.
  - reflexivity.
  - exact sample_cm_past.
  - reflexivity.
  - exact (router_net_node r).
  - exact W.
  - specialize (Hcb msg eq_refl). rewrite decide_True in Hcb by (vm_compute; lia).
    destruct Hcb as (cm' & b' & a & ev & H1 & H2 & Hev).
    destruct (H 0 ev Hev) as (r' & e & H3 & _ & H5 & _).
    exists msg, cm', b', a, ev, r', e. split; [exact E|]. split; [exact Hlog|]. split; [exact H1|].
    split; [exact H2|]. split; [exact H3|exact H5].
Defined.
