(* ===== verification/Capture.v ===== *)
(** * Capture: the packet capture of the routing helper

    Continues [HorseDaemon] with [capture] of [src/horse_daemon.c]: packets are handed to
    [capture_cb] one after the other.  The layout of the captured packets - the header of
    a capture on all interfaces, IPv4, TCP with options, OSPF - is spelled out as a
    type with its bytes.

    Theorems: a sequence of captured packets is reported by one activity message for each
    that is OSPF other than Hello or a BGP segment that begins with an Open or Update, in
    order, unless some BGP segment holds less than the header of a message, which is
    read behind its end. *)

From stdpp Require Import strings prelude gmap.
From S2P Require Import Prelude Util Uthash Netflow Packet Node Inet RoutingMsg HorseDaemon.

(** The three calls that set the capture up end the process when they fail. *)
Definition capture (pcap_open_live pcap_compile pcap_setfilter : bool) (dd : daemon_data)
    (packets : list (list Z)) (log : list (list Z)) : outcome (list (list Z)) :=
  if negb (pcap_open_live && pcap_compile && pcap_setfilter) then Fault Aborted
  else foldl (λ log p, log ← log; capture_cb dd p log) (Ok log) packets.

(** ** Captured packets *)

(** A captured packet: fourteen bytes of the cooked header, the protocol, and for IP
    a header without options (version 4, five words) around its protocol number. *)
Record ip_fields := IpFields { ip_before : list Z; ip_after : list Z }.
Definition ip_fields_wf (i : ip_fields) : Prop :=
  length (ip_before i) = 9%nat ∧ length (ip_after i) = 10%nat ∧ head (ip_before i) = Some 0x45.
Record tcp_fields := TcpFields { tcp_seqs : list Z; tcp_flags : Z; tcp_rest : list Z; tcp_options : list Z }.
Definition tcp_words (t : tcp_fields) : Z := 5 + Z.of_nat (length (tcp_options t)) / 4.
Definition tcp_fields_wf (t : tcp_fields) : Prop :=
  length (tcp_seqs t) = 8%nat ∧ in_width 12 (tcp_flags t) ∧ length (tcp_rest t) = 6%nat ∧
  Z.of_nat (length (tcp_options t)) mod 4 = 0 ∧ tcp_words t < 16.
Definition tcp_segment (sport dport : Z) (t : tcp_fields) (payload : list Z) : list Z :=
  be_bytes 2 sport ++ be_bytes 2 dport ++ tcp_seqs t ++ be_bytes 2 (tcp_words t * 4096 + tcp_flags t) ++
  tcp_rest t ++ tcp_options t ++ payload.

(** The messages of the two protocols, with the numbers of their kinds; the header of a BGP
    message is a marker of sixteen bytes, the length and the kind (RFC 4271). *)
Inductive bgp_kind := Open | Update | Notification | Keepalive | RouteRefresh.
Definition bgp_code (k : bgp_kind) : Z :=
  match k with Open => 1 | Update => 2 | Notification => 3 | Keepalive => 4 | RouteRefresh => 5 end.
Record bgp_message := BgpMessage { bm_kind : bgp_kind; bm_body : list Z }.
Definition bgp_bytes (m : bgp_message) : list Z :=
  (replicate 16 255 ++ be_bytes 2 (19 + Z.of_nat (length (bm_body m)))) ++ [bgp_code (bm_kind m)] ++ bm_body m.
Inductive ospf_kind := Hello | DatabaseDescription | LinkStateRequest | LinkStateUpdate | LinkStateAck.
Definition ospf_code (k : ospf_kind) : Z :=
  match k with
  | Hello => 1 | DatabaseDescription => 2 | LinkStateRequest => 3 | LinkStateUpdate => 4 | LinkStateAck => 5
  end.

(** The data of a segment: the first [n] bytes of some BGP messages, or bytes of
    another protocol. *)
Inductive tcp_data :=
| BgpData (first : bgp_message) (later : list bgp_message) (n : nat)
| OtherData (bytes : list Z).
Definition data_bytes (d : tcp_data) : list Z :=
  match d with
  | BgpData first later n => take n (concat (bgp_bytes <$> first :: later))
  | OtherData bytes => bytes
  end.

Inductive captured :=
| OtherEthernet (ty : Z) (rest : list Z)
| OtherIp (i : ip_fields) (proto : Z) (rest : list Z)
| Ospf (i : ip_fields) (version : Z) (kind : ospf_kind) (rest : list Z)
| TcpPacket (i : ip_fields) (sport dport : Z) (t : tcp_fields) (data : tcp_data).

Definition ip_packet (i : ip_fields) (proto : Z) (payload : list Z) : list Z :=
  be_bytes 2 ETH_TYPE_IP ++ ip_before i ++ [proto] ++ ip_after i ++ payload.
Definition captured_bytes (cooked : list Z) (c : captured) : list Z :=
  cooked ++
  match c with
  | OtherEthernet ty rest => be_bytes 2 ty ++ rest
  | OtherIp i proto rest => ip_packet i proto rest
  | Ospf i version kind rest => ip_packet i IP_PROTO_OSPF ([version; ospf_code kind] ++ rest)
  | TcpPacket i sport dport t data => ip_packet i IP_PROTO_TCP (tcp_segment sport dport t (data_bytes data))
  end.

Definition is_bgp (sport dport : Z) : bool := (sport =? TCP_PORT_BGP) || (dport =? TCP_PORT_BGP).

(** On a BGP port there are BGP messages. *)
Definition captured_wf (c : captured) : Prop :=
  match c with
  | OtherEthernet ty _ => in_width 16 ty ∧ ty ≠ ETH_TYPE_IP
  | OtherIp i proto _ => ip_fields_wf i ∧ proto ≠ IP_PROTO_OSPF ∧ proto ≠ IP_PROTO_TCP
  | Ospf i _ _ _ => ip_fields_wf i
  | TcpPacket i sport dport t data =>
      ip_fields_wf i ∧ tcp_fields_wf t ∧ in_width 16 sport ∧ in_width 16 dport ∧
      match data with BgpData _ _ _ => True | OtherData _ => is_bgp sport dport = false end
  end.

(** OSPF other than Hello; a segment whose first BGP message is an Open or an Update. *)
Definition routing_traffic (c : captured) : bool :=
  match c with
  | Ospf _ _ Hello _ => false
  | Ospf _ _ _ _ => true
  | TcpPacket _ sport dport _ (BgpData first _ _) =>
      is_bgp sport dport && match bm_kind first with Open | Update => true | _ => false end
  | _ => false
  end.

(** Less than a message header: a segment that only acknowledges, for instance. *)
Definition header_cut (c : captured) : bool :=
  match c with TcpPacket _ sport dport _ (BgpData _ _ n) => is_bgp sport dport && (n <? 19)%nat | _ => false end.

Definition activity_message (rid : Z) : list Z :=
  hdr_bytes (RoutingMsg ROUTER_ACTIVITY HEADER_LEN rid NoBody).

Lemma load_be w k buf pre body post x :
  buf = pre ++ body ++ post → body = be_bytes w x → length pre = k → in_width (8 * Z.of_nat w) x →
  ∃ v, load w buf k = Ok v ∧ bswap w v = x.
Proof.
  intros Hbuf -> <- Hx. exists (bswap w x). split; [|by apply bswap_involutive].
  rewrite (load_fld0 _ _ _ _ _ Hbuf) by (rewrite be_bytes_length; lia).
  by rewrite fld_all by apply be_bytes_length.
Qed.

Lemma load_byte k buf pre x post :
  buf = pre ++ [x] ++ post → length pre = k → load 1 buf k = Ok x.
Proof.
  intros Hbuf <-. rewrite (load_fld0 _ _ _ _ _ Hbuf) by (cbn; lia). cbn. f_equal. lia.
Qed.

Lemma send_activity_eq rid log : send_activity (htonl rid) log = Ok (log ++ [activity_message rid]).
Proof. unfold send_activity. rewrite le_bytes_htonl. reflexivity. Qed.

(** The fields of an IP packet. *)
Lemma ip_packet_fields cooked i proto payload :
  length cooked = 14%nat → ip_fields_wf i →
  let p := cooked ++ ip_packet i proto payload in
  (∃ v, load 2 p 14 = Ok v ∧ ntohs v = ETH_TYPE_IP) ∧ load 1 p 25 = Ok proto ∧
  ∃ pre, p = pre ++ payload ∧ length pre = 36%nat.
Proof.
  intros Hc (Hb & Ha & _) p. split_and!.
  - apply (load_be 2 14 p cooked (be_bytes 2 ETH_TYPE_IP) (ip_before i ++ [proto] ++ ip_after i ++ payload));
      [reflexivity|reflexivity|done|by split].
  - apply (load_byte _ _ (cooked ++ be_bytes 2 ETH_TYPE_IP ++ ip_before i) _ (ip_after i ++ payload)).
    + unfold p, ip_packet. by rewrite <- !app_assoc.
    + rewrite !length_app, Hc, Hb, be_bytes_length. done.
  - exists (cooked ++ be_bytes 2 ETH_TYPE_IP ++ ip_before i ++ [proto] ++ ip_after i). split.
    + unfold p, ip_packet. by rewrite <- !app_assoc.
    + rewrite !length_app, Hc, Hb, Ha, be_bytes_length. done.
Qed.

Lemma tcp_words_min t : 5 ≤ tcp_words t.
Proof. unfold tcp_words. pose proof (Z.div_pos (Z.of_nat (length (tcp_options t))) 4). lia. Qed.

Lemma tcp_segment_fields p pre sport dport t payload :
  p = pre ++ tcp_segment sport dport t payload → length pre = 36%nat → tcp_fields_wf t →
  in_width 16 sport → in_width 16 dport →
  (∃ v, load 2 p 48 = Ok v ∧ ntohs v = tcp_words t * 4096 + tcp_flags t) ∧
  (∃ v, load 2 p 36 = Ok v ∧ ntohs v = sport) ∧ (∃ v, load 2 p 38 = Ok v ∧ ntohs v = dport) ∧
  ∃ pre', p = pre' ++ payload ∧ Z.of_nat (length pre') = 36 + 4 * tcp_words t.
Proof.
  intros Hp Hl (Hs & Hf & Hr & Ho & Hw) Hsp Hdp. unfold tcp_segment in Hp. split_and!.
  - apply (load_be 2 48 p (pre ++ be_bytes 2 sport ++ be_bytes 2 dport ++ tcp_seqs t)
      (be_bytes 2 (tcp_words t * 4096 + tcp_flags t)) (tcp_rest t ++ tcp_options t ++ payload)).
    + rewrite Hp. by rewrite <- !app_assoc.
    + done.
    + rewrite !length_app, Hl, Hs, !be_bytes_length. done.
    + unfold in_width in *. change (2 ^ (8 * Z.of_nat 2)) with 65536. change (2 ^ 12) with 4096 in Hf.
      pose proof (tcp_words_min t). lia.
  - by apply (load_be 2 36 p pre (be_bytes 2 sport) _ sport Hp).
  - apply (load_be 2 38 p (pre ++ be_bytes 2 sport) (be_bytes 2 dport) (tcp_seqs t ++
      be_bytes 2 (tcp_words t * 4096 + tcp_flags t) ++ tcp_rest t ++ tcp_options t ++ payload));
      [rewrite Hp; by rewrite <- !app_assoc|done| |done].
    rewrite length_app, Hl, be_bytes_length. done.
  - exists (pre ++ be_bytes 2 sport ++ be_bytes 2 dport ++ tcp_seqs t ++
      be_bytes 2 (tcp_words t * 4096 + tcp_flags t) ++ tcp_rest t ++ tcp_options t). split.
    + rewrite Hp. by rewrite <- !app_assoc.
    + rewrite !length_app, Hl, Hs, Hr, !be_bytes_length. unfold tcp_words.
      pose proof (Z.div_mod (Z.of_nat (length (tcp_options t))) 4 ltac:(done)). lia.
Qed.

Lemma tcp_header_length w f : in_width 12 f → Z.shiftr (w * 4096 + f) 12 * 4 = 4 * w.
Proof.
  intros Hf. unfold in_width in Hf. change (2 ^ 12) with 4096 in Hf.
  rewrite Z.shiftr_div_pow2 by done. change (2 ^ 12) with 4096.
  rewrite Z.add_comm, Z.div_add, Z.div_small by lia. lia.
Qed.

(** The two port tests, of which the second may not be made. *)
Lemma bgp_test p src sport dport :
  ntohs src = sport → (∃ v, load 2 p 38 = Ok v ∧ ntohs v = dport) →
  (if ntohs src =? TCP_PORT_BGP then Ok true
   else dst ← load 2 p 38; Ok (ntohs dst =? TCP_PORT_BGP)) = Ok (is_bgp sport dport).
Proof.
  intros -> (v & -> & Hv). unfold is_bgp. destruct (sport =? TCP_PORT_BGP); [done|].
  cbn [mbind outcome_bind orb]. by rewrite Hv.
Qed.

(** What is left of the callback on a TCP packet. *)
Lemma capture_tcp_step dd log cooked i sport dport t data :
  length cooked = 14%nat → ip_fields_wf i → tcp_fields_wf t → in_width 16 sport → in_width 16 dport →
  let p := captured_bytes cooked (TcpPacket i sport dport t data) in
  ∃ pre, p = pre ++ data_bytes data ∧
  capture_cb dd p log =
    if is_bgp sport dport then
      bgp_type ← load 1 p (length pre + 18);
      if (bgp_type =? BGP_UPDATE) || (bgp_type =? BGP_OPEN)
      then send_activity (router_id dd) log else Ok log
    else Ok log.
Proof.
  intros Hc Hi Ht Hsp Hdp p. set (payload := data_bytes data).
  destruct (ip_packet_fields cooked i IP_PROTO_TCP (tcp_segment sport dport t payload) Hc Hi)
    as ((v & H14 & Hv) & H25 & pre & Hp & Hl).
  destruct (tcp_segment_fields _ pre sport dport t payload Hp Hl Ht Hsp Hdp)
    as ((ctl & H48 & Hctl) & (src & H36 & Hsrc) & Hdst & pre' & Hp' & Hl').
  change (cooked ++ ip_packet i IP_PROTO_TCP (tcp_segment sport dport t payload)) with p in *.
  exists pre'. split; [done|]. unfold capture_cb. cbn [Nat.add].
  rewrite H14. cbn [mbind outcome_bind]. rewrite Hv, Z.eqb_refl, H25. cbn [mbind outcome_bind].
  change (IP_PROTO_TCP =? IP_PROTO_OSPF) with false. change (IP_PROTO_TCP =? IP_PROTO_TCP) with true. cbv iota.
  rewrite H48, H36. cbn [mbind outcome_bind]. rewrite (bgp_test p src sport dport Hsrc Hdst).
  cbn [mbind outcome_bind]. rewrite Hctl, tcp_header_length by apply Ht.
  pose proof (tcp_words_min t). destruct (is_bgp sport dport); [|done].
  match goal with |- (load 1 p ?k ≫= _) = _ => replace k with (length pre' + 18)%nat by lia end. done.
Qed.

(** The kind of the first message, in a segment that holds its header. *)
Lemma first_header first later n : (19 ≤ n)%nat →
  data_bytes (BgpData first later n) =
    (replicate 16 255 ++ be_bytes 2 (19 + Z.of_nat (length (bm_body first)))) ++ [bgp_code (bm_kind first)] ++
    take (n - 19) (bm_body first ++ concat (bgp_bytes <$> later)).
Proof.
  intros Hn. cbn [data_bytes fmap list_fmap concat]. unfold bgp_bytes at 1. rewrite <- !(app_assoc (_ ++ _)).
  set (hd := replicate 16 255 ++ _). assert (length hd = 18%nat) as Hl by (unfold hd; by rewrite length_app, be_bytes_length).
  rewrite take_app_ge by lia. f_equal. rewrite Hl.
  replace (n - 18)%nat with (S (n - 19)) by lia. done.
Qed.

Lemma capture_tcp dd rid log cooked i sport dport t data :
  let c := TcpPacket i sport dport t data in
  router_id dd = htonl rid → length cooked = 14%nat → captured_wf c →
  capture_cb dd (captured_bytes cooked c) log
    = if header_cut c then Fault OutOfBounds else Ok (log ++ if routing_traffic c then [activity_message rid] else []).
Proof.
  intros c Hid Hc (Hi & Ht & Hsp & Hdp & Hdata). unfold c.
  destruct (capture_tcp_step dd log cooked i sport dport t data Hc Hi Ht Hsp Hdp) as (pre & Hp & ->).
  set (p := captured_bytes cooked _) in *. cbn [routing_traffic header_cut].
  destruct data as [first later n|bytes]; [|by rewrite Hdata, app_nil_r].
  destruct (is_bgp sport dport); cbn [andb]; [|by rewrite app_nil_r].
  destruct (Nat.ltb_spec n 19) as [Hn|Hn].
  - unfold load, mem_read. rewrite decide_False; [done|]. rewrite Hp, length_app. cbn [data_bytes].
    rewrite length_take. lia.
  - rewrite (first_header first later n Hn) in Hp.
    set (hd := replicate 16 255 ++ _) in Hp. assert (length hd = 18%nat) as Hl by (unfold hd; by rewrite length_app, be_bytes_length).
    rewrite (load_byte _ p (pre ++ hd) (bgp_code (bm_kind first)) (take (n - 19) (bm_body first ++ concat (bgp_bytes <$> later)))).
    + cbn [mbind outcome_bind]. destruct (bm_kind first); cbn; by rewrite ?Hid, ?send_activity_eq, ?app_nil_r.
    + by rewrite Hp, <- app_assoc.
    + by rewrite length_app, Hl.
Qed.

(** One packet. *)
Lemma capture_packet dd rid log cooked c :
  router_id dd = htonl rid → length cooked = 14%nat → captured_wf c →
  capture_cb dd (captured_bytes cooked c) log
    = if header_cut c then Fault OutOfBounds else Ok (log ++ if routing_traffic c then [activity_message rid] else []).
Proof.
  intros Hid Hc Hwf. destruct c as [ty rest|i proto rest|i ver kind rest|i sport dport t payload];
    [..|by apply capture_tcp]; unfold captured_bytes, capture_cb; cbn [Nat.add routing_traffic header_cut].
  - destruct Hwf as [Hty Hne].
    destruct (load_be 2 14 (cooked ++ be_bytes 2 ty ++ rest) cooked _ rest ty eq_refl eq_refl Hc Hty)
      as (v & -> & Hv). cbn [mbind outcome_bind]. rewrite Hv, (proj2 (Z.eqb_neq _ _) Hne).
    by rewrite app_nil_r.
  - destruct Hwf as (Hi & H1 & H2).
    destruct (ip_packet_fields cooked i proto rest Hc Hi) as ((v & -> & Hv) & -> & _).
    cbn [mbind outcome_bind]. rewrite Hv, Z.eqb_refl, (proj2 (Z.eqb_neq _ _) H1), (proj2 (Z.eqb_neq _ _) H2).
    by rewrite app_nil_r.
  - destruct (ip_packet_fields cooked i IP_PROTO_OSPF ([ver; ospf_code kind] ++ rest) Hc Hwf)
      as ((v & -> & Hv) & -> & pre & Hp & Hl).
    cbn [mbind outcome_bind]. rewrite Hv, !Z.eqb_refl.
    rewrite (load_byte _ _ (pre ++ [ver]) (ospf_code kind) rest);
      [|by rewrite Hp, <- app_assoc|by rewrite length_app, Hl].
    cbn [mbind outcome_bind]. destruct kind; cbn; by rewrite ?Hid, ?send_activity_eq, ?app_nil_r.
Qed.

(** C37. What the packet capture reports: take any sequence of captured packets with IP headers
    without options, in which the data of every segment on a BGP port begins with a
    message.  If each of these segments holds at least the nineteen bytes of a message
    header, one activity message with the router's identifier is sent, in order, for each
    packet that is OSPF other than a Hello or a segment whose first BGP message is an
    Open or an Update, and nothing for the others.  If one is shorter, as every
    segment without data is, the callback reads behind the captured bytes. *)
Theorem capture_reports_routing dd rid log cs :
  router_id dd = htonl rid → Forall (λ x, length x.1 = 14%nat ∧ captured_wf x.2) cs →
  capture true true true dd ((λ x, captured_bytes x.1 x.2) <$> cs) log
    = if existsb (λ x, header_cut x.2) cs then Fault OutOfBounds
      else Ok (log ++ ((λ _, activity_message rid) <$> filter (λ x, routing_traffic x.2) cs)).
Proof.
  intros Hid Hcs. unfold capture. cbn [andb negb]. revert log.
  induction Hcs as [|[cooked c] cs [Hc Hw] Hcs IH]; intros log; cbn [fmap list_fmap foldl existsb].
  { by rewrite app_nil_r. }
  cbn [mbind outcome_bind fst snd]. rewrite (capture_packet dd rid log cooked c Hid Hc Hw).
  destruct (header_cut c); cbn [orb].
  - generalize ((λ x : list Z * captured, captured_bytes x.1 x.2) <$> cs). induction l; [done|exact IHl].
  - rewrite IH, <- app_assoc, filter_cons. cbn [snd]. by destruct (routing_traffic c).
Qed.

(** ** Witnesses *)

Definition sample_ip : ip_fields := IpFields (0x45 :: replicate 8 0) (replicate 10 0).
Definition sample_tcp : tcp_fields := TcpFields (replicate 8 0) 0x18 (replicate 6 0) (replicate 12 1).
Lemma sample_ip_fields_wf : ip_fields_wf sample_ip.
Proof. split; [reflexivity|]. split; reflexivity. Qed.
Lemma sample_tcp_wf : tcp_fields_wf sample_tcp.
Proof. split; [reflexivity|]. split; [split; done|]. split; [reflexivity|]. split; reflexivity. Qed.

(** A BGP Update in a segment with twelve bytes of options, after an ARP packet and before
    a Keepalive. *)
Definition bgp_segment (ms : bgp_message * list bgp_message) (n : nat) : captured :=
  TcpPacket sample_ip 40000 179 sample_tcp (BgpData ms.1 ms.2 n).
Definition sample_update : captured := bgp_segment (BgpMessage Update [0; 0; 0; 0], [BgpMessage Keepalive []]) 42.
Lemma capture_reports_routing_witness :
  capture true true true sample_dd
    [captured_bytes (replicate 14 0) (OtherEthernet 0x0806 []); captured_bytes (replicate 14 0) sample_update] []
    = Ok [activity_message 7].
Proof.
  apply (capture_reports_routing sample_dd 7 [] [(replicate 14 0, OtherEthernet 0x0806 []); (replicate 14 0, sample_update)]).
  - reflexivity.
  - apply Forall_cons_2; [|apply Forall_cons_2; [|apply Forall_nil_2]].
    + split; [reflexivity|]. split; [split; done|discriminate].
    + split; [reflexivity|]. split; [exact sample_ip_fields_wf|]. split; [exact sample_tcp_wf|].
      split; [split; done|]. split; [split; done|exact I].
Defined.

(** A segment without data is read behind its end. *)
Example empty_bgp_segment_overreads :
  capture_cb sample_dd (captured_bytes (replicate 14 0) (bgp_segment (BgpMessage Keepalive [], []) 0)) []
    = Fault OutOfBounds.
Proof. vm_compute. reflexivity. Qed.

(** An Update behind another message of the same segment is not reported. *)
Example later_update_missed :
  capture_cb sample_dd (captured_bytes (replicate 14 0)
    (bgp_segment (BgpMessage Keepalive [], [BgpMessage Update [0; 0; 0; 0]]) 42)) [] = Ok [].
Proof. vm_compute. reflexivity. Qed.

(** With four bytes of IP options, the header of a segment is looked for in the
    wrong place and an Update is not reported. *)
Example ip_options_hide_update :
  capture_cb sample_dd (replicate 14 0 ++
    ip_packet (IpFields (0x46 :: replicate 8 0) (replicate 10 0)) IP_PROTO_TCP
      (replicate 4 1 ++ tcp_segment 40000 179 sample_tcp (bgp_bytes (BgpMessage Update [0; 0; 0; 0])))) [] = Ok [].
Proof. vm_compute. reflexivity. Qed.
