(* ===== verification/Daemons.v ===== *)
(** * Daemons: the routing daemons and the commands that run them

    Models [net/routing/quagga_daemon.c], [net/routing/exabgp_daemon.c], the helpers
    of [lib/net_utils.c] and the functions of [net/router.c] that start, configure and
    stop a router.  What the program does to the operating system is the list of the
    commands it issues: [netns_run] and [netns_launch] of the vendored name space
    library with their formatted text, name spaces added (with the result) and deleted, texts sent to
    the port of a daemon, file descriptors closed.  The loop that waits for zebra's
    socket is taken to end.

    Theorems: a router's daemons are started with the router's own identifier, which
    the helper reads back; every daemon but isisd is stopped through the file that
    it was started with; the name buffers suffice; calls the code makes
    without a daemon, or through a pointer it never set, fault. *)


From stdpp Require Import strings prelude gmap.
From S2P Require Import Prelude Util Uthash Node Inet Process LegacyNode RoutingMsg Router Server HorseDaemon.

Inductive command :=
| Run (ns : option (list Z)) (text : list Z)
| Launch (ns : option (list Z)) (text : list Z)
| NetnsAdd (name : list Z) (added : bool)
| NetnsDelete (name : list Z)
| CloseFd (fd : Z)
| SendTo (ns : list Z) (port : Z) (text : list Z).

(** What the environment answers: [socket()], the variable that names the helper
    program, and whether a name space can be added ([netns_add] is zero). *)
Class Os := {
  unix_socket : Z;
  routing_helper : option (list Z);
  netns_add : list Z → bool
}.

(** ** net_utils.c *)

Definition add_veth_pair (intf1 : list Z) (rname1 : option (list Z)) (intf2 : list Z)
    (rname2 : option (list Z)) : list command :=
  match rname1, rname2 with
  | Some r1, Some r2 =>
      [Run None (lit "ip link add " ++ intf1 ++ lit " netns " ++ r1 ++ lit " type veth peer name " ++
                 intf2 ++ lit " netns " ++ r2)]
  | Some r1, None =>
      [Run None (lit "ip link add " ++ intf1 ++ lit " netns " ++ r1 ++ lit " type veth peer name " ++ intf2)]
  | None, Some r2 =>
      [Run None (lit "ip link add " ++ intf1 ++ lit " type veth peer name " ++ intf2 ++ lit " netns " ++ r2)]
  | None, None => [Run None (lit "ip link add " ++ intf1 ++ lit " type veth peer name " ++ intf2)]
  end.

Definition set_intf_name (rname : option (list Z)) (new_name old_name : list Z) : list command :=
  [Run rname (lit "ip link set " ++ old_name ++ lit " name " ++ new_name)].
Definition set_intf_up (rname : option (list Z)) (intf : list Z) : list command :=
  [Run rname (lit "ifconfig " ++ intf ++ lit " up")].
Definition set_intf_to_ns (rname intf : list Z) : list command :=
  [Run None (lit "ip link set " ++ intf ++ lit " netns " ++ rname)].
Definition set_intf_ip (rname : option (list Z)) (intf ip mask : list Z) : list command :=
  [Run rname (lit "ifconfig " ++ intf ++ lit " " ++ ip ++ lit "/" ++ mask ++ lit " up")].
Definition set_intf_to_bridge (intf bridge : list Z) : list command :=
  [Launch None (lit "ovs-vsctl add-port " ++ bridge ++ lit " " ++ intf)].
Definition delete_intf (iface : list Z) : list command := [Launch None (lit "ip link del " ++ iface)].
Definition create_bridge (bridge : list Z) : list command :=
  [Run None (lit "ovs-vsctl add-br " ++ bridge); Run None (lit "ip link set dev " ++ bridge ++ lit " up")].
Definition setup_veth (rname : option (list Z)) (intf1 intf2 ip mask bridge : list Z) : list command :=
  add_veth_pair intf1 None intf2 rname ++ set_intf_to_bridge intf1 bridge ++
  set_intf_up None intf1 ++ set_intf_ip rname intf2 ip mask.

(** ** quagga_daemon.c *)

Definition MAX_NAMESPACE_ID : nat := 32.

Definition RIPD_PORT : Z := 2602.
Definition RIPNGD_PORT : Z := 2603.
Definition OSPFD_PORT : Z := 2604.
Definition BGPD_PORT : Z := 2605.
Definition OSPF6D_PORT : Z := 2606.
Definition ISISD_PORT : Z := 2608.

(** [enum daemon_proto] *)
Definition RIP : Z := 0.
Definition RIPNG : Z := 1.
Definition OSPF : Z := 2.
Definition BGP : Z := 3.
Definition OSPF6 : Z := 4.
Definition ISIS : Z := 5.

(** The names of the configuration files. *)
Record quagga_config := QuaggaConfig {
  zebra_file : option (list Z); bgpd_file : option (list Z); ripd_file : option (list Z);
  ripngd_file : option (list Z); ospfd_file : option (list Z); ospf6d_file : option (list Z);
  isis_file : option (list Z) }.
#[export] Instance eta_quagga_config : Eta quagga_config := λ c,
  QuaggaConfig (zebra_file c) (bgpd_file c) (ripd_file c) (ripngd_file c) (ospfd_file c)
    (ospf6d_file c) (isis_file c).

Record quagga_daemon := QuaggaDaemon {
  qd_namespace : list Z; qd_config : quagga_config; qd_sock_fd : Z; qd_router_id : Z }.
#[export] Instance eta_quagga_daemon : Eta quagga_daemon := λ d,
  QuaggaDaemon (qd_namespace d) (qd_config d) (qd_sock_fd d) (qd_router_id d).

Definition quagga_daemon_new (namespace : list Z) : quagga_daemon :=
  QuaggaDaemon (take (MAX_NAMESPACE_ID - 1) namespace)
    (QuaggaConfig None None None None None None None) 0 0.

Definition set_quagga_daemon_zebra_file (d : quagga_daemon) (fname : list Z) : quagga_daemon :=
  d <| qd_config; zebra_file := Some fname |>.
Definition set_quagga_daemon_bgpd_file (d : quagga_daemon) (fname : list Z) : quagga_daemon :=
  d <| qd_config; bgpd_file := Some fname |>.
Definition set_quagga_daemon_ospfd_file (d : quagga_daemon) (fname : list Z) : quagga_daemon :=
  d <| qd_config; ospfd_file := Some fname |>.
Definition set_quagga_daemon_ospf6d_file (d : quagga_daemon) (fname : list Z) : quagga_daemon :=
  d <| qd_config; ospf6d_file := Some fname |>.
Definition set_quagga_daemon_ripd_file (d : quagga_daemon) (fname : list Z) : quagga_daemon :=
  d <| qd_config; ripd_file := Some fname |>.
Definition set_quagga_daemon_ripngd_file (d : quagga_daemon) (fname : list Z) : quagga_daemon :=
  d <| qd_config; ripngd_file := Some fname |>.
Definition set_quagga_daemon_isis_file (d : quagga_daemon) (fname : list Z) : quagga_daemon :=
  d <| qd_config; isis_file := Some fname |>.

(** A child process connects to the daemon's port and writes the text. *)
Definition send_quagga_cmd (namespace cmd : list Z) (port : Z) : list command :=
  [SendTo namespace port cmd].
Definition send_ripd_cmd (namespace cmd : list Z) := send_quagga_cmd namespace cmd RIPD_PORT.
Definition send_ripngd_cmd (namespace cmd : list Z) := send_quagga_cmd namespace cmd RIPNGD_PORT.
Definition send_ospfd_cmd (namespace cmd : list Z) := send_quagga_cmd namespace cmd OSPFD_PORT.
Definition send_bgpd_cmd (namespace cmd : list Z) := send_quagga_cmd namespace cmd BGPD_PORT.
Definition send_ospf6d_cmd (namespace cmd : list Z) := send_quagga_cmd namespace cmd OSPFD_PORT.
Definition send_isisd_cmd (namespace cmd : list Z) := send_quagga_cmd namespace cmd ISISD_PORT.

(** [<name> -d -f <file> -z <socket> -i <pid file>] in the daemon's name space. *)
Definition daemon_command (d : quagga_daemon) (name file sock pid_file : list Z) : command :=
  Run (Some (qd_namespace d))
    (name ++ lit " -d -f " ++ file ++ lit " -z " ++ sock ++ lit " -i " ++ pid_file).

(** One [if (file != NULL)] block. *)
Definition start_protocol (d : quagga_daemon) (name : list Z) (file : option (list Z))
    (sock suffix : list Z) : outcome (list command) :=
  match file with
  | None => Ok []
  | Some f =>
      pid_file ← sprintf (MAX_NAMESPACE_ID + 15) (lit "/tmp/" ++ name ++ qd_namespace d ++ suffix);
      Ok [daemon_command d name f sock pid_file]
  end.

Definition start_quagga `{Os} (d : quagga_daemon) (router_id : list Z)
  : outcome (quagga_daemon * list command) :=
  match inet_pton4 router_id with
  | None => Fault Indeterminate
  | Some rid =>
      let d := d <| qd_router_id := ntohl (le_val rid) |> in
      sock ← sprintf (MAX_NAMESPACE_ID + 15) (lit "/tmp/zebra" ++ qd_namespace d ++ lit ".api");
      match zebra_file (qd_config d) with
      | None => Ok (d, [])
      | Some _ =>
          zebra ← start_protocol d (lit "zebra") (zebra_file (qd_config d)) sock (lit ".pid");
          let d := d <| qd_sock_fd := unix_socket |> in
          if unix_socket <? 0 then Ok (d, zebra)
          else
            bgpd ← start_protocol d (lit "bgpd") (bgpd_file (qd_config d)) sock (lit ".pid");
            ospfd ← start_protocol d (lit "ospfd") (ospfd_file (qd_config d)) sock (lit ".pid");
            ospf6d ← start_protocol d (lit "ospf6d") (ospf6d_file (qd_config d)) sock (lit ".pid");
            ripd ← start_protocol d (lit "ripd") (ripd_file (qd_config d)) sock (lit ".pid");
            ripngd ← start_protocol d (lit "ripngd") (ripngd_file (qd_config d)) sock (lit ".pid");
            isisd ← start_protocol d (lit "isisd") (isis_file (qd_config d)) sock (lit "/pid");
            let helper := match routing_helper with
                          | None | Some [] => lit "horse_daemon"
                          | Some h => h
                          end in
            Ok (d, zebra ++ bgpd ++ ospfd ++ ospf6d ++ ripd ++ ripngd ++ isisd ++
                   [Run (Some (qd_namespace d)) (helper ++ lit " " ++ router_id)])
      end
  end.

Definition kill_command (pid_file : list Z) : command := Run None (lit "pkill -9 -F " ++ pid_file).
Definition stop_protocol (d : quagga_daemon) (name : list Z) (file : option (list Z)) : list command :=
  match file with
  | None => []
  | Some _ => [kill_command (lit "/tmp/" ++ name ++ qd_namespace d ++ lit ".pid")]
  end.

Definition stop_quagga (d : quagga_daemon) : list command :=
  CloseFd (qd_sock_fd d) ::
  stop_protocol d (lit "zebra") (zebra_file (qd_config d)) ++
  stop_protocol d (lit "bgpd") (bgpd_file (qd_config d)) ++
  stop_protocol d (lit "ospfd") (ospfd_file (qd_config d)) ++
  stop_protocol d (lit "ospf6d") (ospf6d_file (qd_config d)) ++
  stop_protocol d (lit "ripd") (ripd_file (qd_config d)) ++
  stop_protocol d (lit "ripngd") (ripngd_file (qd_config d)) ++
  stop_protocol d (lit "isisd") (isis_file (qd_config d)) ++
  [kill_command (lit "/tmp/daemon" ++ print_u32 (qd_router_id d) ++ lit ".pid")].

Definition change_quagga_config (d : quagga_daemon) (cmd : list Z) (proto : Z) : list command :=
  if proto =? BGP then send_bgpd_cmd (qd_namespace d) cmd
  else if proto =? OSPF then send_ospfd_cmd (qd_namespace d) cmd
  else if proto =? OSPF6 then send_ospf6d_cmd (qd_namespace d) cmd
  else if proto =? RIP then send_ripd_cmd (qd_namespace d) cmd
  else if proto =? RIPNG then send_ripngd_cmd (qd_namespace d) cmd
  else if proto =? ISIS then send_isisd_cmd (qd_namespace d) cmd
  else [].

(** ** exabgp_daemon.c *)

Record exabgp_daemon := ExabgpDaemon {
  ex_namespace : list Z; ex_config_file : option (list Z); ex_ips : list (list Z) }.
#[export] Instance eta_exabgp_daemon : Eta exabgp_daemon := λ d,
  ExabgpDaemon (ex_namespace d) (ex_config_file d) (ex_ips d).

Definition exabgp_daemon_new (namespace : list Z) : exabgp_daemon :=
  ExabgpDaemon (take (MAX_NAMESPACE_ID - 1) namespace) None [].
Definition set_exabgp_daemon_config_file (d : exabgp_daemon) (fname : list Z) : exabgp_daemon :=
  d <| ex_config_file := Some fname |>.
Definition exabgp_daemon_add_port_ip (d : exabgp_daemon) (ip : list Z) : exabgp_daemon :=
  d <| ex_ips ::= λ l, l ++ [ip] |>.

Definition QUOTE : Z := 34.
(** Printing a name that was never set is an access through NULL. *)
Definition start_exabgp (d : exabgp_daemon) : outcome (list command) :=
  let buf := [QUOTE] ++ lit " " ++ concat ((λ ip, ip ++ lit " ") <$> ex_ips d) ++ [QUOTE] in
  config ← deref (ex_config_file d);
  Ok [Launch (Some (ex_namespace d))
        (lit "env exabgp.daemon.daemonize=true exabgp.tcp.bind=" ++ buf ++
         lit " exabgp.log.level=NOTICE exabgp.log.destination=syslog exabgp " ++ config)].
Definition stop_exabgp (d : exabgp_daemon) : list command := [Launch None (lit "pkill -9 exabgp")].

(** ** The functions of a daemon, through its pointers *)

Inductive routing_daemon :=
| QUAGGA (d : quagga_daemon)
| EXABGP (d : exabgp_daemon).

Definition daemon_start `{Os} (d : routing_daemon) (router_id : list Z)
  : outcome (routing_daemon * list command) :=
  match d with
  | QUAGGA d => r ← start_quagga d router_id; Ok (QUAGGA r.1, r.2)
  | EXABGP e => cmds ← start_exabgp e; Ok (d, cmds)
  end.
Definition daemon_stop (d : routing_daemon) : list command :=
  match d with QUAGGA d => stop_quagga d | EXABGP d => stop_exabgp d end.
(** [exabgp_daemon_new] does not set this pointer, in memory it does not clear. *)
Definition daemon_change_config (d : routing_daemon) (cmd : list Z) (proto : Z) : outcome (list command) :=
  match d with QUAGGA d => Ok (change_quagga_config d cmd proto) | EXABGP _ => Fault Indeterminate end.

(** ** router.c *)

(** The daemons by their addresses. *)
Abbreviation daemons := (gmap addr routing_daemon).

Definition router_daemon (ds : daemons) (r : router) : outcome (addr * routing_daemon) :=
  a ← deref (r_daemon r);
  match ds !! a with Some d => Ok (a, d) | None => Fault OutOfBounds end.

(** The address is not written when the internal network is used up. *)
Definition router_start `{Os} (b : internal_net_bytes) (r : router)
  : outcome (internal_net_bytes * list command * Z) :=
  let rname := c_string (router_name r) in
  if negb (netns_add rname) then Ok (b, [NetnsAdd rname false], -1)
  else
    intf2 ← sprintf (MAX_NODE_NAME + 20) (rname ++ lit "-inet");
    intf ← sprintf (MAX_NODE_NAME + 20) (rname ++ lit "-inet-ext");
    let '(b, a) := gen_internal_ip b in
    match a with
    | None => Fault Indeterminate
    | Some a =>
        Ok (b, NetnsAdd rname true :: setup_veth (Some rname) intf intf2 (inet_ntop4 a) (lit "16") (lit "br0") ++
               [Run (Some rname) (lit "ifconfig lo up");
                Run (Some rname) (lit "sysctl -w net.ipv4.ip_forward=1")], 0)
    end.

Definition router_start_daemon `{Os} (ds : daemons) (r : router) : outcome (daemons * list command) :=
  router_id ← get_ip_str (be_bytes 4 (r_router_id r)) (replicate INET_ADDRSTRLEN 0);
  d ← router_daemon ds r;
  x ← daemon_start d.2 (c_string router_id);
  Ok (<[d.1 := x.1]> ds, x.2).

Definition router_stop (ds : daemons) (r : router) : outcome (list command) :=
  let rname := c_string (router_name r) in
  internal_intf ← sprintf (MAX_NODE_NAME + 10) (rname ++ lit "-inet-ext");
  d ← router_daemon ds r;
  Ok (delete_intf internal_intf ++ concat (delete_intf <$> r_ext_intfs r) ++
      [NetnsDelete rname] ++ daemon_stop d.2).

Definition router_change_daemon_config (ds : daemons) (r : router) (cmd : list Z) (proto : Z)
  : outcome (list command) :=
  d ← router_daemon ds r;
  daemon_change_config d.2 cmd proto.

(** ** Starting and stopping Quagga *)

(** The protocol daemons of a configuration, with their files, in the order of the
    code. *)
Definition configured (c : quagga_config) : list (list Z * list Z) :=
  omap (λ p, (λ f, (p.1, f)) <$> p.2)
    [(lit "zebra", zebra_file c); (lit "bgpd", bgpd_file c); (lit "ospfd", ospfd_file c);
     (lit "ospf6d", ospf6d_file c); (lit "ripd", ripd_file c); (lit "ripngd", ripngd_file c);
     (lit "isisd", isis_file c)].

(** The file a daemon is told to write its number to, and the one it is killed
    through. *)
Definition start_file (d : quagga_daemon) (name : list Z) : list Z :=
  lit "/tmp/" ++ name ++ qd_namespace d ++ (if decide (name = lit "isisd") then lit "/pid" else lit ".pid").
Definition pid_file (d : quagga_daemon) (name : list Z) : list Z :=
  lit "/tmp/" ++ name ++ qd_namespace d ++ lit ".pid".
Definition socket_file (d : quagga_daemon) : list Z := lit "/tmp/zebra" ++ qd_namespace d ++ lit ".api".
Definition helper_program `{Os} : list Z :=
  match routing_helper with None | Some [] => lit "horse_daemon" | Some h => h end.

(** A name space name fits its array. *)
Definition quagga_wf (d : quagga_daemon) : Prop := (length (qd_namespace d) < MAX_NAMESPACE_ID)%nat.

Lemma start_protocol_ok d name file sock suffix :
  quagga_wf d → (length name ≤ 6)%nat → (length suffix ≤ 4)%nat →
  start_protocol d name file sock suffix =
  Ok match file with
     | None => []
     | Some f => [daemon_command d name f sock (lit "/tmp/" ++ name ++ qd_namespace d ++ suffix)]
     end.
Proof.
  intros Hd Hn Hs. destruct file as [f|]; [|done]. cbn [start_protocol].
  rewrite sprintf_ok; [done|]. unfold quagga_wf, MAX_NAMESPACE_ID in *. rewrite !length_app.
  change (length (lit "/tmp/")) with 5%nat. lia.
Qed.

(** All commands of a start. *)
Lemma start_quagga_ok `{Os} d text rid :
  quagga_wf d → inet_pton4 text = Some rid → zebra_file (qd_config d) ≠ None → 0 ≤ unix_socket →
  start_quagga d text =
  Ok (d <| qd_router_id := ntohl (le_val rid) |> <| qd_sock_fd := unix_socket |>,
      ((λ p, daemon_command d p.1 p.2 (socket_file d) (start_file d p.1)) <$> configured (qd_config d)) ++
      [Run (Some (qd_namespace d)) (helper_program ++ lit " " ++ text)]).
Proof.
  intros Hd Hrid Hz Hsock. unfold start_quagga. rewrite Hrid. cbn [qd_namespace qd_config].
  rewrite sprintf_ok.
  2: { unfold quagga_wf, MAX_NAMESPACE_ID in *. rewrite !length_app.
       change (length (lit "/tmp/zebra")) with 10%nat. change (length (lit ".api")) with 4%nat.
       change (qd_namespace _) with (qd_namespace d). lia. }
  cbn [mbind outcome_bind]. rewrite (proj2 (Z.ltb_ge _ _)) by done.
  set (d1 := d <| qd_router_id := _ |>). set (d2 := d1 <| qd_sock_fd := _ |>).
  change (qd_config d1) with (qd_config d). change (qd_config d2) with (qd_config d).
  rewrite !start_protocol_ok by (done || (apply Nat.leb_le; reflexivity)). cbn [mbind outcome_bind].
  destruct (qd_config d) as [[z|] b r rn o o6 i]; [|done]. cbn [zebra_file bgpd_file ripd_file
    ripngd_file ospfd_file ospf6d_file isis_file].
  do 2 f_equal. destruct b, o, o6, r, rn, i; reflexivity.
Qed.

Lemma stop_quagga_eq d :
  stop_quagga d = CloseFd (qd_sock_fd d) ::
    ((λ p, kill_command (pid_file d p.1)) <$> configured (qd_config d)) ++
    [kill_command (lit "/tmp/daemon" ++ print_u32 (qd_router_id d) ++ lit ".pid")].
Proof.
  unfold stop_quagga. destruct (qd_config d) as [z b r rn o o6 i].
  cbn [zebra_file bgpd_file ripd_file ripngd_file ospfd_file ospf6d_file isis_file].
  destruct z, b, o, o6, r, rn, i; reflexivity.
Qed.

(** ** The life of a router's daemons *)

(** The helper reads back the address it is given, and names its process file after
    it. *)
Lemma main_printed id fd : in_width 32 id →
  main (Some (inet_ntop4 (be_bytes 4 id))) (Some fd) true
    = Ok (Some (DaemonData fd (htonl id), SockaddrIn AF_INET (be_bytes 2 6000) (be_bytes 4 2887057150),
                daemonise (htonl id))).
Proof.
  intros Hid. unfold main. rewrite inet_pton_ntop by apply be_bytes_wf.
  replace (inet_pton4 (lit "172.20.254.254")) with (Some (be_bytes 4 2887057150)) by (vm_compute; reflexivity).
  cbn [client_connect mbind option_bind HorseDaemon.router_id].
  change (le_val (be_bytes 4 id)) with (htonl id).
  by replace (le_bytes 4 (le_val (be_bytes 4 2887057150))) with (be_bytes 4 2887057150) by (vm_compute; reflexivity).
Qed.

(** A daemon object after its start for a router. *)
Definition started `{Os} (r : router) (d : quagga_daemon) : quagga_daemon :=
  d <| qd_router_id := ntohl (htonl (r_router_id r)) |> <| qd_sock_fd := unix_socket |>.
(** The commands that start it, and the file of the helper process. *)
Definition start_commands `{Os} (r : router) (d : quagga_daemon) : list command :=
  ((λ p, daemon_command d p.1 p.2 (socket_file d) (start_file d p.1)) <$> configured (qd_config d)) ++
  [Run (Some (qd_namespace d)) (helper_program ++ lit " " ++ inet_ntop4 (be_bytes 4 (r_router_id r)))].
Definition helper_pid_file (r : router) : list Z := lit "/tmp/daemon" ++ print_u32 (r_router_id r) ++ lit ".pid".

(** A router with a Quagga daemon of its own, for which zebra is configured. *)
Record emulated (ds : daemons) (r : router) (a : addr) (d : quagga_daemon) : Prop := {
  em_daemon : r_daemon r = Some a;
  em_quagga : ds !! a = Some (QUAGGA d);
  em_wf : quagga_wf d;
  em_id : in_width 32 (r_router_id r);
  em_name : (length (c_string (router_name r)) < MAX_NODE_NAME)%nat;
  em_zebra : zebra_file (qd_config d) ≠ None }.

Lemma router_start_daemon_ok `{Os} ds r a d : emulated ds r a d → 0 ≤ unix_socket →
  router_start_daemon ds r = Ok (<[a := QUAGGA (started r d)]> ds, start_commands r d).
Proof.
  intros [Ha Hd Hw Hid _ Hz] Hs. set (text := inet_ntop4 (be_bytes 4 (r_router_id r))).
  destruct (get_ip_str_ok (be_bytes 4 (r_router_id r)) (replicate INET_ADDRSTRLEN 0)
    (be_bytes_wf 4 _) (length_replicate _ _)) as (str & Hstr & Htext). fold text in Htext.
  assert (inet_pton4 text = Some (be_bytes 4 (r_router_id r))) as Hp by apply inet_pton_ntop, be_bytes_wf.
  unfold router_start_daemon, router_daemon. rewrite Hstr, Ha. cbn [mbind outcome_bind deref].
  rewrite Hd. cbn [mbind outcome_bind fst snd daemon_start]. rewrite Htext.
  rewrite (start_quagga_ok d text _ Hw Hp Hz Hs). reflexivity.
Qed.

(** The commands of a stop. *)
Lemma router_stop_ok `{Os} ds ds' r a d : emulated ds r a d → ds' !! a = Some (QUAGGA (started r d)) →
  router_stop ds' r =
    Ok (delete_intf (c_string (router_name r) ++ lit "-inet-ext") ++
        concat (delete_intf <$> r_ext_intfs r) ++ [NetnsDelete (c_string (router_name r))] ++
        CloseFd unix_socket ::
        ((λ p, kill_command (pid_file d p.1)) <$> configured (qd_config d)) ++ [kill_command (helper_pid_file r)]).
Proof.
  intros [Ha _ _ Hid Hname _] Hd. unfold router_stop, router_daemon. rewrite sprintf_ok.
  2: { rewrite length_app. change (length (lit "-inet-ext")) with 9%nat. unfold MAX_NODE_NAME in *. lia. }
  cbn [mbind outcome_bind]. rewrite Ha. cbn [mbind outcome_bind deref].
  rewrite Hd. cbn [mbind outcome_bind fst snd daemon_stop].
  rewrite stop_quagga_eq. change (qd_config (started r d)) with (qd_config d).
  change (qd_router_id (started r d)) with (ntohl (htonl (r_router_id r))). by rewrite bswap_involutive.
Qed.

(** All daemons but isisd are killed through the file they were started with. *)
Lemma start_file_eq d name : name ≠ lit "isisd" → start_file d name = pid_file d name.
Proof. intros Hn. unfold start_file. by rewrite decide_False. Qed.

Lemma start_file_isisd d name : name = lit "isisd" →
  start_file d name = (lit "/tmp/" ++ name ++ qd_namespace d) ++ lit "/pid".
Proof. intros Hn. unfold start_file. by rewrite decide_True, <- !app_assoc by done. Qed.

(** No command of a stop names a file whose name ends otherwise. *)
Lemma kill_suffix x y : kill_command (x ++ lit "/pid") ≠ kill_command (y ++ lit ".pid").
Proof. intros [= E]. apply app_inj_2 in E as [_ E]; [by vm_compute in E|done]. Qed.

Lemma killed_iff d d' p : qd_config d' = qd_config d → qd_namespace d' = qd_namespace d →
  p ∈ configured (qd_config d) →
  kill_command (start_file d p.1) ∈ stop_quagga d' ↔ p.1 ≠ lit "isisd".
Proof.
  intros Hc Hn Hp. rewrite stop_quagga_eq, Hc.
  rewrite elem_of_cons, elem_of_app, list_elem_of_fmap, list_elem_of_singleton. split.
  - intros Hk Heq. unfold start_file in Hk. rewrite decide_True, !(app_assoc _ _ (lit "/pid")) in Hk by done.
    destruct Hk as [?|[(q & Hk & _)|Hk]]; [done|..]; unfold pid_file in *; rewrite !app_assoc in Hk;
      by apply kill_suffix in Hk.
  - intros Hne. right. left. exists p. split; [|done]. rewrite start_file_eq by done.
    unfold pid_file. by rewrite Hn.
Qed.

(** C18. The life of the daemons of a router that has a Quagga daemon with a zebra
    configuration, when zebra's socket can be opened.  Starting runs zebra and every other
    configured protocol daemon in the router's name space, in order, each with its
    configuration and a process file, and then the helper with the router's identifier, which
    the helper reads back; when its second fork and its process file succeed, it
    writes the number of the process that goes on to a file.  Stopping deletes the
    interfaces and the name space, closes the socket and issues one kill for each of the
    daemons and one for the helper, through exactly this file; the kill for a protocol daemon
    names the file it was started with for all of them but isisd, which keeps running. *)
Theorem router_daemons_lifecycle `{Os} ds r a d fd :
  emulated ds r a d → 0 ≤ unix_socket →
  ∃ ds' text helper_pid peer,
    router_start_daemon ds r =
      Ok (ds', ((λ p, daemon_command d p.1 p.2 (socket_file d) (start_file d p.1)) <$> configured (qd_config d)) ++
               [Run (Some (qd_namespace d)) (helper_program ++ lit " " ++ text)]) ∧
    main (Some text) (Some fd) true =
      Ok (Some (DaemonData fd (htonl (r_router_id r)), peer, daemonise (htonl (r_router_id r)))) ∧
    (∀ pid fds c1 child o0 o1 o2, ∃ w ends fds',
       run_process (daemonise (htonl (r_router_id r))) pid fds
         (World [c1; Some child] [true] [true] [o0; o1; o2] []) = (w, ends) ∧
       omap going_on ends = [(Zpos child, fds')] ∧
       w_files w = [(helper_pid, print_u32 (Zpos child) ++ [NEWLINE])]) ∧
    ∃ kills, router_stop ds' r =
        Ok (delete_intf (c_string (router_name r) ++ lit "-inet-ext") ++
            concat (delete_intf <$> r_ext_intfs r) ++ [NetnsDelete (c_string (router_name r))] ++
            CloseFd unix_socket :: kills ++ [kill_command helper_pid]) ∧
      length kills = length (configured (qd_config d)) ∧
      ∀ p, p ∈ configured (qd_config d) →
        (kill_command (start_file d p.1) ∈ kills ++ [kill_command helper_pid] ↔ p.1 ≠ lit "isisd").
Proof.
  intros He Hs. pose proof (em_id _ _ _ _ He) as Hid.
  exists (<[a := QUAGGA (started r d)]> ds), (inet_ntop4 (be_bytes 4 (r_router_id r))), (helper_pid_file r).
  eexists. split; [by apply router_start_daemon_ok|]. split; [by apply main_printed|]. split.
  { intros pid fds c1 child o0 o1 o2.
    destruct (daemonise_run (htonl (r_router_id r)) pid fds c1 (Some child) true true o0 o1 o2)
      as (w & ends & fds' & E & Hg & _ & Hf & _).
    exists w, ends, fds'. rewrite bswap_involutive in Hf by done. done. }
  exists ((λ p, kill_command (pid_file d p.1)) <$> configured (qd_config d)).
  split; [apply (router_stop_ok ds _ r a d He), lookup_insert_eq|]. split; [apply length_fmap|].
  intros p Hp. rewrite <- (killed_iff d (started r d) p) by done. rewrite stop_quagga_eq.
  change (qd_router_id (started r d)) with (ntohl (htonl (r_router_id r))). rewrite bswap_involutive by done.
  rewrite elem_of_cons. split; [by right|by intros [?|?]].
Qed.

(** The isis daemon is started with a file that no command of the stop names: it is
    left running. *)
Theorem isisd_is_not_stopped `{Os} d text rid f :
  quagga_wf d → inet_pton4 text = Some rid → zebra_file (qd_config d) ≠ None → 0 ≤ unix_socket →
  isis_file (qd_config d) = Some f →
  ∃ d' cmds pid, start_quagga d text = Ok (d', cmds) ∧
    daemon_command d (lit "isisd") f (socket_file d) pid ∈ cmds ∧ kill_command pid ∉ stop_quagga d'.
Proof.
  intros Hw Hp Hz Hs Hi. assert ((lit "isisd", f) ∈ configured (qd_config d)) as Hin.
  { unfold configured. rewrite list_elem_of_omap. exists (lit "isisd", Some f).
    split; [rewrite Hi; set_solver|done]. }
  eexists _, _, (start_file d (lit "isisd")). split; [by apply start_quagga_ok|]. split.
  - apply elem_of_app. left. apply list_elem_of_fmap. by exists (lit "isisd", f).
  - intros Hk. set (d' := d <| qd_router_id := _ |> <| qd_sock_fd := _ |>) in Hk.
    by apply (killed_iff d d' (lit "isisd", f) eq_refl eq_refl Hin) in Hk.
Qed.

(** A daemon object without a zebra configuration starts nothing, and stopping it
    closes descriptor zero, the standard input. *)
Theorem unconfigured_quagga_closes_stdin `{Os} ns text rid :
  inet_pton4 text = Some rid →
  ∃ d, start_quagga (quagga_daemon_new ns) text = Ok (d, []) ∧ CloseFd 0 ∈ stop_quagga d.
Proof.
  intros Hp. unfold start_quagga. rewrite Hp. rewrite sprintf_ok.
  2: { rewrite !length_app. change (qd_namespace _) with (take 31 ns). rewrite length_take.
       change (length (lit "/tmp/zebra")) with 10%nat. change (length (lit ".api")) with 4%nat.
       unfold MAX_NAMESPACE_ID. lia. }
  cbn [mbind outcome_bind]. eexists. split; [done|]. left.
Qed.

(** Commands for ospf6d are sent to ospfd. *)
Theorem ospf6_config_goes_to_ospfd d cmd :
  change_quagga_config d cmd OSPF6 = change_quagga_config d cmd OSPF ∧
  change_quagga_config d cmd OSPF6 ≠ [SendTo (qd_namespace d) OSPF6D_PORT cmd].
Proof. split; [done|]. by intros [= E]. Qed.

(** A router whose daemon was never set cannot be started or stopped, and an ExaBGP
    daemon cannot be reconfigured. *)
Theorem missing_daemon_faults `{Os} ds r cmd proto e a :
  (r_daemon r = None → router_start_daemon ds r = Fault NullDeref ∧
     router_change_daemon_config ds r cmd proto = Fault NullDeref) ∧
  (r_daemon r = None → (length (c_string (router_name r)) < MAX_NODE_NAME)%nat →
     router_stop ds r = Fault NullDeref) ∧
  (r_daemon r = Some a → ds !! a = Some (EXABGP e) →
     router_change_daemon_config ds r cmd proto = Fault Indeterminate).
Proof.
  unfold router_change_daemon_config, router_stop, router_start_daemon, router_daemon.
  split; [|split].
  - intros ->. split; [|done].
    destruct (get_ip_str_ok (be_bytes 4 (r_router_id r)) (replicate INET_ADDRSTRLEN 0)
      (be_bytes_wf 4 _) (length_replicate _ _)) as (str & -> & _). done.
  - intros -> Hn. rewrite sprintf_ok; [done|]. rewrite length_app.
    change (length (lit "-inet-ext")) with 9%nat. unfold MAX_NODE_NAME in *. lia.
  - intros -> Ha. cbn [deref mbind outcome_bind]. by rewrite Ha.
Qed.

(** The helper connects to where the server listens, which is the address that the set-up
    gives to the interface of the simulator. *)
Theorem helper_meets_server id fd port :
  in_width 32 id → port = 6000 →
  ∃ dd peer f, main (Some (inet_ntop4 (be_bytes 4 id))) (Some fd) true = Ok (Some (dd, peer, f)) ∧
    server_listen true true (server_new port) = Some peer ∧
    inet_pton4 (lit "172.20.254.254") = Some (sin_addr peer).
Proof.
  intros Hid ->. eexists _, _, _. split; [by apply main_printed|]. split; vm_compute; reflexivity.
Qed.

(** ** Witnesses *)

Definition sample_os : Os := {| unix_socket := 5; routing_helper := None; netns_add _ := true |}.
Definition sample_quagga : quagga_daemon :=
  set_quagga_daemon_bgpd_file
    (set_quagga_daemon_zebra_file (quagga_daemon_new (lit "r1")) (lit "/etc/z.conf")) (lit "/etc/b.conf").

Lemma router_daemons_lifecycle_witness :
  ∃ r ds' text peer p, sample_router_setup = Ok r ∧
    (ds ← @router_start_daemon sample_os {[ 9%nat := QUAGGA sample_quagga ]}
            (router_set_quagga_daemon (router_set_id r 0x0a000001) 9); Ok ds.1) = Ok ds' ∧
    main (Some text) (Some 4) true = Ok (Some (DaemonData 4 (htonl 0x0a000001), peer, p)).
Proof.
  destruct sample_router_wf as (r & E & _). exists r.
  destruct (@router_daemons_lifecycle sample_os {[ 9%nat := QUAGGA sample_quagga ]}
    (router_set_quagga_daemon (router_set_id r 0x0a000001) 9) 9 sample_quagga 4)
    as (ds' & text & pid & peer & H1 & H2 & _).
  - split.
    + reflexivity.
    + reflexivity.
    + apply Nat.ltb_lt. reflexivity.
    + split; done.
    + vm_compute in E. injection E as <-. apply Nat.ltb_lt. reflexivity.
    + discriminate.
  - discriminate.
  - eexists ds', text, peer, _. split; [exact E|]. split; [|exact H2]. rewrite H1. reflexivity.
Defined.

(** What the commands look like. *)
Example sample_start_commands :
  (x ← @start_quagga sample_os sample_quagga (lit "10.0.0.1"); Ok x.2) = Ok
    [Run (Some (lit "r1")) (lit "zebra -d -f /etc/z.conf -z /tmp/zebrar1.api -i /tmp/zebrar1.pid");
     Run (Some (lit "r1")) (lit "bgpd -d -f /etc/b.conf -z /tmp/zebrar1.api -i /tmp/bgpdr1.pid");
     Run (Some (lit "r1")) (lit "horse_daemon 10.0.0.1")].
Proof. vm_compute. reflexivity. Qed.
