(* ===== verification/Timer.v ===== *)
(** * Timer: the thread that runs the handler of the simulation timer

    Models [lib/timer.c].  The signal handler posts a semaphore; a thread of its own
    takes one post after the other and calls the function of the timer, until the
    timer is stopped.  The threads interleave: the state is the semaphore, the flag,
    where the thread is, and how often the function has been called; a step is a signal,
    a call of [shutdown_timer], or a move of the thread, at the granularity of its
    calls.  [sem_wait] may also return without a post ([EINTR]).  A cancelled thread ends
    in [sem_wait] or in the function, which waits on a condition variable.

    Theorems: until the timer is stopped every signal leads to exactly one call, none is
    lost or run twice; after that at most one more call is made. *)

From stdpp Require Import prelude.
From S2P Require Import Prelude.

(** Before the test of the loop, in [sem_wait], in the function, or gone. *)
Inductive thread_at := AtTest | AtWait | InExec | Ended.
#[export] Instance thread_at_eq_dec : EqDecision thread_at.
Proof. solve_decision. Defined.

Record timer := Timer {
  timer_stopped : bool; timer_sem : nat; timer_at : thread_at; timer_cancelled : bool; timer_calls : nat }.
#[export] Instance eta_timer : Eta timer := λ t,
  Timer (timer_stopped t) (timer_sem t) (timer_at t) (timer_cancelled t) (timer_calls t).

Definition init_timer : timer := Timer false 0 AtTest false 0.

Definition timersignalhandler (t : timer) : timer := t <| timer_sem ::= S |>.

Definition shutdown_timer (t : timer) : timer :=
  t <| timer_stopped := true |> <| timer_sem ::= S |> <| timer_cancelled := true |>.

(** One step of the thread: [eintr] is the result of [sem_wait] on an interrupt; [None]
    when it has to wait. *)
Definition timerthread (eintr : bool) (t : timer) : option timer :=
  match timer_at t with
  | AtTest => Some (t <| timer_at := if timer_stopped t then Ended else AtWait |>)
  | AtWait =>
      if eintr then Some (t <| timer_at := AtTest |>)
      else match timer_sem t with
           | O => None
           | S n => Some (t <| timer_sem := n |> <| timer_at := InExec |>)
           end
  | InExec => Some (t <| timer_calls ::= S |> <| timer_at := AtTest |>)
  | Ended => None
  end.

(** Runs, with the number of posts: signals and calls of [shutdown_timer]. *)
Inductive timer_run : timer → nat → timer → Prop :=
| run_nil t : timer_run t 0 t
| run_signal t k t' : timer_run t k t' → timer_run t (S k) (timersignalhandler t')
| run_shutdown t k t' : timer_run t k t' → timer_run t (S k) (shutdown_timer t')
| run_thread eintr t k t' t'' : timer_run t k t' → timerthread eintr t' = Some t'' → timer_run t k t''
| run_cancel t k t' : timer_run t k t' → timer_cancelled t' = true →
    timer_at t' = AtWait ∨ timer_at t' = InExec → timer_run t k (t' <| timer_at := Ended |>).

(** A call that has been taken from the semaphore and is not finished. *)
Definition pending (t : timer) : nat := if decide (timer_at t = InExec) then 1 else 0.

(** How many calls a stopped timer can still make. *)
Definition left_over (t : timer) : nat :=
  match timer_at t with AtTest | Ended => 0 | AtWait | InExec => 1 end.

Lemma timerthread_keeps eintr t t' : timerthread eintr t = Some t' →
  (timer_sem t' + pending t' + timer_calls t' = timer_sem t + pending t + timer_calls t)%nat ∧
  timer_stopped t' = timer_stopped t ∧ timer_cancelled t' = timer_cancelled t ∧
  (timer_stopped t = true → timer_calls t' + left_over t' ≤ timer_calls t + left_over t)%nat.
Proof.
  destruct t as [st sem loc c n]. unfold timerthread, pending, left_over. cbn. intros H.
  repeat case_match; simplify_eq/=; (split_and!; [lia|done|done|]); intros; simplify_eq; lia.
Qed.

(** The sum stays until the thread is cancelled, and a cancelled call may drop out. *)
Lemma timer_run_counts t k t' : timer_run t k t' →
  let sum t := (timer_sem t + pending t + timer_calls t)%nat in
  (sum t' ≤ sum t + k)%nat ∧ (timer_cancelled t' = false → sum t' = sum t + k)%nat.
Proof.
  cbv zeta. induction 1 as [t|t k t' _ [IH IH']|t k t' _ [IH _]|eintr t k t' t'' _ IH Ht|t k t' _ [IH _] Hc Ha].
  - split; [lia|intros _; lia].
  - change (pending (timersignalhandler t')) with (pending t').
    split; [cbn; lia|]. intros Hf. specialize (IH' Hf). cbn. lia.
  - change (pending (shutdown_timer t')) with (pending t'). split; [cbn; lia|done].
  - destruct (timerthread_keeps _ _ _ Ht) as (-> & _ & -> & _). exact IH.
  - split; [|cbn; congruence]. change (pending (t' <| timer_at := Ended |>)) with 0%nat. cbn. lia.
Qed.

Lemma stopped_timer_run t k t' : timer_run t k t' → timer_stopped t = true →
  timer_stopped t' = true ∧ (timer_calls t' + left_over t' ≤ timer_calls t + left_over t)%nat.
Proof.
  induction 1 as [t|t k t' _ IH|t k t' _ IH|eintr t k t' t'' _ IH Ht|t k t' _ IH Hc Ha]; intros Hs.
  - done.
  - exact (IH Hs).
  - destruct (IH Hs) as [_ Hle]. split; [done|exact Hle].
  - destruct (IH Hs) as [Hs' Hle]. destruct (timerthread_keeps _ _ _ Ht) as (_ & -> & _ & Hk). split; [done|].
    specialize (Hk Hs'). lia.
  - destruct (IH Hs) as [Hs' Hle]. split; [done|].
    change (left_over (t' <| timer_at := Ended |>)) with 0%nat. cbn. lia.
Qed.

(** Serving one post after the other. *)
Lemma timer_drains sem calls c : ∃ t',
  timer_run (Timer false sem AtTest c calls) 0 t' ∧ timer_sem t' = 0%nat ∧ timer_calls t' = (calls + sem)%nat.
Proof.
  revert calls. induction sem as [|sem IH]; intros calls.
  - eexists. split; [apply run_nil|]. cbn. lia.
  - destruct (IH (S calls)) as (t' & Hrun & H0 & Hc). exists t'. split_and!; [|done|lia].
    assert (timer_run (Timer false (S sem) AtTest c calls) 0 (Timer false sem AtTest c (S calls))) as Hone.
    { eapply (run_thread false); [eapply (run_thread false); [eapply (run_thread false); [apply run_nil|]|]|];
        reflexivity. }
    clear IH H0 Hc. revert Hone. generalize (Timer false (S sem) AtTest c calls). intros t0 Hone.
    remember (Timer false sem AtTest c (S calls)) as t1 eqn:E. remember 0%nat as k eqn:Ek.
    induction Hrun; simplify_eq; eauto using timer_run.
Qed.

(** C23. The timer loses no signal and runs none twice: as long as it is not shut down,
    the posts of the semaphore are at every moment the finished calls of the function, the
    one that is running and those still waiting, which can all be served; there are
    never more calls than posts; and after it was shut down at most one more call is made,
    whatever signals arrive. *)
Theorem timer_serves_signals k t : timer_run init_timer k t →
  (timer_cancelled t = false → k = timer_calls t + pending t + timer_sem t)%nat ∧
  (timer_calls t ≤ k)%nat ∧
  (timer_cancelled t = false → timer_stopped t = false → timer_at t = AtTest →
     ∃ t', timer_run t 0 t' ∧ timer_calls t' = k) ∧
  (∀ k' t', timer_run (shutdown_timer t) k' t' → (timer_calls t' ≤ S (timer_calls t))%nat).
Proof.
  intros Hrun. destruct (timer_run_counts _ _ _ Hrun) as [Hle Hk].
  change (timer_sem init_timer + pending init_timer + timer_calls init_timer + k)%nat with k in Hle, Hk.
  split; [intros Hf; specialize (Hk Hf); lia|]. split; [lia|]. split.
  - intros Hf Hs Ha. specialize (Hk Hf). destruct t as [st sem loc c n]. cbn in Hs, Ha. subst st loc.
    destruct (timer_drains sem n c) as (t' & Hr & _ & Hc). exists t'. split; [done|].
    change (sem + 0 + n = k)%nat in Hk. cbn in Hc. lia.
  - intros k' t' Hr. destruct (stopped_timer_run _ _ _ Hr eq_refl) as [_ Hle'].
    change (timer_calls (shutdown_timer t)) with (timer_calls t) in Hle'.
    assert (left_over (shutdown_timer t) ≤ 1)%nat by (unfold left_over; case_match; lia). lia.
Qed.

(** ** Witness: a signal that is served, and a stop *)

Lemma timer_serves_signals_witness :
  ∃ t, timer_run init_timer 1 t ∧ timer_calls t = 1%nat ∧
    ∀ k' t', timer_run (shutdown_timer t) k' t' → (timer_calls t' ≤ 2)%nat.
Proof.
  assert (timer_run init_timer 1 (Timer false 0 AtTest false 1)) as H.
  { eapply (run_thread false); [eapply (run_thread false); [eapply (run_thread false);
      [apply run_signal, run_nil|]|]|]; reflexivity. }
  eexists. split; [exact H|]. split; [reflexivity|].
  destruct (timer_serves_signals 1 (Timer false 0 AtTest false 1) H) as (_ & _ & _ & H3). exact H3.
Defined.
