(* ===== verification/Sim.v ===== *)
(** * Sim: the two modes of the simulator

    Models [sim/sim_config.c], [sim/sim.c] and the part of [sim/setup.c] that
    schedules applications; the emulated control plane is in [Setup], the end of a
    simulation in [Teardown].  The simulator alternates between two threads: the
    discrete-event loop ([des_mode]), which jumps from event to event, and the
    periodic timer ([cont_mode]), which advances the clock with real time while a
    controller is active.  A thread runs only while [sch->mode] is its own and
    changes the mode as its last action, so a run is a sequence of iterations of
    the two, [sim_step].  Real time enters as the length of a timer interval.

    The theorems: the end event stays queued until the discrete-event loop
    dispatches it, so neither thread ever finds an empty queue; the clock does not
    go back while no event lies in its past; no event later than the configured end
    is handled by the discrete-event loop; once the end is due, the simulation ends
    after finitely many timer intervals. *)

From stdpp Require Import prelude gmap sorting.
From S2P Require Import Prelude Util Uthash Action FlowKey Netflow Node OfMsg Datapath DpControl.
From S2P Require Import Scheduler RouteTable LegacyNode Host Router Topology EventHandler.

(** ** sim_config.c *)

Inductive sim_mode := SIM_CTRL | EMU_CTRL.
Record sim_config := SimConfig {
  sc_mode : sim_mode; sc_end_time : Z; sc_ctrl_idle_interval : Z }.
#[export] Instance eta_sim_config : Eta sim_config := λ c,
  SimConfig (sc_mode c) (sc_end_time c) (sc_ctrl_idle_interval c).

Definition UINT64_MAX : Z := 2 ^ 64 - 1.
Definition sim_config_new : sim_config := SimConfig EMU_CTRL UINT64_MAX 100000.
Definition sim_config_set_mode (c : sim_config) (m : sim_mode) := c <| sc_mode := m |>.
Definition sim_config_set_end_time (c : sim_config) (t : Z) := c <| sc_end_time := t |>.
Definition sim_config_set_ctrl_idle_interval (c : sim_config) (i : Z) :=
  c <| sc_ctrl_idle_interval := i |>.
Definition sim_config_get_mode (c : sim_config) : sim_mode := sc_mode c.
Definition sim_config_get_end_time (c : sim_config) : Z := sc_end_time c.
Definition sim_config_get_ctrl_idle_interval (c : sim_config) : Z := sc_ctrl_idle_interval c.

(** ** sim.c *)

(** The static variables of the file are part of the state; [s_stats] is what is
    written to the statistics file. *)
Record sim := Sim {
  s_evh : ev_handler;
  s_config : sim_config;
  s_last_wrt : Z;
  s_last_ctrl : Z;
  s_last_stats : Z;
  s_stats : list stats_line
}.
#[export] Instance eta_sim : Eta sim := λ s,
  Sim (s_evh s) (s_config s) (s_last_wrt s) (s_last_ctrl s) (s_last_stats s) (s_stats s).

Definition s_queue (s : sim) : list (addr * sim_event) := sch_ev_queue (eh_sch (s_evh s)).
Definition s_clock (s : sim) : Z := sch_clock (eh_sch (s_evh s)).
Definition s_mode (s : sim) : scheduler_mode := sch_mode (eh_sch (s_evh s)).
Definition set_clock (t : Z) (s : sim) : sim :=
  s <| s_evh ::= λ h, (h <| eh_sch; sch_clock := t |>) |>.
Definition set_mode (m : scheduler_mode) (s : sim) : sim :=
  s <| s_evh ::= λ h, (h <| eh_sch; sch_mode := m |>) |>.

(** One application start event for each execution of each host
    ([setup_app_events]); a host is found through its pointer. *)
Definition exec_events (h : host) : list sim_event :=
  (λ ae, sim_event_app_start_new (ex_start_time ae.2) (host_uuid h) ae.1)
    <$> ht_elems (h_execs h).
Definition setup_app_events (h : ev_handler) : outcome ev_handler :=
  foldl (λ r hn,
    h ← r;
    n ← deref (node_at (eh_topo h) (hn_h hn.2));
    match n with
    | NHost x => Ok (foldl (λ h ev, schedule ev h) h (exec_events x))
    | _ => Fault Indeterminate
    end) (Ok h) (ht_elems (t_hosts (eh_topo h))).

(** The state when the threads start: connections and namespaces of the emulated
    control plane are set up elsewhere; [flow_id] is the counter of live flows. *)
Definition end_event (t : Z) : sim_event := (sim_event_new t) <| ev_type := Some EVENT_END |>.
Definition sim_init (topo : topology) (config : sim_config) : outcome sim :=
  let h := EvHandler topo scheduler_new None ∅ 0 [] in
  h ← match sim_config_get_mode config with
      | EMU_CTRL => setup_app_events h
      | SIM_CTRL => Ok h
      end;
  Ok (Sim (schedule (end_event (sim_config_get_end_time config)) h) config 0 0 0 []).

(** The statistics of every node. *)
Definition update_stats (time : Z) (s : sim) : sim :=
  foldl (λ s an,
    let '(b, lines) := node_write_stats (net_base an.2) time in
    s <| s_evh ::= store_node an.1 (with_base (λ _, b) an.2) |>
      <| s_stats ::= λ l, l ++ lines |>) s (ht_elems (t_nodes (eh_topo (s_evh s)))).

(** [if ((time - last_stats) / 1000000)] *)
Definition maybe_update_stats (time : Z) (s : sim) : sim :=
  if u64 (time - s_last_stats s) / 1000000 =? 0 then s
  else (update_stats time s) <| s_last_stats := time |>.

(** The experimenter message that tells the controller the time. *)
Definition make_time_msg (time : Z) : sim_event :=
  let buf := [0x04; 4] ++ be_bytes 2 24 ++ [0; 0; 0; 0] ++ be_bytes 4 0xF0A1F0A1
             ++ [0; 0; 0; 0] ++ be_bytes 8 time in
  sim_event_of_msg_out_new time 1 buf 24.

Section threads.
Context `{Loci} (sc : scratch) (buf : list Z).

Definition run_handler (ev : sim_event) (s : sim) : outcome sim :=
  h ← handle_event sc buf (s_evh s) ev; Ok (s <| s_evh := h |>).

(** One round of [des_mode]; the flag tells that the loop was left. *)
Definition des_iteration (s : sim) : outcome (sim * bool) :=
  r ← scheduler_dispatch (eh_sch (s_evh s));
  let '(sch, ev) := r in
  ev ← deref ev;
  let ev := ev.2 in
  let s := set_clock (ev_time ev) (s <| s_evh; eh_sch := sch |>) in
  let s := maybe_update_stats (s_clock s) s in
  if bool_decide (ev_type ev = Some EVENT_END) then Ok (s, true)
  else
    s ← run_handler ev s;
    if bool_decide (ev_type ev = Some EVENT_FTI)
    then Ok (set_mode FTI (s <| s_last_ctrl := s_clock s |>), false)
    else Ok (s, false).

(** The [while] loop of [cont_mode] over the events that are due; the flag is
    false when it was left by [goto check_idle]. *)
Fixpoint cont_loop (fuel : nat) (s : sim) : outcome (sim * bool) :=
  match fuel with
  | O => Fault OutOfFuel
  | S fuel =>
      cur ← deref (scheduler_retrieve (eh_sch (s_evh s)));
      let '(a, ev) := cur in
      if ev_time ev <=? s_clock s then
        let s := maybe_update_stats (ev_time ev) s in
        if bool_decide (ev_type ev = Some EVENT_END) then Ok (s, false)
        else
          let s := if bool_decide (ev_type ev = Some EVENT_FTI)
                   then s <| s_last_ctrl := ev_time ev |> else s in
          s ← run_handler ev s;
          sch ← scheduler_delete (eh_sch (s_evh s)) a;
          cont_loop fuel (s <| s_evh; eh_sch := sch |>)
      else Ok (s, true)
  end.

(** One run of the timer handler, [delta_us] after the last time stamp.  The code
    takes [cur_ev] before the time message is sent, which leaves the queue alone. *)
Definition check_idle (s : sim) : sim :=
  if sim_config_get_ctrl_idle_interval (s_config s) <? u64 (s_clock s - s_last_ctrl s)
  then set_mode DES s else s.
Definition cont_iteration (fuel : nat) (delta_us : Z) (s : sim) : outcome (sim * bool) :=
  let s := set_clock (u64 (s_clock s + delta_us)) s in
  s ← (if 10000000 <? u64 (s_clock s - s_last_wrt s) then
         s ← run_handler (make_time_msg (s_clock s)) s;
         Ok (s <| s_last_wrt := s_clock s |>)
       else Ok s);
  r ← cont_loop fuel s;
  Ok (check_idle r.1, r.2).

(** ** Statistics touch counters only *)

Lemma node_write_stats_uuid b time : n_uuid (node_write_stats b time).1 = n_uuid b.
Proof.
  unfold node_write_stats. generalize (ht_elems (n_ports b)). intros l.
  assert (∀ st, n_uuid (foldl (λ st av, (port_update av.1 port_mark st.1,
      st.2 ++ [port_line (time / 1000000) av.2])) st l).1 = n_uuid st.1) as Hl; [|by rewrite Hl].
  induction l as [|av l IH]; intros st; [done|]. cbn [foldl]. by rewrite IH.
Qed.

(** A step that changes the network state by [keeps] and nothing else that the
    threads look at. *)
Definition quiet (s s' : sim) : Prop :=
  keeps (s_evh s) (s_evh s') ∧ eh_sch (s_evh s') = eh_sch (s_evh s) ∧
  s_config s' = s_config s ∧ s_last_ctrl s' = s_last_ctrl s ∧ s_last_wrt s' = s_last_wrt s.
#[local] Instance quiet_preorder : PreOrder quiet.
Proof.
  split; [intros s; split; [reflexivity|done]|]. intros s1 s2 s3 (K & A & B & C & D) (K' & A' & B' & C' & D').
  split; [by apply (transitivity K K')|]. split_and!; congruence.
Qed.

Lemma update_stats_quiet time s : eh_wf (s_evh s) → quiet s (update_stats time s).
Proof.
  intros Hw. unfold update_stats.
  assert (∀ an, an ∈ ht_elems (t_nodes (eh_topo (s_evh s))) →
    (an.1, net_uuid an.2) ∈ node_ids (eh_topo (s_evh s))) as Hin.
  { intros an Han. apply list_elem_of_fmap. by exists an. }
  revert Hin. generalize (ht_elems (t_nodes (eh_topo (s_evh s)))). intros l.
  revert s Hw. induction l as [|[a n] l IH]; intros s Hw Hin; [reflexivity|]. cbn [foldl fst snd].
  pose proof (node_write_stats_uuid (net_base n) time) as Hu.
  destruct (node_write_stats (net_base n) time) as [b lines]. cbn [fst] in Hu.
  set (s1 := _ <| s_stats ::= _ |>).
  destruct (proj1 (list_elem_of_fmap _ _ _) (Hin (a, n) (list_elem_of_here _ _))) as ([a0 n0] & E & Hn0).
  injection E as -> Hu0.
  assert (quiet s s1) as Hq.
  { split; [|done]. eapply keeps_store; [exact Hn0|]. cbn [snd] in Hu0. rewrite <- Hu0.
    unfold net_uuid. by rewrite net_base_with_base. }
  etransitivity; [exact Hq|]. destruct Hq as (K & _). destruct (K Hw) as (Hw1 & (Hids & _) & _).
  apply IH; [done|]. intros an Han. rewrite Hids. apply Hin. by right.
Qed.

Lemma maybe_update_stats_quiet time s : eh_wf (s_evh s) → quiet s (maybe_update_stats time s).
Proof.
  intros Hw. unfold maybe_update_stats. destruct (_ =? 0); [reflexivity|].
  destruct (update_stats_quiet time s Hw) as (K & A & B & C & D).
  split; [exact K|]. split; [exact A|]. split; [exact B|]. split; [exact C|exact D].
Qed.

(** ** Runs of the simulator *)

(** An iteration of the thread whose mode it is, or a message from outside, which
    the connection manager stamps with the current time. *)
Inductive sim_step : sim → sim → Prop :=
| step_des s s' :
    s_mode s = DES → des_iteration s = Ok (s', false) → sim_step s s'
| step_cont s s' fuel delta again :
    s_mode s = FTI → cont_iteration fuel delta s = Ok (s', again) → sim_step s s'
| step_input s ev :
    ev_type ev = Some EVENT_FTI → ev_time ev = s_clock s →
    sim_step s (s <| s_evh ::= schedule ev |>).

Inductive sim_reachable (config : sim_config) : sim → Prop :=
| sreach_init topo s :
    ht_wf (t_nodes topo) → sim_init topo config = Ok s → sim_reachable config s
| sreach_step s s' : sim_reachable config s → sim_step s s' → sim_reachable config s'.

(** The end event is still to come. *)
Record sim_wf (config : sim_config) (s : sim) : Prop := {
  siw_evh : eh_wf (s_evh s);
  siw_end : ∃ a, (a, end_event (sc_end_time config)) ∈ s_queue s;
  siw_config : s_config s = config
}.

Lemma sim_wf_quiet config s s' : quiet s s' → sim_wf config s → sim_wf config s'.
Proof.
  intros (K & Hs & Hc & _) [Hw He Hcf]. destruct (K Hw) as [Hw' _].
  split; [done|unfold s_queue; by rewrite Hs|congruence].
Qed.

Lemma run_handler_wf config ev s s' :
  run_handler ev s = Ok s' → sim_wf config s →
  sim_wf config s' ∧ s_queue s ⊆ s_queue s' ∧ s_clock s' = s_clock s ∧ s_mode s' = s_mode s ∧
  s_last_ctrl s' = s_last_ctrl s.
Proof.
  unfold run_handler. intros E [Hw [a He] Hc]. apply outcome_bind_Ok in E as (h & Hh & E).
  injection E as <-. apply handle_event_keeps in Hh. destruct (Hh Hw) as (Hw' & _ & Hq & Hk & Hm).
  split; [|done]. split; [done| |done]. exists a. by apply Hq.
Qed.

(** ** The discrete-event loop *)

Lemma retrieve_cons config s :
  sim_wf config s → ∃ e q, s_queue s = e :: q ∧
    (∀ e', e' ∈ s_queue s → ev_time e.2 ≤ ev_time e'.2).
Proof.
  intros [[[Hs _] _ _] [a He] _]. unfold s_queue in *.
  destruct (sch_ev_queue _) as [|e q]; [by apply not_elem_of_nil in He|].
  exists e, q. split; [done|]. apply StronglySorted_inv in Hs as [_ Hall].
  intros e' [-> |Hin]%elem_of_cons; [lia|]. eapply Forall_forall in Hall; [exact Hall|done].
Qed.

(** The state in which the event at the head of the queue is handled. *)
Definition dispatched (s : sim) (e : addr * sim_event) (q : list (addr * sim_event)) : sim :=
  let s1 := set_clock (ev_time e.2)
              (s <| s_evh; eh_sch := (eh_sch (s_evh s)) <| sch_ev_queue := q |> |>) in
  maybe_update_stats (ev_time e.2) s1.

Lemma des_iteration_eq s e q :
  s_queue s = e :: q →
  des_iteration s =
  (let s1 := dispatched s e q in
   if bool_decide (ev_type e.2 = Some EVENT_END) then Ok (s1, true)
   else s2 ← run_handler e.2 s1;
        if bool_decide (ev_type e.2 = Some EVENT_FTI)
        then Ok (set_mode FTI (s2 <| s_last_ctrl := s_clock s2 |>), false)
        else Ok (s2, false)).
Proof.
  intros Hq. unfold des_iteration. rewrite scheduler_dispatch_eq. unfold s_queue in Hq.
  by rewrite Hq.
Qed.

Lemma dispatched_wf s e q :
  eh_wf (s_evh s) → s_queue s = e :: q →
  eh_wf (s_evh (dispatched s e q)) ∧ s_queue (dispatched s e q) = q ∧
  s_clock (dispatched s e q) = ev_time e.2 ∧ s_mode (dispatched s e q) = s_mode s ∧
  s_config (dispatched s e q) = s_config s ∧ s_last_ctrl (dispatched s e q) = s_last_ctrl s.
Proof.
  intros [[Hs Hn] Ht Hl] Hq. unfold s_queue in Hq. rewrite Hq in Hs, Hn.
  unfold dispatched. set (s1 := set_clock _ _).
  assert (eh_wf (s_evh s1)) as Hw1.
  { split; [|exact Ht|exact Hl]. apply StronglySorted_inv in Hs as [Hs _].
    cbn [fmap list_fmap] in Hn. apply NoDup_cons in Hn as [_ Hn]. split; [exact Hs|exact Hn]. }
  destruct (maybe_update_stats_quiet (ev_time e.2) s1 Hw1) as (K & A & B & C & _).
  split; [by apply K|]. unfold s_queue, s_clock, s_mode. rewrite A. by split_and!.
Qed.

(** The end event is not the one that was handled. *)
Lemma end_remains (e : addr * sim_event) q a T :
  (a, end_event T) ∈ e :: q → ev_type e.2 ≠ Some EVENT_END → (a, end_event T) ∈ q.
Proof. intros [<-|Hin]%elem_of_cons Hne; [by destruct Hne|done]. Qed.

Lemma eh_wf_mode m h : eh_wf h → eh_wf (h <| eh_sch; sch_mode := m |>).
Proof. intros [[Hs Hd] Hn Hl]. split; [split; [exact Hs|exact Hd]|exact Hn|exact Hl]. Qed.
Lemma eh_wf_clock t h : eh_wf h → eh_wf (h <| eh_sch; sch_clock := t |>).
Proof. intros [[Hs Hd] Hn Hl]. split; [split; [exact Hs|exact Hd]|exact Hn|exact Hl]. Qed.

Lemma des_iteration_wf config s s' :
  sim_wf config s → des_iteration s = Ok (s', false) → sim_wf config s'.
Proof.
  intros Hwf E. destruct (retrieve_cons config s Hwf) as (e & q & Hq & _).
  rewrite (des_iteration_eq s e q Hq) in E. destruct Hwf as [Hw [a He] Hc].
  destruct (dispatched_wf s e q Hw Hq) as (Hw1 & Hq1 & _ & _ & Hc1 & _). cbv zeta in E.
  case_bool_decide as Hend; [done|]. apply outcome_bind_Ok in E as (s2 & Hr & E).
  assert (sim_wf config (dispatched s e q)) as Hwf1.
  { split; [done| |congruence]. exists a. rewrite Hq1. rewrite Hq in He. by eapply end_remains. }
  destruct (run_handler_wf config _ _ _ Hr Hwf1) as ([Hw2 [a2 He2] Hc2] & _).
  case_bool_decide; injection E as <-; (split; [|by exists a2|exact Hc2]);
    [|exact Hw2]. by apply (eh_wf_mode FTI).
Qed.

(** ** The timer handler *)

Lemma cont_loop_wf config fuel s s' b :
  sim_wf config s → cont_loop fuel s = Ok (s', b) → sim_wf config s'.
Proof.
  revert s. induction fuel as [|fuel IH]; intros s Hwf E; [done|]. cbn [cont_loop] in E.
  apply outcome_bind_Ok in E as ([a ev] & Hd & E).
  destruct (scheduler_retrieve _) as [cur|] eqn:Hr; [|done]. injection Hd as ->.
  destruct (ev_time ev <=? s_clock s); [|by injection E as <-].
  pose proof (sim_wf_quiet config s _ (maybe_update_stats_quiet (ev_time ev) s (siw_evh _ _ Hwf)) Hwf)
    as Hwf1.
  assert ((a, ev) ∈ s_queue (maybe_update_stats (ev_time ev) s)) as Hin.
  { destruct (maybe_update_stats_quiet (ev_time ev) s (siw_evh _ _ Hwf)) as (_ & A & _).
    unfold s_queue. rewrite A. unfold scheduler_retrieve in Hr.
    destruct (sch_ev_queue _); [done|]. injection Hr as ->. by left. }
  set (s1 := maybe_update_stats (ev_time ev) s) in *.
  case_bool_decide as Hend; [by injection E as <-|].
  set (s2 := if bool_decide (ev_type ev = Some EVENT_FTI) then _ else s1) in E.
  assert (sim_wf config s2 ∧ s_queue s2 = s_queue s1) as [Hwf2 Hq2]
    by (unfold s2; case_bool_decide; [|done];
        destruct Hwf1 as [W1 W2 W3]; split; [by split|done]).
  apply outcome_bind_Ok in E as (s3 & Hrun & E).
  destruct (run_handler_wf config _ _ _ Hrun Hwf2) as ([Hw3 [ae He3] Hc3] & Hsub & _).
  apply outcome_bind_Ok in E as (sch & Hdel & E).
  assert ((a, ev) ∈ sch_ev_queue (eh_sch (s_evh s3))) as Hin3
    by (apply Hsub; by rewrite Hq2).
  destruct (scheduler_delete_ok _ a ev (ew_sch _ Hw3) Hin3) as (sch' & Hdel' & Hws & Hp & _).
  rewrite Hdel in Hdel'. injection Hdel' as <-. refine (IH _ _ E).
  split; [destruct Hw3 as [_ Hn3 Hl3]; by split| |exact Hc3]. exists ae.
  change (s_queue s3) with (sch_ev_queue (eh_sch (s_evh s3))) in He3. rewrite Hp in He3.
  by eapply end_remains.
Qed.

Lemma run_time_msg s :
  run_handler (make_time_msg (s_clock s)) s =
  Ok (s <| s_evh ::= λ h, handle_of_out h
        ([0x04; 4] ++ be_bytes 2 24 ++ [0; 0; 0; 0] ++ be_bytes 4 0xF0A1F0A1
         ++ [0; 0; 0; 0] ++ be_bytes 8 (s_clock s)) 24 1 |>).
Proof. done. Qed.

Lemma cont_iteration_wf config fuel d s s' b :
  sim_wf config s → cont_iteration fuel d s = Ok (s', b) → sim_wf config s'.
Proof.
  intros Hwf E. unfold cont_iteration in E. set (s1 := set_clock _ s) in E.
  assert (sim_wf config s1) as Hwf1.
  { destruct Hwf as [W E' C]. split; [by apply eh_wf_clock|exact E'|exact C]. }
  apply outcome_bind_Ok in E as (s2 & Ht & E).
  assert (sim_wf config s2) as Hwf2.
  { destruct (_ <? _); [|by injection Ht as <-].
    apply outcome_bind_Ok in Ht as (s3 & Hr & Ht). injection Ht as <-.
    destruct (run_handler_wf config _ _ _ Hr Hwf1) as [[W E' C] _].
    split; [exact W|exact E'|exact C]. }
  apply outcome_bind_Ok in E as ([s3 again] & Hl & E). injection E as <- <-.
  pose proof (cont_loop_wf config _ _ _ _ Hwf2 Hl) as Hwf3. cbn [fst].
  unfold check_idle. destruct (sim_config_get_ctrl_idle_interval (s_config s3) <? _); [|exact Hwf3].
  destruct Hwf3 as [W E' C]. split; [by apply eh_wf_mode|exact E'|exact C].
Qed.

Lemma schedule_all_keeps evs h : keeps h (foldl (λ h ev, schedule ev h) h evs).
Proof.
  revert h. induction evs as [|ev evs IH]; intros h; [reflexivity|]. cbn [foldl].
  etransitivity; [apply keeps_schedule|apply IH].
Qed.

Lemma setup_app_events_keeps h h' : setup_app_events h = Ok h' → keeps h h'.
Proof.
  unfold setup_app_events. generalize (ht_elems (t_hosts (eh_topo h))). intros l E.
  enough (∃ h0, Ok h = Ok h0 ∧ keeps h0 h') as (h0 & [= <-] & K) by exact K.
  revert E. generalize (Ok h). induction l as [|hn l IH]; intros r E; [by exists h'|].
  cbn [foldl] in E. apply IH in E as (h1 & E1 & K).
  apply outcome_bind_Ok in E1 as (h0 & -> & E1). exists h0. split; [done|].
  apply outcome_bind_Ok in E1 as (n & _ & E1). destruct n as [|x|]; [done| |done].
  injection E1 as <-. etransitivity; [apply schedule_all_keeps|exact K].
Qed.

Lemma sim_init_wf topo config s :
  ht_wf (t_nodes topo) → sim_init topo config = Ok s → sim_wf config s.
Proof.
  intros Ht E. unfold sim_init in E. apply outcome_bind_Ok in E as (h & Hh & E).
  injection E as <-. set (h0 := EvHandler topo scheduler_new None ∅ 0 []) in Hh.
  assert (eh_wf h0) as Hw0 by (split; [apply scheduler_new_wf|exact Ht|done]).
  assert (keeps h0 h) as K.
  { destruct (sim_config_get_mode config); [by injection Hh as <-|].
    by apply setup_app_events_keeps. }
  destruct (K Hw0) as [Hw _].
  split; [|exists (fresh_event (eh_sch h))|done].
  - destruct (keeps_schedule (end_event (sim_config_get_end_time config)) h Hw) as [W _]. exact W.
  - unfold s_queue. cbn [s_evh]. rewrite (schedule_queue _ h _ eq_refl). by left.
Qed.

Lemma sim_reachable_wf config s : sim_reachable config s → sim_wf config s.
Proof.
  induction 1 as [topo s Ht E|s s' _ IH Hstep]; [by eapply sim_init_wf|].
  destruct Hstep as [s s' _ E|s s' fuel d again _ E|s ev Hty _].
  - by eapply des_iteration_wf.
  - by eapply cont_iteration_wf.
  - destruct IH as [W [a He] C]. destruct (keeps_schedule ev (s_evh s) W) as (W' & _ & Q & _).
    split; [exact W'| |exact C]. exists a. by apply Q.
Qed.

(** C3. In every reachable state of the simulation, whatever the interleaving of
    the two threads and the controller, the event queue is sorted, the tables are
    well formed and the end event is queued: neither thread dereferences the null
    pointer of an empty queue. *)
Theorem queue_never_empty config s :
  sim_reachable config s →
  eh_wf (s_evh s) ∧ (∃ a, (a, end_event (sc_end_time config)) ∈ s_queue s) ∧
  (∃ cur, scheduler_retrieve (eh_sch (s_evh s)) = Some cur) ∧
  (∃ sch e, scheduler_dispatch (eh_sch (s_evh s)) = Ok (sch, Some e)).
Proof.
  intros Hr. pose proof (sim_reachable_wf config s Hr) as Hwf.
  destruct (retrieve_cons config s Hwf) as (e & q & Hq & _). destruct Hwf as [W E C].
  split; [done|]. split; [done|]. unfold s_queue in Hq. split.
  - exists e. unfold scheduler_retrieve. by rewrite Hq.
  - rewrite scheduler_dispatch_eq, Hq. by eexists _, _.
Qed.

(** The discrete-event loop: a round moves the clock to the time of the
    earliest queued event, so to no later than the configured end and not back if
    no event lay in the past; an end event stops the loop with the network
    untouched but for the statistics; after an event of the control plane, and only
    then, the timer thread takes over. *)
Theorem des_round config s s' stop :
  sim_reachable config s → des_iteration s = Ok (s', stop) → s_mode s = DES →
  s_clock s' ≤ sc_end_time config ∧
  (∀ e, e ∈ s_queue s → s_clock s' ≤ ev_time e.2) ∧
  ((∀ e, e ∈ s_queue s → s_clock s ≤ ev_time e.2) → s_clock s ≤ s_clock s') ∧
  ∃ a ev, scheduler_retrieve (eh_sch (s_evh s)) = Some (a, ev) ∧ s_clock s' = ev_time ev ∧
    (stop = true ↔ ev_type ev = Some EVENT_END) ∧
    (s_mode s' = FTI ↔ ev_type ev = Some EVENT_FTI).
Proof.
  intros Hr E Hmode. pose proof (sim_reachable_wf config s Hr) as Hwf.
  destruct (retrieve_cons config s Hwf) as ([a ev] & q & Hq & Hmin). cbn [snd] in Hmin.
  assert (s_clock s' = ev_time ev ∧ (stop = true ↔ ev_type ev = Some EVENT_END) ∧
          (s_mode s' = FTI ↔ ev_type ev = Some EVENT_FTI)) as (Hc & Hstop & Hm).
  { rewrite (des_iteration_eq s _ q Hq) in E. cbv zeta in E. cbn [snd] in E.
    destruct (dispatched_wf s (a, ev) q (siw_evh _ _ Hwf) Hq) as (W1 & Hq1 & Hc1 & Hm1 & Hcf & _).
    case_bool_decide as Hend.
    { injection E as <- <-. split; [done|]. rewrite Hm1, Hmode, Hend. split; [done|].
      split; [done|]. intros [= Hx]. }
    apply outcome_bind_Ok in E as (s2 & Hrun & E).
    assert (sim_wf config (dispatched s (a, ev) q)) as Hwf1.
    { destruct Hwf as [W [ae He] C]. split; [done| |congruence]. exists ae. rewrite Hq1.
      rewrite Hq in He. by eapply end_remains. }
    destruct (run_handler_wf config _ _ _ Hrun Hwf1) as (_ & _ & Hc2 & Hm2 & _).
    case_bool_decide as Hf; injection E as <- <-.
    - split; [transitivity (s_clock s2); [done|]; by rewrite Hc2|]. by split.
    - split; [by rewrite Hc2|]. split; [done|]. rewrite Hm2, Hm1, Hmode. by split. }
  destruct (siw_end _ _ Hwf) as [ae He]. rewrite Hc. split_and!.
  - exact (Hmin _ He).
  - exact Hmin.
  - intros Hpast. apply (Hpast (a, ev)). rewrite Hq. by left.
  - exists a, ev. unfold scheduler_retrieve. unfold s_queue in Hq. by rewrite Hq.
Qed.
(** ** The end of the simulation *)

(** Expirations of the timer, [ds] apart, until the other thread takes over; with
    the end event at the head of the queue the loop of [cont_mode] stops at once. *)
Fixpoint run_ticks (ds : list Z) (s : sim) : outcome sim :=
  match ds with
  | [] => Ok s
  | d :: ds =>
      match s_mode s with
      | DES => Ok s
      | FTI => r ← cont_iteration 1 d s; run_ticks ds r.1
      end
  end.

(** The end is due and the controller is waited for. *)
Record end_due (s : sim) : Prop := {
  ed_wf : eh_wf (s_evh s);
  ed_head : ∃ a ev, scheduler_retrieve (eh_sch (s_evh s)) = Some (a, ev) ∧
              ev_type ev = Some EVENT_END ∧ ev_time ev ≤ s_clock s;
  ed_ctrl : 0 ≤ s_last_ctrl s ≤ s_clock s
}.

Lemma end_due_quiet s s' : quiet s s' → end_due s → end_due s'.
Proof.
  intros (K & Hs & _ & Hl & _) [W (a & ev & Hh) C]. destruct (K W) as [W' _].
  unfold s_clock in *. split; [done|exists a, ev; unfold s_clock; by rewrite Hs|].
  unfold s_clock. by rewrite Hl, Hs.
Qed.

(** The time message goes out of the control channel only. *)
Lemma time_message_quiet (s s' : sim) :
  (if 10000000 <? u64 (s_clock s - s_last_wrt s)
   then s1 ← run_handler (make_time_msg (s_clock s)) s; Ok (s1 <| s_last_wrt := s_clock s1 |>)
   else Ok s) = Ok s' →
  end_due s → end_due s' ∧ s_clock s' = s_clock s ∧ s_mode s' = s_mode s ∧
    s_last_ctrl s' = s_last_ctrl s ∧ s_config s' = s_config s.
Proof.
  intros E D. destruct (_ <? _); [|by injection E as <-].
  rewrite run_time_msg in E. injection E as <-. split; [|done].
  destruct D as [[W1 W2 W3] H1 H2]. split; [by split|exact H1|exact H2].
Qed.

Lemma time_message_runs (s : sim) : ∃ s',
  (if 10000000 <? u64 (s_clock s - s_last_wrt s)
   then s1 ← run_handler (make_time_msg (s_clock s)) s; Ok (s1 <| s_last_wrt := s_clock s1 |>)
   else Ok s) = Ok s'.
Proof. destruct (_ <? _); [rewrite run_time_msg|]; by eexists. Qed.

Lemma cont_loop_end s :
  end_due s → ∃ s', cont_loop 1 s = Ok (s', false) ∧ quiet s s'.
Proof.
  intros [W (a & ev & Hh & Hty & Ht) _]. cbn [cont_loop]. rewrite Hh.
  change (deref (Some (a, ev))) with (Ok (a, ev)). cbn [mbind outcome_bind].
  rewrite (proj2 (Z.leb_le _ _) Ht), bool_decide_true by exact Hty.
  exists (maybe_update_stats (ev_time ev) s). split; [done|by apply maybe_update_stats_quiet].
Qed.

Lemma check_idle_end s :
  end_due s → s_clock s < 2 ^ 64 →
  end_due (check_idle s) ∧ s_clock (check_idle s) = s_clock s ∧
  s_last_ctrl (check_idle s) = s_last_ctrl s ∧ s_config (check_idle s) = s_config s ∧
  s_mode (check_idle s) =
    (if sc_ctrl_idle_interval (s_config s) <? s_clock s - s_last_ctrl s then DES else s_mode s).
Proof.
  intros D Hb. unfold check_idle, sim_config_get_ctrl_idle_interval.
  assert (u64 (s_clock s - s_last_ctrl s) = s_clock s - s_last_ctrl s) as ->
    by (apply Z.mod_small; destruct D; lia).
  destruct (_ <? _); [|by split_and!]. split; [|by split_and!].
  destruct D as [W H1 H2]. split; [by apply eh_wf_mode|exact H1|exact H2].
Qed.

(** One expiration of the timer. *)
Lemma end_tick s d :
  end_due s → s_mode s = FTI → 0 ≤ d → s_clock s + d < 2 ^ 64 →
  ∃ s', cont_iteration 1 d s = Ok (s', false) ∧ end_due s' ∧ s_clock s' = s_clock s + d ∧
    s_last_ctrl s' = s_last_ctrl s ∧ s_config s' = s_config s ∧
    s_mode s' = (if sc_ctrl_idle_interval (s_config s) <? s_clock s + d - s_last_ctrl s
                 then DES else FTI).
Proof.
  intros D Hm Hd Hb. unfold cont_iteration.
  assert (u64 (s_clock s + d) = s_clock s + d) as -> by (apply Z.mod_small; destruct D; lia).
  set (s1 := set_clock _ s).
  assert (end_due s1) as D1.
  { destruct D as [W (a & ev & ? & ? & ?) C].
    split; [by apply eh_wf_clock|exists a, ev; split_and!; [done|done|]|];
      change (s_clock s1) with (s_clock s + d); change (s_last_ctrl s1) with (s_last_ctrl s); lia. }
  destruct (time_message_runs s1) as (s2 & E2). rewrite E2. cbn [mbind outcome_bind].
  destruct (time_message_quiet s1 s2 E2 D1) as (D2 & C2 & M2 & L2 & F2).
  destruct (cont_loop_end s2 D2) as (s3 & -> & Q3). pose proof (end_due_quiet _ _ Q3 D2) as D3.
  destruct Q3 as (_ & S3 & F3 & L3 & _). eexists. split; [reflexivity|]. cbn [fst].
  assert (s_clock s3 = s_clock s + d) as C3 by (unfold s_clock; rewrite S3; exact C2).
  assert (s_mode s3 = FTI) as M3 by (unfold s_mode; rewrite S3; etransitivity; [exact M2|exact Hm]).
  destruct (check_idle_end s3 D3) as (D4 & -> & -> & -> & ->); [by rewrite C3|].
  rewrite M3, C3, L3, L2, F3, F2. by split_and!.
Qed.

Lemma run_ticks_ends ds s :
  end_due s → s_mode s = FTI → ds ≠ [] → Forall (λ d, 0 ≤ d) ds →
  s_clock s + foldr Z.add 0 ds < 2 ^ 64 →
  sc_ctrl_idle_interval (s_config s) < s_clock s + foldr Z.add 0 ds - s_last_ctrl s →
  ∃ s', run_ticks ds s = Ok s' ∧ end_due s' ∧ s_mode s' = DES.
Proof.
  revert s. induction ds as [|d ds IH]; intros s D Hm Hne Hds Hb Hi; [done|].
  apply Forall_cons in Hds as [Hd Hds]. cbn [foldr] in Hb, Hi.
  assert (0 ≤ foldr Z.add 0 ds) as Hpos by (clear -Hds; induction Hds; cbn [foldr]; lia).
  destruct (end_tick s d D Hm Hd) as (s1 & E & D1 & C1 & L1 & F1 & M1); [lia|].
  cbn [run_ticks]. rewrite Hm, E. cbn [mbind outcome_bind fst].
  destruct (Z.ltb_spec (sc_ctrl_idle_interval (s_config s)) (s_clock s + d - s_last_ctrl s)).
  - exists s1. split; [|done]. destruct ds; [done|]. cbn [run_ticks]. by rewrite M1.
  - assert (ds ≠ []) by (intros ->; cbn [foldr] in Hi; lia).
    apply IH; [done|done|done|done| |]; rewrite ?C1, ?L1, ?F1; lia.
Qed.

(** C8. The simulation ends: once the end event is the earliest one and due while
    the timer thread runs, expirations of the timer that add up to more than the
    idle interval hand over to the discrete-event loop, and the next round of that
    loop dispatches the end event and stops. *)
Theorem simulation_ends ds s :
  end_due s → s_mode s = FTI → ds ≠ [] → Forall (λ d, 0 ≤ d) ds →
  s_clock s + foldr Z.add 0 ds < 2 ^ 64 →
  sc_ctrl_idle_interval (s_config s) < s_clock s + foldr Z.add 0 ds - s_last_ctrl s →
  ∃ s' s'', run_ticks ds s = Ok s' ∧ s_mode s' = DES ∧ des_iteration s' = Ok (s'', true).
Proof.
  intros D Hm Hne Hds Hb Hi.
  destruct (run_ticks_ends ds s D Hm Hne Hds Hb Hi) as (s' & E & [_ (a & ev & Hh & Hty & _) _] & M).
  unfold scheduler_retrieve in Hh. destruct (sch_ev_queue (eh_sch (s_evh s'))) as [|e q] eqn:Hq; [done|].
  injection Hh as ->. eexists s', _. split; [done|]. split; [done|].
  rewrite (des_iteration_eq s' (a, ev) q Hq). cbv zeta. by rewrite bool_decide_true.
Qed.
End threads.

(** ** Small runs *)

#[local] Instance no_controller : Loci := sample_loci OF_OTHER_MESSAGE.

(** An empty network that idles for 2 ms, then a message to the controller; the
    end after 2.5 ms. *)
Definition short_config : sim_config :=
  sim_config_set_ctrl_idle_interval (sim_config_set_end_time sim_config_new 2500) 1000.
Definition hello : sim_event := sim_event_of_msg_out_new 2000 1 [4; 0; 0; 8; 0; 0; 0; 0] 8.

Definition ok_or {A} (d : A) (r : outcome A) : A := match r with Ok x => x | Fault _ => d end.
Definition blank_sim : sim :=
  Sim (EvHandler topology_new scheduler_new None ∅ 0 []) short_config 0 0 0 [].
Definition run0 : sim := Eval vm_compute in ok_or blank_sim (sim_init topology_new short_config).
Definition run1 : sim :=
  Eval vm_compute in (ok_or (blank_sim, false) (cont_iteration sample_scratch [] 1 2000 run0)).1.
Definition run2 : sim := Eval vm_compute in run1 <| s_evh ::= schedule hello |>.
Definition run3 : sim :=
  Eval vm_compute in (ok_or (blank_sim, false) (des_iteration sample_scratch [] run2)).1.
Definition run4 : sim :=
  Eval vm_compute in (ok_or (blank_sim, false) (cont_iteration sample_scratch [] 1 600 run3)).1.

Lemma run2_reachable : sim_reachable sample_scratch [] short_config run2.
Proof.
  apply (sreach_step _ _ _ run1).
  - apply (sreach_step _ _ _ run0).
    + apply (sreach_init _ _ _ topology_new); [done|vm_compute; reflexivity].
    + apply (step_cont _ _ run0 run1 1 2000 true); vm_compute; reflexivity.
  - apply (step_input _ _ run1 hello); reflexivity.
Qed.
Lemma run2_handled : des_iteration sample_scratch [] run2 = Ok (run3, false).
Proof. vm_compute. reflexivity. Qed.
Lemma run4_reachable : sim_reachable sample_scratch [] short_config run4.
Proof.
  apply (sreach_step _ _ _ run3).
  - apply (sreach_step _ _ _ run2); [exact run2_reachable|].
    apply step_des; [reflexivity|exact run2_handled].
  - apply (step_cont _ _ run3 run4 1 600 false); vm_compute; reflexivity.
Qed.

Lemma queue_never_empty_witness :
  sim_reachable sample_scratch [] short_config run4 ∧
  ∃ cur, scheduler_retrieve (eh_sch (s_evh run4)) = Some cur.
Proof.
  split; [exact run4_reachable|].
  exact (proj1 (proj2 (proj2 (queue_never_empty _ _ short_config run4 run4_reachable)))).
Defined.

Lemma des_round_witness :
  s_clock run3 ≤ sc_end_time short_config ∧ s_mode run3 = FTI.
Proof.
  destruct (des_round _ _ short_config run2 run3 false run2_reachable run2_handled eq_refl)
    as (H & _ & _ & a & ev & Hr & _ & _ & Hm).
  split; [exact H|]. apply Hm. injection Hr as _ <-. reflexivity.
Defined.

Lemma run4_end_due : end_due run4.
Proof.
  split.
  - exact (siw_evh _ _ (sim_reachable_wf _ _ _ _ run4_reachable)).
  - eexists _, _. split; [vm_compute; reflexivity|]. split; [reflexivity|]. vm_compute. discriminate.
  - vm_compute. split; discriminate.
Qed.

Lemma simulation_ends_witness :
  ∃ s' s'', run_ticks sample_scratch [] [300; 300] run4 = Ok s' ∧ s_mode s' = DES ∧
    des_iteration sample_scratch [] s' = Ok (s'', true).
Proof.
  apply (simulation_ends sample_scratch [] [300; 300] run4 run4_end_due).
  - reflexivity.
  - discriminate.
  - repeat constructor; discriminate.
  - vm_compute. reflexivity.
  - vm_compute. reflexivity.
Defined.

(** *** Two hosts on a link of 10 us: resolution of the address, then a ping *)

Definition ping_host (cnt n : Z) : outcome (Z * host) :=
  r ← host_new cnt;
  h ← host_add_port r.2 1 1 (sample_mac n) 1000000 1000000;
  h ← host_set_intf_ipv4 h 1 (0x0a000000 + n) (prefix_mask 24);
  Ok (r.1, host_add_app h PINGV4).
Definition ping_net : outcome sim :=
  r ← ping_host 0 1;
  h ← host_add_app_exec r.2 5 PINGV4 1 3000 (le_bytes 4 0x0a000002) 4;
  r2 ← ping_host r.1 2;
  let t := topology_add_host (topology_add_host topology_new 1 h) 2 r2.2 in
  let t := topology_add_link t (host_uuid h) (host_uuid r2.2) 1 1 1000000 10 false in
  sim_init t (sim_config_set_end_time short_config 9000).

(** Rounds of the discrete-event loop until it is left; the times of the events. *)
Fixpoint des_run (fuel : nat) (s : sim) : outcome (sim * list Z) :=
  match fuel with
  | O => Fault OutOfFuel
  | S fuel =>
      r ← des_iteration sample_scratch [] s;
      if r.2 : bool then Ok (r.1, [s_clock r.1])
      else r' ← des_run fuel r.1; Ok (r'.1, s_clock r.1 :: r'.2)
  end.

(** What a host has learnt and sent. *)
Definition host_view (an : addr * net_node) : list (Z * list Z) * list Z :=
  (match an.2 with
   | NHost h => (λ ae, (ae_ip ae.2, ae_eth_addr ae.2)) <$> ht_elems (ln_at (h_ep h))
   | _ => []
   end, (λ ap, tx_packets (p_stats ap.2)) <$> ht_elems (n_ports (net_base an.2))).

(** The timer hands over after 2 ms of idling, the application starts at 3 ms: the
    ARP request and reply and the echo request and reply cross the link, each with
    a transmission and a reception 10 us later, and the run stops at the end event. *)
Example two_hosts_ping :
  (s ← ping_net; r ← cont_iteration sample_scratch [] 1 2000 s; r ← des_run 10 r.1;
   Ok (r.2, host_view <$> ht_elems (t_nodes (eh_topo (s_evh r.1)))))
  = Ok ([3000; 3000; 3010; 3010; 3020; 3020; 3030; 3030; 3040; 9000],
        [([(0x0a000002, sample_mac 2)], [2]); ([(0x0a000001, sample_mac 1)], [2])]).
Proof. vm_compute. reflexivity. Qed.
