(* ===== verification/Setup.v ===== *)
(** * Setup: building the emulated control plane

    Models [sim/setup.c]: starting the routers of a topology in their name spaces,
    connecting the interfaces of each link, configuring their addresses, starting the
    daemons, and starting the server for the daemons' connections.  The state is the
    topology, whose ports get the names of their interfaces, the daemons, the
    generator of internal addresses and the commands issued so far.

    Theorems: every link, which the topology holds once for each direction, is
    set up exactly once; the commands for a link between two routers create the
    pair of interfaces and give each its address; interface names of a link between
    routers always fit, those of a link to another node overflow their buffer for
    long names. *)

From stdpp Require Import strings prelude gmap.
From S2P Require Import Prelude Util Uthash Action FlowKey Netflow Node Inet Datapath Patricia.
From S2P Require Import RouteTable LegacyNode Host Router Topology Scheduler EventHandler.
From S2P Require Import Server HorseDaemon Daemons Sim.

Record sys := Sys {
  sy_topo : topology; sy_daemons : daemons; sy_internal : internal_net_bytes;
  sy_log : list command }.
#[export] Instance eta_sys : Eta sys := λ s,
  Sys (sy_topo s) (sy_daemons s) (sy_internal s) (sy_log s).

Definition emit (cmds : list command) (s : sys) : sys := s <| sy_log ::= λ l, l ++ cmds |>.

(** The router behind a pointer. *)
Definition router_at (t : topology) (a : addr) : outcome router :=
  n ← deref (node_at t a);
  match n with NRouter r => Ok r | _ => Fault Indeterminate end.

Definition create_internal_devices : list command :=
  create_bridge (lit "br0") ++
  setup_veth None (lit "conn1") (lit "conn2") (lit "172.20.254.254") (lit "16") (lit "br0") ++
  [Run None (lit "ip route add 172.20.0.0/16 dev conn1")].

Section setup.
Context `{Os}.

Definition start_routers (s : sys) : outcome sys :=
  for_each (λ s rn,
    r ← router_at (sy_topo s) (rn_rt rn.2);
    x ← router_start (sy_internal s) r;
    Ok (emit x.1.2 (s <| sy_internal := x.1.1 |>))) s (ht_elems (t_routers (sy_topo s))).

Definition start_router_daemons (s : sys) : outcome sys :=
  for_each (λ s rn,
    r ← router_at (sy_topo s) (rn_rt rn.2);
    x ← router_start_daemon (sy_daemons s) r;
    Ok (emit x.2 (s <| sy_daemons := x.1 |>))) s (ht_elems (t_routers (sy_topo s))).

(** [snprintf] with a size into an array. *)
Definition snprintf (array size : nat) (text : list Z) : outcome (list Z) :=
  let out := take (size - 1) text in
  if decide (length out < array)%nat then Ok out else Fault OutOfBounds.

Definition configure_router_port (r : router) (p : port) : outcome (list command) :=
  info ← deref (p_ipv4_addr p);
  mask ← count_set_bits (v4_netmask info);
  netmask_str ← snprintf 5 (Z.to_nat (mask / 10 + 2)) (print_u32 mask);
  ip_str ← get_ip_str (be_bytes 4 (v4_addr info)) (replicate INET_ADDRSTRLEN 0);
  Ok (set_intf_ip (Some (c_string (router_name r))) (c_string (p_name p)) (c_string ip_str) netmask_str).

(** [if (port) { port_set_name; if (ipv4_addr) configure }]. *)
Definition name_port (s : sys) (a : addr) (port_id : Z) (intf : list Z) : outcome sys :=
  r ← router_at (sy_topo s) a;
  match router_port r port_id with
  | None => Ok s
  | Some (pa, p) =>
      p ← port_set_name p intf;
      let named := port_update pa (λ q, q <| p_name := p_name p |>) in
      let s := s <| sy_topo ::= node_update a (λ _, NRouter (r <| r_ln; ln_base ::= named |>)) |> in
      match p_ipv4_addr p with
      | Some _ => cmds ← configure_router_port r p; Ok (emit cmds s)
      | None => Ok s
      end
  end.

Definition intf_name (r : router) (infix : list Z) (port_id : Z) : list Z :=
  c_string (router_name r) ++ infix ++ print_u32 port_id.

Definition setup_router_pair_link (s : sys) (a1 : addr) (p1 : Z) (a2 : addr) (p2 : Z) : outcome sys :=
  r1 ← router_at (sy_topo s) a1;
  r2 ← router_at (sy_topo s) a2;
  intf1 ← sprintf MAX_PORT_NAME (intf_name r1 (lit "-eth") p1);
  intf2 ← sprintf MAX_PORT_NAME (intf_name r2 (lit "-eth") p2);
  let s := emit (add_veth_pair intf1 (Some (c_string (router_name r1)))
                   intf2 (Some (c_string (router_name r2)))) s in
  s ← name_port s a1 p1 intf1;
  name_port s a2 p2 intf2.

(** For routers connected to any node that is not a router. *)
Definition setup_router_nonrouter_link (s : sys) (a : addr) (rport : Z) : outcome sys :=
  r ← router_at (sy_topo s) a;
  intf1 ← sprintf 42 (intf_name r (lit "-eth") rport);
  intf2 ← sprintf 42 (intf_name r (lit "-ext-eth") rport);
  let s := emit (add_veth_pair intf1 (Some (c_string (router_name r))) intf2 None ++
                 set_intf_up None intf2) s in
  name_port s a rport intf1.

(** The body of the loop over the links, for a link that is not marked. *)
Definition setup_link (s : sys) (l : link) : outcome sys :=
  n1 ← deref (topology_node (sy_topo s) (np_uuid (l_node1 l)));
  n2 ← deref (topology_node (sy_topo s) (np_uuid (l_node2 l)));
  match n1.2, n2.2 with
  | NRouter _, NRouter _ =>
      setup_router_pair_link s n1.1 (np_port (l_node1 l)) n2.1 (np_port (l_node2 l))
  | NRouter _, _ => setup_router_nonrouter_link s n1.1 (np_port (l_node1 l))
  | _, NRouter _ => setup_router_nonrouter_link s n2.1 (np_port (l_node2 l))
  | _, _ => Ok s
  end.

(** The table [added] holds the way back of each link that was set up. *)
Definition links_body (st : sys * uthash link) (al : addr * link) : outcome (sys * uthash link) :=
  match HASH_FIND (np_bytes (l_node1 al.2)) st.2 with
  | Some _ => Ok st
  | None =>
      s ← setup_link st.1 al.2;
      Ok (s, HASH_ADD (fresh_addr st.2) (Link (l_node2 al.2) (l_node1 al.2) 0 0) st.2)
  end.

(** The table of marks is freed at the end. *)
Definition setup_routers (s : sys) : outcome sys :=
  s ← start_routers s;
  st ← for_each links_body (s, None) (ht_elems (t_links (sy_topo s)));
  start_router_daemons st.1.

(** The server is started when there are routers; the OpenFlow client gets the
    settings of the datapaths, known by their addresses. *)
Definition setup_server (srv : server) (t : topology) : server * list addr * list command :=
  let '(srv, cmds) := if t_n_routers t =? 0 then (srv, [])
                      else (server_start srv, create_internal_devices) in
  (srv, (λ d, dn_dp d.2) <$> ht_elems (t_dps t), cmds).

Definition setup (h : ev_handler) (srv : server) (ds : daemons) (b : internal_net_bytes)
  : outcome (ev_handler * server * list addr * sys) :=
  let '(srv, ofsc, cmds) := setup_server srv (eh_topo h) in
  h ← setup_app_events h;
  s ← setup_routers (Sys (eh_topo h) ds b cmds);
  Ok (h <| eh_topo := sy_topo s |>, srv, ofsc, s).
End setup.

(** ** Each link once *)

(** The links the loop sets up, after those whose way back is in [seen]. *)
Fixpoint once (seen : list node_port_pair) (ls : list link) : list link :=
  match ls with
  | [] => []
  | l :: ls => if decide (l_node1 l ∈ seen) then once seen ls else l :: once (seen ++ [l_node2 l]) ls
  end.

Lemma once_app seen p q :
  once seen (p ++ q) = once seen p ++ once (seen ++ (l_node2 <$> once seen p)) q.
Proof.
  revert seen. induction p as [|l p IH]; intros seen; cbn [once Datatypes.app fmap list_fmap].
  { by rewrite app_nil_r. }
  case_decide; [apply IH|]. rewrite IH. cbn [fmap list_fmap Datatypes.app]. by rewrite <- app_assoc.
Qed.

Lemma once_sub seen ls l : l ∈ once seen ls → l ∈ ls.
Proof.
  revert seen. induction ls as [|x ls IH]; intros seen; [done|]. cbn [once]. case_decide.
  - intros ?%IH. by right.
  - rewrite !elem_of_cons. intros [->|?%IH]; auto.
Qed.

Lemma once_NoDup seen ls : NoDup ls → NoDup (once seen ls).
Proof.
  intros Hnd. revert seen. induction Hnd as [|x ls Hx Hnd IH]; intros seen; [constructor|].
  cbn [once]. case_decide; [apply IH|]. constructor; [|apply IH]. by intros ?%once_sub.
Qed.

(** A link table whose links come with their way back. *)
Record paired (ls : list link) : Prop := {
  pa_nodup : NoDup (l_node1 <$> ls);
  pa_back : ∀ l, l ∈ ls → ∃ l', l' ∈ ls ∧ l_node1 l' = l_node2 l ∧ l_node2 l' = l_node1 l;
  pa_ends : ∀ l, l ∈ ls → l_node1 l ≠ l_node2 l }.

Lemma node1_inj ls l l' : NoDup (l_node1 <$> ls) → l ∈ ls → l' ∈ ls → l_node1 l = l_node1 l' → l = l'.
Proof.
  intros Hnd (i & Hi)%list_elem_of_lookup (j & Hj)%list_elem_of_lookup E.
  assert (i = j) as <-; [|congruence].
  eapply NoDup_lookup; [exact Hnd|..]; rewrite list_lookup_fmap; [by rewrite Hi|by rewrite Hj, E].
Qed.

(** The link that comes first is set up. *)
Lemma once_first p l q l' : let ls := p ++ l :: q in
  paired ls → l' ∈ q → l_node1 l' = l_node2 l → l_node2 l' = l_node1 l →
  l ∈ once [] ls ∧ l' ∉ once [] ls.
Proof.
  intros ls [Hnd Hback Hends] Hq H1 H2.
  assert (l ∈ ls) as Hl by (apply elem_of_app; right; left).
  assert (l' ∈ ls) as Hl' by (apply elem_of_app; right; by right).
  assert (NoDup (l_node1 <$> q) ∧ l ∉ q ∧ ∀ m, m ∈ p → m ∉ q) as (Hndq & Hlq & Hpq).
  { apply NoDup_fmap_1 in Hnd as Hn. unfold ls in Hn. apply NoDup_app in Hn as (_ & Hd & [Hlq _]%NoDup_cons).
    unfold ls in Hnd. rewrite fmap_app in Hnd. apply NoDup_app in Hnd as (_ & _ & Hnd).
    apply NoDup_cons in Hnd as [_ Hnd]. split; [done|]. split; [done|].
    intros m Hm Hmq. apply (Hd m Hm). by right. }
  set (seen := l_node2 <$> once [] p).
  assert (l_node1 l ∉ seen) as Hns.
  { intros (m & Hm1 & Hm)%list_elem_of_fmap. apply once_sub in Hm.
    assert (m ∈ ls) as Hmls by (apply elem_of_app; by left).
    destruct (Hback m Hmls) as (m' & Hm' & E1 & E2).
    assert (m' = l) as -> by (apply (node1_inj ls); congruence).
    assert (m = l') as -> by (apply (node1_inj ls); congruence). by apply (Hpq l'). }
  unfold ls. rewrite once_app. cbn [once Datatypes.app]. fold seen. rewrite decide_False by done.
  split; [apply elem_of_app; right; left|].
  rewrite elem_of_app, elem_of_cons. intros [H|[->|H]].
  - apply once_sub in H. by apply (Hpq l').
  - done.
  - apply list_elem_of_split in Hq as (q1 & q2 & ->). rewrite once_app in H.
    apply elem_of_app in H as [H|H].
    + apply once_sub in H. rewrite fmap_app in Hndq. apply NoDup_app in Hndq as (_ & Hd & _).
      apply (Hd (l_node1 l')); [by apply list_elem_of_fmap_2|]. cbn. left.
    + cbn [once] in H. rewrite decide_True in H.
      * apply once_sub in H. rewrite fmap_app in Hndq. apply NoDup_app in Hndq as (_ & _ & Hd).
        cbn in Hd. apply NoDup_cons in Hd as [Hd _]. apply Hd. by apply list_elem_of_fmap_2.
      * rewrite H1. apply elem_of_app. left. apply elem_of_app. right. left.
Qed.

Lemma once_exactly ls l : paired ls → l ∈ ls →
  ∃ l', l' ∈ ls ∧ l_node1 l' = l_node2 l ∧ l_node2 l' = l_node1 l ∧ (l ∈ once [] ls ↔ l' ∉ once [] ls).
Proof.
  intros Hp Hl. destruct (pa_back _ Hp l Hl) as (l' & Hl' & H1 & H2). exists l'. split_and!; [done..|].
  assert (l ≠ l') as Hne. { intros <-. by apply (pa_ends _ Hp l). }
  apply list_elem_of_split in Hl as (p & q & ->).
  apply elem_of_app in Hl' as [Hin|[->|Hin]%elem_of_cons]; [|done|].
  - apply list_elem_of_split in Hin as (p1 & p2 & ->). rewrite <- app_assoc in *.
    destruct (once_first p1 l' (p2 ++ l :: q) l) as [Ha Hb]; try done.
    apply elem_of_app. right. left.
  - destruct (once_first p l q l') as [Ha Hb]; try done.
Qed.

(** ** The loop and its table of marks *)

Record marks (added : uthash link) (seen : list node_port_pair) : Prop := {
  mk_wf : ht_wf added;
  mk_seen : l_node1 <$> (ht_elems added).*2 = seen;
  mk_ends : Forall np_wf seen }.

Definition link_wf (l : link) : Prop := np_wf (l_node1 l) ∧ np_wf (l_node2 l).

Lemma marks_find added seen np : marks added seen → np_wf np →
  HASH_FIND (np_bytes np) added = None ↔ np ∉ seen.
Proof.
  intros [Hw Hs He] Hnp. rewrite HASH_FIND_None by done. rewrite <- Hs in *. split.
  - intros Hno (l & -> & ([a l'] & -> & Hin)%list_elem_of_fmap)%list_elem_of_fmap.
    by apply (Hno a l' Hin).
  - intros Hns a l Hin Hk. apply Hns.
    assert (l_node1 l ∈ l_node1 <$> (ht_elems added).*2) as Hl.
    { apply list_elem_of_fmap_2, list_elem_of_fmap. by exists (a, l). }
    rewrite Forall_forall in He. by rewrite <- (np_bytes_inj _ _ (He _ Hl) Hnp Hk).
Qed.

Lemma marks_add added seen l : marks added seen → np_wf (l_node1 l) →
  marks (HASH_ADD (fresh_addr added) l added) (seen ++ [l_node1 l]).
Proof.
  intros [Hw Hs He] Hl. destruct (HASH_ADD_spec (fresh_addr added) l added Hw (fresh_addr_not_in _)) as [Hw' He'].
  split; [done| |].
  - by rewrite He', !fmap_app, Hs.
  - apply Forall_app. split; [done|by apply Forall_singleton].
Qed.

Section loop.
Context `{Os}.

Lemma links_loop_once als : ∀ s added seen, Forall link_wf als.*2 → marks added seen →
  (st ← for_each links_body (s, added) als; Ok st.1) = for_each setup_link s (once seen als.*2).
Proof.
  induction als as [|[a l] als IH]; intros s added seen Hwf Hm; [done|].
  cbn [fmap list_fmap] in Hwf. apply Forall_cons in Hwf as [[Hl1 Hl2] Hwf].
  cbn [for_each fmap list_fmap once snd].
  pose proof (marks_find added seen (l_node1 l) Hm Hl1) as Hf.
  assert (links_body (s, added) (a, l) =
    match HASH_FIND (np_bytes (l_node1 l)) added with
    | Some _ => Ok (s, added)
    | None => s ← setup_link s l;
              Ok (s, HASH_ADD (fresh_addr added) (Link (l_node2 l) (l_node1 l) 0 0) added)
    end) as -> by done.
  destruct (HASH_FIND _ added) as [x|].
  - case_decide as Hin; [|by apply Hf in Hin]. cbn [mbind outcome_bind]. by apply IH.
  - rewrite decide_False by (by apply Hf). cbn [for_each]. cbn in Hl2.
    destruct (setup_link s l) as [s'|e]; [|done]. cbn [mbind outcome_bind]. apply IH; [done|].
    apply (marks_add added seen (Link (l_node2 l) (l_node1 l) 0 0) Hm Hl2).
Qed.

Lemma for_each_inv {A S} (body : S → A → outcome S) (I : S → Prop) l :
  (∀ s x s', body s x = Ok s' → I s → I s') → ∀ s s', for_each body s l = Ok s' → I s → I s'.
Proof.
  intros Hb. induction l as [|x l IH]; intros s s' E Hs; cbn [for_each] in E; inv_ok; [by simplify_eq|].
  eauto.
Qed.

Lemma start_routers_topo s s' : start_routers s = Ok s' → sy_topo s' = sy_topo s.
Proof.
  intros E. apply (for_each_inv _ (λ x, sy_topo x = sy_topo s)) in E; [done| |done].
  intros x rn x' Hx <-. inv_ok. done.
Qed.

Lemma setup_routers_once s : Forall link_wf (ht_elems (t_links (sy_topo s))).*2 →
  setup_routers s =
  (s1 ← start_routers s;
   s2 ← for_each setup_link s1 (once [] (ht_elems (t_links (sy_topo s))).*2);
   start_router_daemons s2).
Proof.
  intros Hwf. unfold setup_routers. destruct (start_routers s) as [s1|e] eqn:E; [|done].
  cbn [mbind outcome_bind]. apply start_routers_topo in E. rewrite E.
  rewrite <- (links_loop_once _ s1 None []) by (done || by split). by destruct (for_each _ _ _).
Qed.
End loop.

(** ** Topologies *)

Lemma reachable_irreflexive t : topo_reachable t → ∀ np lat, np_wf np →
  topology_next_hop t (np_uuid np) (np_port np) ≠ Some (np, lat).
Proof.
  induction 1 as [|t a r Hr IH _|t a dp Hr IH _|t a h Hr IH _|t A B bw lat Hr IH HA HB Hne HfA HfB];
    intros np lat' Hnp; [done|exact (IH np lat' Hnp)..|].
  destruct (topo_reachable_ok t Hr) as [W _].
  destruct (topology_node t (np_uuid A)) as [[x n]|] eqn:EA;
    [|rewrite add_link_unknown by (by left); by apply IH].
  destruct (topology_node t (np_uuid B)) as [[y m]|] eqn:EB;
    [|rewrite add_link_unknown by (by right); by apply IH].
  destruct (add_link_ok t A B lat bw x n y m) as (_ & _ & _ & H'); [done..|].
  rewrite H' by done. repeat case_decide; [congruence..|by apply IH].
Qed.

Lemma reachable_paired t : topo_reachable t →
  paired (ht_elems (t_links t)).*2 ∧ Forall link_wf (ht_elems (t_links t)).*2.
Proof.
  intros Hr. destruct (topo_reachable_ok t Hr) as [W S]. pose proof (reachable_irreflexive t Hr) as Irr.
  assert (∀ l, l ∈ (ht_elems (t_links t)).*2 → ∃ a, (a, l) ∈ ht_elems (t_links t)) as Hin.
  { intros l ([a l'] & -> & H)%list_elem_of_fmap. by exists a. }
  assert (∀ l, l ∈ (ht_elems (t_links t)).*2 → link_wf l ∧ 
    topology_next_hop t (np_uuid (l_node1 l)) (np_port (l_node1 l)) = Some (l_node2 l, l_latency l)) as Hl.
  { intros l (a & H)%Hin. pose proof (tw_ends _ W a l H) as Hw. split; [exact Hw|].
    apply next_hop_Some; [done|apply Hw|]. by exists a, l. }
  split; [split|].
  - rewrite <- list_fmap_compose. 
    assert (NoDup (ht_elems (t_links t))) as Hnd by (eapply NoDup_fmap_1, (ht_addrs_NoDup _ (tw_links _ W))).
    apply NoDup_fmap_2_strong; [|done]. intros [a l] [a' l'] H H' E. cbn in E.
    destruct (tw_ports _ W a l a' l' H H') as [-> ->]; [|done]. unfold key_image, link_keyed. by rewrite E.
  - intros l Hll. destruct (Hl l Hll) as [[H1 H2] Hn]. apply S in Hn as [_ Hn]; [|done].
    apply next_hop_Some in Hn as (a & l' & H' & E1 & E2); [|done..]. simplify_eq.
    exists l'. split; [apply list_elem_of_fmap; by exists (a, l')|done].
  - intros l Hll E. destruct (Hl l Hll) as [[H1 H2] Hn]. rewrite <- E in Hn. by apply Irr in Hn.
  - apply Forall_forall. intros l Hll. by apply Hl.
Qed.

Lemma once_sublist seen ls : once seen ls `sublist_of` ls.
Proof.
  revert seen. induction ls as [|l ls IH]; intros seen; [done|]. cbn [once].
  case_decide; [by apply sublist_cons|by apply sublist_skip].
Qed.

(** C16. Setting the routers up goes through the links of any topology in order and
    sets a link up exactly when no link that was set up before it ends at the port it leaves
    from; before that it starts the routers and after it their daemons.  So in a topology
    that was built from undirected links, each between two different ports that were
    free, every connection, which the topology holds once in each direction, is set
    up exactly once.  (A link without its way back is set up too, and one that is added
    twice is set up twice.) *)
Theorem setup_links_once `{Os} s :
  let links := (ht_elems (t_links (sy_topo s))).*2 in Forall link_wf links →
  ∃ chosen, setup_routers s =
    (s1 ← start_routers s; s2 ← for_each setup_link s1 chosen; start_router_daemons s2) ∧
    (∀ p l q, links = p ++ l :: q → ∃ before after,
       chosen = before ++ (if decide (l_node1 l ∈ l_node2 <$> before) then [] else [l]) ++ after ∧
       before `sublist_of` p ∧ after `sublist_of` q) ∧
    (topo_reachable (sy_topo s) → NoDup chosen ∧ ∀ l, l ∈ links →
       ∃ l', l' ∈ links ∧ l_node1 l' = l_node2 l ∧ l_node2 l' = l_node1 l ∧
         (l ∈ chosen ↔ l' ∉ chosen)).
Proof.
  intros links Hwf. exists (once [] links). split; [by apply setup_routers_once|]. split.
  - intros p l q ->. rewrite once_app. cbn [once Datatypes.app]. set (before := once [] p).
    exists before. case_decide; eexists; (split; [reflexivity|]); split; apply once_sublist.
  - intros Hr. destruct (reachable_paired _ Hr) as [Hp _]. split.
    + apply once_NoDup. eapply NoDup_fmap_1, (pa_nodup _ Hp).
    + intros l Hl. by apply once_exactly.
Qed.

(** ** The interfaces of one link *)

Lemma node_at_update t a g a' :
  ht_wf (t_nodes t) → (∀ n, (a, n) ∈ ht_elems (t_nodes t) → net_uuid (g n) = net_uuid n) →
  EventHandler.node_at (node_update a g t) a' =
  (λ n, if decide (a' = a) then g n else n) <$> EventHandler.node_at t a'.
Proof.
  intros Hwf Hg. destruct (ht_update_spec a g (t_nodes t) Hwf) as [_ He].
  { intros n Hn. unfold key_image, net_node_keyed. by rewrite Hg. }
  unfold EventHandler.node_at, node_update. cbn [t_nodes setf]. rewrite He.
  rewrite (first_ext_fmap _ (λ av, bool_decide (av.1 = a'))).
  2: { intros [x n]. unfold elem_update. cbn [fst]. case_decide; [subst|]; done. }
  destruct (first _ _) as [[x n]|] eqn:E; [|done]. cbn [fmap option_fmap option_map snd].
  apply first_Some in E as [_ Hx%bool_decide_eq_true]. cbn [fst] in Hx. subst x.
  unfold elem_update. cbn [fst snd]. by case_decide.
Qed.

Lemma digits_text fuel z acc : 0 ≤ z → Forall (λ c, c ≠ 0) acc → Forall (λ c, c ≠ 0) (digits fuel z acc).
Proof.
  revert z acc. induction fuel as [|fuel IH]; intros z acc Hz Ha; cbn [digits]; [done|].
  pose proof (Z.mod_pos_bound z 10 ltac:(done)).
  assert (Forall (λ c, c ≠ 0) ((48 + z mod 10) :: acc)) as Hc by (constructor; [lia|done]).
  case_match; [done|]. apply IH; [|done]. apply Z.div_pos; lia.
Qed.

Lemma c_string_text l : Forall (λ c, c ≠ 0) (c_string l).
Proof.
  induction l as [|c l IH]; [done|]. cbn [c_string]. destruct (Z.eqb_spec c 0); [done|by constructor].
Qed.

Lemma intf_name_text r infix i : 0 ≤ i → Forall (λ c, c ≠ 0) infix → Forall (λ c, c ≠ 0) (intf_name r infix i).
Proof. intros. unfold intf_name. rewrite !Forall_app. split; [apply c_string_text|split; [done|by apply digits_text]]. Qed.

Lemma intf_name_length r infix i :
  length (intf_name r infix i) =
  (length (c_string (router_name r)) + length infix + length (print_u32 i))%nat.
Proof. unfold intf_name. rewrite !length_app. lia. Qed.

(** The size given to [snprintf] never cuts the digits of the mask. *)
Lemma netmask_text m : 0 ≤ m ≤ 32 → snprintf 5 (Z.to_nat (m / 10 + 2)) (print_u32 m) = Ok (print_u32 m).
Proof.
  intros Hm. assert (m ∈ seqZ 0 33) as Hin by (apply elem_of_seqZ; lia). clear Hm. revert m Hin.
  apply Forall_forall. repeat (apply Forall_cons_2; [vm_compute; reflexivity|]). apply Forall_nil_2.
Qed.

(** [ifconfig <interface> <address>/<prefix length> up] in the router's name space. *)
Definition address_command (r : router) (intf : list Z) (info : ipv4_info) : command :=
  Run (Some (c_string (router_name r)))
    (lit "ifconfig " ++ intf ++ lit " " ++ inet_ntop4 (be_bytes 4 (v4_addr info)) ++ lit "/" ++
     print_u32 (popcount (v4_netmask info)) ++ lit " up").

Lemma bind_eq {A B} (m : outcome A) (k : A → outcome B) a b : m = Ok a → k a = b → (m ≫= k) = b.
Proof. by intros -> <-. Qed.

Lemma popcount_32 n : in_width 32 n → 0 ≤ popcount n ≤ 32.
Proof. intros Hm. pose proof (popcount_nonneg n). pose proof (popcount_le 32 _ Hm). lia. Qed.

Lemma configure_router_port_ok r p info :
  p_ipv4_addr p = Some info → in_width 32 (v4_netmask info) →
  configure_router_port r p = Ok [address_command r (c_string (p_name p)) info].
Proof.
  intros Hi Hm. unfold configure_router_port.
  destruct (get_ip_str_ok (be_bytes 4 (v4_addr info)) (replicate INET_ADDRSTRLEN 0)
    (be_bytes_wf 4 _) (length_replicate _ _)) as (str & E & Ht).
  eapply bind_eq; [rewrite Hi; reflexivity|].
  eapply bind_eq; [by apply count_set_bits_popcount|].
  eapply bind_eq; [by apply netmask_text, popcount_32|].
  eapply bind_eq; [exact E|]. rewrite Ht. reflexivity.
Qed.

(** A router whose port tables and name arrays are those of [node_add_port]. *)
Record router_ready (t : topology) (a : addr) (r : router) : Prop := {
  rr_at : router_at t a = Ok r;
  rr_base : Node.node_wf (ln_base (r_ln r));
  rr_ports : ∀ i pa p, router_port r i = Some (pa, p) → length (p_name p) = MAX_PORT_NAME }.

Lemma router_at_Some t a r : router_at t a = Ok r ↔ EventHandler.node_at t a = Some (NRouter r).
Proof.
  unfold router_at. destruct (EventHandler.node_at t a) as [[]|]; cbn; split; intros H; by simplify_eq.
Qed.

(** Naming a port and, when it has an address, configuring it. *)
Lemma name_port_ok s a r i intf pa p :
  ht_wf (t_nodes (sy_topo s)) → router_ready (sy_topo s) a r → in_width 32 i →
  router_port r i = Some (pa, p) → (length intf < MAX_PORT_NAME)%nat → Forall (λ c, c ≠ 0) intf →
  (∀ info, p_ipv4_addr p = Some info → in_width 32 (v4_netmask info)) →
  ∃ s' r' p', name_port s a i intf = Ok s' ∧
    sy_log s' = sy_log s ++ match p_ipv4_addr p with
                            | Some info => [address_command r intf info]
                            | None => []
                            end ∧
    router_at (sy_topo s') a = Ok r' ∧ router_port r' i = Some (pa, p') ∧ c_string (p_name p') = intf ∧
    (∀ a', a' ≠ a → router_at (sy_topo s') a' = router_at (sy_topo s) a') ∧ ht_wf (t_nodes (sy_topo s')).
Proof.
  intros Hwf [Hat Hb Hports] Hi Hp Hl Ht Hinfo. unfold name_port. rewrite Hat. cbn [mbind outcome_bind].
  rewrite Hp. unfold port_set_name. rewrite decide_True by lia.
  rewrite mem_write_prefix by (rewrite length_app, (Hports _ _ _ Hp); cbn [length]; lia).
  cbn [mbind outcome_bind]. set (name := (intf ++ [0]) ++ _). set (p' := p <| p_name := name |>).
  set (g := λ q : port, q <| p_name := p_name p' |>).
  set (r' := r <| r_ln; ln_base ::= port_update pa g |>).
  set (s1 := s <| sy_topo ::= _ |>).
  assert (c_string name = intf) as Hname by (unfold name; rewrite <- app_assoc; by apply c_string_nul).
  apply router_at_Some in Hat as Hn. pose proof (node_at_in _ _ _ Hn) as Hin.
  assert (∀ n, (a, n) ∈ ht_elems (t_nodes (sy_topo s)) → net_uuid (NRouter r') = net_uuid n) as Hu.
  { intros n Hnin. by rewrite (NoDup_fst_inj _ _ _ _ (ht_addrs_NoDup _ Hwf) Hnin Hin). }
  assert (∀ a', router_at (sy_topo s1) a' = if decide (a' = a) then Ok r' else router_at (sy_topo s) a') as Hr1.
  { intros a'. unfold router_at, s1. cbn [sy_topo setf].
    rewrite (node_at_update _ a (λ _, NRouter r') a' Hwf Hu).
    case_decide; [subst a'; by rewrite Hn|]. by destruct (EventHandler.node_at _ a'). }
  assert (router_port r' i = Some (pa, p')) as Hp'.
  { change (router_port r' i) with (node_port (port_update pa g (ln_base (r_ln r))) i).
    rewrite node_port_update by done. change (node_port _ i) with (router_port r i). rewrite Hp.
    cbn. by rewrite decide_True. }
  assert (ht_wf (t_nodes (sy_topo s1))) as Hwf1.
  { apply ht_update_spec; [done|]. intros n Hnin. unfold key_image, net_node_keyed. by rewrite (Hu n Hnin). }
  change (p_ipv4_addr p') with (p_ipv4_addr p).
  destruct (p_ipv4_addr p) as [info|] eqn:Einfo.
  - rewrite (configure_router_port_ok r p' info) by (done || by apply Hinfo). cbn [mbind outcome_bind].
    exists (emit [address_command r (c_string (p_name p')) info] s1), r', p'.
    change (p_name p') with name. rewrite Hname. split; [done|]. split; [done|].
    change (sy_topo (emit _ s1)) with (sy_topo s1). rewrite Hr1, decide_True by done.
    split_and!; try done. intros a' Hne. by rewrite Hr1, decide_False.
  - exists s1, r', p'. rewrite app_nil_r. rewrite Hr1, decide_True by done.
    split_and!; try done. intros a' Hne. by rewrite Hr1, decide_False.
Qed.

Lemma pair_names_fit r i : Node.node_wf (ln_base (r_ln r)) →
  (length (intf_name r (lit "-eth") i) < MAX_PORT_NAME)%nat.
Proof.
  intros Hn. rewrite intf_name_length. pose proof (nw_nul _ Hn). pose proof (print_u32_length i).
  unfold router_name. change (length (lit "-eth")) with 4%nat. unfold MAX_PORT_NAME, MAX_NODE_NAME in *. lia.
Qed.

(** The text of a list of characters that are not NUL. *)
Lemma lit_eth_text : Forall (λ c, c ≠ 0) (lit "-eth").
Proof. apply (bool_decide_unpack _). vm_compute. exact I. Qed.

Definition address_commands (r : router) (intf : list Z) (p : port) : list command :=
  match p_ipv4_addr p with Some info => [address_command r intf info] | None => [] end.
Definition masks_wf (p : port) : Prop := ∀ info, p_ipv4_addr p = Some info → in_width 32 (v4_netmask info).

(** A link between two routers becomes a pair of connected interfaces: the name
    buffers suffice, one command creates an interface in each router's name space,
    named after the router and its port, each end with an address then gets exactly
    its address and prefix length, and the ports of the topology carry the names. *)
Theorem pair_link_commands s a1 a2 r1 r2 i1 i2 pa1 pa2 p1 p2 :
  ht_wf (t_nodes (sy_topo s)) → router_ready (sy_topo s) a1 r1 → router_ready (sy_topo s) a2 r2 → a1 ≠ a2 →
  in_width 32 i1 → in_width 32 i2 →
  router_port r1 i1 = Some (pa1, p1) → router_port r2 i2 = Some (pa2, p2) → masks_wf p1 → masks_wf p2 →
  let intf1 := intf_name r1 (lit "-eth") i1 in let intf2 := intf_name r2 (lit "-eth") i2 in
  ∃ s' r1' r2' p1' p2', setup_router_pair_link s a1 i1 a2 i2 = Ok s' ∧
    sy_log s' = sy_log s ++
      [Run None (lit "ip link add " ++ intf1 ++ lit " netns " ++ c_string (router_name r1) ++
                 lit " type veth peer name " ++ intf2 ++ lit " netns " ++ c_string (router_name r2))] ++
      address_commands r1 intf1 p1 ++ address_commands r2 intf2 p2 ∧
    router_at (sy_topo s') a1 = Ok r1' ∧ router_port r1' i1 = Some (pa1, p1') ∧ c_string (p_name p1') = intf1 ∧
    router_at (sy_topo s') a2 = Ok r2' ∧ router_port r2' i2 = Some (pa2, p2') ∧ c_string (p_name p2') = intf2.
Proof.
  intros Hwf R1 R2 Hne Hi1 Hi2 Hp1 Hp2 Hm1 Hm2 intf1 intf2.
  pose proof (pair_names_fit r1 i1 (rr_base _ _ _ R1)) as Hl1.
  pose proof (pair_names_fit r2 i2 (rr_base _ _ _ R2)) as Hl2.
  unfold setup_router_pair_link. rewrite (rr_at _ _ _ R1). cbn [mbind outcome_bind].
  rewrite (rr_at _ _ _ R2). cbn [mbind outcome_bind].
  rewrite (sprintf_ok _ _ Hl1). cbn [mbind outcome_bind]. rewrite (sprintf_ok _ _ Hl2). cbn [mbind outcome_bind].
  fold intf1 intf2 in Hl1, Hl2 |- *. set (s0 := emit _ s).
  destruct (name_port_ok s0 a1 r1 i1 intf1 pa1 p1) as (s1 & r1' & p1' & E1 & L1 & At1 & P1 & N1 & Fr1 & W1);
    try done; [by apply intf_name_text; [apply Hi1|apply lit_eth_text]|].
  rewrite E1. cbn [mbind outcome_bind].
  assert (router_ready (sy_topo s1) a2 r2) as R2'.
  { destruct R2 as [H1 H2 H3]. split; [|done..]. by rewrite Fr1. }
  destruct (name_port_ok s1 a2 r2 i2 intf2 pa2 p2) as (s2 & r2' & p2' & E2 & L2 & At2 & P2 & N2 & Fr2 & W2);
    try done; [by apply intf_name_text; [apply Hi2|apply lit_eth_text]|].
  exists s2, r1', r2', p1', p2'. split; [done|]. rewrite L2, L1, Fr2 by done.
  split; [unfold s0, emit; cbn [sy_log setf add_veth_pair]; by rewrite <- !app_assoc|]. done.
Qed.

(** The interface to a node that is not a router: both names go to arrays of 42 bytes,
    which a name of the greatest length overflows for ports above 99. *)
Theorem nonrouter_names_overflow s a r i :
  router_at (sy_topo s) a = Ok r →
  (33 < length (c_string (router_name r)) + length (print_u32 i))%nat →
  setup_router_nonrouter_link s a i = Fault OutOfBounds.
Proof.
  intros Hr Hl. unfold setup_router_nonrouter_link. rewrite Hr. cbn [mbind outcome_bind].
  destruct (sprintf 42 (intf_name r (lit "-eth") i)) as [intf1|e] eqn:E.
  - cbn [mbind outcome_bind]. unfold sprintf. rewrite decide_False; [done|].
    rewrite intf_name_length. change (length (lit "-ext-eth")) with 8%nat. lia.
  - unfold sprintf in E. case_decide; by simplify_eq.
Qed.

(** ** Witnesses *)

(** Two routers with one port each. *)
Definition blank_base (uuid : Z) (name : string) : node :=
  (node_init uuid ROUTER).2 <| n_name := lit name ++ replicate (32 - length (lit name)) 0 |>.
Definition sample_base (uuid : Z) (name : string) (ip : Z) : node :=
  match node_add_port (blank_base uuid name) 1 1 (replicate 6 9) 1000000 1000000 with
  | Ok n => port_update 1 (λ p, port_add_v4addr p ip (prefix_mask 24)) n
  | Fault _ => blank_base uuid name
  end.
Definition sample_emulated (uuid : Z) (name : string) (ip : Z) : router :=
  Router (LegacyNode (sample_base uuid name ip) None blank_rt) ip false None [].

Lemma sample_base_wf uuid name ip :
  (length (lit name) < 32)%nat → 0 ∉ lit name →
  Node.node_wf (sample_base uuid name ip) ∧
  ht_elems (n_ports (sample_base uuid name ip)) =
    [(1%nat, port_add_v4addr (named_port (blank_base uuid name) 1 (replicate 6 9) 1000000 1000000) ip (prefix_mask 24))].
Proof.
  intros Hl H0. assert (Node.node_wf (blank_base uuid name)) as Hw.
  { split; cbn -[replicate lit].
    - rewrite length_app, length_replicate. unfold MAX_NODE_NAME. lia.
    - destruct (32 - length (lit name))%nat as [|k] eqn:E; [lia|]. cbn [replicate].
      rewrite c_string_nul; [done|]. apply Forall_forall. by intros c Hc ->.
    - exact I.
    - intros ???? Hx. by apply not_elem_of_nil in Hx.
    - intros ?? Hx. by apply not_elem_of_nil in Hx. }
  unfold sample_base.
  destruct (node_add_port_spec (blank_base uuid name) 1 1 (replicate 6 9) 1000000 1000000 Hw)
    as (n & -> & Hn & He); [apply not_elem_of_nil|by split|done|].
  split; [by apply port_update_wf|].
  destruct (port_update_elems 1 (λ p, port_add_v4addr p ip (prefix_mask 24)) n (nw_table n Hn)) as [_ ->];
    [done|]. rewrite He. reflexivity.
Qed.

Definition sample_net : topology :=
  topology_add_router (topology_add_router topology_new 1 (sample_emulated 0 "r1" 0x0a000001)) 2
    (sample_emulated 1 "r2" 0x0a000002).
Definition sample_sys (t : topology) : sys := Sys t ∅ (InternalBytes 0 0) [].

Lemma sample_ready uuid name ip a : (length (lit name) < 32)%nat → 0 ∉ lit name →
  length (p_name (named_port (blank_base uuid name) 1 (replicate 6 9) 1000000 1000000)) = MAX_PORT_NAME →
  router_at sample_net a = Ok (sample_emulated uuid name ip) →
  router_ready sample_net a (sample_emulated uuid name ip).
Proof.
  intros Hl H0 Hname Hat. destruct (sample_base_wf uuid name ip Hl H0) as [Hw He]. split; [done|done|].
  intros i pa p Hp. apply HASH_FIND_Some in Hp as [Hin _]; [|by apply Hw].
  change (n_ports _) with (n_ports (sample_base uuid name ip)) in Hin. rewrite He in Hin.
  by apply list_elem_of_singleton in Hin as [= -> ->].
Qed.

Lemma sample_net_reachable : topo_reachable sample_net.
Proof.
  apply topo_router; [apply topo_router; [apply topo_new|]|].
  - split; [|split]; [by vm_compute; split|reflexivity|apply not_elem_of_nil].
  - split; [|split]; [by vm_compute; split|vm_compute; reflexivity|].
    rewrite <-(bool_decide_eq_false _). vm_compute. reflexivity.
Qed.

Ltac ready := apply sample_ready;
  [apply Nat.ltb_lt; reflexivity|apply (bool_decide_unpack _); vm_compute; exact I
  |vm_compute; reflexivity|vm_compute; reflexivity].

Lemma pair_link_commands_witness :
  ∃ s', setup_router_pair_link (sample_sys sample_net) 1 1 2 1 = Ok s' ∧
    sy_log s' =
      [Run None (lit "ip link add r1-eth1 netns r1 type veth peer name r2-eth1 netns r2");
       Run (Some (lit "r1")) (lit "ifconfig r1-eth1 10.0.0.1/24 up");
       Run (Some (lit "r2")) (lit "ifconfig r2-eth1 10.0.0.2/24 up")].
Proof.
  destruct (pair_link_commands (sample_sys sample_net) 1 2
    (sample_emulated 0 "r1" 0x0a000001) (sample_emulated 1 "r2" 0x0a000002) 1 1 1 1
    (port_add_v4addr (named_port (blank_base 0 "r1") 1 (replicate 6 9) 1000000 1000000) 0x0a000001 (prefix_mask 24))
    (port_add_v4addr (named_port (blank_base 1 "r2") 1 (replicate 6 9) 1000000 1000000) 0x0a000002 (prefix_mask 24)))
    as (s' & _ & _ & _ & _ & E & L & _).
  - exact (tw_nodes _ (proj1 (topo_reachable_ok _ sample_net_reachable))).
  - ready.
  - ready.
  - discriminate.
  - split; done.
  - split; done.
  - vm_compute. reflexivity.
  - vm_compute. reflexivity.
  - intros info [= <-]. split; vm_compute; congruence.
  - intros info [= <-]. split; vm_compute; congruence.
  - exists s'. split; [exact E|]. rewrite L. vm_compute. reflexivity.
Defined.

Definition sample_linked : topology := topology_add_link sample_net 1 2 1 1 100 5 false.

Lemma sample_linked_reachable : topo_reachable sample_linked.
Proof.
  apply (topo_link sample_net (NodePort 1 1) (NodePort 2 1) 100 5 sample_net_reachable);
    [split; split; done|split; split; done|discriminate|vm_compute; reflexivity|vm_compute; reflexivity].
Qed.
Lemma setup_links_once_witness :
  ∃ chosen, @setup_routers sample_os (sample_sys sample_linked) =
      (s1 ← @start_routers sample_os (sample_sys sample_linked);
       s2 ← for_each setup_link s1 chosen; @start_router_daemons sample_os s2) ∧ NoDup chosen.
Proof.
  destruct (@setup_links_once sample_os (sample_sys sample_linked)) as (chosen & E & _ & H).
  - exact (proj2 (reachable_paired _ sample_linked_reachable)).
  - destruct (H sample_linked_reachable) as [Hn _]. exists chosen. split; [exact E|exact Hn].
Defined.

(** The same link added twice is set up twice. *)
Example repeated_link_commands :
  (s ← for_each links_body (sample_sys sample_linked, None)
         (ht_elems (t_links (topology_add_link sample_linked 1 2 1 1 100 5 false)));
   Ok (length (sy_log s.1))) = Ok 6%nat.
Proof. vm_compute. reflexivity. Qed.

(** The run: two directed links, one pair of interfaces. *)
Example sample_links_commands :
  (s ← for_each links_body (sample_sys sample_linked, None) (ht_elems (t_links sample_linked));
   Ok (length (sy_log s.1))) = Ok 3%nat.
Proof. vm_compute. reflexivity. Qed.
