(* ===== verification/Teardown.v ===== *)
(** * Teardown: releasing what a simulation has built

    Models the functions that take the state down: [Clear_Patricia] and
    [Destroy_Patricia] of [vendor/patricia/patricia.c], [route_table_clean],
    [legacy_node_clean], [host_destroy], [router_destroy], [topology_destroy], the
    commands of [sim_close] and the wait for the switches in [sim/sim.c].  Memory that
    is released is returned: the values stored in a tree, and the addresses of the
    elements of the hash tables.

    Theorems: emptying a prefix tree visits every stored value exactly once, within
    its stack of fixed size, and ends with a node count of zero, so that cleaning a
    routing table releases exactly its routes; destroying a topology empties its
    tables, releases every node once and stops every router; the wait for the
    switches ends after at most eleven looks. *)

From stdpp Require Import strings prelude gmap.
From S2P Require Import Prelude Util Uthash Action FlowKey Netflow Node Inet FlowTable Datapath Patricia.
From S2P Require Import RouteTable LegacyNode Host Router Topology Scheduler EventHandler.
From S2P Require Import Server HorseDaemon Daemons Sim Setup.

(** ** Prefix trees *)

Section clear.
Context {V : Type}.
Implicit Types (t l r : ptree V) (p : patricia_tree V).

(** The loop of [Clear_Patricia]: [t] is [Xrn], the count is decremented for each
    node, and the assertion fails for data without a prefix. *)
Fixpoint clear_loop (fuel : nat) (stack : list (ptree V)) (n : Z) (freed : list V) t
  : outcome (Z * list V) :=
  match t with
  | PNull => Ok (n, freed)
  | PNode _ prefix data l r =>
      match fuel with
      | O => Fault OutOfFuel
      | S fuel =>
          freed ← match prefix, data with
                  | Some _, Some v => Ok (freed ++ [v])
                  | Some _, None | None, None => Ok freed
                  | None, Some _ => Fault Aborted
                  end;
          match l, r with
          | PNode _ _ _ _ _, PNode _ _ _ _ _ =>
              if decide (length stack ≤ PATRICIA_MAXBITS)%nat
              then clear_loop fuel (r :: stack) (n - 1) freed l
              else Fault OutOfBounds
          | PNode _ _ _ _ _, PNull => clear_loop fuel stack (n - 1) freed l
          | PNull, PNode _ _ _ _ _ => clear_loop fuel stack (n - 1) freed r
          | PNull, PNull =>
              match stack with
              | x :: stack => clear_loop fuel stack (n - 1) freed x
              | [] => Ok (n - 1, freed)
              end
          end
      end
  end.

Fixpoint psize t : nat :=
  match t with PNull => 0 | PNode _ _ _ l r => S (psize l + psize r) end.

(** The last assertion of the function is on the count of nodes. *)
Definition Clear_Patricia p : outcome (list V) :=
  x ← clear_loop (psize (pt_head p)) [] (pt_num_active_node p) [] (pt_head p);
  if x.1 =? 0 then Ok x.2 else Fault Aborted.

(** With the count of trees, a static variable. *)
Definition Destroy_Patricia (num_active_patricia : Z) p : outcome (Z * list V) :=
  freed ← Clear_Patricia p; Ok (num_active_patricia - 1, freed).

(** *** The values of a tree, in preorder *)

Definition values t : list V := omap snd (pelems t).

(** The [k] entries below a tree in the stack come from ancestors with smaller bits. *)
Fixpoint stack_ok (m : nat) (stack : list (ptree V)) : Prop :=
  match stack with
  | [] => True
  | t :: stack => t ≠ PNull ∧ pwf m t ∧ (length stack < root_bit t)%nat ∧ stack_ok m stack
  end.

Definition stack_size (stack : list (ptree V)) : nat := sum_list_with psize stack.

Lemma pelems_values (prefix : option prefix_t) (data : option V) bit l r :
  values (PNode bit prefix data l r) =
  match prefix, data with Some _, Some v => [v] | _, _ => [] end ++ values l ++ values r.
Proof.
  unfold values. cbn [pelems]. rewrite !omap_app. by destruct prefix as [q|]; [destruct data|].
Qed.

Lemma clear_loop_ok m : (m ≤ PATRICIA_MAXBITS)%nat → ∀ fuel stack n freed t,
  pwf m t → t ≠ PNull → (length stack ≤ root_bit t)%nat → stack_ok m stack →
  (psize t + stack_size stack ≤ fuel)%nat →
  clear_loop fuel stack n freed t =
  Ok (n - Z.of_nat (psize t + stack_size stack), freed ++ values t ++ concat (values <$> stack)).
Proof.
  intros Hm. induction fuel as [|fuel IH]; intros stack n freed t Hwf Hne Hb Hst Hf.
  { destruct t; [done|]. cbn in Hf. lia. }
  destruct t as [|b prefix data l r]; [done|]. cbn [clear_loop].
  destruct Hwf as (Hbm & Hpre & Hl & Hr & _ & Wl & Wr). cbn [root_bit] in Hb. cbn [psize] in Hf.
  set (vs := match prefix, data with Some _, Some v => [v] | _, _ => [] end).
  assert (match prefix, data with
          | Some _, Some v => Ok (freed ++ [v])
          | Some _, None | None, None => Ok freed
          | None, Some _ => Fault Aborted
          end = Ok (freed ++ vs)) as ->.
  { unfold vs. destruct prefix as [q|]; [by destruct data; rewrite ?app_nil_r|].
    destruct Hpre as (_ & _ & ->). by rewrite app_nil_r. }
  cbn [mbind outcome_bind]. rewrite pelems_values. fold vs.
  destruct l as [|lb lp ld ll lr]; [clear Hl|destruct Hl as [Hlb _]; [done|]; cbn [root_bit] in Hlb; set (l := PNode lb _ _ _ _) in *];
  (destruct r as [|rb rp rd rl rr]; [clear Hr|destruct Hr as [Hrb _]; [done|]; cbn [root_bit] in Hrb; set (r := PNode rb _ _ _ _) in *]).
  - destruct stack as [|x stack]; cbn [psize] in *.
    + cbn. by rewrite !app_nil_r.
    + destruct Hst as (Hx & Wx & Hlx & Hst). unfold stack_size in *. cbn [sum_list_with] in *.
      rewrite IH; [|done|done|lia|done|unfold stack_size; lia].
      cbn [fmap list_fmap concat]. change (values PNull) with (@nil V). rewrite !app_nil_r, <- app_assoc.
      do 2 f_equal. unfold stack_size. lia.
  - rewrite IH; [|done|done|cbn [root_bit r]; lia|done|cbn [psize] in *; lia].
    change (values PNull) with (@nil V). cbn [Datatypes.app]. rewrite <- !app_assoc.
    do 2 f_equal. cbn [psize]. lia.
  - rewrite IH; [|done|done|cbn [root_bit l]; lia|done|cbn [psize] in *; lia].
    change (values PNull) with (@nil V). cbn [Datatypes.app]. rewrite <- !app_assoc.
    do 2 f_equal. cbn [psize]. lia.
  - rewrite decide_True by lia. rewrite IH; [|done|done|cbn [root_bit l length]; lia|..].
    + cbn [fmap list_fmap concat]. rewrite <- !app_assoc. do 2 f_equal.
      unfold stack_size. cbn [psize sum_list_with]. lia.
    + cbn [stack_ok]. split_and!; [done|done|cbn [root_bit r]; lia|done].
    + unfold stack_size in *. cbn [psize sum_list_with] in *. lia.
Qed.

(** *** The count of nodes *)

Definition counted p : Prop := pt_num_active_node p = Z.of_nat (psize (pt_head p)).

Definition frame_size (f : frame V) : nat := S (psize (fr_other f)).

Lemma psize_fill f t : psize (fill f t) = (frame_size f + psize t)%nat.
Proof. unfold fill, frame_size. destruct (fr_right f); cbn [psize]; lia. Qed.
Lemma psize_plug ctx t : psize (plug ctx t) = (sum_list_with frame_size ctx + psize t)%nat.
Proof.
  unfold plug. revert t. induction ctx as [|f ctx IH]; intros t; cbn [foldl sum_list_with]; [done|].
  rewrite IH, psize_fill. lia.
Qed.

Lemma descend_plug m addr len ctx t :
  let r := descend m addr len ctx t in plug r.1 r.2 = plug ctx t.
Proof.
  revert ctx. induction t as [|b prefix data l IHl r IHr]; intros ctx; cbn [descend]; [done|].
  destruct (_ || _); [|done]. destruct (go_right _ _ _).
  - destruct r as [|rb rp rd rl rr]; [done|]. cbv zeta. apply IHr.
  - destruct l as [|lb lp ld ll lr]; [done|]. cbv zeta. apply IHl.
Qed.
Lemma up_plug d ctx t : let r := up d ctx t in plug r.1 r.2 = plug ctx t.
Proof.
  revert t. induction ctx as [|f ctx IH]; intros t; cbn [up]; [done|].
  destruct (_ <=? _)%nat; [|done]. cbv zeta. rewrite IH. done.
Qed.

Lemma insert_at_size m prefix test d ctx node head path n :
  insert_at m prefix test d ctx node = Ok (head, path, n) →
  Z.of_nat (psize head) = Z.of_nat (psize (plug ctx node)) + n.
Proof.
  unfold insert_at. destruct node as [|b np nd l r]; [done|]. intros H.
  repeat case_match; simplify_eq; rewrite ?psize_plug; unfold leaf; cbn [psize]; lia.
Qed.

(** Finding or inserting a prefix counts the nodes it allocates. *)
Lemma patricia_lookup_counted p prefix p' path :
  patricia_lookup p prefix = Ok (p', path) → counted p → counted p'.
Proof.
  unfold patricia_lookup, counted. destruct (decide _) as [Hlen|]; [|done].
  destruct (pt_head p) as [|hb hp hd hl hr] eqn:Eh.
  { intros [= <- <-] Hc. cbn. rewrite Hc. done. }
  set (head := PNode hb hp hd hl hr).
  pose proof (descend_plug (pt_maxbits p) (px_add prefix) (px_bitlen prefix) [] head) as Hd.
  destruct (descend _ _ _ _ _) as [ctx node]. cbv zeta in Hd. cbn [fst snd] in Hd.
  change (plug [] head) with head in Hd.
  destruct node as [|b [test|] d l r]; [done| |done].
  destruct (differ_loop _ _ _ _ _) as [df|]; [|done]. cbn [mbind outcome_bind].
  match goal with |- context [up ?x ctx ?y] => pose proof (up_plug x ctx y) as Hu; destruct (up x ctx y) as [ctx' node'] end.
  cbv zeta in Hu. cbn [fst snd] in Hu.
  destruct (insert_at _ _ _ _ _ _) as [[[head' path'] n]|] eqn:Ei; [|done]. cbn [mbind outcome_bind].
  intros [= <- <-] Hc. apply insert_at_size in Ei. cbn. rewrite Hc, Ei, Hu, Hd. lia.
Qed.

Lemma psize_set_data path v t : psize (set_data path v t) = psize t.
Proof.
  revert path. induction t as [|b prefix data l IHl r IHr]; intros [|[] path]; cbn [set_data psize];
    rewrite ?IHl, ?IHr; done.
Qed.

(** Emptying a tree visits every value once and ends with no node. *)
Lemma Clear_Patricia_ok p : patricia_wf p → counted p → Clear_Patricia p = Ok (values (pt_head p)).
Proof.
  intros Hwf Hc. unfold Clear_Patricia. 
  assert (pt_head p = PNull ∨ pt_head p ≠ PNull) as [E|Hne] by (destruct (pt_head p); auto).
  - unfold counted in Hc. rewrite E in *. cbn in *. rewrite Hc. done.
  - rewrite (clear_loop_ok (pt_maxbits p)); [|apply Hwf|apply Hwf|done|cbn; lia|done|cbn; lia].
    cbn [mbind outcome_bind fst snd]. unfold counted in Hc. rewrite Hc.
    cbn [stack_size sum_list_with fmap list_fmap concat Datatypes.app].
    rewrite app_nil_r, (proj2 (Z.eqb_eq _ _)); [done|]. unfold stack_size. cbn [sum_list_with]. lia.
Qed.
End clear.

(** ** Routing tables *)

(** The array of an entry. *)
Definition free_ipv4_entry (entry : list route_entry_v4) : list (list route_entry_v4) := [entry].
Definition free_ipv6_entry (entry : list route_entry_v6) : list (list route_entry_v6) := [entry].

Definition route_table_clean (num_active_patricia : Z) (rt : route_table)
  : outcome (Z * (list (list route_entry_v4) * list (list route_entry_v6))) :=
  x ← Destroy_Patricia num_active_patricia (rt_ipv4 rt);
  y ← Destroy_Patricia x.1 (rt_ipv6 rt);
  Ok (y.1, (x.2 ≫= free_ipv4_entry, y.2 ≫= free_ipv6_entry)).

(** Well formed, with the count of nodes of each tree and no IPv6 route. *)
Record rt_counted (rt : route_table) : Prop := {
  rc_wf : rt_wf rt;
  rc_ipv4 : counted (rt_ipv4 rt);
  rc_ipv6 : pt_head (rt_ipv6 rt) = PNull ∧ pt_num_active_node (rt_ipv6 rt) = 0 }.

Lemma New_Patricia_ok {V} m : (m ≤ PATRICIA_MAXBITS)%nat →
  New_Patricia (V := V) m = Ok (Patricia PNull m 0).
Proof. intros Hm. unfold New_Patricia. by rewrite decide_True. Qed.

Lemma route_table_init_eq : route_table_init = Ok (RouteTable (Patricia PNull 32 0) (Patricia PNull 128 0)).
Proof.
  unfold route_table_init. eapply bind_eq; [apply New_Patricia_ok, Nat.leb_le; reflexivity|].
  eapply bind_eq; [apply New_Patricia_ok, Nat.leb_le; reflexivity|]. done.
Qed.

Lemma route_table_init_counted rt : route_table_init = Ok rt → rt_counted rt.
Proof.
  intros E. destruct route_table_init_ok as (rt' & E' & Hwf & _).
  assert (rt' = rt) as -> by congruence. rewrite route_table_init_eq in E.
  assert (rt = RouteTable (Patricia PNull 32 0) (Patricia PNull 128 0)) as -> by congruence.
  split; [exact Hwf|reflexivity|split; reflexivity].
Qed.

Lemma add_ipv4_entry_inv rt e rt' : add_ipv4_entry rt e = Ok rt' →
  ∃ t path v, patricia_lookup (rt_ipv4 rt) (entry_prefix e) = Ok (t, path) ∧
    rt' = RouteTable (t <| pt_head ::= set_data path v |>) (rt_ipv6 rt).
Proof.
  unfold add_ipv4_entry. intros E. apply outcome_bind_Ok in E as ([t path] & El & E).
  apply outcome_bind_Ok in E as (n & _ & E). injection E as <-.
  eexists t, path, _. split; [exact El|reflexivity].
Qed.

Lemma add_ipv4_entry_counted rt e rt' :
  entry_wf e → add_ipv4_entry rt e = Ok rt' → rt_counted rt →
  rt_counted rt' ∧ routes rt' ≡ₚ e :: routes rt.
Proof.
  intros He E [Hwf H4 H6]. destruct (add_ipv4_entry_ok rt e Hwf He) as (rt1 & E1 & Hwf1 & Hr).
  assert (rt1 = rt') as -> by congruence. split; [|done].
  destruct (add_ipv4_entry_inv _ _ _ E) as (t & path & v & El & Ert). split; [done|..]; rewrite Ert.
  - pose proof (patricia_lookup_counted _ _ _ _ El H4) as Hc. unfold counted in *.
    etrans; [exact Hc|]. f_equal. symmetry. apply psize_set_data.
  - exact H6.
Qed.

(** Releases the routes, each once, and two trees. *)
Lemma route_table_clean_ok rt n : rt_counted rt →
  ∃ arrays, route_table_clean n rt = Ok (n - 2, (arrays, [])) ∧ concat arrays = routes rt.
Proof.
  intros [Hwf H4 [H6 Hn6]]. unfold route_table_clean, Destroy_Patricia.
  rewrite (Clear_Patricia_ok (rt_ipv4 rt)) by (done || apply Hwf). cbn [mbind outcome_bind fst snd].
  unfold Clear_Patricia. rewrite H6, Hn6. cbn. eexists. split; [do 2 f_equal; lia|].
  unfold routes, elems_routes, values. induction (pelems _) as [|[q d] l IH]; [done|].
  cbn. destruct d as [v|]; cbn [mbind list_bind free_ipv4_entry Datatypes.app concat default] in *; cbn; by rewrite IH.
Qed.

(** ** Nodes *)

(** What is released, by the kind of the object; [FNode] is the node itself. *)
Inductive freed :=
| FPort (a : addr)
| FArp (a : addr)
| FRoutes (array : list route_entry_v4)
| FApp (a : addr)
| FExec (a : addr)
| FFlow (a : addr)
| FNode (a : addr)
| FLink (a : addr)
| FDpEntry (a : addr)
| FRouterEntry (a : addr)
| FHostEntry (a : addr).
#[export] Instance route_list_eq_dec : EqDecision (list route_entry_v4) := _.
#[export] Instance freed_eq_dec : EqDecision freed.
Proof. solve_decision. Defined.

Definition legacy_node_clean (num_active_patricia : Z) (ln : legacy_node)
  : outcome (Z * legacy_node * list freed) :=
  let '(base, ports) := node_destroy_ports (ln_base ln) in
  x ← route_table_clean num_active_patricia (ln_rt ln);
  Ok (x.1, ln <| ln_base := base |> <| ln_at ::= arp_table_clean |>,
      (FPort <$> ports) ++ (FArp <$> ht_addrs (ln_at ln)) ++ (FRoutes <$> x.2.1)).

Definition host_destroy (num_active_patricia : Z) (a : addr) (h : host) : outcome (Z * list freed) :=
  x ← legacy_node_clean num_active_patricia (h_ep h);
  Ok (x.1.1, x.2 ++ (FApp <$> ht_addrs (h_apps h)) ++ (FExec <$> ht_addrs (h_execs h)) ++ [FNode a]).

Definition router_destroy (num_active_patricia : Z) (ds : daemons) (a : addr) (r : router)
  : outcome (Z * list freed * list command) :=
  cmds ← router_stop ds r;
  x ← legacy_node_clean num_active_patricia (r_ln r);
  Ok (x.1.1, x.2 ++ [FNode a], cmds).

(** The state while the topology is destroyed. *)
Record teardown := Teardown {
  td_topo : topology; td_patricia : Z; td_freed : list freed; td_cmds : list command }.
#[export] Instance eta_teardown : Eta teardown := λ s,
  Teardown (td_topo s) (td_patricia s) (td_freed s) (td_cmds s).

(** The body of the loop over the nodes. *)
Definition destroy_node (ds : daemons) (s : teardown) (e : addr * net_node) : outcome teardown :=
  let s := s <| td_topo; t_nodes ::= HASH_DELETE e.1 |> in
  match e.2 with
  | NDatapath dp =>
      let '(flows, ports) := dp_destroy dp in
      Ok (s <| td_freed ::= λ l, l ++ (FFlow <$> flows) ++ (FPort <$> ports) ++ [FNode e.1] |>)
  | NHost h =>
      x ← host_destroy (td_patricia s) e.1 h;
      Ok (s <| td_patricia := x.1 |> <| td_freed ::= λ l, l ++ x.2 |>)
  | NRouter r =>
      x ← router_destroy (td_patricia s) ds e.1 r;
      Ok (s <| td_patricia := x.1.1 |> <| td_freed ::= λ l, l ++ x.1.2 |> <| td_cmds ::= λ l, l ++ x.2 |>)
  end.

(** A [HASH_ITER] that deletes and frees every element. *)
Definition delete_all {V} `{Keyed V} (h : uthash V) : uthash V :=
  foldl (λ h a, HASH_DELETE a h) h (ht_addrs h).

Definition topology_destroy (num_active_patricia : Z) (ds : daemons) (t : topology)
  : outcome teardown :=
  let t1 := t <| t_links ::= delete_all |> in
  s ← for_each (destroy_node ds)
        (Teardown t1 num_active_patricia (FLink <$> ht_addrs (t_links t)) []) (ht_elems (t_nodes t1));
  Ok (s <| td_topo; t_dps ::= delete_all |> <| td_topo; t_routers ::= delete_all |>
        <| td_topo; t_hosts ::= delete_all |>
        <| td_freed ::= λ l, l ++ (FDpEntry <$> ht_addrs (t_dps t)) ++
             (FRouterEntry <$> ht_addrs (t_routers t)) ++ (FHostEntry <$> ht_addrs (t_hosts t)) |>).

(** ** sim.c *)

(** [conn_manager_destroy] after the client of the OpenFlow library, which is not part
    of the sources: the connections of the server. *)
Definition conn_manager_destroy (cm : option server) : outcome (list addr) :=
  srv ← deref cm; Ok (server_destroy srv).2.

(** The connections released, the topology taken down, and all commands issued. *)
Definition sim_close (num_active_patricia : Z) (ds : daemons) (cm : option server) (t : topology)
  : outcome (list addr * teardown) :=
  conns ← conn_manager_destroy cm;
  let has_routers := negb (t_n_routers t =? 0) in
  s ← topology_destroy num_active_patricia ds t;
  Ok (conns,
      if has_routers then
        s <| td_cmds ::= λ l, l ++ [Run None (lit "ip link delete conn1"); Run None (lit "ifconfig br0 down");
                                    Run None (lit "brctl delbr br0"); Run None (lit "ip netns del bridge")] |>
      else s).

(** [looks i] is the number of switches that are connected at look [i], which another
    thread changes; exiting the process is [Aborted]. *)
Fixpoint wait_loop (fuel : nat) (looks : nat → Z) (n_dps time : Z) : outcome unit :=
  if looks (Z.to_nat time) <? n_dps then
    match fuel with
    | O => Fault OutOfFuel
    | S fuel =>
        let time := time + 1 in
        if 10 <? time then Fault Aborted else wait_loop fuel looks n_dps time
    end
  else Ok tt.
Definition wait_all_switches_connect (looks : nat → Z) (t : topology) : outcome unit :=
  wait_loop 11 looks (t_n_dps t) 0.

(** ** Correctness *)

(** C25. Cleaning a routing table releases its routes: whatever routes a table was filled
    with, in whatever order, emptying its tree never faults, stays within the fixed
    stack, ends with no node counted, and releases arrays that hold exactly those routes;
    both trees of the table are gone. *)
Theorem route_table_clean_releases n es : Forall entry_wf es →
  ∃ rt arrays, (rt ← route_table_init; for_each add_ipv4_entry rt es) = Ok rt ∧
    route_table_clean n rt = Ok (n - 2, (arrays, [])) ∧ concat arrays ≡ₚ es.
Proof.
  intros Hes. destruct route_table_init_ok as (rt0 & E0 & _ & Hr0).
  pose proof (route_table_init_counted rt0 E0) as Hc0. rewrite E0. cbn [mbind outcome_bind].
  assert (∃ rt, for_each add_ipv4_entry rt0 es = Ok rt ∧ rt_counted rt ∧
            routes rt ≡ₚ es ++ routes rt0) as (rt & E & Hc & Hr).
  { clear E0 Hr0. revert rt0 Hc0. induction Hes as [|e es He Hes IH]; intros rt0 Hc0; cbn [for_each].
    - by exists rt0.
    - destruct (add_ipv4_entry_ok rt0 e) as (rt1 & E1 & _); [apply Hc0|done|]. rewrite E1. cbn [mbind outcome_bind].
      destruct (add_ipv4_entry_counted _ _ _ He E1 Hc0) as [Hc1 Hr1].
      destruct (IH _ Hc1) as (rt & E & Hc & Hr). exists rt. split; [done|]. split; [done|].
      rewrite Hr, Hr1. solve_Permutation. }
  destruct (route_table_clean_ok rt n Hc) as (arrays & Hcl & Ha).
  exists rt, arrays. split_and!; [done|done|]. by rewrite Ha, Hr, Hr0, app_nil_r.
Qed.

Definition net_rt (n : net_node) : option route_table :=
  match n with
  | NDatapath _ => None
  | NHost h => Some (ln_rt (h_ep h))
  | NRouter r => Some (ln_rt (r_ln r))
  end.

(** Routing tables whose nodes are counted, and routers with a name that fits and a
    daemon. *)
Definition destroyable (ds : daemons) (n : net_node) : Prop :=
  (∀ rt, net_rt n = Some rt → rt_counted rt) ∧
  (∀ r, n = NRouter r → (length (c_string (router_name r)) < MAX_NODE_NAME)%nat ∧
     ∃ a d, r_daemon r = Some a ∧ ds !! a = Some d).

Definition freed_node (f : freed) : option addr := match f with FNode a => Some a | _ => None end.
Definition freed_routes (f : freed) : list route_entry_v4 := match f with FRoutes l => l | _ => [] end.

(** The commands that stop a node, and its routes. *)
Definition stop_commands (ds : daemons) (n : net_node) : list command :=
  match n with
  | NRouter r => match router_stop ds r with Ok cmds => cmds | Fault _ => [] end
  | _ => []
  end.
Definition net_routes (n : net_node) : list route_entry_v4 := default [] (routes <$> net_rt n).

Lemma omap_fmap_none {A} (g : A → freed) (l : list A) :
  (∀ x, freed_node (g x) = None) → omap freed_node (g <$> l) = [].
Proof. intros Hg. induction l as [|x l IH]; [done|]. cbn. by rewrite Hg. Qed.
Lemma bind_fmap_nil {A} (g : A → freed) (l : list A) :
  (∀ x, freed_routes (g x) = []) → (g <$> l) ≫= freed_routes = [].
Proof. intros Hg. induction l as [|x l IH]; [done|]. cbn. by rewrite Hg. Qed.
Lemma bind_FRoutes l : (FRoutes <$> l) ≫= freed_routes = concat l.
Proof. induction l as [|x l IH]; [done|]. cbn. by rewrite <- IH. Qed.

Lemma legacy_node_clean_ok n ln : rt_counted (ln_rt ln) →
  ∃ ln' fs, legacy_node_clean n ln = Ok (n - 2, ln', fs) ∧ omap freed_node fs = [] ∧
    fs ≫= freed_routes = routes (ln_rt ln).
Proof.
  intros Hc. unfold legacy_node_clean. destruct (node_destroy_ports _) as [base ports].
  destruct (route_table_clean_ok _ n Hc) as (arrays & -> & Ha). cbn [mbind outcome_bind fst snd].
  eexists _, _. split; [done|]. rewrite !omap_app, !bind_app, !omap_fmap_none by done. split; [done|].
  rewrite bind_FRoutes, !bind_fmap_nil by done. done.
Qed.

Lemma destroy_node_ok ds s e : destroyable ds e.2 →
  ∃ fs, destroy_node ds s e =
    Ok (Teardown ((td_topo s) <| t_nodes ::= HASH_DELETE e.1 |>)
          (td_patricia s - (if net_rt e.2 then 2 else 0)) (td_freed s ++ fs)
          (td_cmds s ++ stop_commands ds e.2)) ∧
    omap freed_node fs = [e.1] ∧ fs ≫= freed_routes = net_routes e.2.
Proof.
  destruct e as [a n]. intros [Hrt Hstop]. destruct s as [t k fs0 cs0]. unfold destroy_node.
  destruct n as [dp|h|r]; cbn [fst snd net_rt stop_commands td_topo td_patricia td_freed td_cmds] in *.
  - destruct (dp_destroy dp) as [flows ports]. eexists.
    rewrite Z.sub_0_r, (app_nil_r cs0). split; [done|].
    rewrite !omap_app, !bind_app, !omap_fmap_none, !bind_fmap_nil by done. done.
  - unfold host_destroy. cbn [td_patricia].
    destruct (legacy_node_clean_ok k (h_ep h) (Hrt _ eq_refl)) as (ln & fs & E & Hn & Hr).
    match goal with |- context [td_patricia ?x] => change (td_patricia x) with k end. rewrite E. cbn [mbind outcome_bind fst snd].
    eexists. rewrite (app_nil_r cs0). split; [done|].
    rewrite !omap_app, !bind_app, !omap_fmap_none, !bind_fmap_nil, Hn, Hr by done.
    cbn. by rewrite app_nil_r.
  - destruct (Hstop r eq_refl) as (Hlen & da & d & Hd & Hda).
    assert (∃ cmds, router_stop ds r = Ok cmds) as [cmds Ec].
    { unfold router_stop. rewrite sprintf_ok.
      2: { rewrite length_app. change (length (lit "-inet-ext")) with 9%nat. unfold MAX_NODE_NAME in *. lia. }
      cbn [mbind outcome_bind]. unfold router_daemon. rewrite Hd. cbn [deref mbind outcome_bind]. rewrite Hda.
      cbn [mbind outcome_bind]. eauto. }
    unfold router_destroy. rewrite Ec. cbn [mbind outcome_bind].
    destruct (legacy_node_clean_ok k (r_ln r) (Hrt _ eq_refl)) as (ln & fs & E & Hn & Hr).
    match goal with |- context [td_patricia ?x] => change (td_patricia x) with k end. rewrite E. cbn [mbind outcome_bind fst snd].
    eexists. split; [done|]. rewrite !omap_app, !bind_app, Hn, Hr. cbn. by rewrite app_nil_r.
Qed.

(** The loop over the nodes. *)
Lemma destroy_nodes_ok ds es s : Forall (destroyable ds) (es.*2) →
  ∃ fs, for_each (destroy_node ds) s es =
    Ok (Teardown ((td_topo s) <| t_nodes ::= λ h, foldl (λ h a, HASH_DELETE a h) h (es.*1) |>)
          (td_patricia s - 2 * Z.of_nat (length (omap net_rt (es.*2)))) (td_freed s ++ fs)
          (td_cmds s ++ (es.*2 ≫= stop_commands ds))) ∧
    omap freed_node fs = es.*1 ∧ fs ≫= freed_routes = es.*2 ≫= net_routes.
Proof.
  revert s. induction es as [|e es IH]; intros s He; cbn [for_each fmap list_fmap].
  { exists []. destruct s as [[]]. cbn. by rewrite Z.sub_0_r, !app_nil_r. }
  inversion_clear He as [|?? H1 H2]. destruct (destroy_node_ok ds s e H1) as (fs & E & Hn & Hr).
  rewrite E. cbn [mbind outcome_bind].
  match goal with |- context [for_each _ ?s' _] => destruct (IH s' H2) as (fs' & -> & Hn' & Hr') end.
  exists (fs ++ fs'). cbn [td_topo td_patricia td_freed td_cmds].
  rewrite omap_app, bind_app, Hn, Hr, Hn', Hr'. split; [|done]. rewrite <- !app_assoc.
  do 2 f_equal. cbn [omap list_omap]. destruct (net_rt e.2); cbn [length]; lia.
Qed.

(** The result of the function, for a topology that can be destroyed. *)
Lemma topology_destroy_ok k ds t :
  ht_wf (t_nodes t) → ht_wf (t_links t) → ht_wf (t_dps t) → ht_wf (t_routers t) → ht_wf (t_hosts t) →
  (∀ a n, (a, n) ∈ ht_elems (t_nodes t) → destroyable ds n) →
  let nodes := (ht_elems (t_nodes t)).*2 in
  ∃ s, topology_destroy k ds t = Ok s ∧
    t_nodes (td_topo s) = None ∧ t_links (td_topo s) = None ∧ t_dps (td_topo s) = None ∧
    t_routers (td_topo s) = None ∧ t_hosts (td_topo s) = None ∧
    omap freed_node (td_freed s) = ht_addrs (t_nodes t) ∧ NoDup (ht_addrs (t_nodes t)) ∧
    td_freed s ≫= freed_routes = nodes ≫= net_routes ∧
    td_cmds s = nodes ≫= stop_commands ds ∧
    td_patricia s = k - 2 * Z.of_nat (length (omap net_rt nodes)).
Proof.
  intros Wn Wl Hd Hr Hh Hn nodes.
  assert (Forall (destroyable ds) nodes) as Hall.
  { apply Forall_fmap, Forall_forall. intros [a n] Hin. exact (Hn a n Hin). }
  unfold topology_destroy. edestruct (destroy_nodes_ok ds (ht_elems (t_nodes t))) as (fs & E & Hf & Hfr); [exact Hall|].
  eexists. split; [eapply bind_eq; [exact E|reflexivity]|]. clear E.
  split_and!; try (by apply delete_all_none).
  - change (omap freed_node (((FLink <$> ht_addrs (t_links t)) ++ fs) ++ (FDpEntry <$> ht_addrs (t_dps t)) ++
      (FRouterEntry <$> ht_addrs (t_routers t)) ++ (FHostEntry <$> ht_addrs (t_hosts t))) = ht_addrs (t_nodes t)).
    rewrite !omap_app, !omap_fmap_none, Hf, !app_nil_r by done. done.
  - by apply ht_addrs_NoDup.
  - change ((((FLink <$> ht_addrs (t_links t)) ++ fs) ++ (FDpEntry <$> ht_addrs (t_dps t)) ++
      (FRouterEntry <$> ht_addrs (t_routers t)) ++ (FHostEntry <$> ht_addrs (t_hosts t))) ≫= freed_routes
      = nodes ≫= net_routes).
    rewrite !bind_app, !bind_fmap_nil, Hfr, !app_nil_r by done. done.
  - reflexivity.
  - reflexivity.
Qed.

(** *** What stops a router *)

(** The interfaces that are deleted, the name space, and the daemon: Quagga's
    socket is closed, and a process is killed for each configured file and for the helper;
    for ExaBGP all its processes are killed by name. *)
Definition kill_files (d : quagga_daemon) : list (list Z) :=
  ((λ p, lit "/tmp/" ++ p.1 ++ qd_namespace d ++ lit ".pid") <$> configured (qd_config d)) ++
  [lit "/tmp/daemon" ++ print_u32 (qd_router_id d) ++ lit ".pid"].
Definition router_taken_down (ds : daemons) (n : net_node) : list command :=
  match n with
  | NRouter r =>
      let name := c_string (router_name r) in
      ((λ i, Launch None (lit "ip link del " ++ i)) <$> (name ++ lit "-inet-ext") :: r_ext_intfs r) ++
      [NetnsDelete name] ++
      match r_daemon r ≫= (ds !!.) with
      | Some (QUAGGA d) => CloseFd (qd_sock_fd d) :: ((λ f, Run None (lit "pkill -9 -F " ++ f)) <$> kill_files d)
      | Some (EXABGP _) => [Launch None (lit "pkill -9 exabgp")]
      | None => []
      end
  | _ => []
  end.

(** A router without a daemon; one whose name is terminated and whose daemon, if it has
    one, exists. *)
Definition lacks_daemon (n : net_node) : bool :=
  match n with NRouter r => negb (bool_decide (is_Some (r_daemon r))) | _ => false end.
Definition router_sound (ds : daemons) (n : net_node) : Prop :=
  ∀ r, n = NRouter r → (length (c_string (router_name r)) < MAX_NODE_NAME)%nat ∧
    ∀ a, r_daemon r = Some a → is_Some (ds !! a).

Lemma concat_singletons {A B} (g : A → B) (l : list A) : concat ((λ x, [g x]) <$> l) = g <$> l.
Proof. induction l as [|x l IH]; [done|]. cbn. by rewrite IH. Qed.

Lemma stop_commands_eq ds n : destroyable ds n → stop_commands ds n = router_taken_down ds n.
Proof.
  intros [_ Hr]. destruct n as [dp|h|r]; [done..|]. destruct (Hr r eq_refl) as (Hlen & a & d & Hd & Ha).
  cbn [stop_commands router_taken_down]. unfold router_stop, router_daemon. rewrite Hd, sprintf_ok.
  2: { rewrite length_app. change (length (lit "-inet-ext")) with 9%nat. unfold MAX_NODE_NAME in *. lia. }
  cbn [mbind outcome_bind deref option_bind]. rewrite Ha. cbn [mbind outcome_bind snd].
  unfold delete_intf. rewrite concat_singletons. cbn [fmap list_fmap Datatypes.app]. do 3 f_equal.
  destruct d as [d|e]; [|done]. cbn [daemon_stop]. rewrite stop_quagga_eq. unfold kill_files, kill_command, pid_file.
  by rewrite fmap_app, <- list_fmap_compose.
Qed.

Lemma bind_ext_in {A B} (f g : A → list B) (l : list A) : (∀ x, x ∈ l → f x = g x) → l ≫= f = l ≫= g.
Proof.
  induction l as [|x l IH]; intros He; [done|]. cbn. rewrite (He x) by by left. f_equal. apply IH. intros y Hy. apply He.
  by right.
Qed.

(** The loop stops at the first router without a daemon. *)
Lemma destroy_node_faults ds s e : router_sound ds e.2 → lacks_daemon e.2 = true →
  destroy_node ds s e = Fault NullDeref.
Proof.
  destruct e as [a [dp|h|r]]; intros Hs Hl; [done..|]. cbn [snd lacks_daemon] in *.
  destruct (Hs r eq_refl) as [Hlen _]. destruct (r_daemon r) as [da|] eqn:Hd; [done|].
  unfold destroy_node. cbn [snd]. unfold router_destroy, router_stop, router_daemon. rewrite Hd, sprintf_ok; [done|].
  rewrite length_app. change (length (lit "-inet-ext")) with 9%nat. unfold MAX_NODE_NAME in *. lia.
Qed.

Lemma destroy_nodes_fault ds es : ∀ s, Forall (router_sound ds) es.*2 →
  (∀ n rt, n ∈ es.*2 → net_rt n = Some rt → rt_counted rt) → Exists (λ n, lacks_daemon n = true) es.*2 →
  for_each (destroy_node ds) s es = Fault NullDeref.
Proof.
  induction es as [|e es IH]; intros s Hs Hrt Hex; [by apply Exists_nil in Hex|]. cbn [for_each fmap list_fmap] in *.
  apply Forall_cons in Hs as [Hs1 Hs]. destruct (lacks_daemon e.2) eqn:Hl; [by rewrite destroy_node_faults|].
  destruct (destroy_node_ok ds s e) as (fs & -> & _).
  { split; [intros rt; apply Hrt; by left|]. intros r Er. destruct (Hs1 r Er) as [Hlen Hd]. split; [done|].
    rewrite Er in Hl. cbn in Hl. destruct (r_daemon r) as [a|] eqn:Ha; [|done].
    destruct (Hd a eq_refl) as [d Hda]. by exists a, d. }
  cbn [mbind outcome_bind]. apply IH; [done|intros n rt Hn; apply Hrt; by right|].
  apply Exists_cons in Hex as [Hex|Hex]; [congruence|done].
Qed.


(** The wait for the switches ends: it goes on exactly when all of them are connected
    at one of the first eleven looks, and exits the process otherwise. *)
Theorem wait_for_switches_ends looks t :
  wait_all_switches_connect looks t =
  if existsb (λ i, t_n_dps t <=? looks i) (seq 0 11) then Ok tt else Fault Aborted.
Proof.
  unfold wait_all_switches_connect. cbn [seq existsb]. rewrite !(Z.leb_antisym (looks _)). cbn [wait_loop].
  repeat (match goal with |- context [looks (Z.to_nat ?z)] =>
    let n := eval vm_compute in (Z.to_nat z) in change (looks (Z.to_nat z)) with (looks n) end;
    match goal with |- context [negb (looks ?n <? ?m)] => destruct (looks n <? m); [cbn [negb orb]|done] end).
  done.
Qed.

(** Without an emulated control plane there is no connection manager, and closing the
    simulation follows the pointer all the same. *)
Theorem sim_close_without_manager k ds t : sim_close k ds None t = Fault NullDeref.
Proof. done. Qed.

(** ** Witnesses *)

Lemma route_table_clean_releases_witness :
  ∃ rt arrays, (rt ← route_table_init;
      for_each add_ipv4_entry rt [sample_connected; sample_gw; RouteTable.sample_hop 1; RouteTable.sample_hop 2]) = Ok rt ∧
    route_table_clean 4 rt = Ok (2, (arrays, [])) ∧
    concat arrays ≡ₚ [sample_connected; sample_gw; RouteTable.sample_hop 1; RouteTable.sample_hop 2].
Proof.
  destruct sample_entries_wf as (H1 & H2 & H3). apply (route_table_clean_releases 4).
  constructor; [exact H1|]. constructor; [exact H2|]. constructor; [exact (H3 1)|].
  constructor; [exact (H3 2)|constructor].
Defined.

Definition sample_parts : host * router :=
  (Host (LegacyNode (node_init 0 HOST).2 None blank_rt) None None,
   Router (LegacyNode (node_init 1 ROUTER).2 None blank_rt) 5 false (Some 9%nat) [lit "r2-eth1"]).
Definition sample_teardown : topology :=
  topology_add_router (topology_add_host topology_new 1 sample_parts.1) 2 sample_parts.2.

Lemma sample_teardown_nodes :
  (ht_elems (t_nodes sample_teardown)).*2 = [NHost sample_parts.1; NRouter sample_parts.2].
Proof. vm_compute. reflexivity. Qed.
Lemma sample_teardown_addrs : ht_addrs (t_nodes sample_teardown) = [1; 2]%nat.
Proof. vm_compute. reflexivity. Qed.
Lemma sample_teardown_reachable : topo_reachable sample_teardown.
Proof.
  apply topo_router; [apply topo_host; [apply topo_new|]|].
  - split; [|split]; [by vm_compute; split|reflexivity|apply not_elem_of_nil].
  - split; [|split]; [by vm_compute; split|vm_compute; reflexivity|].
    rewrite <-(bool_decide_eq_false _). vm_compute. reflexivity.
Qed.
Lemma sample_teardown_sound n : n ∈ (ht_elems (t_nodes sample_teardown)).*2 →
  router_sound {[ 9%nat := QUAGGA sample_quagga ]} n ∧ ∀ rt, net_rt n = Some rt → rt_counted rt.
Proof.
  rewrite sample_teardown_nodes. pose proof (route_table_init_counted blank_rt route_table_init_eq) as Hc.
  intros [->|Hin]%elem_of_cons; [|apply list_elem_of_singleton in Hin as ->].
  - split; [discriminate|intros rt [= <-]; exact Hc].
  - split; [|intros rt [= <-]; exact Hc]. intros r [= <-]. split; [apply Nat.ltb_lt; vm_compute; reflexivity|].
    intros a [= <-]. exists (QUAGGA sample_quagga). reflexivity.
Qed.

