(* ===== verification/Lifecycle.v ===== *)
(** * Lifecycle: an emulated control plane from set-up to teardown

    Composes [Setup], [Daemons] and [Teardown].  Setting the routers up changes of the
    topology only the names of ports, and of the daemons only those it starts; so
    that what is taken down afterwards is what was set up.

    Theorem: when the routers of a topology were set up, destroying the topology deletes
    exactly the name spaces that were asked for, in the same order, and kills every helper
    process and every daemon but isisd through the file that it was started with. *)

From stdpp Require Import strings prelude gmap.
From S2P Require Import Prelude Util Uthash Action FlowKey Netflow Node Inet FlowTable Datapath Patricia.
From S2P Require Import RouteTable LegacyNode Host Router Topology Scheduler EventHandler.
From S2P Require Import Server HorseDaemon Daemons Sim Setup Teardown.

(** ** Name spaces *)

Definition netns_asked (c : command) : option (list Z) :=
  match c with NetnsAdd n _ => Some n | _ => None end.
Definition netns_deleted (c : command) : option (list Z) :=
  match c with NetnsDelete n => Some n | _ => None end.

Lemma netns_asked_in n b (cmds : list command) : NetnsAdd n b ∈ cmds → n ∈ omap netns_asked cmds.
Proof. intros Hin. apply list_elem_of_omap. by exists (NetnsAdd n b). Qed.
Lemma netns_deleted_in n (cmds : list command) : n ∈ omap netns_deleted cmds → NetnsDelete n ∈ cmds.
Proof. intros (c & Hc & E)%list_elem_of_omap. destruct c; try done. by injection E as ->. Qed.

Lemma omap_none {A B} (f : A → option B) (l : list A) : Forall (λ x, f x = None) l → omap f l = [].
Proof. induction 1 as [|x l Hx Hl IH]; [done|]. cbn. by rewrite Hx. Qed.

(** A call that issues commands, none of which adds a name space. *)
Definition quiet (s s' : sys) : Prop :=
  ∃ X, sy_log s' = sy_log s ++ X ∧ Forall (λ c, netns_asked c = None) X.

Lemma quiet_refl s : quiet s s.
Proof. exists []. by rewrite app_nil_r. Qed.
Lemma quiet_trans s1 s2 s3 : quiet s1 s2 → quiet s2 s3 → quiet s1 s3.
Proof.
  intros (X & EX & HX) (Y & EY & HY). exists (X ++ Y). rewrite EY, EX, app_assoc. split; [done|].
  by apply Forall_app.
Qed.
Lemma quiet_emit cmds s : Forall (λ c, netns_asked c = None) cmds → quiet s (emit cmds s).
Proof. by exists cmds. Qed.
#[export] Hint Resolve quiet_refl quiet_trans quiet_emit : horse.

(** ** What the teardown sees of a node *)

Definition skeleton (n : net_node) : option route_table * option (list Z * option addr * Z * list (list Z)) :=
  (net_rt n, match n with
             | NRouter r => Some (router_name r, r_daemon r, r_router_id r, r_ext_intfs r)
             | _ => None
             end).
Definition skeletons (t : topology) := (λ e, (e.1, skeleton e.2)) <$> ht_elems (t_nodes t).

(** A step of the set-up that only names ports. *)
Record renames (s s' : sys) : Prop := {
  rn_wf : ht_wf (t_nodes (sy_topo s'));
  rn_skel : skeletons (sy_topo s') = skeletons (sy_topo s);
  rn_tables : (t_links (sy_topo s'), t_dps (sy_topo s'), t_routers (sy_topo s'), t_hosts (sy_topo s'))
              = (t_links (sy_topo s), t_dps (sy_topo s), t_routers (sy_topo s), t_hosts (sy_topo s));
  rn_daemons : sy_daemons s' = sy_daemons s;
  rn_quiet : quiet s s' }.

Lemma renames_trans s1 s2 s3 : renames s1 s2 → renames s2 s3 → renames s1 s3.
Proof.
  intros [W1 S1 T1 D1 Q1] [W2 S2 T2 D2 Q2]. split; [done|congruence..|]. eauto with horse.
Qed.
Lemma renames_emit cmds s : ht_wf (t_nodes (sy_topo s)) →
  Forall (λ c, netns_asked c = None) cmds → renames s (emit cmds s).
Proof. intros Hwf Hc. by split; [..|apply quiet_emit]. Qed.

Lemma configure_quiet r p cmds :
  configure_router_port r p = Ok cmds → Forall (λ c, netns_asked c = None) cmds.
Proof. unfold configure_router_port. intros E. inv_ok. by repeat constructor. Qed.

(** Storing a router with other ports. *)
Lemma node_update_renames s a r r' :
  ht_wf (t_nodes (sy_topo s)) → router_at (sy_topo s) a = Ok r →
  skeleton (NRouter r') = skeleton (NRouter r) → router_uuid r' = router_uuid r →
  renames s (s <| sy_topo ::= node_update a (λ _, NRouter r') |>).
Proof.
  intros Hwf Hat Hsk Hu. apply router_at_Some in Hat as Hn. pose proof (node_at_in _ _ _ Hn) as Hin.
  assert (∀ n, (a, n) ∈ ht_elems (t_nodes (sy_topo s)) → n = NRouter r) as Hone.
  { intros n Hn'. by apply (NoDup_fst_inj _ _ _ _ (ht_addrs_NoDup _ Hwf) Hn' Hin). }
  destruct (ht_update_spec a (λ _, NRouter r') (t_nodes (sy_topo s)) Hwf) as [Hw He].
  { intros n Hn'. rewrite (Hone n Hn'). unfold key_image, net_node_keyed, net_uuid. cbn [net_base].
    unfold router_uuid in Hu. by rewrite Hu. }
  split; [exact Hw| |done|done|exists []; split; [symmetry; apply app_nil_r|constructor]].
  unfold skeletons. cbn [sy_topo setf t_nodes node_update]. rewrite He, <- list_fmap_compose.
  apply list_fmap_ext. intros i [x n] Hx%list_elem_of_lookup_2. cbn. unfold elem_update. cbn [fst snd].
  case_decide; [|done]. subst x. cbn [fst snd]. by rewrite (Hone n Hx), Hsk.
Qed.


Lemma name_port_renames s a i intf s' :
  ht_wf (t_nodes (sy_topo s)) → name_port s a i intf = Ok s' → renames s s'.
Proof.
  intros Hwf. unfold name_port. intros E. apply outcome_bind_Ok in E as (r & Hr & E).
  destruct (router_port r i) as [[pa p]|]; [|injection E as <-; split; [done..|apply quiet_refl]].
  apply outcome_bind_Ok in E as (p' & _ & E).
  pose (r' := r <| r_ln; ln_base ::= port_update pa (λ q, q <| p_name := p_name p' |>) |>).
  pose proof (node_update_renames s a r r' Hwf Hr eq_refl eq_refl) as Hren.
  destruct (p_ipv4_addr p'); [|apply Ok_inj in E as <-; exact Hren].
  apply outcome_bind_Ok in E as (cmds & Hc & E). apply Ok_inj in E as <-.
  eapply renames_trans; [exact Hren|]. apply renames_emit; [apply Hren|by eapply configure_quiet].
Qed.

Lemma renames_refl s : ht_wf (t_nodes (sy_topo s)) → renames s s.
Proof. intros Hwf. split; [done..|apply quiet_refl]. Qed.

Lemma setup_link_renames s l s' :
  ht_wf (t_nodes (sy_topo s)) → setup_link s l = Ok s' → renames s s'.
Proof.
  intros Hwf E. unfold setup_link in E. apply outcome_bind_Ok in E as (n1 & _ & E).
  apply outcome_bind_Ok in E as (n2 & _ & E).
  assert (∀ a i, setup_router_nonrouter_link s a i = Ok s' → renames s s') as Hnon.
  { unfold setup_router_nonrouter_link. intros a i E'. apply outcome_bind_Ok in E' as (r & _ & E').
    apply outcome_bind_Ok in E' as (i1 & _ & E'). apply outcome_bind_Ok in E' as (i2 & _ & E').
    eapply renames_trans; [|eapply name_port_renames; [|exact E']; exact Hwf].
    apply renames_emit; [done|]. by repeat constructor. }
  assert (∀ a1 p1 a2 p2, setup_router_pair_link s a1 p1 a2 p2 = Ok s' → renames s s') as Hpair.
  { unfold setup_router_pair_link. intros a1 p1 a2 p2 E'. apply outcome_bind_Ok in E' as (r1 & _ & E').
    apply outcome_bind_Ok in E' as (r2 & _ & E'). apply outcome_bind_Ok in E' as (i1 & _ & E').
    apply outcome_bind_Ok in E' as (i2 & _ & E'). apply outcome_bind_Ok in E' as (s1 & E1 & E').
    apply name_port_renames in E1 as H1; [|exact Hwf]. apply name_port_renames in E' as H2; [|apply H1].
    eapply renames_trans; [|eapply renames_trans; [exact H1|exact H2]].
    apply renames_emit; [done|]. by repeat constructor. }
  destruct (n1.2), (n2.2); eauto; injection E as <-; by apply renames_refl.
Qed.

Lemma links_body_renames st al st' :
  ht_wf (t_nodes (sy_topo st.1)) → links_body st al = Ok st' → renames st.1 st'.1.
Proof.
  intros Hwf. unfold links_body. destruct (HASH_FIND _ _).
  - intros [= <-]. by apply renames_refl.
  - intros E. apply outcome_bind_Ok in E as (s & Hs & E). injection E as <-. by eapply setup_link_renames.
Qed.

Lemma links_loop_renames als : ∀ st st',
  ht_wf (t_nodes (sy_topo st.1)) → for_each links_body st als = Ok st' → renames st.1 st'.1.
Proof.
  induction als as [|al als IH]; intros st st' Hwf E; cbn [for_each] in E.
  { apply Ok_inj in E as <-. by apply renames_refl. }
  apply outcome_bind_Ok in E as (st1 & E1 & E). apply links_body_renames in E1; [|done].
  eapply renames_trans; [exact E1|]. apply IH; [apply E1|done].
Qed.

(** ** Starting the routers and their daemons *)

(** The name of the router behind a pointer. *)
Definition name_at (t : topology) (a : addr) : list Z :=
  match router_at t a with Ok r => c_string (router_name r) | Fault _ => [] end.

Section start.
Context `{Os}.

Lemma router_start_adds b r x : router_start b r = Ok x →
  omap netns_asked x.1.2 = [c_string (router_name r)].
Proof.
  unfold router_start. destruct (negb _); [by intros [= <-]|]. intros E.
  apply outcome_bind_Ok in E as (i2 & _ & E). apply outcome_bind_Ok in E as (i1 & _ & E).
  destruct (gen_internal_ip b) as [b' [a|]]; [|done]. by injection E as <-.
Qed.

Lemma start_routers_adds rns : ∀ s s',
  for_each (λ s rn, r ← router_at (sy_topo s) (rn_rt rn.2);
                    x ← router_start (sy_internal s) r;
                    Ok (emit x.1.2 (s <| sy_internal := x.1.1 |>))) s rns = Ok s' →
  sy_topo s' = sy_topo s ∧ sy_daemons s' = sy_daemons s ∧
  ∃ X, sy_log s' = sy_log s ++ X ∧
    omap netns_asked X = (λ rn : addr * router_node, name_at (sy_topo s) (rn_rt rn.2)) <$> rns.
Proof.
  induction rns as [|rn rns IH]; intros s s' E; cbn [for_each] in E.
  { apply Ok_inj in E as <-. split_and!; [done..|]. exists []. by rewrite app_nil_r. }
  apply outcome_bind_Ok in E as (s1 & E1 & E). apply outcome_bind_Ok in E1 as (r & Hr & E1).
  apply outcome_bind_Ok in E1 as (x & Hx & E1). apply Ok_inj in E1 as <-.
  destruct (IH _ _ E) as (Ht & Hd & X & HX & Hns). split_and!; [done..|].
  exists (x.1.2 ++ X). rewrite app_assoc. split; [done|].
  rewrite omap_app, (router_start_adds _ _ _ Hx), Hns. cbn [fmap list_fmap]. unfold name_at at 2. by rewrite Hr.
Qed.

(** What is true of a router whose daemon was started. *)
Definition running (cmds : list command) (ds : daemons) (r : router) (a : addr) (d : quagga_daemon) : Prop :=
  ds !! a = Some (QUAGGA (started r d)) ∧ ∀ c, c ∈ start_commands r d → c ∈ cmds.

Lemma start_commands_quiet r d : Forall (λ c, netns_asked c = None) (start_commands r d).
Proof.
  apply Forall_app. split; [|by repeat constructor]. apply Forall_forall.
  intros c (p & -> & _)%list_elem_of_fmap. done.
Qed.

(** The daemons of routers with pairwise distinct daemons. *)
Lemma start_daemons_run rns : 0 ≤ unix_socket → ∀ s s',
  for_each (λ s rn, r ← router_at (sy_topo s) (rn_rt rn.2);
                    x ← router_start_daemon (sy_daemons s) r;
                    Ok (emit x.2 (s <| sy_daemons := x.1 |>))) s rns = Ok s' →
  (∀ rn r, rn ∈ rns → router_at (sy_topo s) (rn_rt rn.2) = Ok r → ∃ a d, emulated (sy_daemons s) r a d) →
  NoDup ((λ rn : addr * router_node, r ← router_at (sy_topo s) (rn_rt rn.2); Ok (r_daemon r)) <$> rns) →
  sy_topo s' = sy_topo s ∧
  (∀ a, (∀ rn r, rn ∈ rns → router_at (sy_topo s) (rn_rt rn.2) = Ok r → r_daemon r ≠ Some a) →
     sy_daemons s' !! a = sy_daemons s !! a) ∧
  ∃ X, sy_log s' = sy_log s ++ X ∧ Forall (λ c, netns_asked c = None) X ∧
  (∀ rn r a d, rn ∈ rns → router_at (sy_topo s) (rn_rt rn.2) = Ok r → emulated (sy_daemons s) r a d →
     running X (sy_daemons s') r a d).
Proof.
  intros Hsock. induction rns as [|rn rns IH]; intros s s' E Hem Hnd; cbn [for_each] in E.
  { apply Ok_inj in E as <-. split_and!; [done..|]. exists []. rewrite app_nil_r. split_and!; [done..|].
    intros rn r a d Hin. by apply elem_of_nil in Hin. }
  apply outcome_bind_Ok in E as (s1 & E1 & E). apply outcome_bind_Ok in E1 as (r & Hr & E1).
  destruct (Hem rn r) as (a & d & He); [by left|done|]. rewrite (router_start_daemon_ok _ _ _ _ He Hsock) in E1.
  cbn [mbind outcome_bind fst snd] in E1. apply Ok_inj in E1 as <-.
  apply NoDup_cons in Hnd as [Hnew Hnd].
  assert (∀ rn' r', rn' ∈ rns → router_at (sy_topo s) (rn_rt rn'.2) = Ok r' → r_daemon r' ≠ Some a) as Hother.
  { intros rn' r' Hin' Hr' Hd. apply Hnew, list_elem_of_fmap. exists rn'. split; [|done].
    rewrite Hr, Hr'. cbn. by rewrite (em_daemon _ _ _ _ He), Hd. }
  destruct (IH _ _ E) as (Ht & Hfr & X & HX & Hq & Hrun).
  - intros rn' r' Hin' Hr'. destruct (Hem rn' r') as (a' & d' & [H1 H2 ? ? ? ?]); [by right|done|].
    exists a', d'. split; try done. cbn. rewrite lookup_insert_ne; [done|]. intros <-. by apply (Hother rn' r').
  - done.
  - split; [done|]. split; [|exists (start_commands r d ++ X); split_and!].
    + intros a' Hno. rewrite Hfr. 2: { intros rn' r' Hin'. apply Hno. by right. }
      cbn. rewrite lookup_insert_ne; [done|]. intros <-. apply (Hno rn r); [by left|done|apply He].
    + by rewrite app_assoc.
    + apply Forall_app. split; [apply start_commands_quiet|done].
    + intros rn' r' a' d' [->|Hin']%elem_of_cons Hr' He'.
      * assert (r' = r) as -> by congruence. pose proof (em_daemon _ _ _ _ He'). pose proof (em_daemon _ _ _ _ He).
        assert (a' = a) as -> by congruence. pose proof (em_quagga _ _ _ _ He'). pose proof (em_quagga _ _ _ _ He).
        assert (d' = d) as -> by congruence. split.
        -- rewrite Hfr; [cbn; apply lookup_insert_eq|]. exact Hother.
        -- intros c Hc. apply elem_of_app. by left.
      * assert (running X (sy_daemons s') r' a' d') as [? Hc]; [|split; [done|intros c Hx; apply elem_of_app; right; by apply Hc]].
        apply (Hrun rn'); [done..|]. destruct He' as [H1 H2 ? ? ? ?]. split; try done. cbn.
        rewrite lookup_insert_ne; [done|]. intros <-. by apply (Hother rn' r').
Qed.
End start.

(** ** The routers of a topology *)

Definition router_addr (e : addr * net_node) : option addr :=
  match e.2 with NRouter _ => Some e.1 | _ => None end.
Definition router_title (e : addr * net_node) : option (list Z) :=
  match e.2 with NRouter r => Some (c_string (router_name r)) | _ => None end.

(** The table of routers points to the nodes that are routers, in their order. *)
Lemma reachable_tables t : topo_reachable t →
  ht_wf (t_dps t) ∧ ht_wf (t_routers t) ∧ ht_wf (t_hosts t) ∧
  (λ rn, rn_rt rn.2) <$> ht_elems (t_routers t) = omap router_addr (ht_elems (t_nodes t)).
Proof.
  induction 1 as [|t a r Hr (W1 & W2 & W3 & IH) Hn|t a dp Hr (W1 & W2 & W3 & IH) Hn
    |t a h Hr (W1 & W2 & W3 & IH) Hn|t A B bw lat Hr IH].
  - done.
  - destruct (topo_reachable_ok _ Hr) as [W _]. destruct (HASH_ADD_spec a (NRouter r) (t_nodes t) (tw_nodes _ W)) as [_ He];
      [apply Hn|]. destruct (HASH_ADD_spec (fresh_addr (t_routers t)) (RouterNode (Router.router_id r) a) (t_routers t) W2)
      as [W2' He2]; [apply fresh_addr_not_in|].
    split_and!; [done..|]. cbn [topology_add_router t_routers t_nodes setf]. rewrite He, He2, fmap_app, omap_app, IH. done.
  - destruct (topo_reachable_ok _ Hr) as [W _]. destruct (HASH_ADD_spec a (NDatapath dp) (t_nodes t) (tw_nodes _ W)) as [_ He];
      [apply Hn|]. split_and!; [|done..|].
    + apply (HASH_ADD_spec (fresh_addr (t_dps t))); [done|apply fresh_addr_not_in].
    + cbn [topology_add_datapath t_routers t_nodes setf]. rewrite He, omap_app, IH. symmetry. apply app_nil_r.
  - destruct (topo_reachable_ok _ Hr) as [W _]. destruct (HASH_ADD_spec a (NHost h) (t_nodes t) (tw_nodes _ W)) as [_ He];
      [apply Hn|]. split_and!; [done..| |].
    + apply (HASH_ADD_spec (fresh_addr (t_hosts t))); [done|apply fresh_addr_not_in].
    + cbn [topology_add_host t_routers t_nodes setf]. rewrite He, omap_app, IH. symmetry. apply app_nil_r.
  - unfold topology_add_link, insert_link. repeat case_match; simplify_eq; exact IH.
Qed.

Lemma router_at_in t a r : ht_wf (t_nodes t) →
  router_at t a = Ok r ↔ (a, NRouter r) ∈ ht_elems (t_nodes t).
Proof.
  intros Hwf. rewrite router_at_Some. split; [apply node_at_in|]. intros Hin.
  destruct (EventHandler.node_at t a) as [n|] eqn:E.
  - apply node_at_in in E as Hin'. by rewrite (NoDup_fst_inj _ _ _ _ (ht_addrs_NoDup _ Hwf) Hin Hin').
  - exfalso. unfold EventHandler.node_at in E. destruct (first _ _) eqn:F; [done|].
    apply (first_None _ _) with (x := (a, NRouter r)) in F; [|done]. by rewrite bool_decide_eq_false in F.
Qed.

(** Nodes with the same skeletons. *)
Lemma skeletons_in t t' a n' : skeletons t' = skeletons t → (a, n') ∈ ht_elems (t_nodes t') →
  ∃ n, (a, n) ∈ ht_elems (t_nodes t) ∧ skeleton n = skeleton n'.
Proof.
  intros Hs Hin. assert ((a, skeleton n') ∈ skeletons t') as Hin' by (apply list_elem_of_fmap; by exists (a, n')).
  rewrite Hs in Hin'. apply list_elem_of_fmap in Hin' as ([x n] & E & Hn).
  pose proof (f_equal fst E) as E1. pose proof (f_equal snd E) as E2. cbn in E1. subst x. by exists n.
Qed.

Lemma skeleton_router n r' : skeleton n = skeleton (NRouter r') → ∃ r, n = NRouter r.
Proof. destruct n; [done..|eauto]. Qed.

Lemma skeleton_emulated ds r r' a d : skeleton (NRouter r) = skeleton (NRouter r') →
  emulated ds r a d → emulated ds r' a d.
Proof. intros [= Hrt Hn Hd Hid Hx] [H1 H2 H3 H4 H5 H6]. split; congruence. Qed.

Lemma skeleton_titles t t' : skeletons t' = skeletons t →
  omap router_title (ht_elems (t_nodes t')) = omap router_title (ht_elems (t_nodes t)).
Proof.
  assert (∀ t, omap router_title (ht_elems (t_nodes t)) =
    omap (λ e, (λ x, c_string x.1.1.1) <$> e.2.2) (skeletons t)) as Ht; [|intros Hs; by rewrite !Ht, Hs].
  intros u. unfold skeletons. induction (ht_elems (t_nodes u)) as [|[a n] l IH]; [done|].
  cbn. destruct n; cbn; by rewrite IH.
Qed.

Lemma NoDup_fmap_finer {A B C} (f : A → B) (g : A → C) (l : list A) :
  NoDup (g <$> l) → (∀ x y, x ∈ l → y ∈ l → f x = f y → g x = g y) → NoDup (f <$> l).
Proof.
  intros Hnd Hf. induction l as [|x l IH]; [constructor|]. cbn [fmap list_fmap] in *.
  apply NoDup_cons in Hnd as [Hx Hnd]. constructor.
  - intros (y & E & Hy)%list_elem_of_fmap. apply Hx, list_elem_of_fmap. exists y. split; [|done].
    apply Hf; [by left|by right|done].
  - apply IH; [done|]. intros y z Hy Hz. apply Hf; by right.
Qed.

Lemma NoDup_router_addrs (l : list (addr * net_node)) : NoDup l.*1 → NoDup (omap router_addr l).
Proof.
  induction l as [|[a n] l IH]; cbn; [constructor|]. intros [Ha Hnd]%NoDup_cons.
  destruct n; cbn; [by apply IH..|]. constructor; [|by apply IH].
  intros ([b m] & Hin & E)%list_elem_of_omap. apply Ha, list_elem_of_fmap. exists (b, m).
  unfold router_addr in E. cbn in E. destruct m; by simplify_eq.
Qed.

(** ** Stopping what was started *)

Section stop.
Context `{Os}.

Lemma stop_deletes ds ds' r a d : emulated ds r a d → ds' !! a = Some (QUAGGA (started r d)) →
  omap netns_deleted (stop_commands ds' (NRouter r)) = [c_string (router_name r)] ∧
  (∀ p, p ∈ configured (qd_config d) → p.1 ≠ lit "isisd" →
     kill_command (start_file d p.1) ∈ stop_commands ds' (NRouter r)) ∧
  kill_command (helper_pid_file r) ∈ stop_commands ds' (NRouter r).
Proof.
  intros He Hd. cbn [stop_commands]. rewrite (router_stop_ok _ _ _ _ _ He Hd). split_and!.
  - rewrite !omap_app. cbn. rewrite omap_app. rewrite (omap_none _ (concat _)), (omap_none _ (_ <$> _)); [done|..].
    + apply Forall_forall. by intros c (p & -> & _)%list_elem_of_fmap.
    + apply Forall_concat, Forall_fmap, Forall_forall. intros i _. by repeat constructor.
  - intros p Hp Hi. rewrite start_file_eq by done. do 3 (apply elem_of_app; right). right. apply elem_of_app. left. apply list_elem_of_fmap. by exists p.
  - do 3 (apply elem_of_app; right). right. apply elem_of_app. right. by left.
Qed.

(** A command that kills through a file whose name does not end as the stopped ones do. *)
Lemma stop_spares ds ds' r a d x : emulated ds r a d → ds' !! a = Some (QUAGGA (started r d)) →
  kill_command (x ++ lit "/pid") ∉ stop_commands ds' (NRouter r).
Proof.
  intros He Hd. cbn [stop_commands]. rewrite (router_stop_ok _ _ _ _ _ He Hd).
  rewrite !elem_of_app, list_elem_of_singleton, elem_of_cons, elem_of_app, list_elem_of_fmap, list_elem_of_singleton.
  assert (∀ i, kill_command (x ++ lit "/pid") ∉ delete_intf i) as Hi.
  { intros i. unfold delete_intf, kill_command. by rewrite list_elem_of_singleton. }
  intros [Hk|[Hk|[Hk|[Hk|[(p & Hk & _)|Hk]]]]]; [by apply Hi in Hk| |done|done|..].
  - apply list_elem_of_In, in_concat in Hk as (l & Hl & Hk%list_elem_of_In).
    apply list_elem_of_In, list_elem_of_fmap in Hl as (i & -> & _). by apply Hi in Hk.
  - unfold pid_file in Hk. rewrite !app_assoc in Hk. by apply kill_suffix in Hk.
  - unfold helper_pid_file in Hk. rewrite !app_assoc in Hk. by apply kill_suffix in Hk.
Qed.

Lemma stop_all_deletes ds' (es : list (addr * net_node)) :
  (∀ a r, (a, NRouter r) ∈ es → ∃ ds da d, emulated ds r da d ∧ ds' !! da = Some (QUAGGA (started r d))) →
  omap netns_deleted (es.*2 ≫= stop_commands ds') = omap router_title es.
Proof.
  intros Hes. induction es as [|[a n] es IH]; [done|].
  cbn [fmap list_fmap mbind list_bind omap list_omap snd]. rewrite omap_app.
  rewrite IH by (intros b r Hb; apply (Hes b r); by right).
  destruct n as [dp|h|r]; [done..|]. destruct (Hes a r) as (ds & da & d & He & Hd); [by left|].
  destruct (stop_deletes _ _ _ _ _ He Hd) as [-> _]. done.
Qed.

Lemma skeleton_running X ds r r' a d : skeleton (NRouter r) = skeleton (NRouter r') →
  running X ds r a d → running X ds r' a d.
Proof. intros [= Hrt Hn Hd Hid Hx]. unfold running, started, start_commands. by rewrite Hid. Qed.

Lemma skeletons_sym t t' a r : skeletons t' = skeletons t → (a, NRouter r) ∈ ht_elems (t_nodes t) →
  ∃ r', (a, NRouter r') ∈ ht_elems (t_nodes t') ∧ skeleton (NRouter r') = skeleton (NRouter r).
Proof.
  intros Hs Hin. destruct (skeletons_in t' t a (NRouter r)) as (n & Hn & Hsk); [done..|].
  destruct (skeleton_router n r Hsk) as [r' ->]. eauto.
Qed.

(** The names the set-up reads are those of the routers. *)
Lemma router_names t : topo_reachable t →
  (λ rn, name_at t (rn_rt rn.2)) <$> ht_elems (t_routers t) = omap router_title (ht_elems (t_nodes t)).
Proof.
  intros Hr. destruct (topo_reachable_ok _ Hr) as [W _]. destruct (reachable_tables _ Hr) as (_ & _ & _ & Ht).
  rewrite (list_fmap_compose (λ rn : addr * router_node, rn_rt rn.2) (name_at t)), Ht.
  assert (∀ a r, (a, NRouter r) ∈ ht_elems (t_nodes t) → name_at t a = c_string (router_name r)) as Hname.
  { intros a r Hin. apply router_at_in in Hin; [|apply W]. unfold name_at. by rewrite Hin. }
  clear Ht. revert Hname. generalize (ht_elems (t_nodes t)).
  induction l as [|[a n] l IH]; intros Hname; [done|].
  assert (name_at t <$> omap router_addr l = omap router_title l) as IH'.
  { apply IH. intros b r Hb. apply Hname. by right. }
  cbn. destruct n as [dp|h|r]; cbn; [done..|]. rewrite IH'. f_equal. apply Hname. by left.
Qed.

(** An entry of the table of routers, in a topology that was renamed. *)
Lemma router_entry t t' rn : topo_reachable t → ht_wf (t_nodes t') → skeletons t' = skeletons t →
  rn ∈ ht_elems (t_routers t) →
  ∃ r r', (rn_rt rn.2, NRouter r) ∈ ht_elems (t_nodes t) ∧ router_at t' (rn_rt rn.2) = Ok r' ∧
    skeleton (NRouter r) = skeleton (NRouter r').
Proof.
  intros Hr Hw Hs Hin. destruct (reachable_tables _ Hr) as (_ & _ & _ & Ht).
  assert (rn_rt rn.2 ∈ omap router_addr (ht_elems (t_nodes t))) as Ha.
  { rewrite <- Ht. apply list_elem_of_fmap. by exists rn. }
  apply list_elem_of_omap in Ha as ([a n] & Hn & Hnr). unfold router_addr in Hnr. cbn in Hnr.
  destruct n as [dp|h|r]; try done. injection Hnr as ->.
  destruct (skeletons_sym _ _ _ _ Hs Hn) as (r' & Hn' & Hsk). exists r, r'. split; [done|].
  split; [by apply router_at_in|done].
Qed.

(** The state after the set-up. *)
Lemma setup_routers_ok s s' :
  topo_reachable (sy_topo s) → 0 ≤ unix_socket →
  (∀ a r, (a, NRouter r) ∈ ht_elems (t_nodes (sy_topo s)) → ∃ da d, emulated (sy_daemons s) r da d) →
  (∀ a r a' r', (a, NRouter r) ∈ ht_elems (t_nodes (sy_topo s)) →
     (a', NRouter r') ∈ ht_elems (t_nodes (sy_topo s)) → r_daemon r = r_daemon r' → a = a') →
  setup_routers s = Ok s' →
  ∃ s1 s2 cmds, renames s1 s2 ∧ sy_topo s1 = sy_topo s ∧ sy_topo s' = sy_topo s2 ∧
    sy_log s' = sy_log s ++ cmds ∧ omap netns_asked cmds = omap router_title (ht_elems (t_nodes (sy_topo s))) ∧
    ∀ a r da d, (a, NRouter r) ∈ ht_elems (t_nodes (sy_topo s)) → emulated (sy_daemons s) r da d →
      running cmds (sy_daemons s') r da d.
Proof.
  intros Hr Hsock Hem Hdis E. destruct (topo_reachable_ok _ Hr) as [W _].
  destruct (reachable_tables _ Hr) as (_ & _ & _ & Htab). unfold setup_routers in E.
  apply outcome_bind_Ok in E as (s1 & E1 & E). apply outcome_bind_Ok in E as (st & E2 & E3).
  apply start_routers_adds in E1 as (T1 & D1 & X & L1 & N1). rewrite router_names in N1 by done.
  apply links_loop_renames in E2 as Hren; [|cbn [fst]; rewrite T1; apply W]. cbn [fst] in Hren.
  destruct Hren as [W2 S2 T2 D2 (Y & L2 & Q2)] eqn:Eren. clear Eren. set (s2 := st.1) in *.
  rewrite T1 in S2, T2. injection T2 as _ _ TR _.
  apply start_daemons_run in E3 as (T3 & _ & Z & L3 & Q3 & Hrun); [|done|..].
  - exists s1, s2, (X ++ Y ++ Z). split; [exact Hren|]. split_and!; [done|done| | |].
    + rewrite L3, L2, L1. by rewrite !app_assoc.
    + by rewrite !omap_app, N1, (omap_none _ Y), (omap_none _ Z), !app_nil_r by done.
    + intros a r da d Hin He. destruct (skeletons_sym _ _ _ _ S2 Hin) as (r' & Hin' & Hsk).
      apply (skeleton_running _ _ r'); [done|].
      assert (a ∈ omap router_addr (ht_elems (t_nodes (sy_topo s)))) as Ha.
      { apply list_elem_of_omap. by exists (a, NRouter r). }
      rewrite <- Htab, <- TR in Ha. apply list_elem_of_fmap in Ha as (rn & -> & Hrn).
      assert (running Z (sy_daemons s') r' da d) as [? Hc].
      { apply (Hrun rn); [done|by apply router_at_in|]. rewrite D2, D1.
        apply (skeleton_emulated _ r); [by symmetry|done]. }
      split; [done|]. intros c Hx. rewrite !elem_of_app. right; right. by apply Hc.
  - intros rn r' Hrn Hr'. rewrite TR in Hrn.
    destruct (router_entry _ _ _ Hr W2 S2 Hrn) as (r & r2 & Hin & Hr2 & Hsk). assert (r2 = r') as -> by congruence.
    destruct (Hem _ _ Hin) as (a & d & He). exists a, d. rewrite D2, D1. by apply (skeleton_emulated _ r).
  - rewrite TR. apply (NoDup_fmap_finer _ (λ rn, rn_rt rn.2)).
    + rewrite Htab. apply NoDup_router_addrs, ht_addrs_NoDup, W.
    + intros x y Hx Hy. destruct (router_entry _ _ _ Hr W2 S2 Hx) as (rx & rx' & Hinx & -> & [= _ _ Dx _ _]).
      destruct (router_entry _ _ _ Hr W2 S2 Hy) as (ry & ry' & Hiny & -> & [= _ _ Dy _ _]).
      cbn. intros [= Hd]. apply (Hdis _ rx _ ry); congruence.
Qed.

(** C20. An emulated control plane is taken down.  In a topology built of nodes and of undirected
    links between different ports that were free, with routing tables filled by insertions, let
    every router have a Quagga daemon of its own, with a zebra configuration, let names fit
    their arrays and let the call that opens zebra's socket succeed.  When the set-up of such routers
    ends without a fault, destroying the topology succeeds and deletes the name spaces that the set-up asked for, once
    each and in the same order, whether or not the system granted them; so each
    name space that was added is deleted.  Every configured daemon was started with a file for
    its process identifier, and is killed through that file unless it is isisd, which is left
    running; every helper is killed through its own file. *)
Theorem emulation_cleans_up k s s' :
  topo_reachable (sy_topo s) → 0 ≤ unix_socket →
  (∀ a n rt, (a, n) ∈ ht_elems (t_nodes (sy_topo s)) → net_rt n = Some rt → rt_counted rt) →
  (∀ a r, (a, NRouter r) ∈ ht_elems (t_nodes (sy_topo s)) → ∃ da d, emulated (sy_daemons s) r da d) →
  (∀ a r a' r', (a, NRouter r) ∈ ht_elems (t_nodes (sy_topo s)) →
     (a', NRouter r') ∈ ht_elems (t_nodes (sy_topo s)) → r_daemon r = r_daemon r' → a = a') →
  setup_routers s = Ok s' →
  ∃ cmds td, sy_log s' = sy_log s ++ cmds ∧
    topology_destroy k (sy_daemons s') (sy_topo s') = Ok td ∧
    omap netns_deleted (td_cmds td) = omap netns_asked cmds ∧
    (∀ n, NetnsAdd n true ∈ cmds → NetnsDelete n ∈ td_cmds td) ∧
    ∀ a r da d, (a, NRouter r) ∈ ht_elems (t_nodes (sy_topo s)) → emulated (sy_daemons s) r da d →
      (∀ p, p ∈ configured (qd_config d) →
         daemon_command d p.1 p.2 (socket_file d) (start_file d p.1) ∈ cmds ∧
         (kill_command (start_file d p.1) ∈ td_cmds td ↔ p.1 ≠ lit "isisd")) ∧
      kill_command (helper_pid_file r) ∈ td_cmds td.
Proof.
  intros Hr Hsock Hct Hem Hdis E. destruct (topo_reachable_ok _ Hr) as [W _].
  destruct (reachable_tables _ Hr) as (Wd & Wr & Wh & _).
  destruct (setup_routers_ok _ _ Hr Hsock Hem Hdis E) as (s1 & s2 & cmds & [W2 S2 T2 _ _] & T1 & T3 & L & N & Hrun).
  rewrite T1 in S2, T2. injection T2 as TL TD TR TH. rewrite T3.
  assert (∀ a r, (a, NRouter r) ∈ ht_elems (t_nodes (sy_topo s2)) →
    ∃ r0 da d, (a, NRouter r0) ∈ ht_elems (t_nodes (sy_topo s)) ∧ skeleton (NRouter r0) = skeleton (NRouter r) ∧
      emulated (sy_daemons s) r da d ∧ sy_daemons s' !! da = Some (QUAGGA (started r d))) as Hall.
  { intros a r Hin. destruct (skeletons_in _ _ _ _ S2 Hin) as (n & Hn & Hsk).
    destruct (skeleton_router n r Hsk) as [r0 ->]. destruct (Hem _ _ Hn) as (da & d & He).
    exists r0, da, d. split_and!; [done|done|by apply (skeleton_emulated _ r0)|].
    by destruct (skeleton_running _ _ _ _ _ _ Hsk (Hrun _ _ _ _ Hn He)). }
  destruct (topology_destroy_ok k (sy_daemons s') (sy_topo s2))
    as (td & Etd & _ & _ & _ & _ & _ & _ & _ & _ & Hcmds & _); [done|by rewrite TL; apply W|by rewrite TD|by rewrite TR|by rewrite TH| |].
  { intros a n Hin. split.
    - intros rt Hrt. destruct (skeletons_in _ _ _ _ S2 Hin) as (m & Hm & Hsk). apply (Hct a m rt Hm).
      rewrite <- Hrt. exact (f_equal fst Hsk).
    - intros r ->. destruct (Hall a r Hin) as (_ & da & d & _ & _ & He & Hd). split; [apply He|].
      exists da, (QUAGGA (started r d)). split; [apply He|done]. }
  assert (omap netns_deleted (td_cmds td) = omap netns_asked cmds) as Hns.
  { rewrite Hcmds, stop_all_deletes, N; [by apply skeleton_titles|].
    intros a r Hin. destruct (Hall a r Hin) as (_ & da & d & _ & _ & He & Hd). eauto. }
  exists cmds, td. split_and!; [done..| |].
  { intros n Hin. by apply netns_deleted_in; rewrite Hns; apply netns_asked_in with (b := true). }
  intros a r da d Hin He. destruct (Hrun _ _ _ _ Hin He) as [_ Hstart].
  destruct (skeletons_sym _ _ _ _ S2 Hin) as (r' & Hin' & Hsk). symmetry in Hsk.
  destruct (skeleton_running _ _ _ _ _ _ Hsk (Hrun _ _ _ _ Hin He)) as [Hd _].
  destruct (stop_deletes _ _ _ _ _ (skeleton_emulated _ _ _ _ _ Hsk He) Hd) as (_ & Hk & Hh).
  assert (∀ c, c ∈ stop_commands (sy_daemons s') (NRouter r') → c ∈ td_cmds td) as Hsub.
  { intros c Hc. rewrite Hcmds. apply list_elem_of_bind. exists (NRouter r'). split; [done|].
    apply list_elem_of_fmap. by exists (a, NRouter r'). }
  split.
  - intros p Hp. split; [|split; [|by intros Hi; apply Hsub, Hk]].
    + apply Hstart, elem_of_app. left. apply list_elem_of_fmap. by exists p.
    + intros Hin2 Hi. rewrite (start_file_isisd d p.1 Hi), Hcmds in Hin2.
      apply list_elem_of_bind in Hin2 as (n & Hc & ([b m] & -> & Hn)%list_elem_of_fmap).
      cbn [snd] in Hc. destruct m as [dp|h|r2]; [by apply elem_of_nil in Hc..|].
      destruct (Hall b r2 Hn) as (_ & da2 & d2 & _ & _ & He2 & Hd2). by apply (stop_spares _ _ _ _ _ _ He2 Hd2) in Hc.
  - apply Hsub. injection Hsk as _ _ _ Hid _. unfold helper_pid_file in *. by rewrite Hid.
Qed.
End stop.

(** ** Witness: two linked routers *)

Definition sample_daemon (name : string) : quagga_daemon :=
  set_quagga_daemon_bgpd_file
    (set_quagga_daemon_zebra_file (quagga_daemon_new (lit name)) (lit "/etc/z.conf")) (lit "/etc/b.conf").
Definition sample_pair : list (addr * router) :=
  [(8%nat, router_set_quagga_daemon (sample_emulated 0 "r1" 0x0a000001) 8);
   (9%nat, router_set_quagga_daemon (sample_emulated 1 "r2" 0x0a000002) 9)].
Definition sample_routers : topology :=
  topology_add_router (topology_add_router topology_new 8 (router_set_quagga_daemon (sample_emulated 0 "r1" 0x0a000001) 8))
    9 (router_set_quagga_daemon (sample_emulated 1 "r2" 0x0a000002) 9).
Definition sample_routers_linked : topology := topology_add_link sample_routers 1 2 1 1 100 5 false.
Definition sample_system : sys :=
  Sys sample_routers_linked
    {[ 8%nat := QUAGGA (sample_daemon "r1"); 9%nat := QUAGGA (sample_daemon "r2") ]} (InternalBytes 0 0) [].

Lemma sample_routers_reachable : topo_reachable sample_routers.
Proof.
  apply topo_router; [apply topo_router; [apply topo_new|]|].
  - split; [|split]; [by vm_compute; split|reflexivity|apply not_elem_of_nil].
  - split; [|split]; [by vm_compute; split|vm_compute; reflexivity|].
    rewrite <-(bool_decide_eq_false _). vm_compute. reflexivity.
Qed.
Lemma sample_system_reachable : topo_reachable sample_routers_linked.
Proof.
  apply (topo_link sample_routers (NodePort 1 1) (NodePort 2 1) 100 5 sample_routers_reachable).
  - split; split; done.
  - split; split; done.
  - discriminate.
  - vm_compute. reflexivity.
  - vm_compute. reflexivity.
Qed.

Lemma sample_system_nodes :
  ht_elems (t_nodes sample_routers_linked) = (λ ar, (ar.1, NRouter ar.2)) <$> sample_pair.
Proof. vm_compute. reflexivity. Qed.

Lemma sample_pair_blank ar : ar ∈ sample_pair → ln_rt (r_ln ar.2) = blank_rt.
Proof.
  intros Hin. apply elem_of_cons in Hin as [->|Hin]; [exact eq_refl|].
  apply elem_of_cons in Hin as [->|Hin]; [exact eq_refl|]. destruct (not_elem_of_nil _ Hin).
Qed.

Lemma sample_system_emulated ar : ar ∈ sample_pair →
  ∃ d, emulated (sy_daemons sample_system) ar.2 ar.1 d.
Proof.
  intros [->|[->|Hn]%elem_of_cons]%elem_of_cons; [exists (sample_daemon "r1")|exists (sample_daemon "r2")|destruct (not_elem_of_nil _ Hn)];
    (split; [reflexivity|reflexivity|apply Nat.ltb_lt; reflexivity|split; done
            |apply Nat.ltb_lt; vm_compute; reflexivity|discriminate]).
Qed.

Lemma sample_system_in a n : (a, n) ∈ ht_elems (t_nodes (sy_topo sample_system)) →
  ∃ ar, ar ∈ sample_pair ∧ a = ar.1 ∧ n = NRouter ar.2.
Proof.
  change (sy_topo sample_system) with sample_routers_linked. rewrite sample_system_nodes.
  intros (ar & E & Har)%list_elem_of_fmap. exists ar. split; [exact Har|].
  split; [exact (f_equal fst E)|exact (f_equal snd E)].
Qed.
Lemma sample_system_counted a n rt : (a, n) ∈ ht_elems (t_nodes (sy_topo sample_system)) →
  net_rt n = Some rt → rt_counted rt.
Proof.
  intros (ar & Har & _ & ->)%sample_system_in. cbn [net_rt]. rewrite (sample_pair_blank ar Har).
  intros [= <-]. exact (route_table_init_counted blank_rt route_table_init_eq).
Qed.
Lemma sample_system_routers a r : (a, NRouter r) ∈ ht_elems (t_nodes (sy_topo sample_system)) →
  ∃ d, emulated (sy_daemons sample_system) r a d.
Proof. intros (ar & Har & -> & [= ->])%sample_system_in. exact (sample_system_emulated ar Har). Qed.
Lemma sample_system_ok :
  ∃ s', @setup_routers sample_os sample_system = Ok s'.
Proof.
  assert ((s ← @setup_routers sample_os sample_system; Ok (omap netns_asked (sy_log s))) = Ok [lit "r1"; lit "r2"])
    as Hok by (vm_compute; reflexivity).
  apply outcome_bind_Ok in Hok as (s' & E & _). exists s'. exact E.
Qed.

Lemma emulation_cleans_up_witness :
  ∃ s' td, @setup_routers sample_os sample_system = Ok s' ∧
    topology_destroy 4 (sy_daemons s') (sy_topo s') = Ok td ∧
    omap netns_deleted (td_cmds td) = omap netns_asked (sy_log s').
Proof.
  destruct sample_system_ok as [s' E].
  destruct (@emulation_cleans_up sample_os 4 sample_system s' sample_system_reachable) as (cmds & td & L & H1 & H2 & _).
  - discriminate.
  - exact sample_system_counted.
  - intros a r Hin. exists a. exact (sample_system_routers a r Hin).
  - intros a r a' r' Hin Hin'. destruct (sample_system_routers a r Hin) as [d He].
    destruct (sample_system_routers a' r' Hin') as [d' He'].
    rewrite (em_daemon _ _ _ _ He), (em_daemon _ _ _ _ He'). intros [= ->]. reflexivity.
  - exact E.
  - exists s', td. split; [exact E|]. split; [exact H1|]. rewrite H2, L. exact eq_refl.
Defined.
