(* ===== verification/Main.v ===== *)
(** * Main: the program and the files it reads

    Models [src/main.c], [file_to_string] and the allocation wrappers of
    [lib/util.c], and [lib/signal_handler.c].  A stream is what the calls on it
    answer; [malloc] and the file system are parameters; [getopt] is the sequence of the
    options it gives, each with the argument that follows it; what [main] does is the
    list of its actions, of which [start] is the rest of this development.

    Theorems: a file is read whole with a terminating zero or the process is aborted, and
    nothing is written outside the block; the program starts a simulation of the network that
    the parser finds in its file, with exactly its datapaths - and of an empty network, without
    complaint, when the file cannot be opened; the handler of child processes leaves none
    behind. *)

From Stdlib Require Import Ascii.
From stdpp Require Import strings prelude gmap sorting.
From S2P Require Import Prelude Util Uthash Packet Node Datapath Topology JsonTopology HorseDaemon.

(** ** util.c *)

Section memory.
Context (malloc : nat → option (list Z)) (realloc : list Z → nat → option (list Z)).

(** The block with its contents. *)
Definition xmalloc (size : nat) : outcome (list Z) :=
  match malloc (if decide (size = 0)%nat then 1%nat else size) with
  | None => Fault Aborted
  | Some v => Ok v
  end.
Definition xrealloc (v : list Z) (size : nat) : outcome (list Z) :=
  match realloc v (if decide (size = 0)%nat then 1%nat else size) with
  | None => Fault Aborted
  | Some v => Ok v
  end.

(** Whether the two calls of [fseek] succeed, what [ftell] gives, and the bytes that
    [fread] can deliver. *)
Record stdio := Stdio {
  io_seek_end : bool; io_tell : Z; io_seek_set : bool; io_data : list Z }.

Definition SIZE_MAX : Z := 2 ^ 64 - 1.

(** The block and the size; [None] when the file cannot be opened. *)
Definition file_to_string (fh : option stdio) : outcome (option (list Z * Z)) :=
  match fh with
  | None => Ok None
  | Some fh =>
      if negb (io_seek_end fh) then Fault Aborted
      else
        let len := io_tell fh in
        if (len <? 0) || negb (io_seek_set fh) then Fault Aborted
        else if SIZE_MAX <=? u64 len then Fault Aborted
        else
          let count := Z.to_nat len in
          contents ← xmalloc (count + 1);
          let bytes := take count (io_data fh) in
          contents ← mem_write contents 0 bytes;
          if negb (length bytes =? count)%nat then Fault Aborted
          else
            contents ← array_set contents (Z.of_nat count) 0;
            Ok (Some (contents, len))
  end.

(** ** main.c *)

Context (fopen : list Z → option stdio) (json_parse_ex : string → option json_value).

Definition text_of (bytes : list Z) : string :=
  foldr (λ c s, String (ascii_of_nat (Z.to_nat c)) s) EmptyString bytes.

(** [from_json]: the parser gets the block and the size. *)
Definition from_json_file (current_uuid : Z) (name : list Z) : outcome (Z * topology) :=
  json ← file_to_string (fopen name);
  from_json json_parse_ex current_uuid ((λ x, text_of (take (Z.to_nat x.2) x.1)) <$> json).

Definition OPT_h : Z := 104.
Definition OPT_t : Z := 116.
Definition OPT_unknown : Z := 63.

(** What the loop over the options does, in order, and the status it returns if every
    [start] returns; [start] exits with status 1 when the switches do not connect
    ([Teardown.wait_all_switches_connect]). *)
Inductive main_action := DisplayHorse | DisplayHelp | Start (topo : topology).

Fixpoint horse_main (current_uuid : Z) (opts : list (Z * option (list Z)))
  : outcome (list main_action * Z) :=
  match opts with
  | [] => Ok ([], 0)
  | (c, arg) :: opts =>
      if c =? OPT_h then
        r ← horse_main current_uuid opts;
        Ok (DisplayHorse :: DisplayHelp :: r.1, r.2)
      else if c =? OPT_t then
        name ← deref arg;
        t ← from_json_file current_uuid name;
        r ← horse_main t.1 opts;
        Ok (Start t.2 :: r.1, r.2)
      else if c =? OPT_unknown then Ok ([], 1)
      else Ok ([DisplayHelp], EXIT_FAILURE)
  end.
End memory.

(** ** signal_handler.c *)

(** Children that have ended and those that run; [waitpid] with [WNOHANG] takes one of
    the first, or gives 0, or fails when there is no child at all. *)
Record children := Children { ch_ended : list Z; ch_running : list Z }.
Definition ECHILD : Z := 10.
Definition waitpid (errno : Z) (c : children) : Z * Z * children :=
  match ch_ended c, ch_running c with
  | p :: ended, running => (p, errno, Children ended running)
  | [], _ :: _ => (0, errno, c)
  | [], [] => (-1, ECHILD, c)
  end.

Fixpoint reap_loop (fuel : nat) (errno : Z) (c : children) : outcome children :=
  match fuel with
  | O => Fault OutOfFuel
  | S fuel =>
      let '(r, errno, c) := waitpid errno c in
      if 0 <? r then reap_loop fuel errno c else Ok c
  end.
(** The value of [errno] is put back. *)
Definition handle_sigchld (errno : Z) (c : children) : outcome (Z * children) :=
  let saved_errno := errno in
  c ← reap_loop (S (length (ch_ended c))) errno c;
  Ok (saved_errno, c).

(** Every child that has ended is waited for, in one run of the handler, and the code
    that was interrupted sees its [errno] unchanged. *)
Theorem sigchld_reaps errno c : Forall (λ p, 0 < p) (ch_ended c) →
  handle_sigchld errno c = Ok (errno, Children [] (ch_running c)).
Proof.
  intros Hp. unfold handle_sigchld. destruct c as [ended run]. cbn [ch_ended ch_running] in *.
  assert (∀ e, reap_loop (S (length ended)) e (Children ended run) = Ok (Children [] run)) as H; [|by rewrite H].
  induction Hp as [|p ended Hp _ IH]; intros e; cbn [length reap_loop].
  - by destruct run.
  - cbn [waitpid ch_ended ch_running]. rewrite (proj2 (Z.ltb_lt _ _) Hp). apply IH.
Qed.

(** ** Files *)

(** [malloc] gives a block of the size it was asked for. *)
Definition malloc_sized (malloc : nat → option (list Z)) : Prop :=
  ∀ n, ∃ v, malloc n = Some v ∧ length v = n.
(** The calls succeed and the stream delivers the bytes it said it has. *)
Definition readable (f : stdio) : bool :=
  io_seek_end f && (0 <=? io_tell f) && io_seek_set f &&
  (Z.to_nat (io_tell f) <=? length (io_data f))%nat.

Lemma file_to_string_spec malloc f : malloc_sized malloc → io_tell f < 2 ^ 63 →
  file_to_string malloc (Some f) =
  if readable f then Ok (Some (take (Z.to_nat (io_tell f)) (io_data f) ++ [0], io_tell f))
  else Fault Aborted.
Proof.
  intros Hm Ht. unfold file_to_string, readable. destruct (io_seek_end f); [|done]. cbn [negb andb].
  destruct (Z.leb_spec 0 (io_tell f)) as [H0|H0], (Z.ltb_spec (io_tell f) 0); try lia; [|done].
  cbn [orb andb]. destruct (io_seek_set f); [|done]. cbn [negb].
  rewrite (proj2 (Z.leb_gt _ _)) by (unfold SIZE_MAX, u64, wrap; rewrite Z.mod_small; lia).
  set (count := Z.to_nat (io_tell f)). set (bytes := take count (io_data f)).
  assert (length bytes = count `min` length (io_data f))%nat as Hb by apply length_take.
  unfold xmalloc. rewrite decide_False by lia. destruct (Hm (count + 1)%nat) as (v & -> & Hv).
  cbn [mbind outcome_bind]. unfold mem_write. rewrite decide_True by lia.
  rewrite take_0, app_nil_l. cbn [mbind outcome_bind Nat.add].
  destruct (Nat.leb_spec count (length (io_data f))) as [Hl|Hl], (Nat.eqb_spec (length bytes) count);
    try lia; [|done]. cbn [negb]. unfold array_set.
  rewrite decide_True by (rewrite length_app, length_drop; lia).
  cbn [mbind outcome_bind]. do 3 f_equal. rewrite Nat2Z.id.
  rewrite insert_app_r_alt by lia. f_equal. replace (count - length bytes)%nat with 0%nat by lia.
  assert (length (drop (length bytes) v) = 1%nat) as H1 by (rewrite length_drop; lia).
  destruct (drop (length bytes) v) as [|x [|]]; done.
Qed.

(** C40. A file is read whole or the process is aborted: when memory is at hand, a file that
    cannot be opened gives no text, one whose calls fail or that is shorter than it said
    aborts the process, and any other gives exactly its bytes with a terminating zero
    in a block that is one byte larger; nothing is written outside the block. *)
Theorem file_to_string_exact malloc fh :
  malloc_sized malloc → (∀ f, fh = Some f → io_tell f < 2 ^ 63) →
  file_to_string malloc fh =
  match fh with
  | None => Ok None
  | Some f =>
      if readable f then Ok (Some (take (Z.to_nat (io_tell f)) (io_data f) ++ [0], io_tell f))
      else Fault Aborted
  end.
Proof. intros Hm Ht. destruct fh as [f|]; [|done]. by apply file_to_string_spec, Ht. Qed.

(** ** The network of a file *)

Definition dp_ids (t : topology) : list Z := (λ x, dn_dp_id x.2) <$> ht_elems (t_dps t).

Lemma ptopo_datapath_ok st dpid : ht_wf (t_dps st.2) →
  ∃ st', ptopo_datapath st dpid = Ok st' ∧ ht_wf (t_dps st'.2) ∧
    dp_ids st'.2 = dp_ids st.2 ++ [dpid] ∧ t_n_dps st'.2 = u32 (t_n_dps st.2 + 1).
Proof.
  intros Hw. unfold ptopo_datapath. destruct (dp_new st.1 dpid) as [uuid dp] eqn:Ed.
  assert (dp_id dp = dpid ∧ Node.node_wf (dp_base dp) ∧ n_ports (dp_base dp) = None) as (Hid & Hn & Hp).
  { unfold dp_new in Ed. pose proof (node_init_wf st.1 DATAPATH) as Hn.
    destruct (node_init st.1 DATAPATH) as [u b] eqn:Eb. injection Ed as <- <-.
    split_and!; [done|exact Hn|]. unfold node_init in Eb. by injection Eb as <- <-. }
  unfold dp_add_port. set (mac := [0; 0; 0; 0; 0; 1]).
  destruct (node_add_port_spec (dp_base dp) 1 1 mac 1000000 1000000) as (b1 & E1 & W1 & P1); [done|..].
  { rewrite Hp. apply not_elem_of_nil. }
  { done. }
  { unfold node_port. by rewrite Hp. }
  rewrite E1. cbn [mbind outcome_bind].
  destruct (node_add_port_spec b1 2 2 mac 1000000 1000000) as (b2 & E2 & W2 & P2); [done|..].
  { unfold ht_addrs. rewrite P1, Hp. cbn. set_solver. }
  { done. }
  { apply HASH_FIND_None; [apply W1|]. intros a v. rewrite P1, Hp.
    intros [= -> ->]%list_elem_of_singleton. done. }
  match goal with |- context [node_add_port ?b] => change b with b1 end.
  rewrite E2. cbn [mbind outcome_bind]. eexists. split; [reflexivity|].
  destruct (HASH_ADD_spec (fresh_addr (t_dps st.2))
    (DpNode dpid (fresh_addr (t_nodes st.2))) (t_dps st.2) Hw (fresh_addr_not_in _)) as [Hw' He].
  cbn [snd topology_add_datapath]. unfold dp_ids.
  cbn [t_dps t_n_dps setf]. rewrite <-Hid in *.
  split_and!; [exact Hw'| |done].
  etransitivity; [apply (f_equal (fmap (λ x : addr * dp_node, dn_dp_id x.2))); exact He|by rewrite fmap_app].
Qed.

Lemma ptopo_datapaths_ok dps st : ht_wf (t_dps st.2) → t_n_dps st.2 = u32 (Z.of_nat (length (dp_ids st.2))) →
  ∃ st', ptopo_datapaths st dps = Ok st' ∧ ht_wf (t_dps st'.2) ∧
    dp_ids st'.2 = dp_ids st.2 ++ dps ∧ t_n_dps st'.2 = u32 (Z.of_nat (length (dp_ids st'.2))).
Proof.
  revert st. induction dps as [|dpid dps IH]; intros st Hw Hn; cbn [ptopo_datapaths].
  { exists st. by rewrite (app_nil_r (dp_ids st.2)). }
  destruct (ptopo_datapath_ok st dpid Hw) as (st1 & -> & W1 & D1 & N1). cbn [mbind outcome_bind].
  destruct (IH st1 W1) as (st2 & E & W2 & D2 & N2).
  { rewrite N1, Hn, D1, length_app, Nat2Z.inj_add. unfold u32, wrap. apply Zplus_mod_idemp_l. }
  exists st2. rewrite D2, D1, <-(assoc_L (++)) in *. by split_and!.
Qed.

(** Links leave the datapaths as they are. *)
Lemma add_link_dps t uA uB pA pB bw lat d :
  t_dps (topology_add_link t uA uB pA pB bw lat d) = t_dps t ∧
  t_n_dps (topology_add_link t uA uB pA pB bw lat d) = t_n_dps t.
Proof.
  unfold topology_add_link, insert_link.
  repeat (destruct (topology_node _ _) as [[]|]; try done); destruct d; try done;
    repeat (destruct (topology_node _ _) as [[]|]; try done).
Qed.

Lemma dps_by_id t id : ht_wf (t_dps t) → Forall (in_width 64) (dp_ids t) → in_width 64 id →
  topology_datapath_by_dpid t id ≠ None ↔ id ∈ dp_ids t.
Proof.
  intros Hw Hf Hi. unfold topology_datapath_by_dpid, dp_ids. rewrite list_elem_of_fmap.
  destruct (HASH_FIND (le_bytes 8 id) (t_dps t)) as [[a d]|] eqn:E; cbn [fmap option_fmap option_map].
  - split; [intros _|done]. apply HASH_FIND_Some in E as [Hin Hk]; [|done].
    exists (a, d). split; [|done]. symmetry. apply (le_bytes_inj_width 8); [|done|exact Hk].
    rewrite Forall_forall in Hf. apply Hf, list_elem_of_fmap. by exists (a, d).
  - rewrite HASH_FIND_None in E by done. split; [done|]. intros ([a d] & -> & Hin).
    by destruct (E a d Hin).
Qed.

Lemma from_ptopo_ok uuid dps links : Forall (in_width 64) dps → Z.of_nat (length dps) ≤ DP_LIMIT →
  ∃ st, topology_from_ptopo uuid topology_new (ParsedTopology dps links) = Ok st ∧
    t_n_dps st.2 = Z.of_nat (length dps) ∧
    ∀ id, in_width 64 id → topology_datapath_by_dpid st.2 id ≠ None ↔ id ∈ dps.
Proof.
  intros Hd Hl. unfold topology_from_ptopo. cbn [pt_dps pt_links].
  destruct (ptopo_datapaths_ok dps (uuid, topology_new)) as (st & -> & W & D & N); [done..|].
  cbn [mbind outcome_bind]. eexists. split; [reflexivity|]. cbn [snd].
  set (t := foldl _ _ _). assert (t_dps t = t_dps st.2 ∧ t_n_dps t = t_n_dps st.2) as [Ed En].
  { unfold t. clear. generalize st.2. induction links as [|l links IH]; intros t0; [done|].
    cbn [foldl]. destruct (IH (topology_add_link t0 (ls_switchX l) (ls_switchY l) (ls_portX l)
      (ls_portY l) (ls_delay l) (ls_bw l) false)) as [-> ->]. apply add_link_dps. }
  assert (dp_ids t = dps) as Hids by (unfold dp_ids; rewrite Ed; exact D).
  split.
  - rewrite En, N, D. apply wrap_small. unfold in_width, DP_LIMIT in *. cbn. lia.
  - intros id Hi. rewrite <-Hids. apply dps_by_id; [by rewrite Ed|by rewrite Hids|done].
Qed.

(** The text of a readable file reaches the parser whole. *)
Lemma from_json_file_ok malloc fopen json_parse_ex uuid name f :
  malloc_sized malloc → fopen name = Some f → readable f = true →
  io_tell f = Z.of_nat (length (io_data f)) → io_tell f < 2 ^ 63 →
  from_json_file malloc fopen json_parse_ex uuid name =
  from_json json_parse_ex uuid (Some (text_of (io_data f))).
Proof.
  intros Hm Hf Hr Hl Ht. unfold from_json_file. rewrite Hf, file_to_string_spec, Hr by done.
  cbn [mbind outcome_bind fmap option_fmap option_map fst snd].
  rewrite Hl, Nat2Z.id, firstn_all, take_app_length. done.
Qed.

(** [horse -t file] starts a simulation of the network whose description the parser finds in
    the file: a topology that counts and finds by id exactly the datapaths of the
    description.  When the file cannot be opened the network is empty. *)
Theorem horse_starts_network malloc fopen json_parse_ex uuid name dps links :
  malloc_sized malloc →
  (∀ f, fopen name = Some f → readable f = true ∧ io_tell f = Z.of_nat (length (io_data f)) ∧
     io_tell f < 2 ^ 63 ∧ json_parse_ex (text_of (io_data f)) = Some (topology_json dps links)) →
  Forall (in_width 64) dps → Forall link_wf links → Forall (link_known dps) links →
  Z.of_nat (length dps) ≤ DP_LIMIT → Z.of_nat (length links) ≤ LINK_LIMIT →
  ∃ t, horse_main malloc fopen json_parse_ex uuid [(OPT_t, Some name)] = Ok ([Start t], 0) ∧
    if decide (fopen name = None) then t = topology_new
    else t_n_dps t = Z.of_nat (length dps) ∧
         ∀ id, in_width 64 id → topology_datapath_by_dpid t id ≠ None ↔ id ∈ dps.
Proof.
  intros Hm Hf Hd Hw Hk Hnd Hnl. unfold horse_main.
  change (OPT_t =? OPT_h) with false. change (OPT_t =? OPT_t) with true.
  cbn [deref mbind outcome_bind]. destruct (fopen name) as [f|] eqn:Ef.
  - destruct (Hf f eq_refl) as (Hr & Hl & Ht & Hj).
    rewrite (from_json_file_ok malloc fopen json_parse_ex uuid name f) by done.
    unfold from_json. rewrite (parse_document_ok _ _ dps links) by done.
    rewrite decide_True by done. cbn [mbind outcome_bind fst snd].
    destruct (from_ptopo_ok uuid (qsort dps) links) as (st & -> & Hn & Hid).
    { by rewrite qsort_perm. }
    { by rewrite qsort_perm. }
    cbn [mbind outcome_bind fst snd]. exists st.2. split; [done|].
    rewrite decide_False by done. split; [by rewrite Hn, qsort_perm|].
    intros id Hi. by rewrite Hid, qsort_perm.
  - unfold from_json_file. rewrite Ef. cbn [file_to_string from_json mbind outcome_bind fmap
      option_fmap option_map fst snd]. exists topology_new. by rewrite decide_True.
Qed.

(** *** Witnesses *)

Definition sample_malloc (n : nat) : option (list Z) := Some (replicate n 205).
Lemma sample_malloc_sized : malloc_sized sample_malloc.
Proof. intros n. exists (replicate n 205). by rewrite length_replicate. Qed.
Definition sample_stream : stdio := Stdio true 2 true [123; 125].
Lemma file_to_string_exact_witness :
  file_to_string sample_malloc (Some sample_stream) = Ok (Some ([123; 125; 0], 2)) ∧
  file_to_string sample_malloc (Some (Stdio true 3 true [123; 125])) = Fault Aborted.
Proof.
  split.
  - rewrite (file_to_string_exact sample_malloc (Some sample_stream)).
    + reflexivity.
    + exact sample_malloc_sized.
    + intros f [= <-]. reflexivity.
  - rewrite (file_to_string_exact sample_malloc (Some (Stdio true 3 true [123; 125]))).
    + reflexivity.
    + exact sample_malloc_sized.
    + intros f [= <-]. reflexivity.
Defined.

Lemma sigchld_reaps_witness :
  handle_sigchld 4 (Children [100; 101] [102]) = Ok (4, Children [] [102]).
Proof. apply (sigchld_reaps 4 (Children [100; 101] [102])). repeat constructor. Defined.
